(** * Matrix-style Profile Stream

    A shallow embedding of [main.js] and [data/nyc.js], and the properties of
    the text encoder, the profile factory and data source, the column count
    of the rain, and the NYC profile service.

    Conventions of the embedding.
    - A JavaScript Number is the rational value of a finite binary64 float.
      Every arithmetic operation of the source is the exact operation followed
      by [F64.round]: round to nearest, ties to even, with the subnormal
      range. NaN and the infinities are outside the model. The integer fields
      of a profile are integers ([Z]).
    - [Math.random()] reads the next element of an explicit stream of draws
      (numbers in [0, 1) on a real page), [Date.now()] reads a clock.
    - A JavaScript string is a [string], a sequence of 8-bit code units; the
      model is exact on ASCII text.
    - A value that may be [undefined] is an [option].
    - Module state ([CONFIG], [cachedProfiles], [localStorage], the network)
      is one record, the page ([World]), passed explicitly by a monad of
      state and exceptions.

    The first part of the file is the model, the second part its properties. *)

From Stdlib Require Import ZArith QArith Qround Qabs Qpower Lqa Lia.
From Stdlib Require Import String Ascii List.
From Stdlib Require Import PrimFloat Uint63.
From stdpp Require Import base option list gmap strings pretty.

Import ListNotations.

Local Open Scope Z_scope.

(** ** Binary64 rounding on rationals *)

Module F64.

Local Open Scope Q_scope.

(** floor(log2 x) for a positive rational [x]. *)
Definition ilog2 (x : Q) : Z :=
  let k := (Z.log2 (Qnum x) - Z.log2 (Zpos (Qden x)))%Z in
  if Qle_bool (2 ^ k) x then k else (k - 1)%Z.

(** Nearest integer, ties to the even one. *)
Definition rne (q : Q) : Z :=
  let f := Qfloor q in
  match Qcompare (q - inject_Z f) (1 # 2) with
  | Lt => f
  | Gt => (f + 1)%Z
  | Eq => if Z.even f then f else (f + 1)%Z
  end.

(** Exponent of the unit in the last place of the binade of [x]:
    53 significant bits, the smallest subnormal being 2^-1074. *)
Definition ulp_exp (x : Q) : Z := Z.max (ilog2 x - 52) (-1074).

Definition round_pos (x : Q) : Q :=
  let s := ulp_exp x in inject_Z (rne (x / 2 ^ s)) * 2 ^ s.

Definition round (x : Q) : Q :=
  match Qcompare x 0 with
  | Eq => 0
  | Gt => Qred (round_pos x)
  | Lt => Qred (- round_pos (- x))
  end.

(** The four operations of the source language. *)
Definition add (a b : Q) : Q := round (a + b).
Definition sub (a b : Q) : Q := round (a - b).
Definition mul (a b : Q) : Q := round (a * b).
Definition div (a b : Q) : Q := round (a / b).

(** [Math.floor] and [Math.round] (ties go up) on a finite value. *)
Definition floor (x : Q) : Z := Qfloor x.
Definition Math_round (x : Q) : Z := Qfloor (x + (1 # 2)).

End F64.

(** ** Strings and number formatting of the host language *)

Module JS.

Local Open Scope string_scope.

Definition quote_char : ascii := "034"%char.
Definition newline_char : ascii := "010"%char.

(** [String(n)] for an integer-valued Number below 2^53 in magnitude, where
    the host prints the integer's own decimal digits.  From 2^53 up to 10^21
    it prints the shortest digits that round back to the double, followed by
    zeros ([Number_toString] below). *)
Definition Z_toString (n : Z) : string := pretty n.

Definition chars (s : string) : list ascii := list_ascii_of_string s.
Definition of_chars (l : list ascii) : string := string_of_list_ascii l.

Definition repeat_char (c : ascii) (n : nat) : string := of_chars (repeat c n).

(** [o || d] on strings. *)
Definition or_string (o : option string) (d : string) : string :=
  match o with
  | Some s => if String.eqb s "" then d else s
  | None => d
  end.

(** A value of type string-or-undefined inside a template literal. *)
Definition template (o : option string) : string :=
  match o with
  | Some s => s
  | None => "undefined"
  end.

(** [s.indexOf(k)]: the first offset of [k] in [s], or -1. *)
Definition indexOf (s k : string) : Z :=
  match index 0 k s with
  | Some i => Z.of_nat i
  | None => (-1)%Z
  end.

(** [s.slice(-n)]: the last [n] code units. *)
Definition slice_last (n : nat) (s : string) : string :=
  let len := String.length s in substring (len - n) n s.

(** [s.slice(a, b)] for constant 0 <= a <= b. *)
Definition slice (a b : nat) (s : string) : string := substring a (b - a) s.

(** [s.replace(/[^...]/g, '')] for a character class given as a predicate:
    keep the characters that satisfy [keep]. *)
Definition keep_chars (keep : ascii -> bool) (s : string) : string :=
  of_chars (filter (fun c => keep c = true) (chars s)).

(** [s.replace(/c/g, r)] for a single character [c]. *)
Definition replace_char (c : ascii) (r : string) (s : string) : string :=
  String.concat "" (map (fun x => if Ascii.eqb x c then r else String x "") (chars s)).

Definition in_range (lo hi c : ascii) : bool :=
  (N_of_ascii lo <=? N_of_ascii c)%N && (N_of_ascii c <=? N_of_ascii hi)%N.

Definition is_digit (c : ascii) : bool := in_range "0" "9" c.

Definition is_hex (c : ascii) : bool :=
  in_range "a" "f" c || in_range "A" "F" c || in_range "0" "9" c.

(** [c.toUpperCase()] on the ASCII letters. *)
Definition toUpperCase_char (c : ascii) : ascii :=
  if in_range "a" "z" c then ascii_of_N (N_of_ascii c - 32) else c.

(** [s[0].toUpperCase()] as text inside a template literal. *)
Definition first_upper (s : string) : string :=
  match s with
  | String c _ => String (toUpperCase_char c) ""
  | EmptyString => "undefined"
  end.

(** Digits of a non-negative integer in radix 36, as [n.toString(36)]. *)
Definition digit36 (d : Z) : ascii :=
  if (d <? 10)%Z then ascii_of_N (Z.to_N (48 + d)) else ascii_of_N (Z.to_N (87 + d)).

Fixpoint radix36_go (fuel : nat) (n : Z) (acc : string) : string :=
  match fuel with
  | O => acc
  | S fuel' =>
      if (n <=? 0)%Z then acc
      else radix36_go fuel' (n / 36)%Z (String (digit36 (n mod 36)%Z) acc)
  end.

Definition Z_toString36 (n : Z) : string :=
  if (n =? 0)%Z then "0"
  else if (n <? 0)%Z then "-" +:+ radix36_go (Z.to_nat (Z.log2 (- n)) + 1) (- n) ""
  else radix36_go (Z.to_nat (Z.log2 n) + 1) n "".

(** [x.toString().replace(/\B(?=(\d{3})+(?!\d))/g, ',')] on a digit string:
    a comma before every group of three digits counted from the right,
    except at the start. *)
Fixpoint group3_go (l : list ascii) (remaining : nat) : list ascii :=
  match l with
  | [] => []
  | c :: r =>
      let rest := group3_go r (remaining - 1) in
      if (Nat.eqb (remaining mod 3) 0) then ","%char :: c :: rest else c :: rest
  end.

Definition group3 (digits : string) : string :=
  match chars digits with
  | [] => ""
  | c :: r => of_chars (c :: group3_go r (List.length r))
  end.

(** [x.toFixed(f)] for a finite [x] of magnitude below 10^21: the integer
    [n] nearest to [x * 10^f] (the larger one on a tie), printed with [f]
    decimals. *)
Definition toFixed (x : Q) (f : nat) : string :=
  let neg := negb (Qle_bool 0 x) in
  let n := Qfloor (Qabs x * inject_Z (10 ^ Z.of_nat f) + (1 # 2))%Q in
  let m := Z_toString n in
  let k := String.length m in
  let m' := if (k <=? f)%nat then repeat_char "0" (f + 1 - k) +:+ m else m in
  let k' := String.length m' in
  let a := substring 0 (k' - f) m' in
  let b := substring (k' - f) f m' in
  (if neg then "-" else "") +:+ a +:+ (if (f =? 0)%nat then "" else "." +:+ b).

(** [JSON.stringify] of a string: QuoteJSONString. *)
Definition hex_digit (n : N) : ascii :=
  if (n <? 10)%N then ascii_of_N (48 + n) else ascii_of_N (87 + n).

Definition json_escape (c : ascii) : string :=
  let n := N_of_ascii c in
  if (n =? 8)%N then "\b"
  else if (n =? 9)%N then "\t"
  else if (n =? 10)%N then "\n"
  else if (n =? 12)%N then "\f"
  else if (n =? 13)%N then "\r"
  else if (n =? 34)%N then String "\" (String quote_char "")
  else if (n =? 92)%N then "\\"
  else if (n <? 32)%N then "\u00" +:+ String (hex_digit (n / 16)) (String (hex_digit (n mod 16)) "")
  else String c "".

(** [arr.slice(0, n)] for an integer [n]: a negative [n] counts from the end. *)
Definition slice0 {A : Type} (arr : list A) (n : Z) : list A :=
  if (n <? 0)%Z then take (Z.to_nat (Z.of_nat (length arr) + n)) arr
  else take (Z.to_nat n) arr.

(** Comparisons of Numbers. *)
Definition ltb (a b : Q) : bool := negb (Qle_bool b a).
Definition gtb (a b : Q) : bool := negb (Qle_bool a b).

Definition json_string (s : string) : string :=
  String quote_char (String.concat "" (map json_escape (chars s)) +:+ String quote_char "").

(** [Number::toString(x)] in radix 10 for a finite [x]: the shortest digit
    string [s] (of [k] digits, with decimal exponent [n]) whose value
    [s * 10^(n-k)] rounds to [x], the nearest such when there are two. *)
Definition pow10 (e : Z) : Q := (10 ^ e)%Q.

(** The [n] with [10^(n-1) <= x < 10^n], found from a binary estimate. *)
Fixpoint decimal_exponent_go (fuel : nat) (x : Q) (n : Z) : Z :=
  match fuel with
  | O => n
  | S fuel' =>
      if negb (Qle_bool (pow10 (n - 1)) x) then decimal_exponent_go fuel' x (n - 1)
      else if Qle_bool (pow10 n) x then decimal_exponent_go fuel' x (n + 1)
      else n
  end.

Definition decimal_exponent (x : Q) : Z :=
  decimal_exponent_go 8 x ((F64.ilog2 x * 30103) / 100000 + 1).

(** The candidates with [k] digits: the two integers around [x / 10^(n-k)]. *)
Definition digits_candidate (x : Q) (n : Z) (k : Z) : option Z :=
  let scale := pow10 (n - k) in
  let lo := Qfloor (x / scale) in
  let hi := (lo + 1)%Z in
  let ok (c : Z) := Qeq_bool (F64.round (inject_Z c * scale)) x in
  let dlo := (x - inject_Z lo * scale)%Q in
  let dhi := (inject_Z hi * scale - x)%Q in
  match ok lo, ok hi with
  | true, true =>
      match Qcompare dlo dhi with
      | Lt => Some lo
      | Gt => Some hi
      | Eq => Some (if Z.even lo then lo else hi)
      end
  | true, false => Some lo
  | false, true => Some hi
  | false, false => None
  end.

Fixpoint shortest_digits_go (fuel : nat) (x : Q) (n : Z) (k : Z) : Z * Z :=
  match fuel with
  | O => (F64.rne (x / pow10 (n - k)), k)
  | S fuel' =>
      match digits_candidate x n k with
      | Some c => (c, k)
      | None => shortest_digits_go fuel' x n (k + 1)
      end
  end.

(** Digits [s], their count [k] and the exponent [n] of a positive [x]. *)
Definition shortest_digits (x : Q) : string * Z * Z :=
  let n := decimal_exponent x in
  let '(c, k) := shortest_digits_go 16 x n 1 in
  if (c =? 10 ^ k)%Z then (Z_toString (10 ^ (k - 1)), k, (n + 1)%Z)
  else (Z_toString c, k, n).

Definition Number_toString_pos (x : Q) : string :=
  let '(s, k, n) := shortest_digits x in
  if ((k <=? n) && (n <=? 21))%Z then
    s +:+ repeat_char "0" (Z.to_nat (n - k))
  else if ((0 <? n) && (n <=? 21))%Z then
    substring 0 (Z.to_nat n) s +:+ "." +:+ substring (Z.to_nat n) (Z.to_nat (k - n)) s
  else if ((-6 <? n) && (n <=? 0))%Z then
    "0." +:+ repeat_char "0" (Z.to_nat (- n)) +:+ s
  else
    let e := (n - 1)%Z in
    let es := (if (e <? 0)%Z then "-" else "+") +:+ Z_toString (Z.abs e) in
    if (k =? 1)%Z then s +:+ "e" +:+ es
    else substring 0 1 s +:+ "." +:+ substring 1 (Z.to_nat (k - 1)) s +:+ "e" +:+ es.

Definition Number_toString (x : Q) : string :=
  match Qcompare x 0 with
  | Eq => "0"
  | Gt => Number_toString_pos x
  | Lt => "-" +:+ Number_toString_pos (- x)
  end.

End JS.

(** ** The data model *)

(** A coordinate is a Number in the embedded samples and the text of
    [toFixed] in synthesized profiles. *)
Inductive Coord : Type :=
| CoordNum (q : Q)
| CoordStr (s : string).

(** A profile record. A field that is [undefined] is [None]; the integer
    fields are integers, as in the data model; [last_active] holds the
    instant (in ms) that the ISO-8601 text denotes. *)
Module Profile.
Record t : Type := mk {
  id : option string;
  name : option string;
  age : option Z;
  gender : option string;
  job_title : option string;
  industry : option string;
  income_usd : option Z;
  education : option string;
  location_city : option string;
  borough : option string;
  nta : option string;
  relationship_status : option string;
  emotional_state : option string;
  activity : option string;
  interests : list string;
  risk_score : option Z;
  last_active : option Z;
  coords : option (list Coord)
}.
End Profile.

(** JSON values, as a response body parses to. *)
#[local] Unset Elimination Schemes.
Inductive Json : Type :=
| JNull
| JBool (b : bool)
| JNum (q : Q)
| JStr (s : string)
| JArr (items : list Json)
| JObj (fields : list (string * Json)).
#[local] Set Elimination Schemes.

(** What one network request comes back with. *)
Inductive NetReply : Type :=
| NetFail                      (* [fetch] rejects *)
| HttpNotOk (status : Z)       (* [res.ok] is false *)
| BodyUnparsable               (* [res.json()] rejects *)
| Body (rows : Json).

Record Request : Type := mkRequest {
  req_dataset : string;
  req_params : list (string * string);
  req_token : string
}.

(** What [localStorage] holds under a key: the text written by [setCache],
    [JSON.stringify({ t, v })], represented by the timestamp and the list it
    parses to, or a text that [JSON.parse] rejects. *)
Inductive StorageItem : Type :=
| Entry (t : Z) (v : list Profile.t)
| Garbage (raw : string).

Record FetchOpts : Type := mkOpts {
  opt_borough : option string;
  opt_nta : option string;
  opt_limit : option Z
}.

(** The parts of the host that the language leaves to the implementation:
    the radix-36 text of a Number, and the order (and number of comparator
    calls) of [Array.prototype.sort] under a comparator that answers at
    random. [sort_random l draws] is the sorted array and the number of
    draws consumed. *)
Record Engine : Type := mkEngine {
  Number_toString36 : Q -> string;
  sort_random : list string -> (nat -> Q) -> list string * nat
}.

(** The global configuration object [CONFIG]. *)
Record Config : Type := mkConfig {
  densityScale : Q;
  speedScale : Q;
  glowIntensity : Q;
  theme : string;
  source : string;
  cfg_borough : string;
  cfg_nta : string;
  stringStyle : string;
  maxColumns : Z;
  mode : string
}.

(** [CONFIG.densityScale = d], as the density control does. *)
Definition set_densityScale (d : Q) (cfg : Config) : Config :=
  mkConfig d (speedScale cfg) (glowIntensity cfg) (theme cfg) (source cfg)
           (cfg_borough cfg) (cfg_nta cfg) (stringStyle cfg) (maxColumns cfg) (mode cfg).

(** ** The state of the page *)

Record World : Type := mkWorld {
  (* Math.random: the stream of draws (each in [0, 1)) and the position in it *)
  draws : nat -> Q;
  cursor : nat;
  (* Date.now(), in milliseconds *)
  clock : Z;
  engine : Engine;
  (* window.localStorage; [storage_up = false]: every access throws *)
  localStorage : gmap string StorageItem;
  storage_up : bool;
  (* the network: the reply and the latency (ms) of the k-th request, and
     the requests issued so far, latest first *)
  net : nat -> NetReply * N;
  requests : list Request;
  (* data/nyc.js: module state, and the instant the script was evaluated
     ([None]: it is not loaded, [NYCProfileService] is undefined) *)
  APP_TOKEN : string;
  DATASET_DEMOGRAPHICS_BY_NTA : string;
  nyc_loaded : option Z;
  (* main.js: CONFIG, DataSource.cachedProfiles, and the profile requests
     whose promise has not settled yet *)
  CONFIG : Config;
  cachedProfiles : list Profile.t;
  pending : list FetchOpts
}.

(** ** Computations: state and exceptions *)

Inductive Completion (A : Type) : Type :=
| Normal (a : A)
| Throw (e : string).
Arguments Normal {A} a.
Arguments Throw {A} e.

Definition M (A : Type) : Type := World -> Completion A * World.

Definition ret {A : Type} (a : A) : M A := fun w => (Normal a, w).

Definition bind {A B : Type} (c : M A) (k : A -> M B) : M B :=
  fun w =>
    match c w with
    | (Normal a, w') => k a w'
    | (Throw e, w') => (Throw e, w')
    end.

Definition throw {A : Type} (e : string) : M A := fun w => (Throw e, w).

(** [try { c } catch (e) { h e }] *)
Definition try_catch {A : Type} (c : M A) (h : string -> M A) : M A :=
  fun w =>
    match c w with
    | (Normal a, w') => (Normal a, w')
    | (Throw e, w') => h e w'
    end.

Definition get_world : M World := fun w => (Normal w, w).
Definition modify (f : World -> World) : M unit := fun w => (Normal tt, f w).

Declare Scope js_scope.
Delimit Scope js_scope with js.
Notation "x <- c ;; k" := (bind c (fun x => k))
  (at level 100, c at next level, right associativity) : js_scope.
Notation "'exec' c ;; k" := (bind c (fun _ => k))
  (at level 100, c at next level, right associativity) : js_scope.
Local Open Scope js_scope.

(** [Array.from({ length: n }, () => c)] *)
Fixpoint replicateM {A : Type} (n : nat) (c : M A) : M (list A) :=
  match n with
  | O => ret []
  | S n' => x <- c ;; xs <- replicateM n' c ;; ret (x :: xs)
  end.

(** [arr.map(f)] for a callback with effects. *)
Fixpoint mapM {A B : Type} (f : A -> M B) (l : list A) : M (list B) :=
  match l with
  | [] => ret []
  | x :: r => y <- f x ;; ys <- mapM f r ;; ret (y :: ys)
  end.

Definition set_cursor (n : nat) (w : World) : World :=
  mkWorld (draws w) n (clock w) (engine w) (localStorage w) (storage_up w)
          (net w) (requests w) (APP_TOKEN w) (DATASET_DEMOGRAPHICS_BY_NTA w)
          (nyc_loaded w) (CONFIG w) (cachedProfiles w) (pending w).

Definition set_clock (t : Z) (w : World) : World :=
  mkWorld (draws w) (cursor w) t (engine w) (localStorage w) (storage_up w)
          (net w) (requests w) (APP_TOKEN w) (DATASET_DEMOGRAPHICS_BY_NTA w)
          (nyc_loaded w) (CONFIG w) (cachedProfiles w) (pending w).

Definition set_localStorage (s : gmap string StorageItem) (w : World) : World :=
  mkWorld (draws w) (cursor w) (clock w) (engine w) s (storage_up w)
          (net w) (requests w) (APP_TOKEN w) (DATASET_DEMOGRAPHICS_BY_NTA w)
          (nyc_loaded w) (CONFIG w) (cachedProfiles w) (pending w).

Definition set_requests (r : list Request) (w : World) : World :=
  mkWorld (draws w) (cursor w) (clock w) (engine w) (localStorage w) (storage_up w)
          (net w) r (APP_TOKEN w) (DATASET_DEMOGRAPHICS_BY_NTA w)
          (nyc_loaded w) (CONFIG w) (cachedProfiles w) (pending w).

Definition set_cachedProfiles (l : list Profile.t) (w : World) : World :=
  mkWorld (draws w) (cursor w) (clock w) (engine w) (localStorage w) (storage_up w)
          (net w) (requests w) (APP_TOKEN w) (DATASET_DEMOGRAPHICS_BY_NTA w)
          (nyc_loaded w) (CONFIG w) l (pending w).

Definition set_pending (l : list FetchOpts) (w : World) : World :=
  mkWorld (draws w) (cursor w) (clock w) (engine w) (localStorage w) (storage_up w)
          (net w) (requests w) (APP_TOKEN w) (DATASET_DEMOGRAPHICS_BY_NTA w)
          (nyc_loaded w) (CONFIG w) (cachedProfiles w) l.

(** [Math.random()] *)
Definition Math_random : M Q :=
  fun w => (Normal (draws w (cursor w)), set_cursor (S (cursor w)) w).

(** [Date.now()] *)
Definition Date_now : M Z := fun w => (Normal (clock w), w).

(** ** main.js: utilities *)

Local Open Scope Q_scope.

(** [rand(min, max) = Math.random() * (max - min) + min] *)
Definition rand (min max : Q) : M Q :=
  u <- Math_random ;; ret (F64.add (F64.mul u (F64.sub max min)) min).

(** [randi(min, max) = Math.floor(rand(min, max))] *)
Definition randi (min max : Q) : M Z :=
  x <- rand min max ;; ret (F64.floor x).

(** [arr[i]] for an integer-valued index. *)
Definition at_index {A : Type} (arr : list A) (i : Z) : option A :=
  if (i <? 0)%Z then None else arr !! Z.to_nat i.

(** [choice(arr) = arr[randi(0, arr.length)]] *)
Definition choice {A : Type} (arr : list A) : M (option A) :=
  i <- randi 0 (inject_Z (Z.of_nat (length arr))) ;; ret (at_index arr i).

(** The loop of [weightedChoice]: [if ((roll -= w) <= 0) return v]. *)
Fixpoint weightedChoice_loop {A : Type} (roll : Q) (pairs : list (A * Q)) : option A :=
  match pairs with
  | [] => None
  | (v, w) :: rest =>
      let roll' := F64.sub roll w in
      if Qle_bool roll' 0 then Some v else weightedChoice_loop roll' rest
  end.

(** [weightedChoice(pairs)]. Reading [pairs[pairs.length - 1][0]] of an
    empty array is a TypeError. *)
Definition weightedChoice {A : Type} (pairs : list (A * Q)) : M A :=
  let total := fold_left (fun s p => F64.add s (snd p)) pairs 0 in
  u <- Math_random ;;
  let roll := F64.mul u total in
  match weightedChoice_loop roll pairs with
  | Some v => ret v
  | None =>
      match last pairs with
      | Some (v, _) => ret v
      | None => throw "TypeError"
      end
  end.

(** [clamp(v, a, b) = v < a ? a : v > b ? b : v] *)
Definition clamp (v a b : Z) : Z :=
  if (v <? a)%Z then a else if (v >? b)%Z then b else v.

(** [formatMoneyUSD(n)] on an integer amount below 2^53 in magnitude, for
    which [Math.round(n)] is [n] and [toString] prints its decimal digits. *)
Definition formatMoneyUSD (n : Z) : string :=
  let sign := if (n <? 0)%Z then "-" else "" in
  let x := Z.abs n in
  sign +:+ "$" +:+ JS.group3 (JS.Z_toString x).

(** ** main.js: ProfileFactory *)

Module ProfileFactory.

Local Open Scope string_scope.

Definition firstNames : list string :=
  ["Ava";"Mia";"Liam";"Noah";"Emma";"Oliver";"Lucas";"Amelia";"Ethan";"Sofia";
   "Zoe";"Kai";"Nina";"Leo";"Isla";"Maya";"Ezra";"Ivy";"Mila";"Aria";"Theo";
   "Luna";"Finn";"Mason";"Iris"].
Definition lastNames : list string :=
  ["Kim";"Lee";"Nguyen";"Patel";"Garcia";"Chen";"Smith";"Khan";"Mori";"Silva";
   "Rossi";"Santos";"Brown";"Martin";"Lopez";"Wilson";"Dubois";"Kowalski"].
Definition genders : list string := ["female";"male";"non-binary"].
Definition industries : list string :=
  ["Finance";"Healthcare";"Tech";"Education";"Retail";"Energy";"Gaming";"Media";
   "Gov";"Aerospace"].
Definition jobs : list string :=
  ["Engineer";"Designer";"Data Scientist";"Analyst";"PM";"Researcher";"Nurse";
   "Teacher";"Marketer";"Artist";"Security";"Pilot"].
Definition relationship : list string := ["single";"dating";"married";"complicated"].
Definition education : list string := ["HS";"Associate";"BSc";"MSc";"PhD"].
Definition emotional : list (string * Q) :=
  [("focused", 3%Q); ("stressed", 2%Q); ("curious", 3%Q); ("flow", 2%Q);
   ("burnout", 1%Q); ("optimistic", 2%Q); ("calm", 2%Q); ("distracted", 1%Q)].
Definition cities : list string :=
  ["New York";"Berlin";"Tokyo";"Seoul";"Toronto";"Paris";"Madrid";"Sydney";
   "Sao Paulo";"Nairobi";"Dublin";"Singapore"].
Definition activities : list string :=
  ["browsing";"coding";"commuting";"meeting";"streaming";"learning";"exercising";
   "shopping"].
Definition interests_pool : list string :=
  ["climbing";"reading";"ai";"music";"crypto";"gardening";"photography";"biking";
   "chess";"vr";"cooking";"yoga";"travel";"gaming"].

(** A lookup [table[key] || dflt] in an object literal. *)
Fixpoint lookup_or {A : Type} (table : list (string * A)) (key : string) (dflt : A) : A :=
  match table with
  | [] => dflt
  | (k, v) :: rest => if String.eqb k key then v else lookup_or rest key dflt
  end.

(** [makeId()] *)
Definition makeId : M string :=
  u <- Math_random ;;
  w <- get_world ;;
  now <- Date_now ;;
  ret (JS.slice 2 8 (Number_toString36 (engine w) u) +:+ "-"
       +:+ JS.slice_last 4 (JS.Z_toString36 now)).

Definition income_base : list (string * (Q * Q)) :=
  [("Tech", (80000, 220000)%Q); ("Finance", (70000, 250000)%Q);
   ("Healthcare", (50000, 180000)%Q); ("Education", (35000, 120000)%Q);
   ("Retail", (30000, 90000)%Q); ("Energy", (60000, 200000)%Q);
   ("Gaming", (45000, 150000)%Q); ("Media", (40000, 140000)%Q);
   ("Gov", (40000, 120000)%Q); ("Aerospace", (70000, 210000)%Q)].

(** [sampleIncome(industry)] *)
Definition sampleIncome (industry : option string) : M Z :=
  let base := lookup_or income_base (JS.template industry) (40000, 120000)%Q in
  x <- rand (fst base) (snd base) ;;
  ret (F64.Math_round (F64.div x 1000) * 1000)%Z.

Definition moodBias : list (string * Q) :=
  [("burnout", 15%Q); ("stressed", 10%Q); ("distracted", 8%Q); ("focused", (-5)%Q);
   ("calm", (-5)%Q); ("flow", (-8)%Q); ("optimistic", (-3)%Q); ("curious", 0%Q)].

(** [riskFromIncomeAndMood(income, mood)] *)
Definition riskFromIncomeAndMood (income : Q) (mood : string) : M Z :=
  r <- rand 10 90 ;;
  let r := if JS.gtb income 150000 then F64.sub r 10 else r in
  let r := if JS.ltb income 40000 then F64.add r 10 else r in
  let r := F64.add r (lookup_or moodBias mood 0%Q) in
  ret (clamp (F64.Math_round r) 0 100).

(** [interestsSet()]: the shuffle is the engine's sort under a comparator
    that draws from [Math.random]. *)
Definition interestsSet : M (list string) :=
  n <- randi 2 6 ;;
  w <- get_world ;;
  let '(shuffled, used) :=
    sort_random (engine w) interests_pool (fun k => draws w (cursor w + k)%nat) in
  exec modify (set_cursor (cursor w + used)%nat) ;;
  ret (JS.slice0 shuffled n).

(** [generate()] *)
Definition generate : M Profile.t :=
  ind <- choice industries ;;
  job <- choice jobs ;;
  mood <- weightedChoice emotional ;;
  age <- randi 18 70 ;;
  inc <- sampleIncome ind ;;
  risk <- riskFromIncomeAndMood (inject_Z inc) mood ;;
  id <- makeId ;;
  first <- choice firstNames ;;
  last <- choice lastNames ;;
  gender <- choice genders ;;
  edu <- choice education ;;
  city <- choice cities ;;
  rel <- choice relationship ;;
  act <- choice activities ;;
  ints <- interestsSet ;;
  now <- Date_now ;;
  ago <- randi 0 (3600 * 1000) ;;
  ret (Profile.mk (Some id) (Some (JS.template first +:+ " " +:+ JS.template last))
         (Some age) gender job ind (Some inc) edu city None None rel (Some mood)
         act ints (Some risk) (Some (now - ago)%Z) None).

End ProfileFactory.

(** ** main.js: DataSource *)

Module DataSource.

Local Open Scope string_scope.

(** [generateFakeBatch(n)] *)
Definition generateFakeBatch (n : Z) : M (list Profile.t) :=
  replicateM (Z.to_nat n) ProfileFactory.generate.

(** [takeLoop(arr, n)]: element [i] is [arr[i % arr.length]], which is
    [undefined] when [arr] is empty. *)
Definition takeLoop {A : Type} (arr : list A) (n : Z) : list (option A) :=
  map (fun i => arr !! (i mod length arr)%nat) (seq 0 (Z.to_nat n)).

(** [getProfiles(wantCount)]. The call of [NYCProfileService.fetchProfiles]
    returns a promise; its outcome reaches [cachedProfiles] only after
    [getProfiles] has returned, so the request is queued in [pending]. *)
Definition getProfiles (wantCount : Z) : M (list (option Profile.t)) :=
  w <- get_world ;;
  if String.eqb (source (CONFIG w)) "nyc" && bool_decide (is_Some (nyc_loaded w)) then
    exec (if (Nat.eqb (length (cachedProfiles w)) 0)
          then (batch <- generateFakeBatch wantCount ;; modify (set_cachedProfiles batch))
          else ret tt) ;;
    exec modify (fun w' => set_pending
        (pending w' ++ [mkOpts (Some (cfg_borough (CONFIG w'))) (Some (cfg_nta (CONFIG w'))) (Some 400%Z)]) w') ;;
    w1 <- get_world ;;
    ret (takeLoop (cachedProfiles w1) wantCount)
  else
    exec (if (Z.of_nat (length (cachedProfiles w)) <? wantCount)%Z
          then (batch <- generateFakeBatch (Z.max wantCount 128) ;; modify (set_cachedProfiles batch))
          else ret tt) ;;
    w1 <- get_world ;;
    ret (takeLoop (cachedProfiles w1) wantCount).

End DataSource.

(** ** main.js: StringPainter *)

Module StringPainter.

Local Open Scope string_scope.

Record t : Type := mk {
  profile : Profile.t;
  mode : string;
  this_string : string;
  keyCharPositions : gset Z
}.

(** [`${p.age||'?'}`] *)
Definition age_text (p : Profile.t) : string :=
  match Profile.age p with
  | Some n => if (n =? 0)%Z then "?" else JS.Z_toString n
  | None => "?"
  end.

(** [p.income_usd || 0] *)
Definition income_or_0 (p : Profile.t) : Z :=
  match Profile.income_usd p with
  | Some n => n
  | None => 0%Z
  end.

(** [`${p.job_title || 'Agent'}+${(p.gender||'U')[0].toUpperCase()}+${p.age||'?'}`] *)
Definition profileLabel (p : Profile.t) : string :=
  JS.or_string (Profile.job_title p) "Agent" +:+ "+"
  +:+ JS.first_upper (JS.or_string (Profile.gender p) "U") +:+ "+"
  +:+ age_text p.

(** One element of [coords] under [JSON.stringify]. *)
Definition json_coord (c : Coord) : string :=
  match c with
  | CoordNum q => JS.Number_toString q
  | CoordStr s => JS.json_string s
  end.

Definition json_array (items : list string) : string :=
  "[" +:+ String.concat "," items +:+ "]".

(** [buildString(p, mode)] *)
Definition buildString (p : Profile.t) (mode : string) : M string :=
  if String.eqb mode "kv" then
    ret ("profile=" +:+ profileLabel p
         +:+ " | nta=" +:+ JS.or_string (Profile.nta p) ""
         +:+ " | mood=" +:+ JS.or_string (Profile.emotional_state p) ""
         +:+ " | income=" +:+ formatMoneyUSD (income_or_0 p)
         +:+ " | risk=" +:+ match Profile.risk_score p with
                            | Some r => JS.Z_toString r
                            | None => ""
                            end)
  else if String.eqb mode "code" then
    let idHex :=
      JS.or_string
        (Some (JS.slice_last 4 (JS.keep_chars JS.is_hex (JS.or_string (Profile.id p) "0000"))))
        "A1C3" in
    ret ("let p=Agent( id:0x" +:+ idHex
         +:+ ", age:" +:+ age_text p
         +:+ ", job:" +:+ String JS.quote_char (JS.or_string (Profile.job_title p) "Worker")
         +:+ String JS.quote_char ", mood:"
         +:+ String JS.quote_char (JS.or_string (Profile.emotional_state p) "")
         +:+ String JS.quote_char ", nta:"
         +:+ String JS.quote_char (JS.or_string (Profile.nta p) "")
         +:+ String JS.quote_char ", income:" +:+ JS.Z_toString (income_or_0 p) +:+ " );")
  else
    (* default json *)
    let label := profileLabel p +:+ String JS.newline_char "" in
    coords <- match Profile.coords p with
              | Some c => ret c
              | None =>
                  x <- rand 100 600 ;;
                  y <- rand 100 400 ;;
                  z <- rand 200 800 ;;
                  ret [CoordStr (JS.toFixed x 2); CoordStr (JS.toFixed y 2);
                       CoordStr (JS.toFixed z 1)]
              end ;;
    ret ("{" +:+ JS.json_string "profile" +:+ ":"
             +:+ JS.json_string (JS.replace_char JS.newline_char "" label)
         +:+ "," +:+ JS.json_string "nta" +:+ ":"
             +:+ JS.json_string (JS.or_string (Profile.nta p) "")
         +:+ "," +:+ JS.json_string "income" +:+ ":" +:+ JS.Z_toString (income_or_0 p)
         +:+ "," +:+ JS.json_string "mood" +:+ ":"
             +:+ JS.json_string (JS.or_string (Profile.emotional_state p) "")
         +:+ "," +:+ JS.json_string "coords" +:+ ":" +:+ json_array (map json_coord coords)
         +:+ "}").

(** [build(profile, mode)] *)
Definition build (p : Profile.t) (mode : string) : M string := buildString p mode.

Definition keys : list string := ["profile"; "nta"; "income"; "mood"; "risk"].

(** The inner loop of [computeKeyPositions]:
    [for (let i = 0; i < k.length; i++) pos.add(idx + i)]. *)
Definition add_range (idx : Z) (len : nat) (pos : gset Z) : gset Z :=
  fold_left (fun acc i => {[ (idx + Z.of_nat i)%Z ]} ∪ acc) (seq 0 len) pos.

(** [computeKeyPositions(str)] *)
Definition computeKeyPositions (str : string) : gset Z :=
  fold_left
    (fun pos k =>
       let idx := JS.indexOf str k in
       if (0 <=? idx)%Z then add_range idx (String.length k) pos else pos)
    keys ∅.

(** [new StringPainter(profile, mode)] *)
Definition new (p : Profile.t) (mode : string) : M t :=
  s <- buildString p mode ;;
  ret (mk p mode s (computeKeyPositions s)).

(** The half-width kana of the filler alphabet are the code units 177..181
    of this model. *)
Definition filler : string :=
  JS.of_chars (map ascii_of_nat [177; 178; 179; 180; 181]%nat) +:+ "0123456789<>[]{}-=+*/$%".

(** One random filler character, [filler[randi(0, filler.length)]];
    [None] is [undefined]. *)
Definition filler_char : M (option ascii) :=
  i <- randi 0 (inject_Z (Z.of_nat (String.length filler))) ;;
  ret (at_index (JS.chars filler) i).

Definition pad : nat := 40.

(** [buildGlyphStream()] *)
Definition buildGlyphStream (this : t) : M (list (option ascii)) :=
  let core := map Some (JS.chars (this_string this)) in
  left <- replicateM pad filler_char ;;
  right <- replicateM pad filler_char ;;
  ret (left ++ core ++ right)%list.

(** [isKeyChar(bufferIndex)]; [%] is the remainder of truncated division,
    and a remainder by zero is NaN, which no set contains. *)
Definition isKeyChar (this : t) (bufferIndex : Z) : bool :=
  let len := Z.of_nat (String.length (this_string this)) in
  if (len =? 0)%Z then false
  else bool_decide (Z.rem (bufferIndex - 40 + len * 10000) len ∈ keyCharPositions this).

End StringPainter.

(** ** main.js: MatrixRain, the number of glyph columns *)

Module MatrixRain.

Local Open Scope Q_scope.

Definition glyphSize : Q := 16.

(** The literal [0.7]. *)
Definition lit_0_7 : Q := F64.round (7 # 10).

(** [numCols] of [resetColumns()], for a canvas of client width [w]:
    [density = 0.7 * CONFIG.densityScale] and
    [clamp(Math.max(8, Math.floor((w / size) * density)), 8, CONFIG.maxColumns)]. *)
Definition numCols (cfg : Config) (w : Q) : Z :=
  let size := glyphSize in
  let density := F64.mul lit_0_7 (densityScale cfg) in
  clamp (Z.max 8 (F64.floor (F64.mul (F64.div w size) density))) 8 (maxColumns cfg).

(** [desiredCols] of [update(dt)]:
    [clamp(Math.max(8, Math.floor((w / size) * 0.7 * CONFIG.densityScale)), 8, CONFIG.maxColumns)]. *)
Definition desiredCols (cfg : Config) (w : Q) : Z :=
  let size := glyphSize in
  clamp (Z.max 8 (F64.floor (F64.mul (F64.mul (F64.div w size) lit_0_7) (densityScale cfg))))
        8 (maxColumns cfg).

End MatrixRain.

(** ** data/nyc.js: the NYC profile service *)

Module NYC.

Local Open Scope string_scope.
Local Open Scope Z_scope.

Definition ONE_HOUR_MS : Z := 60 * 60 * 1000.

(** [localStorage.getItem(key)] *)
Definition getItem (key : string) : M (option StorageItem) :=
  fun w =>
    if storage_up w then (Normal (localStorage w !! key), w)
    else (Throw "SecurityError", w).

(** [localStorage.setItem(key, text)] *)
Definition setItem (key : string) (item : StorageItem) : M unit :=
  fun w =>
    if storage_up w then (Normal tt, set_localStorage (<[key := item]> (localStorage w)) w)
    else (Throw "SecurityError", w).

(** [const { t, v } = JSON.parse(raw)] *)
Definition JSON_parse (raw : StorageItem) : M (Z * list Profile.t) :=
  match raw with
  | Entry t v => ret (t, v)
  | Garbage _ => throw "SyntaxError"
  end.

(** [!raw] for the text read from storage. *)
Definition falsy_item (raw : option StorageItem) : bool :=
  match raw with
  | None => true
  | Some (Garbage s) => String.eqb s ""
  | Some (Entry _ _) => false
  end.

(** [getCache(key)]; [None] is [null]. *)
Definition getCache (key : string) : M (option (list Profile.t)) :=
  try_catch
    (raw <- getItem key ;;
     if falsy_item raw then ret None
     else
       match raw with
       | None => ret None
       | Some item =>
           tv <- JSON_parse item ;;
           now <- Date_now ;;
           if now - fst tv >? ONE_HOUR_MS then ret None
           else ret (Some (snd tv))
       end)
    (fun _ => ret None).

(** [setCache(key, v)] *)
Definition setCache (key : string) (v : list Profile.t) : M unit :=
  try_catch
    (now <- Date_now ;; setItem key (Entry now v))
    (fun _ => ret tt).

(** [sodaFetch(datasetId, queryParams)]: the request is recorded, its
    latency passes, and its reply decides the outcome. [buildSodaUrl]
    leaves out the parameters whose value is the empty text. *)
Definition sodaFetch (datasetId : string) (queryParams : list (string * string)) : M Json :=
  w <- get_world ;;
  let '(reply, latency) := net w (length (requests w)) in
  let params := filter (fun kv => snd kv ≠ "") queryParams in
  exec modify (fun w => set_clock (clock w + Z.of_N latency)
                          (set_requests (mkRequest datasetId params (APP_TOKEN w) :: requests w) w)) ;;
  match reply with
  | NetFail => throw "TypeError: Failed to fetch"
  | HttpNotOk status => throw ("HTTP " +:+ JS.Z_toString status)
  | BodyUnparsable => throw "SyntaxError"
  | Body rows => ret rows
  end.

(** The fallback samples; [loaded_at] is the instant of [new Date()] when
    the script was evaluated. *)
Definition SAMPLE_PROFILES_at (loaded_at : Z) : list Profile.t :=
  [ Profile.mk (Some "smpl-1") (Some "Sample A") (Some 24) (Some "female") (Some "Student")
      (Some "Education") (Some 42000) (Some "BSc") (Some "New York") (Some "Manhattan")
      (Some "MN013") (Some "single") (Some "curious") (Some "learning") ["music"; "ai"]
      (Some 37) (Some loaded_at)
      (Some [CoordNum (F64.round (35846 # 100)); CoordNum (F64.round (15565 # 100));
             CoordNum (F64.round 411)]);
    Profile.mk (Some "smpl-2") (Some "Sample B") (Some 35) (Some "male") (Some "Analyst")
      (Some "Finance") (Some 95000) (Some "MSc") (Some "New York") (Some "Brooklyn")
      (Some "BK032") (Some "married") (Some "focused") (Some "commuting") ["chess"; "biking"]
      (Some 29) (Some loaded_at)
      (Some [CoordNum (F64.round (40212 # 100)); CoordNum (F64.round (21022 # 100));
             CoordNum (F64.round 512)]) ].

Definition SAMPLE_PROFILES (w : World) : list Profile.t :=
  SAMPLE_PROFILES_at (default 0 (nyc_loaded w)).

Definition moodBias : list (string * Q) :=
  [("burnout", 15%Q); ("stressed", 10%Q); ("distracted", 8%Q); ("focused", (-5)%Q);
   ("calm", (-5)%Q); ("flow", (-8)%Q); ("optimistic", (-3)%Q); ("curious", 0%Q)].

(** [biasRisk(income, mood)] *)
Definition biasRisk (income : Q) (mood : string) : M Z :=
  r <- rand 10 90 ;;
  let r := if JS.gtb income 150000 then F64.sub r 10 else r in
  let r := if JS.ltb income 40000 then F64.add r 10 else r in
  let r := F64.add r (ProfileFactory.lookup_or moodBias mood 0%Q) in
  ret (Z.max 0 (Z.min 100 (F64.Math_round r))).

(** The filter of a call, with the defaults of the destructuring
    [{ borough = '', nta = '', limit = 200 } = opts]. *)
Definition borough_of (opts : FetchOpts) : string := default "" (opt_borough opts).
Definition nta_of (opts : FetchOpts) : string := default "" (opt_nta opts).
Definition limit_of (opts : FetchOpts) : Z := default 200 (opt_limit opts).

Definition cacheKey (opts : FetchOpts) : string :=
  "nyc_profiles:" +:+ borough_of opts +:+ ":" +:+ nta_of opts +:+ ":"
  +:+ JS.Z_toString (limit_of opts).

(** [upper(col) = upper('...')] with the quotes of the value doubled. *)
Definition where_clause (col value : string) : string :=
  "upper(" +:+ col +:+ ") = upper('" +:+ JS.replace_char "'" "''" value +:+ "')".

Definition query_params (opts : FetchOpts) : list (string * string) :=
  let where_ :=
    ((if String.eqb (borough_of opts) "" then [] else [where_clause "borough" (borough_of opts)])
     ++ (if String.eqb (nta_of opts) "" then [] else [where_clause "nta_code" (nta_of opts)]))%list in
  ("$limit", JS.Z_toString (Z.min (Z.max (limit_of opts) 1) 500))
  :: (if Nat.eqb (length where_) 0 then [] else [("$where", String.concat " AND " where_)]).

Section Service.

(** [synthesizeProfileFromDemographics(row)] maps one row of the data set to
    a profile. It reads the row, draws from [Math.random] and reads the
    clock; it may throw (a row that is [null]). It is kept abstract:
    [synthesize row draws now] is the profile ([None]: it throws) and the
    number of draws consumed. *)
Variable synthesize : Json -> (nat -> Q) -> Z -> option Profile.t * nat.

Definition synthesizeProfileFromDemographics (row : Json) : M Profile.t :=
  fun w =>
    let '(r, used) := synthesize row (fun k => draws w (cursor w + k)%nat) (clock w) in
    (match r with
     | Some p => Normal p
     | None => Throw "TypeError"
     end, set_cursor (cursor w + used)%nat w).

(** The body of the [try] block of [fetchProfiles]. *)
Definition fetch_and_cache (opts : FetchOpts) : M (list Profile.t) :=
  w <- get_world ;;
  rows <- sodaFetch (DATASET_DEMOGRAPHICS_BY_NTA w) (query_params opts) ;;
  profiles <- match rows with
              | JArr items => mapM synthesizeProfileFromDemographics items
              | _ => ret []
              end ;;
  let profiles := if Nat.eqb (length profiles) 0 then SAMPLE_PROFILES w else profiles in
  exec setCache (cacheKey opts) profiles ;;
  ret profiles.

(** [fetchProfiles(opts)], from the call to the settling of its promise. *)
Definition fetchProfiles (opts : FetchOpts) : M (list Profile.t) :=
  w <- get_world ;;
  cached <- getCache (cacheKey opts) ;;
  match cached with
  | Some v => ret v
  | None =>
      try_catch (fetch_and_cache opts)
        (fun err => ret (SAMPLE_PROFILES w))
  end.

(** One queued request of [DataSource.getProfiles] settles:
    [.then(list => { if (Array.isArray(list) && list.length) cachedProfiles = list; })
     .catch(() => {})]. *)
Definition refresh_settles : M unit :=
  w <- get_world ;;
  match pending w with
  | [] => ret tt
  | opts :: rest =>
      exec modify (set_pending rest) ;;
      try_catch
        (list <- fetchProfiles opts ;;
         if Nat.eqb (length list) 0 then ret tt else modify (set_cachedProfiles list))
        (fun _ => ret tt)
  end.

End Service.

End NYC.

(** ** What the next request comes back with *)

(** The reply that the next request of the page [w] receives. *)
Definition next_reply (w : World) : NetReply := fst (net w (length (requests w))).

(** The network call fails: [sodaFetch] throws. *)
Definition network_failed (r : NetReply) : Prop :=
  match r with
  | NetFail | HttpNotOk _ | BodyUnparsable => True
  | Body _ => False
  end.

(** The call succeeds and yields no row: an empty array, or a body that is
    not an array. *)
Definition no_rows (r : NetReply) : Prop :=
  match r with
  | Body (JArr (_ :: _)) => False
  | Body _ => True
  | _ => False
  end.

(** The storage of the page without the entry under [key]. *)
Definition without_entry (key : string) (w : World) : World :=
  set_localStorage (delete key (localStorage w)) w.

(** The page [dt] milliseconds later. *)
Definition later (dt : Z) (w : World) : World := set_clock (clock w + dt) w.

(** ** Concrete pages, used to run the model *)

Module Samples.

Local Open Scope string_scope.

(** An engine whose radix-36 text has the digits of one half and whose
    sort leaves the array as it is after three comparisons. *)
Definition engine0 : Engine :=
  mkEngine (fun _ => "0.i") (fun l _ => (l, 3%nat)).

(** The initial [CONFIG] of main.js. *)
Definition CONFIG0 : Config :=
  mkConfig 1 1 (6 # 10) "green" "fake" "" "" "json" 160 "file".

(** A page on which every draw of [Math.random] is [u] and every request
    gets [reply] after 120 ms; the storage is empty and data/nyc.js was
    evaluated at instant 1000. *)
Definition page (u : Q) (reply : NetReply) : World :=
  mkWorld (fun _ => u) 0 1762045000000 engine0 ∅ true (fun _ => (reply, 120%N)) []
          "" "xxxx-xxxx" (Some 1000%Z) CONFIG0 [] [].

(** A page whose k-th draw is [k / 16]. *)
Definition page_ramp : World :=
  mkWorld (fun k => inject_Z (Z.of_nat k) / 16)%Q 0 1762045000000 engine0 ∅ true
          (fun _ => (NetFail, 120%N)) [] "" "xxxx-xxxx" (Some 1000%Z) CONFIG0 [] [].

Definition page_zero : World := page 0 NetFail.
Definition page_half : World := page (1 # 2) NetFail.

(** The second embedded sample of data/nyc.js, and the same person
    without coordinates. *)
Definition sampleB : Profile.t :=
  Profile.mk (Some "smpl-2") (Some "Sample B") (Some 35%Z) (Some "male") (Some "Analyst")
    (Some "Finance") (Some 95000%Z) (Some "MSc") (Some "New York") (Some "Brooklyn")
    (Some "BK032") (Some "married") (Some "focused") (Some "commuting") ["chess"; "biking"]
    (Some 29%Z) (Some 1000%Z)
    (Some [CoordNum (F64.round (40212 # 100)); CoordNum (F64.round (21022 # 100));
           CoordNum (F64.round 512)]).

Definition sampleB_no_coords : Profile.t :=
  Profile.mk (Some "smpl-2") (Some "Sample B") (Some 35%Z) (Some "male") (Some "Analyst")
    (Some "Finance") (Some 95000%Z) (Some "MSc") (Some "New York") (Some "Brooklyn")
    (Some "BK032") (Some "married") (Some "focused") (Some "commuting") ["chess"; "biking"]
    (Some 29%Z) (Some 1000%Z) None.

(** A profile with every optional field missing. *)
Definition blank : Profile.t :=
  Profile.mk None None None None None None None None None None None None None None []
    None None None.

(** A stand-in for the row mapper: it throws on [null] and otherwise makes
    the blank profile with the row's instant, after two draws. *)
Definition synthesize0 (row : Json) (draws : nat -> Q) (now : Z) : option Profile.t * nat :=
  match row with
  | JNull => (None, 0%nat)
  | _ =>
      (Some (Profile.mk None None None None None None None None None None None None None
               None [] None (Some now) None), 2%nat)
  end.

(** The page [page u reply] whose storage holds [item] under [key]. *)
Definition page_with (key : string) (item : StorageItem) (u : Q) (reply : NetReply) : World :=
  set_localStorage {[ key := item ]} (page u reply).

(** The filter of [DataSource.getProfiles] at the initial configuration. *)
Definition opts0 : FetchOpts := mkOpts (Some "") (Some "") (Some 400%Z).

(** A page whose storage holds, under the key of [opts0], the list
    [[sampleB]] cached [age] milliseconds ago. *)
Definition page_cached (age : Z) : World :=
  page_with (NYC.cacheKey opts0) (Entry (1762045000000 - age) [sampleB]) 0 NetFail.

(** The page with the external source selected and a pool of the two
    embedded samples. *)
Definition page_nyc : World :=
  set_cachedProfiles (NYC.SAMPLE_PROFILES_at 1000)
    (mkWorld (fun _ => 0%Q) 0 1762045000000 engine0 ∅ true (fun _ => (NetFail, 120%N)) []
             "" "xxxx-xxxx" (Some 1000%Z)
             (mkConfig 1 1 (6 # 10) "green" "nyc" "" "" "json" 160 "file") [] []).

End Samples.

(** ** Notions used in the statements and in the proofs *)

(** [post c P]: from every state, [c] returns normally with a result that
    satisfies [P]. *)
Definition post {A : Type} (c : M A) (P : A -> Prop) : Prop :=
  forall w, exists a w', c w = (Normal a, w') /\ P a.

(** Every character of [s] satisfies [P]. *)
Fixpoint all_chars (P : ascii -> bool) (s : string) : bool :=
  match s with
  | EmptyString => true
  | String c s' => P c && all_chars P s'
  end.

(** The letters that occur in the labels searched by [computeKeyPositions]. *)
Definition key_letter (c : ascii) : bool :=
  existsb (Ascii.eqb c) (JS.chars (String.concat "" StringPainter.keys)).

Definition key_free (s : string) : bool := all_chars (fun c => negb (key_letter c)) s.

(** The characters of a decimal numeral. *)
Definition numeral_char (c : ascii) : bool :=
  JS.is_digit c || Ascii.eqb c "." || Ascii.eqb c "-".

(** The json encoding up to the value of [coords]. *)
Definition json_head (p : Profile.t) : string :=
  ("{" +:+ JS.json_string "profile" +:+ ":"
       +:+ JS.json_string (JS.replace_char JS.newline_char ""
                             (StringPainter.profileLabel p +:+ String JS.newline_char ""))
   +:+ "," +:+ JS.json_string "nta" +:+ ":"
       +:+ JS.json_string (JS.or_string (Profile.nta p) "")
   +:+ "," +:+ JS.json_string "income" +:+ ":"
       +:+ JS.Z_toString (StringPainter.income_or_0 p)
   +:+ "," +:+ JS.json_string "mood" +:+ ":"
       +:+ JS.json_string (JS.or_string (Profile.emotional_state p) "")
   +:+ "," +:+ JS.json_string "coords" +:+ ":")%string.

(** What [getCache] answers, as a function of the page. *)
Definition cache_answer (key : string) (w : World) : option (list Profile.t) :=
  if storage_up w then
    match localStorage w !! key with
    | Some (Entry t v) => if (clock w - t >? NYC.ONE_HOUR_MS)%Z then None else Some v
    | _ => None
    end
  else None.

(** The page after a request has been sent and answered. *)
Definition after_request (datasetId : string) (params : list (string * string)) (w : World) : World :=
  set_clock (clock w + Z.of_N (snd (net w (length (requests w)))))%Z
    (set_requests
       (mkRequest datasetId (filter (fun kv => snd kv ≠ ""%string) params) (APP_TOKEN w)
        :: requests w) w).

(** The page after the profiles [v] have been cached under the key of [opts]. *)
Definition after_caching (opts : FetchOpts) (v : list Profile.t) (w : World) : World :=
  if storage_up w
  then set_localStorage (<[NYC.cacheKey opts := Entry (clock w) v]> (localStorage w)) w
  else w.

(** ** The primitive floats of the proof assistant *)

(** Rocq's primitive floats are the binary64 floats of the machine. They serve
    to test [F64.round] against the hardware; the model does not use them. *)
Module Hardware.

(** The rational value of a finite float. *)
Definition Q_of_float (f : PrimFloat.float) : Q :=
  let '(m, e) := PrimFloat.frshiftexp (PrimFloat.abs f) in
  let mant := Uint63.to_Z (PrimFloat.normfr_mantissa m) in
  let v := Qred (inject_Z mant * 2 ^ (Uint63.to_Z e - 2101 - 53))%Q in
  if PrimFloat.ltb f PrimFloat.zero then Qred (- v) else v.

(** The float of a small integer. *)
Definition float_of_Z (n : Z) : PrimFloat.float :=
  if (n <? 0)%Z then PrimFloat.opp (PrimFloat.of_uint63 (Uint63.of_Z (- n)))
  else PrimFloat.of_uint63 (Uint63.of_Z n).

(** [0.7] and [1.6], as the parser of the source language reads them. *)
Definition f_0_7 : PrimFloat.float := PrimFloat.div (float_of_Z 7) (float_of_Z 10).
Definition f_1_6 : PrimFloat.float := PrimFloat.div (float_of_Z 16) (float_of_Z 10).

End Hardware.

(** ** Notions used in the statements about the rest of the code *)

(** [x] is a binary64 number: rounding leaves it as it is. *)
Definition is_double (x : Q) : Prop := (F64.round x == x)%Q.

(** Every draw of the page is a double in [0, 1), as [Math.random]
    promises. *)
Definition unit_draws (w : World) : Prop :=
  forall k, is_double (draws w k) /\ (0 <= draws w k < 1)%Q.

(** [runs c w P]: from the page [w], [c] returns normally, with a result and
    a page that satisfy [P]. *)
Definition runs {A : Type} (c : M A) (w : World) (P : A -> World -> Prop) : Prop :=
  exists a w', c w = (Normal a, w') /\ P a w'.

(** The page [w'] differs from [w] at most in the number of draws consumed. *)
Definition only_draws (w w' : World) : Prop :=
  (cursor w <= cursor w')%nat /\ w' = set_cursor (cursor w') w.

(** The largest double below 1. *)
Definition below_one : Q := 1 - 2 ^ (-53).

(** The engine's sort returns a permutation of the array, whatever the
    comparator answers. *)
Definition sort_permutes (e : Engine) : Prop :=
  forall (l : list string) (d : nat -> Q), Permutation (fst (sort_random e l d)) l.

(** [drawing_at w0 c P]: on every page that differs from [w0] in the number
    of draws consumed only, [c] returns normally a result that satisfies [P]
    and changes nothing but the number of draws consumed. *)
Definition drawing_at {A : Type} (w0 : World) (c : M A) (P : A -> Prop) : Prop :=
  forall w, only_draws w0 w ->
    runs c w (fun a w' => P a /\ only_draws w w').

(** The text has no colon. *)
Definition no_colon (s : string) : bool :=
  all_chars (fun c => negb (Ascii.eqb c ":")) s.

(** How a reader of SoQL scans a text literal after its opening quote: a
    doubled quote stands for a quote, a single one closes the literal. The
    result is the value and the text that follows the literal; [None]: the
    literal is not closed. *)
Fixpoint read_literal (s : string) : option (string * string) :=
  match s with
  | EmptyString => None
  | String c rest =>
      if Ascii.eqb c "'" then
        match rest with
        | String c' rest' =>
            if Ascii.eqb c' "'" then
              match read_literal rest' with
              | Some (v, r) => Some (String "'" v, r)
              | None => None
              end
            else Some (EmptyString, rest)
        | EmptyString => Some (EmptyString, EmptyString)
        end
      else
        match read_literal rest with
        | Some (v, r) => Some (String c v, r)
        | None => None
        end
  end.


(** A filter on a borough, with a limit above the 500 that a request may
    ask for. *)
Definition opts_wide : FetchOpts := mkOpts (Some "Brooklyn"%string) None (Some 9999%Z).

(** ** main.js: the canvas, the file strips and the rain *)

(** The canvas element, as the rain reads it: its client size, in pixels. *)
Record Canvas : Type := mkCanvas {
  clientWidth : Z;
  clientHeight : Z
}.

(** An image bitmap is its size; the pixels are not modelled. *)
Record Bitmap : Type := mkBitmap {
  bm_width : Z;
  bm_height : Z
}.

(** [Math.max] and [Math.min] of two finite numbers. *)
Definition Math_max (a b : Q) : Q := if Qle_bool a b then b else a.
Definition Math_min (a b : Q) : Q := if Qle_bool a b then a else b.

(** [arr[i] = v] for an integer [i]: an index at or past the end extends
    the array, with holes in between; a negative one leaves its elements as
    they are. *)
Definition array_set {A : Type} (arr : list (option A)) (i : Z) (v : A) : list (option A) :=
  if (i <? 0)%Z then arr
  else if (i <? Z.of_nat (length arr))%Z then <[Z.to_nat i := Some v]> arr
  else (arr ++ replicate (Z.to_nat i - length arr) None ++ [Some v])%list.

(** ** Computations on a state of the program and the page *)

(** The methods of an object change the object ([S]) and the page, and they
    may throw; what was changed before the exception stays changed. *)
Definition R (S A : Type) : Type := S -> World -> Completion A * S * World.

Definition retR {S A : Type} (a : A) : R S A := fun s w => (Normal a, s, w).

Definition bindR {S A B : Type} (c : R S A) (k : A -> R S B) : R S B :=
  fun s w =>
    match c s w with
    | (Normal a, s', w') => k a s' w'
    | (Throw e, s', w') => (Throw e, s', w')
    end.

Definition throwR {S A : Type} (e : string) : R S A := fun s w => (Throw e, s, w).

(** A computation on the page alone. *)
Definition lift {S A : Type} (c : M A) : R S A :=
  fun s w => let '(o, w') := c w in (o, s, w').

Definition this_ {S : Type} : R S S := fun s w => (Normal s, s, w).
Definition page_ {S : Type} : R S World := fun s w => (Normal w, s, w).
Definition modifyR {S : Type} (f : S -> S) : R S unit := fun s w => (Normal tt, f s, w).

(** The body of an [async] function up to its first suspension: an
    exception rejects the promise and does not reach the caller. *)
Definition async {S : Type} (c : R S unit) : R S unit :=
  fun s w =>
    match c s w with
    | (Normal _, s', w') => (Normal tt, s', w')
    | (Throw _, s', w') => (Normal tt, s', w')
    end.

Declare Scope rain_scope.
Delimit Scope rain_scope with rain.
Notation "x <- c ;; k" := (bindR c (fun x => k))
  (at level 100, c at next level, right associativity) : rain_scope.
Notation "'exec' c ;; k" := (bindR c (fun _ => k))
  (at level 100, c at next level, right associativity) : rain_scope.

(** [for (const x of l) body(x)] *)
Fixpoint forR {S A : Type} (l : list A) (body : A -> R S unit) : R S unit :=
  match l with
  | [] => retR tt
  | x :: r => bindR (body x) (fun _ => forR r body)
  end.

(** ** The class FileStrip *)

Module FileStrip.

Local Open Scope Q_scope.

Record t : Type := mk {
  bitmap : Bitmap;
  w : Z;
  h : Z;
  x : Q;
  y : Q;
  speed : Q;
  _jitterTimer : Q
}.

(** [new FileStrip({ bitmap, w, h, x, y, speed })] *)
Definition new (bitmap : Bitmap) (w h : Z) (x y speed : Q) : t :=
  mk bitmap w h x y speed 0.

(** [update(dt, H)] *)
Definition update (dt : Q) (H : Z) (this : t) : M t :=
  let y1 := F64.add (y this) (F64.mul (speed this) dt) in
  let timer := F64.sub (_jitterTimer this) dt in
  (xt <- (if Qle_bool timer 0 then
            u1 <- Math_random ;;
            let x1 := F64.add (x this) (F64.mul (F64.sub u1 (1 # 2)) 12) in
            u2 <- Math_random ;;
            ret (x1, F64.add 2 (F64.mul u2 2))
          else ret (x this, timer)) ;;
   let y2 := if JS.gtb (F64.sub y1 (inject_Z (h this))) (inject_Z H)
             then - inject_Z (h this) else y1 in
   ret (mk (bitmap this) (w this) (h this) (fst xt) y2 (speed this) (snd xt)))%js.

End FileStrip.

(** ** The class MatrixRain; [rain] is its one instance *)

Module Rain.

Local Open Scope Q_scope.
Local Open Scope string_scope.

(** A glyph column. [x] is [None] when it is not a finite number (the
    column count is zero). An element of [glyphIndices] or of [textBuffer]
    that is [None] is [undefined]. *)
Record Column : Type := mkColumn {
  x : option Z;
  y : Q;
  speed : Q;
  streamLength : Z;
  glyphIndices : list (option Z);
  drift : Q;
  painter : StringPainter.t;
  textBuffer : list (option ascii);
  headHighlightTimer : Q
}.

Definition set_y (v : Q) (c : Column) : Column :=
  mkColumn (x c) v (speed c) (streamLength c) (glyphIndices c) (drift c) (painter c)
           (textBuffer c) (headHighlightTimer c).
Definition set_glyphIndices (v : list (option Z)) (c : Column) : Column :=
  mkColumn (x c) (y c) (speed c) (streamLength c) v (drift c) (painter c)
           (textBuffer c) (headHighlightTimer c).
Definition set_painter (v : StringPainter.t) (c : Column) : Column :=
  mkColumn (x c) (y c) (speed c) (streamLength c) (glyphIndices c) (drift c) v
           (textBuffer c) (headHighlightTimer c).
Definition set_textBuffer (v : list (option ascii)) (c : Column) : Column :=
  mkColumn (x c) (y c) (speed c) (streamLength c) (glyphIndices c) (drift c) (painter c)
           v (headHighlightTimer c).
Definition set_headHighlightTimer (v : Q) (c : Column) : Column :=
  mkColumn (x c) (y c) (speed c) (streamLength c) (glyphIndices c) (drift c) (painter c)
           (textBuffer c) v.

(** The instance. [composing] is not a field of the class: it holds the
    bitmaps of the calls of [spawnFileStrip] whose promise has not settled
    yet. The counter [profileIndex] is an integer; it stays far below 2^53. *)
Record t : Type := mk {
  columns : list Column;
  fileStrips : list FileStrip.t;
  columnCount : Z;
  profilePool : list (option Profile.t);
  profileIndex : Z;
  composing : list Bitmap
}.

Definition set_columns (v : list Column) (r : t) : t :=
  mk v (fileStrips r) (columnCount r) (profilePool r) (profileIndex r) (composing r).
Definition set_fileStrips (v : list FileStrip.t) (r : t) : t :=
  mk (columns r) v (columnCount r) (profilePool r) (profileIndex r) (composing r).
Definition set_columnCount (v : Z) (r : t) : t :=
  mk (columns r) (fileStrips r) v (profilePool r) (profileIndex r) (composing r).
Definition set_profilePool (v : list (option Profile.t)) (r : t) : t :=
  mk (columns r) (fileStrips r) (columnCount r) v (profileIndex r) (composing r).
Definition set_profileIndex (v : Z) (r : t) : t :=
  mk (columns r) (fileStrips r) (columnCount r) (profilePool r) v (composing r).
Definition set_composing (v : list Bitmap) (r : t) : t :=
  mk (columns r) (fileStrips r) (columnCount r) (profilePool r) (profileIndex r) v.

Local Open Scope rain_scope.

(** [buildGlyphSet()]. The half-width kana U+FF71..U+FF9D are the code
    units 177..221 of this model. *)
Definition latin : string := "ABCDEFGHIJKLMNOPQRSTUVWXYZabcdefghijklmnopqrstuvwxyz".
Definition digits : string := "0123456789".
Definition punct : string :=
  "!@#$%^&*()_+-=[]{};:" +:+ String JS.quote_char ",./<>?".
Definition kana : string := JS.of_chars (map ascii_of_nat (seq 177 45)).

Definition buildGlyphSet : list ascii := JS.chars (latin +:+ digits +:+ punct +:+ kana).

Definition characters : list ascii := buildGlyphSet.

(** The literals [0.28], [0.2], [0.002] and [-0.2]. *)
Definition lit_0_28 : Q := F64.round (28 # 100).
Definition lit_0_2 : Q := F64.round (2 # 10).
Definition lit_0_002 : Q := F64.round (2 # 1000).

(** [takeNextProfile()] *)
Definition takeNextProfile : R t (option Profile.t) :=
  this <- this_ ;;
  exec (if Nat.eqb (length (profilePool this)) 0 then
          pool <- lift (DataSource.getProfiles 64) ;;
          modifyR (fun r => set_profileIndex 0 (set_profilePool pool r))
        else retR tt) ;;
  this <- this_ ;;
  let len := Z.of_nat (length (profilePool this)) in
  let p := if (len =? 0)%Z then None
           else match at_index (profilePool this) (Z.rem (profileIndex this) len) with
                | Some o => o
                | None => None
                end in
  exec modifyR (set_profileIndex (profileIndex this + 1)) ;;
  retR p.

(** [new StringPainter(profile, CONFIG.stringStyle)] for a profile that may
    be [undefined]: reading a field of [undefined] is a TypeError. *)
Definition new_painter (profile : option Profile.t) : R t StringPainter.t :=
  w <- page_ ;;
  match profile with
  | Some p => lift (StringPainter.new p (stringStyle (CONFIG w)))
  | None => throwR "TypeError"
  end.

(** [spawnColumn(index, screenH)] *)
Definition spawnColumn (canvas : Canvas) (index : Q) (screenH : Z) : R t Column :=
  this <- this_ ;;
  let x := if (columnCount this =? 0)%Z then None
           else Some (F64.floor
                        (F64.mul index
                           (F64.div (inject_Z (clientWidth canvas))
                                    (inject_Z (columnCount this))))) in
  profile <- takeNextProfile ;;
  painter <- new_painter profile ;;
  w <- page_ ;;
  y <- lift (randi (- inject_Z screenH) 0) ;;
  s <- lift (rand 60 180) ;;
  let speed := F64.mul s (speedScale (CONFIG w)) in
  streamLength <- lift (randi 10 40) ;;
  glyphIndices <-
    lift (replicateM 80 (randi 0 (inject_Z (Z.of_nat (length characters))))) ;;
  drift <- lift (rand (- lit_0_2) lit_0_2) ;;
  textBuffer <- lift (StringPainter.buildGlyphStream painter) ;;
  retR (mkColumn x (inject_Z y) speed streamLength (map Some glyphIndices) drift
          painter textBuffer 0).

(** [Math.floor(col.y / size) % col.textBuffer.length], and whether the
    painter holds it for a key character. A remainder by zero is NaN. *)
Definition headBufferIndex (col : Column) : option Z :=
  let len := Z.of_nat (length (textBuffer col)) in
  if (len =? 0)%Z then None
  else Some (Z.rem (F64.floor (F64.div (y col) MatrixRain.glyphSize)) len).

Definition head_is_key (col : Column) : bool :=
  match headBufferIndex col with
  | Some b => StringPainter.isKeyChar (painter col) b
  | None => false
  end.

(** [buildGlyphSheet()] lays the glyphs out in a grid of thirty-two
    columns, in cells of sixteen pixels. *)
Definition sheet_cols : Z := 32.
Definition cell : Z := 16.
Definition sheet_rows : Z :=
  Qceiling (F64.div (inject_Z (Z.of_nat (length characters))) (inject_Z sheet_cols)).
Definition sheet_width : Z := sheet_cols * cell.
Definition sheet_height : Z := sheet_rows * cell.

(** [this.characters.indexOf(ch)]; [undefined] is no character of the set. *)
Fixpoint indexOf_go (c : ascii) (l : list ascii) (k : Z) : Z :=
  match l with
  | [] => -1
  | x :: rest => if Ascii.eqb x c then k else indexOf_go c rest (k + 1)
  end.

Definition characters_indexOf (ch : option ascii) : Z :=
  match ch with
  | Some c => indexOf_go c characters 0
  | None => -1
  end.

(** In the loop of [draw()] over the glyphs of a stream, for the glyph [i]:
    [bufferIndex = (Math.floor(y / size) - i + 10000) % col.textBuffer.length].
    The sum is a double without a fraction, [%] is the remainder of the
    truncated division, and [None] is NaN (the buffer is empty). *)
Definition draw_bufferIndex (col : Column) (i : Z) : option Z :=
  let len := Z.of_nat (length (textBuffer col)) in
  if (len =? 0)%Z then None
  else
    let sum := F64.add (F64.sub (inject_Z (F64.floor (F64.div (y col) MatrixRain.glyphSize)))
                                (inject_Z i)) 10000 in
    Some (Z.rem (F64.floor sum) len).

(** [ch = col.textBuffer[bufferIndex]]; [None] is [undefined]. *)
Definition draw_char (col : Column) (i : Z) : option ascii :=
  match draw_bufferIndex col i with
  | Some bufferIndex =>
      match at_index (textBuffer col) bufferIndex with
      | Some o => o
      | None => None
      end
  | None => None
  end.

(** [glyphIndex = useFiller ? col.glyphIndices[(i + bufferIndex) %
    col.glyphIndices.length] : gi], with [gi = this.characters.indexOf(ch)]
    and [useFiller = gi === -1]; [None]: it is not a number. *)
Definition draw_glyphIndex (col : Column) (i : Z) : option Z :=
  match draw_bufferIndex col i with
  | None => None
  | Some bufferIndex =>
      let gi := characters_indexOf (draw_char col i) in
      let useFiller := (gi =? -1)%Z in
      if useFiller then
        let n := Z.of_nat (length (glyphIndices col)) in
        if (n =? 0)%Z then None
        else match at_index (glyphIndices col) (Z.rem (i + bufferIndex) n) with
             | Some o => o
             | None => None
             end
      else Some gi
  end.

(** The corner [(sx, sy)] of the cell of the sheet that [draw()] copies for
    the glyph [i] of the stream of a column:
    [sx = (glyphIndex % cols) * cell] and
    [sy = Math.floor(glyphIndex / cols) * cell]; [None] when the index of
    the glyph is not a number. *)
Definition source_cell (col : Column) (i : Z) : option (Z * Z) :=
  match draw_glyphIndex col i with
  | Some g =>
      Some ((Z.rem g sheet_cols * cell)%Z,
            (F64.floor (F64.div (inject_Z g) (inject_Z sheet_cols)) * cell)%Z)
  | None => None
  end.

(** The column [i] of [this.columns], and an assignment to it. *)
Definition with_column (i : nat) (k : Column -> R t unit) : R t unit :=
  this <- this_ ;;
  match columns this !! i with
  | Some col => k col
  | None => retR tt
  end.

Definition assign_column (i : nat) (col : Column) : R t unit :=
  modifyR (fun r => set_columns (<[i := col]> (columns r)) r).

(** The body of the loop of [update(dt)] over the glyph columns, for the
    column [i]. *)
Definition update_column (canvas : Canvas) (dt : Q) (i : nat) : R t unit :=
  w <- page_ ;;
  let h := clientHeight canvas in
  let size := MatrixRain.glyphSize in
  let speedScale := speedScale (CONFIG w) in
  (* col.y += col.speed * speedScale * dt *)
  exec with_column i (fun col =>
         assign_column i
           (set_y (F64.add (y col) (F64.mul (F64.mul (speed col) speedScale) dt)) col)) ;;
  (* if (col.painter && col.painter.isKeyChar(headBufferIndex)) ... *)
  exec with_column i (fun col =>
         if head_is_key col then assign_column i (set_headHighlightTimer lit_0_28 col)
         else retR tt) ;;
  (* if (col.y - col.streamLength * size > h + 20) Object.assign(col, spawnColumn(...)) *)
  exec with_column i (fun col =>
         if JS.gtb (F64.sub (y col) (F64.mul (inject_Z (streamLength col)) size))
                   (F64.add (inject_Z h) 20)
         then
           this <- this_ ;;
           u <- lift Math_random ;;
           fresh <- spawnColumn canvas (F64.mul u (inject_Z (columnCount this))) h ;;
           assign_column i fresh
         else retR tt) ;;
  (* if (Math.random() < 0.2) col.glyphIndices[idx] = randi(0, characters.length) *)
  exec (u <- lift Math_random ;;
        if JS.ltb u lit_0_2 then
          with_column i (fun col =>
            idx <- lift (randi 0 (inject_Z (Z.of_nat (length (glyphIndices col))))) ;;
            v <- lift (randi 0 (inject_Z (Z.of_nat (length characters)))) ;;
            assign_column i (set_glyphIndices (array_set (glyphIndices col) idx v) col))
        else retR tt) ;;
  (* if (Math.random() < 0.002) a new painter and a new text buffer *)
  exec (u <- lift Math_random ;;
        if JS.ltb u lit_0_002 then
          profile <- takeNextProfile ;;
          painter <- new_painter profile ;;
          exec with_column i (fun col => assign_column i (set_painter painter col)) ;;
          buffer <- lift (StringPainter.buildGlyphStream painter) ;;
          with_column i (fun col => assign_column i (set_textBuffer buffer col))
        else retR tt) ;;
  (* col.headHighlightTimer = Math.max(0, col.headHighlightTimer - dt) *)
  with_column i (fun col =>
    assign_column i
      (set_headHighlightTimer (Math_max 0 (F64.sub (headHighlightTimer col) dt)) col)).

(** The number of strips that the file mode maintains:
    [clamp(Math.floor(40 * CONFIG.densityScale), 10, 100)]. *)
Definition target (cfg : Config) : Z :=
  clamp (F64.floor (F64.mul 40 (densityScale cfg))) 10 100.

(** [CONFIG.speedMin] and [CONFIG.speedMax]; nothing assigns them. *)
Definition speedMin : Q := 80.
Definition speedMax : Q := 160.

(** The rest of [spawnFileStripFrom(profile)], once the bitmap is there. *)
Definition spawnFileStripFrom_resume (canvas : Canvas) (bitmap : Bitmap) : M FileStrip.t :=
  (let w := bm_width bitmap in
   let h := bm_height bitmap in
   x <- rand 0 (F64.sub (inject_Z (clientWidth canvas)) (inject_Z w)) ;;
   r <- rand 0 (inject_Z (clientHeight canvas)) ;;
   let y := F64.sub (- inject_Z h) r in
   s <- rand speedMin speedMax ;;
   page <- get_world ;;
   let speed := F64.mul s (speedScale (CONFIG page)) in
   ret (FileStrip.new bitmap w h x y speed))%js.

(** [for (const s of this.fileStrips) s.update(dt, h)], strip by strip. *)
Definition update_strip (dt : Q) (h : Z) (i : nat) : R t unit :=
  this <- this_ ;;
  match fileStrips this !! i with
  | Some s =>
      s' <- lift (FileStrip.update dt h s) ;;
      modifyR (fun r => set_fileStrips (<[i := s']> (fileStrips r)) r)
  | None => retR tt
  end.

Section Composer.

(** [composeFileBitmap(profile, style, CONFIG.textCfg)] measures and draws
    the text of the profile. It is kept abstract: [compose p style draws]
    is the bitmap that its promise resolves with ([None]: the promise
    rejects) and the number of draws that the encoder consumed. *)
Variable compose : Profile.t -> string -> (nat -> Q) -> option Bitmap * nat.

(** The call [composeFileBitmap(profile, ...)] up to its suspension. *)
Definition composeFileBitmap (profile : option Profile.t) : R t Bitmap :=
  match profile with
  | None => throwR "TypeError"
  | Some p =>
      fun r w =>
        let '(b, used) :=
          compose p (stringStyle (CONFIG w)) (fun k => draws w (cursor w + k)%nat) in
        (match b with
         | Some bitmap => Normal bitmap
         | None => Throw "InvalidStateError"
         end, r, set_cursor (cursor w + used)%nat w)
  end.

(** [this.spawnFileStrip().then(s => { if (s) this.fileStrips.push(s); })]
    up to the suspension: the profile is taken and the bitmap is being
    composed. *)
Definition spawnFileStrip : R t unit :=
  async (profile <- takeNextProfile ;;
         bitmap <- composeFileBitmap profile ;;
         modifyR (fun r => set_composing (composing r ++ [bitmap]) r)).

(** The composition [k] in flight settles: the strip is made and pushed. *)
Definition strip_settles (canvas : Canvas) (k : nat) : R t unit :=
  this <- this_ ;;
  match composing this !! k with
  | None => retR tt
  | Some bitmap =>
      exec modifyR (fun r => set_composing (delete k (composing r)) r) ;;
      strip <- lift (spawnFileStripFrom_resume canvas bitmap) ;;
      modifyR (fun r => set_fileStrips (fileStrips r ++ [strip]) r)
  end.

(** Every composition in flight settles, the oldest first. *)
Definition strips_settle (canvas : Canvas) : R t unit :=
  this <- this_ ;;
  forR (seq 0 (length (composing this))) (fun _ => strip_settles canvas 0).

(** [resetColumns()] *)
Definition resetColumns (canvas : Canvas) : R t unit :=
  page <- page_ ;;
  let w := clientWidth canvas in
  let h := clientHeight canvas in
  if String.eqb (mode (CONFIG page)) "glyph" then
    let numCols := MatrixRain.numCols (CONFIG page) (inject_Z w) in
    exec modifyR (set_columnCount numCols) ;;
    exec modifyR (set_columns []) ;;
    exec forR (seq 0 (Z.to_nat numCols)) (fun i =>
           col <- spawnColumn canvas (inject_Z (Z.of_nat i)) h ;;
           modifyR (fun r => set_columns (columns r ++ [col]) r)) ;;
    modifyR (set_fileStrips [])
  else
    exec modifyR (set_fileStrips []) ;;
    exec forR (seq 0 (Z.to_nat (target (CONFIG page)))) (fun _ => spawnFileStrip) ;;
    modifyR (set_columns []).

(** [update(dt)] *)
Definition update (canvas : Canvas) (dt : Q) : R t unit :=
  page <- page_ ;;
  this <- this_ ;;
  let h := clientHeight canvas in
  if String.eqb (mode (CONFIG page)) "glyph" then
    let desiredCols := MatrixRain.desiredCols (CONFIG page) (inject_Z (clientWidth canvas)) in
    if negb (desiredCols =? columnCount this)%Z then resetColumns canvas
    else forR (seq 0 (length (columns this))) (update_column canvas dt)
  else
    let target := target (CONFIG page) in
    let n := Z.of_nat (length (fileStrips this)) in
    exec (if (n <? target)%Z then
            forR (seq 0 (Z.to_nat (target - n))) (fun _ => spawnFileStrip)
          else if (n >? target)%Z then
            modifyR (fun r => set_fileStrips (take (Z.to_nat target) (fileStrips r)) r)
          else retR tt) ;;
    this <- this_ ;;
    forR (seq 0 (length (fileStrips this))) (update_strip dt h).

(** [draw()] paints; of the state it touches the draws only: in file mode,
    one for each strip. *)
Definition draw : R t unit :=
  page <- page_ ;;
  this <- this_ ;;
  if String.eqb (mode (CONFIG page)) "glyph" then retR tt
  else forR (fileStrips this) (fun _ => exec lift Math_random ;; retR tt).

(** [new MatrixRain(ctx)] *)
Definition initial : t := mk [] [] 0 [] 0 [].

Definition new (canvas : Canvas) : R t unit := resetColumns canvas.

(** [triggerDataRefresh()] *)
Definition triggerDataRefresh (canvas : Canvas) : R t unit := resetColumns canvas.

End Composer.

End Rain.

(** ** Notions used in the statements about the rain *)

(** [tame c]: however [c] ends, it changes nothing of the page but the
    number of draws consumed. *)
Definition tame {A : Type} (c : M A) : Prop := forall w, only_draws w (snd (c w)).

(** [quiet c]: on a rain whose pool of profiles is not empty, [c] keeps
    the pool and, however it ends, changes nothing of the page but the
    number of draws consumed. *)
Definition quiet {A : Type} (c : R Rain.t A) : Prop :=
  forall r w, Rain.profilePool r <> [] ->
    only_draws w (snd (c r w)) /\
    Rain.profilePool (snd (fst (c r w))) = Rain.profilePool r.

(** [runsR c s w P]: from the state [s] and the page [w], [c] returns
    normally, with a result, a state and a page that satisfy [P]. *)
Definition runsR {S A : Type} (c : R S A) (s : S) (w : World)
    (P : A -> S -> World -> Prop) : Prop :=
  exists a s' w', c s w = (Normal a, s', w') /\ P a s' w'.

(** A page with the configuration [cfg] whose draws are doubles in [0, 1). *)
Definition good (cfg : Config) (w : World) : Prop := unit_draws w /\ CONFIG w = cfg.

(** The page [w'] holds the data that [w] holds: the pool of the data
    source, its queued requests, the requests sent and the storage. *)
Definition same_data (w w' : World) : Prop :=
  cachedProfiles w' = cachedProfiles w /\ pending w' = pending w /\
  requests w' = requests w /\ localStorage w' = localStorage w.

(** ** Concrete rains, used to run the model *)

Module RainSamples.

Local Open Scope string_scope.

(** A canvas of 400 by 300 pixels. *)
Definition canvas0 : Canvas := mkCanvas 400 300.

(** A composer whose bitmaps are all 300 by 100 pixels. *)
Definition compose0 (p : Profile.t) (style : string) (d : nat -> Q) : option Bitmap * nat :=
  (Some (mkBitmap 300 100), 0%nat).

(** A page in glyph mode with the kv style, at density scale [d], on which
    every draw is one half. *)
Definition glyph_page (d : Q) : World :=
  mkWorld (fun _ => 1 # 2) 0 1762045000000 Samples.engine0 ∅ true
          (fun _ => (NetFail, 120%N)) [] "" "xxxx-xxxx" (Some 1000%Z)
          (mkConfig d 1 (6 # 10) "green" "fake" "" "" "kv" 160 "glyph") [] [].

(** The same page in file mode. *)
Definition file_page (d : Q) : World :=
  mkWorld (fun _ => 1 # 2) 0 1762045000000 Samples.engine0 ∅ true
          (fun _ => (NetFail, 120%N)) [] "" "xxxx-xxxx" (Some 1000%Z)
          (mkConfig d 1 (6 # 10) "green" "fake" "" "" "kv" 160 "file") [] [].

(** A rain whose pool holds the second embedded sample only. *)
Definition rain0 : Rain.t := Rain.set_profilePool [Some Samples.sampleB] Rain.initial.

End RainSamples.

(** The pool of the rain holds profiles only, and its counter is not
    negative. *)
Definition rain_ok (r : Rain.t) : Prop :=
  Forall is_Some (Rain.profilePool r) /\ (0 <= Rain.profileIndex r)%Z.

(** The buffer of a column is the text of its painter between two paddings
    of forty characters each, every one of them a character of the filler
    alphabet. *)
Definition buffer_made (col : Rain.Column) : Prop :=
  exists left right : list (option ascii),
    Rain.textBuffer col
    = (left ++ map Some (JS.chars (StringPainter.this_string (Rain.painter col))) ++ right)%list /\
    length left = 40%nat /\ length right = 40%nat /\
    Forall (fun o => exists c, o = Some c /\ In c (JS.chars StringPainter.filler))
           (left ++ right)%list.

(** A column as [spawnColumn] makes it, but for its [x]: it starts at or
    above the top edge of the canvas; its stream has ten to forty glyphs; its
    eighty glyph indices point into the glyph set; its buffer is the text of
    its painter between two paddings of forty filler characters; it has no
    highlight. *)
Definition column_made (canvas : Canvas) (col : Rain.Column) : Prop :=
  (exists yi, Rain.y col = inject_Z yi /\ (- clientHeight canvas <= yi <= 0)%Z) /\
  (10 <= Rain.streamLength col <= 40)%Z /\
  length (Rain.glyphIndices col) = 80%nat /\
  Forall (fun g => exists k, g = Some k /\
                             (0 <= k < Z.of_nat (length Rain.characters))%Z)
         (Rain.glyphIndices col) /\
  buffer_made col /\
  Rain.headHighlightTimer col = 0%Q.

(** The column [k] of [count] columns, as [resetColumns] makes it: its [x]
    is [Math.floor(k * (clientWidth / count))]. *)
Definition column_at (canvas : Canvas) (count : Z) (col : Rain.Column) : Prop :=
  (exists k : Z,
     (0 <= k < count)%Z /\
     Rain.x col
     = Some (F64.floor (F64.mul (inject_Z k)
                          (F64.div (inject_Z (clientWidth canvas)) (inject_Z count))))) /\
  column_made canvas col.

(** A column as [resetColumns] makes it on the canvas: it starts within
    the width of the canvas, [0 <= x < clientWidth], and at [x = 0] on a
    canvas that has no width. *)
Definition fresh_column (canvas : Canvas) (col : Rain.Column) : Prop :=
  (exists xi, Rain.x col = Some xi /\ (0 <= xi < Z.max 1 (clientWidth canvas))%Z) /\
  column_made canvas col.

(** A column while it falls: its [x] is a number; its stream has ten to
    forty glyphs; its eighty glyph indices point into the glyph set; its
    buffer is the text of its painter between two paddings of forty filler
    characters; its highlight timer is not negative; it is not higher above
    the canvas than the canvas is high, and its speed is not negative. *)
Definition steady_column (canvas : Canvas) (col : Rain.Column) : Prop :=
  is_Some (Rain.x col) /\
  (10 <= Rain.streamLength col <= 40)%Z /\
  length (Rain.glyphIndices col) = 80%nat /\
  Forall (fun g => exists k, g = Some k /\
                             (0 <= k < Z.of_nat (length Rain.characters))%Z)
         (Rain.glyphIndices col) /\
  buffer_made col /\
  (0 <= Rain.headHighlightTimer col)%Q /\
  (- inject_Z (clientHeight canvas) <= Rain.y col)%Q /\
  (0 <= Rain.speed col)%Q.


(** What the rain keeps when only its pool and its counter change. *)
Definition same_columns (r r' : Rain.t) : Prop :=
  Rain.columns r' = Rain.columns r /\ Rain.fileStrips r' = Rain.fileStrips r /\
  Rain.columnCount r' = Rain.columnCount r /\ Rain.composing r' = Rain.composing r.

(** [keeps f c]: however [c] ends, it leaves the part [f] of the rain as it
    is. *)
Definition keeps {X A : Type} (f : Rain.t -> X) (c : R Rain.t A) : Prop :=
  forall r w, f (snd (fst (c r w))) = f r.

(** [returns c]: [c] returns normally from every state. *)
Definition returns {St : Type} (c : R St unit) : Prop :=
  forall s w, exists s' w', c s w = (Normal tt, s', w').

(** The composer never fails. *)
Definition composes (compose : Profile.t -> string -> (nat -> Q) -> option Bitmap * nat) : Prop :=
  forall p style d, is_Some (fst (compose p style d)).

(** ** main.js: the ticker *)

Module Ticker.

Local Open Scope Q_scope.
Local Open Scope rain_scope.

(** The state of the program between two frames: the rain, the variables
    [last], [fpsAcc] and [fpsCount], and the number that the text of the
    element [#fps] shows ([None]: the script has not written it). *)
Record t : Type := mk {
  rain : Rain.t;
  last : Q;
  fpsAcc : Q;
  fpsCount : Q;
  fpsText : option Z
}.

Definition set_rain (v : Rain.t) (s : t) : t :=
  mk v (last s) (fpsAcc s) (fpsCount s) (fpsText s).
Definition set_last (v : Q) (s : t) : t :=
  mk (rain s) v (fpsAcc s) (fpsCount s) (fpsText s).
Definition set_fpsAcc (v : Q) (s : t) : t :=
  mk (rain s) (last s) v (fpsCount s) (fpsText s).
Definition set_fpsCount (v : Q) (s : t) : t :=
  mk (rain s) (last s) (fpsAcc s) v (fpsText s).
Definition set_fpsText (v : option Z) (s : t) : t :=
  mk (rain s) (last s) (fpsAcc s) (fpsCount s) v.

(** A method of the rain, called on [rain]. *)
Definition on_rain {A : Type} (c : R Rain.t A) : R t A :=
  fun s w => let '(o, r', w') := c (rain s) w in (o, set_rain r' s, w').

(** The literal [0.05]. *)
Definition lit_0_05 : Q := F64.round (5 # 100).

Section Composer.

Variable compose : Profile.t -> string -> (nat -> Q) -> option Bitmap * nat.
Variable canvas : Canvas.

(** [tick()], up to [requestAnimationFrame(tick)]. [now] is what
    [performance.now()] returns, and [showFps] is [CONFIG.showFps] when the
    meter reads it. *)
Definition tick (now : Q) (showFps : bool) : R t unit :=
  this <- this_ ;;
  let dt := Math_min lit_0_05 (F64.div (F64.sub now (last this)) 1000) in
  exec modifyR (set_last now) ;;
  exec on_rain (Rain.update compose canvas dt) ;;
  exec on_rain Rain.draw ;;
  (* fpsAcc += dt; fpsCount++ *)
  exec modifyR (fun s => set_fpsCount (F64.add (fpsCount s) 1)
                           (set_fpsAcc (F64.add (fpsAcc s) dt) s)) ;;
  this <- this_ ;;
  if Qle_bool (1 # 2) (fpsAcc this) then
    let fps := F64.Math_round (F64.div (fpsCount this) (fpsAcc this)) in
    exec (if showFps then modifyR (set_fpsText (Some fps)) else retR tt) ;;
    modifyR (fun s => set_fpsCount 0 (set_fpsAcc 0 s))
  else retR tt.

(** The frames of an animation: each one calls [tick] and asks for the
    next; an exception in [tick] ends the animation. *)
Definition frames (l : list (Q * bool)) : R t unit :=
  forR l (fun f => tick (fst f) (snd f)).

End Composer.

(** The readings of [performance.now()] do not go back. *)
Fixpoint ascending (from : Q) (l : list (Q * bool)) : Prop :=
  match l with
  | [] => True
  | f :: rest => from <= fst f /\ ascending (fst f) rest
  end.

(** What the meter shows is not below twenty. *)
Definition shows_20_or_more (s : t) : Prop :=
  match fpsText s with
  | Some f => (20 <= f)%Z
  | None => True
  end.

(** The largest step of the meter, with the error of one addition. *)
Definition step_max : Q := lit_0_05 + 2 ^ (-54).

(** The meter between two frames, at most [n] frames after the first: it
    was reset [k] frames ago. *)
Definition meter_ok (n : Z) (s : t) : Prop :=
  exists k : Z,
    (0 <= k <= n)%Z /\ fpsCount s == inject_Z k /\
    0 <= fpsAcc s /\ fpsAcc s < 1 # 2 /\ fpsAcc s <= inject_Z k * step_max /\
    shows_20_or_more s.

End Ticker.

(** ** main.js: the lines of a file strip *)

Module Lines.

Local Open Scope string_scope.

(** A line of a strip: its text and the width measured for it. *)
Record Line : Type := mkLine {
  text : string;
  width : Q
}.

(** The white space of [\s] among the characters of this model: tab, line
    feed, vertical tab, form feed, carriage return and space. *)
Definition is_space (c : ascii) : bool :=
  let n := nat_of_ascii c in
  ((9 <=? n) && (n <=? 13) || (n =? 32))%nat.

(** [text.split(/\s+/)]: the pieces between the runs of white space; a text
    that begins or ends with white space gives an empty first or last
    piece, and the empty text gives one empty piece. [cur] is the piece
    being read, last character first, and [gap] tells that the character
    before was white space. *)
Fixpoint split_go (l : list ascii) (cur : list ascii) (gap : bool) : list string :=
  match l with
  | [] => [JS.of_chars (rev cur)]
  | c :: r =>
      if is_space c then
        if gap then split_go r cur true
        else JS.of_chars (rev cur) :: split_go r [] true
      else split_go r (c :: cur) false
  end.

Definition split_spaces (s : string) : list string := split_go (JS.chars s) [] false.

(** A string is truthy when it is not empty. *)
Definition truthy (s : string) : bool :=
  match s with
  | EmptyString => false
  | String _ _ => true
  end.

Section Measure.

(** [c.measureText(s).width] in the monospace font of the given size. *)
Variable measureText : Z -> string -> Q.

(** The loop of [buildLines] over the words. *)
Fixpoint wrap (maxWidth : Q) (fontSize : Z) (words : list string)
    (current : string) (lines : list Line) : list Line * string :=
  match words with
  | [] => (lines, current)
  | w :: rest =>
      let test := if truthy current then current +:+ " " +:+ w else w in
      let width := F64.add (measureText fontSize test) 16 in
      if JS.gtb width maxWidth && truthy current then
        wrap maxWidth fontSize rest w
             (lines ++ [mkLine current (measureText fontSize current)])%list
      else wrap maxWidth fontSize rest test lines
  end.

(** [buildLines(profile, style, maxWidth, fontSize)] *)
Definition buildLines (profile : Profile.t) (style : string) (maxWidth : Q) (fontSize : Z)
    : M (list Line) :=
  (painter <- StringPainter.new profile style ;;
   text <- StringPainter.build profile style ;;
   let words := split_spaces text in
   let '(lines, current) := wrap maxWidth fontSize words "" [] in
   ret (if truthy current
        then (lines ++ [mkLine current (measureText fontSize current)])%list
        else lines))%js.

End Measure.

(** The words of the group [g] fit in a line of the width [maxWidth] with
    the margin of sixteen pixels; a group of one word is not measured. *)
Definition fits (measureText : Z -> string -> Q) (maxWidth : Q) (fontSize : Z)
    (g : list string) : Prop :=
  (2 <= length g)%nat ->
  (F64.add (measureText fontSize (String.concat " " g)) 16 <= maxWidth)%Q.

(** The text ends with a character that is not white space. *)
Definition last_ok (s : string) : bool :=
  match rev (JS.chars s) with
  | d :: _ => negb (is_space d)
  | [] => false
  end.

(** The text begins with a character that is not white space. *)
Definition first_ok (s : string) : bool :=
  match s with
  | String c _ => negb (is_space c)
  | EmptyString => false
  end.

(** The state of the loop of [buildLines]: the lines pushed are the groups
    [gs], joined with spaces, and [current] is the group [g]. *)
Definition wrapped (measureText : Z -> string -> Q) (maxWidth : Q) (fontSize : Z)
    (gs : list (list string)) (g : list string) (lines : list Line) (current : string) : Prop :=
  map text lines = map (String.concat " ") gs /\
  current = String.concat " " g /\
  Forall (fun g0 => g0 <> []) gs /\
  Forall (Forall (fun wd => wd <> "")) (g :: gs) /\
  Forall (fits measureText maxWidth fontSize) (g :: gs) /\
  Forall (fun l => width l = measureText fontSize (text l)) lines.

End Lines.

(** * Properties of the rounding model *)

Module F64Facts.
Import F64.
Local Open Scope Q_scope.

Ltac qcmp :=
  repeat match goal with
  | H : Qcompare ?a ?b = Eq |- _ => apply (proj2 (Qeq_alt a b)) in H
  | H : Qcompare ?a ?b = Lt |- _ => apply (proj2 (Qlt_alt a b)) in H
  | H : Qcompare ?a ?b = Gt |- _ => apply (proj2 (Qgt_alt a b)) in H
  end.

Lemma pow2_pos (e : Z) : 0 < 2 ^ e.
Proof. apply Qpower_0_lt. reflexivity. Qed.

Lemma pow2_le (a b : Z) : (a <= b)%Z -> 2 ^ a <= 2 ^ b.
Proof. intros H. apply Qpower_le_compat_l; [exact H | discriminate]. Qed.

Lemma pow2_lt (a b : Z) : (a < b)%Z -> 2 ^ a < 2 ^ b.
Proof. intros H. apply Qpower_lt_compat_l; [exact H | reflexivity]. Qed.

Lemma pow2_inject (a : Z) : (0 <= a)%Z -> inject_Z (2 ^ a) == 2 ^ a.
Proof. intros H. apply (Zpower_Qpower 2 a H). Qed.

Lemma pow2_split (a b : Z) : 2 ^ (a + b) == 2 ^ a * 2 ^ b.
Proof. apply Qpower_plus. discriminate. Qed.

Lemma ilog2_spec (x : Q) : 0 < x -> 2 ^ ilog2 x <= x /\ x < 2 ^ (ilog2 x + 1).
Proof.
  intros Hx. unfold ilog2.
  destruct x as [n d]. cbn [Qnum Qden].
  assert (Hn : (0 < n)%Z).
  { unfold Qlt in Hx. cbn in Hx. lia. }
  set (ln := Z.log2 n). set (ld := Z.log2 (Z.pos d)).
  assert (Hln : (0 <= ln)%Z) by apply Z.log2_nonneg.
  assert (Hld : (0 <= ld)%Z) by apply Z.log2_nonneg.
  destruct (Z.log2_spec n Hn) as [Hn1 Hn2].
  destruct (Z.log2_spec (Z.pos d)) as [Hd1 Hd2]; [lia |].
  fold ln in Hn1, Hn2. fold ld in Hd1, Hd2.
  assert (Hx' : n # d == inject_Z n / inject_Z (Z.pos d)) by apply Qmake_Qdiv.
  assert (Hdpos : 0 < inject_Z (Z.pos d)).
  { replace 0 with (inject_Z 0) by reflexivity. rewrite <- Zlt_Qlt. lia. }
  (* bounds on numerator and denominator, as rationals *)
  assert (Qn1 : 2 ^ ln <= inject_Z n).
  { rewrite <- pow2_inject by lia. rewrite <- Zle_Qle. exact Hn1. }
  assert (Qn2 : inject_Z n < 2 ^ (ln + 1)).
  { rewrite <- pow2_inject by lia. rewrite <- Zlt_Qlt. exact Hn2. }
  assert (Qd1 : 2 ^ ld <= inject_Z (Z.pos d)).
  { rewrite <- pow2_inject by lia. rewrite <- Zle_Qle. exact Hd1. }
  assert (Qd2 : inject_Z (Z.pos d) < 2 ^ (ld + 1)).
  { rewrite <- pow2_inject by lia. rewrite <- Zlt_Qlt. exact Hd2. }
  pose proof (pow2_pos ld) as Pld.
  pose proof (pow2_pos (ln - ld)) as Pk.
  pose proof (pow2_pos (ln - ld - 1)) as Pk1.
  assert (E1 : 2 ^ (ln + 1) == 2 ^ (ln - ld + 1) * 2 ^ ld).
  { rewrite <- pow2_split. f_equiv. lia. }
  assert (E2 : 2 ^ ln == 2 ^ (ln - ld - 1) * 2 ^ (ld + 1)).
  { rewrite <- pow2_split. f_equiv. lia. }
  assert (E3 : 2 ^ (ln - ld - 1 + 1) == 2 ^ (ln - ld)).
  { f_equiv. lia. }
  assert (Hup : n # d < 2 ^ (ln - ld + 1)).
  { rewrite Hx'. apply Qlt_shift_div_r; [exact Hdpos |].
    eapply Qlt_le_trans; [exact Qn2 |]. rewrite E1.
    apply Qmult_le_l; [apply pow2_pos | exact Qd1]. }
  assert (Hlo : 2 ^ (ln - ld - 1) <= n # d).
  { rewrite Hx'. apply Qle_shift_div_l; [exact Hdpos |].
    eapply Qle_trans; [| exact Qn1]. rewrite E2.
    apply Qmult_le_l; [exact Pk1 |]. apply Qlt_le_weak. exact Qd2. }
  destruct (Qle_bool (2 ^ (ln - ld)) (n # d)) eqn:Hb.
  - apply Qle_bool_iff in Hb. split; [exact Hb | exact Hup].
  - split; [exact Hlo |]. rewrite E3.
    apply Qnot_le_lt. intros Hc. apply Qle_bool_iff in Hc. congruence.
Qed.

Lemma ilog2_mono (x y : Q) : 0 < x -> x <= y -> (ilog2 x <= ilog2 y)%Z.
Proof.
  intros Hx Hxy.
  destruct (ilog2_spec x Hx) as [Lx _].
  destruct (ilog2_spec y) as [_ Uy]; [lra |].
  assert (H : 2 ^ ilog2 x < 2 ^ (ilog2 y + 1)) by lra.
  apply Qpower_lt_compat_l_inv in H; [lia | reflexivity].
Qed.

Lemma rne_bounds (q : Q) : (Qfloor q <= rne q <= Qfloor q + 1)%Z.
Proof.
  unfold rne. destruct (Qcompare _ _); [destruct (Z.even _) | |]; lia.
Qed.

Lemma rne_Z (k : Z) : rne (inject_Z k) = k.
Proof.
  unfold rne. rewrite Qfloor_Z.
  destruct (Qcompare (inject_Z k - inject_Z k) (1 # 2)) eqn:C.
  - apply Qeq_alt in C. lra.
  - reflexivity.
  - apply Qgt_alt in C. lra.
Qed.

Lemma rne_mono (x y : Q) : x <= y -> (rne x <= rne y)%Z.
Proof.
  intros Hxy.
  pose proof (Qfloor_resp_le x y Hxy) as Hf.
  pose proof (rne_bounds x) as Bx. pose proof (rne_bounds y) as By.
  destruct (Z.eq_dec (Qfloor x) (Qfloor y)) as [E | N]; [| lia].
  unfold rne in *. rewrite E in *.
  destruct (Qcompare (x - inject_Z (Qfloor y)) (1 # 2)) eqn:Cx;
    destruct (Qcompare (y - inject_Z (Qfloor y)) (1 # 2)) eqn:Cy;
    try (destruct (Z.even (Qfloor y))); try lia; exfalso; qcmp; lra.
Qed.

Lemma rne_nonneg (x : Q) : 0 <= x -> (0 <= rne x)%Z.
Proof.
  intros H. change 0%Z with (rne (inject_Z 0)) at 1. rewrite rne_Z.
  rewrite <- (rne_Z 0). apply rne_mono. exact H.
Qed.

Lemma round_pos_nonneg (x : Q) : 0 < x -> 0 <= round_pos x.
Proof.
  intros Hx. unfold round_pos. cbv zeta.
  pose proof (pow2_pos (ulp_exp x)) as P.
  apply Qmult_le_0_compat; [| lra].
  replace 0 with (inject_Z 0) by reflexivity. rewrite <- Zle_Qle.
  apply rne_nonneg. apply Qle_shift_div_l; [exact P | lra].
Qed.

(** Scaling by the unit in the last place and rounding to an integer is
    monotone across binades: the power of two between the arguments is
    itself representable at both scales. *)
Lemma round_pos_mono (x y : Q) : 0 < x -> x <= y -> round_pos x <= round_pos y.
Proof.
  intros Hx Hxy. assert (Hy : 0 < y) by lra.
  pose proof (ilog2_mono x y Hx Hxy) as He.
  unfold round_pos. cbv zeta.
  set (sx := ulp_exp x). set (sy := ulp_exp y).
  assert (Hs : (sx <= sy)%Z) by (unfold sx, sy, ulp_exp; lia).
  pose proof (pow2_pos sx) as Px. pose proof (pow2_pos sy) as Py.
  destruct (Z.eq_dec sx sy) as [E | N].
  - rewrite E. apply Qmult_le_compat_r; [| lra].
    rewrite <- Zle_Qle. apply rne_mono.
    apply Qmult_le_compat_r; [exact Hxy |].
    apply Qlt_le_weak. apply Qinv_lt_0_compat. exact Py.
  - assert (Hsy : sy = (ilog2 y - 52)%Z) by (unfold sx, sy, ulp_exp in *; lia).
    assert (Hex : (ilog2 x + 1 <= ilog2 y)%Z) by (unfold sx, sy, ulp_exp in *; lia).
    destruct (ilog2_spec x Hx) as [_ Ux]. destruct (ilog2_spec y Hy) as [Ly _].
    set (B := 2 ^ ilog2 y) in *.
    assert (HxB : x <= B).
    { apply Qlt_le_weak. eapply Qlt_le_trans; [exact Ux |].
      unfold B. apply pow2_le. exact Hex. }
    assert (Bx : B == inject_Z (2 ^ (ilog2 y - sx)) * 2 ^ sx).
    { rewrite pow2_inject by lia. rewrite <- pow2_split. unfold B.
      f_equiv. lia. }
    assert (By : B == inject_Z (2 ^ 52) * 2 ^ sy).
    { rewrite pow2_inject by lia. rewrite <- pow2_split. unfold B.
      f_equiv. lia. }
    apply Qle_trans with B.
    + rewrite Bx. apply Qmult_le_compat_r; [| lra].
      rewrite <- Zle_Qle. rewrite <- (rne_Z (2 ^ (ilog2 y - sx))).
      apply rne_mono. apply Qle_shift_div_r; [exact Px |].
      rewrite <- Bx. exact HxB.
    + rewrite By. apply Qmult_le_compat_r; [| lra].
      rewrite <- Zle_Qle. rewrite <- (rne_Z (2 ^ 52)) at 1.
      apply rne_mono. apply Qle_shift_div_l; [exact Py |].
      rewrite <- By. exact Ly.
Qed.

Lemma round_nonneg (x : Q) : 0 <= x -> 0 <= round x.
Proof.
  intros Hx. unfold round.
  destruct (Qcompare x 0) eqn:C.
  - lra.
  - apply Qlt_alt in C. lra.
  - apply Qgt_alt in C. rewrite Qred_correct. apply round_pos_nonneg. exact C.
Qed.

Lemma round_nonpos (x : Q) : x <= 0 -> round x <= 0.
Proof.
  intros Hx. unfold round.
  destruct (Qcompare x 0) eqn:C.
  - lra.
  - apply Qlt_alt in C. rewrite Qred_correct.
    assert (0 <= round_pos (- x)) by (apply round_pos_nonneg; lra). lra.
  - apply Qgt_alt in C. lra.
Qed.

(** Rounding to nearest is monotone. *)
Lemma round_mono (x y : Q) : x <= y -> round x <= round y.
Proof.
  intros Hxy.
  destruct (Qlt_le_dec 0 x) as [Px | Nx].
  - unfold round.
    assert (Cx : Qcompare x 0 = Gt) by (apply Qgt_alt; exact Px).
    assert (Cy : Qcompare y 0 = Gt) by (apply Qgt_alt; lra).
    rewrite Cx, Cy, !Qred_correct. apply round_pos_mono; assumption.
  - destruct (Qlt_le_dec y 0) as [Ny | Py].
    + unfold round.
      assert (Cx : Qcompare x 0 = Lt) by (apply (proj1 (Qlt_alt x 0)); lra).
      assert (Cy : Qcompare y 0 = Lt) by (apply (proj1 (Qlt_alt y 0)); exact Ny).
      rewrite Cx, Cy, !Qred_correct.
      assert (round_pos (- y) <= round_pos (- x)) by (apply round_pos_mono; lra).
      lra.
    + apply Qle_trans with 0; [apply round_nonpos | apply round_nonneg]; assumption.
Qed.

Lemma round_0 : round 0 = 0.
Proof. reflexivity. Qed.

Lemma mul_mono_r (c a b : Q) : 0 <= c -> a <= b -> mul a c <= mul b c.
Proof.
  intros Hc Hab. apply round_mono. apply Qmult_le_compat_r; assumption.
Qed.

Lemma mul_mono_l (c a b : Q) : 0 <= c -> a <= b -> mul c a <= mul c b.
Proof.
  intros Hc Hab. apply round_mono. rewrite !(Qmult_comm c).
  apply Qmult_le_compat_r; assumption.
Qed.

Lemma mul_nonneg (a b : Q) : 0 <= a -> 0 <= b -> 0 <= mul a b.
Proof. intros Ha Hb. apply round_nonneg. apply Qmult_le_0_compat; assumption. Qed.

Lemma div_mono_l (c a b : Q) : 0 < c -> a <= b -> div a c <= div b c.
Proof.
  intros Hc Hab. apply round_mono. apply Qmult_le_compat_r; [exact Hab |].
  apply Qlt_le_weak, Qinv_lt_0_compat, Hc.
Qed.

Lemma div_nonneg (a c : Q) : 0 <= a -> 0 < c -> 0 <= div a c.
Proof.
  intros Ha Hc. apply round_nonneg. apply Qle_shift_div_l; [exact Hc | lra].
Qed.

End F64Facts.

(** * The rounding model against the hardware *)

Module HardwareExamples.
Import Hardware.

Local Open Scope Q_scope.

Example round_7_10 : Q_of_float f_0_7 = F64.div 7 10.
Proof. vm_compute. reflexivity. Qed.

Example literal_0_7 : F64.round (7 # 10) = 3152519739159347 # 4503599627370496.
Proof. vm_compute. reflexivity. Qed.

Example mul_agrees :
  Q_of_float (PrimFloat.mul f_0_7 f_1_6) = F64.mul (F64.div 7 10) (F64.div 16 10).
Proof. vm_compute. reflexivity. Qed.

Example add_agrees :
  Q_of_float (PrimFloat.add (PrimFloat.div (float_of_Z 1) (float_of_Z 10))
                            (PrimFloat.div (float_of_Z 2) (float_of_Z 10)))
  = F64.add (F64.div 1 10) (F64.div 2 10).
Proof. vm_compute. reflexivity. Qed.

Example sub_agrees :
  Q_of_float (PrimFloat.sub (PrimFloat.div (float_of_Z 3) (float_of_Z 10))
                            (PrimFloat.div (float_of_Z 1) (float_of_Z 10)))
  = F64.sub (F64.div 3 10) (F64.div 1 10).
Proof. vm_compute. reflexivity. Qed.

Example div_agrees :
  Q_of_float (PrimFloat.div (float_of_Z (-1)) (float_of_Z 3)) = F64.div (-1) 3.
Proof. vm_compute. reflexivity. Qed.

(** A product that falls in the subnormal range. *)
Example subnormal_agrees :
  Q_of_float (PrimFloat.mul (PrimFloat.ldshiftexp (float_of_Z 1) (Uint63.of_Z (2101 - 1060)))
                            (PrimFloat.ldshiftexp f_0_7 (Uint63.of_Z (2101 - 10))))
  = F64.mul (2 ^ (-1060)) (F64.div 7 10 * 2 ^ (-10)).
Proof. vm_compute. reflexivity. Qed.

(** The two formulas of the column count, [(w / size) * (0.7 * d)] in
    [resetColumns] and [(w / size) * 0.7 * d] in [update], on the hardware and
    in the model, at [w = 400] and [d = 1.6]: the products lie on both sides
    of 28. *)
Example column_products_on_hardware :
  Q_of_float (PrimFloat.mul (PrimFloat.div (float_of_Z 400) (float_of_Z 16))
                            (PrimFloat.mul f_0_7 f_1_6))
  = F64.mul (F64.div 400 16) (F64.mul MatrixRain.lit_0_7 (F64.div 16 10)) /\
  Q_of_float (PrimFloat.mul (PrimFloat.mul (PrimFloat.div (float_of_Z 400) (float_of_Z 16)) f_0_7)
                            f_1_6)
  = F64.mul (F64.mul (F64.div 400 16) MatrixRain.lit_0_7) (F64.div 16 10).
Proof. vm_compute. split; reflexivity. Qed.

End HardwareExamples.

(** * The formatting functions on concrete values *)

Module JSExamples.
Import JS.

Local Open Scope string_scope.

Example toFixed_examples :
  toFixed (35846 # 100) 2 = "358.46" /\ toFixed (2005 # 10) 1 = "200.5" /\
  toFixed 100 2 = "100.00" /\ toFixed (5 # 1000) 2 = "0.01" /\
  toFixed (-4 # 1000) 2 = "-0.00" /\ toFixed (12345 # 10) 0 = "1235".
Proof. vm_compute. repeat split; reflexivity. Qed.

Example formatMoneyUSD_examples :
  formatMoneyUSD 95000 = "$95,000" /\ formatMoneyUSD 0 = "$0" /\
  formatMoneyUSD 1234567 = "$1,234,567" /\ formatMoneyUSD (-999) = "-$999" /\
  formatMoneyUSD 100000 = "$100,000".
Proof. vm_compute. repeat split; reflexivity. Qed.

(** The shortest text that reads back as the same float. *)
Example Number_toString_examples :
  Number_toString (F64.round (35846 # 100)) = "358.46" /\
  Number_toString (F64.round 411) = "411" /\
  Number_toString (F64.add (F64.div 1 10) (F64.div 2 10)) = "0.30000000000000004" /\
  Number_toString (F64.div 1 3) = "0.3333333333333333" /\
  Number_toString (F64.round (10 ^ 21)) = "1e+21" /\
  Number_toString (F64.round (123456789012345680000)) = "123456789012345680000" /\
  Number_toString (F64.round (15 / 10 ^ 8)) = "1.5e-7" /\
  Number_toString (F64.round (1 / 10 ^ 6)) = "0.000001" /\
  Number_toString (F64.round (-25 # 10)) = "-2.5" /\
  Number_toString (F64.round (2 ^ (-1074))) = "5e-324".
Proof. vm_compute. repeat split; reflexivity. Qed.

Example Z_toString36_examples :
  Z_toString36 35 = "z" /\ Z_toString36 36 = "10" /\
  Z_toString36 1762045000000 = "mhh03jgg" /\ Z_toString36 0 = "0".
Proof. vm_compute. repeat split; reflexivity. Qed.

Example json_string_escapes :
  json_string ("a" +:+ String quote_char "b\" +:+ String newline_char "")
  = String quote_char ("a\" +:+ String quote_char ("b\\\n" +:+ String quote_char "")).
Proof. vm_compute. reflexivity. Qed.

Example string_functions :
  indexOf "a | mood=calm" "mood" = 4%Z /\ indexOf "abc" "mood" = (-1)%Z /\
  slice_last 4 "smpl2abcf" = "abcf" /\ slice_last 4 "ab" = "ab" /\
  keep_chars is_hex "smpl-1fz" = "1f" /\ first_upper "female" = "F" /\
  slice 2 8 "0.abcdefghij" = "abcdef".
Proof. vm_compute. repeat split; reflexivity. Qed.

End JSExamples.

(** * Total correctness of computations *)

Lemma bind_normal {A B : Type} (c : M A) (k : A -> M B) (w w1 : World) (a : A) :
  c w = (Normal a, w1) -> bind c k w = k a w1.
Proof. intros E. unfold bind. rewrite E. reflexivity. Qed.

Lemma bind_throw {A B : Type} (c : M A) (k : A -> M B) (w w1 : World) (e : string) :
  c w = (Throw e, w1) -> bind c k w = (Throw e, w1).
Proof. intros E. unfold bind. rewrite E. reflexivity. Qed.

Lemma post_ret {A : Type} (a : A) (P : A -> Prop) : P a -> post (ret a) P.
Proof. intros H w. exists a, w. split; [reflexivity | exact H]. Qed.

Lemma post_bind {A B : Type} (c : M A) (k : A -> M B) (Q : A -> Prop) (P : B -> Prop) :
  post c Q -> (forall a, Q a -> post (k a) P) -> post (bind c k) P.
Proof.
  intros Hc Hk w. destruct (Hc w) as (a & w1 & E & Ha).
  destruct (Hk a Ha w1) as (b & w2 & E2 & Hb).
  exists b, w2. split; [| exact Hb]. unfold bind. rewrite E. exact E2.
Qed.

Lemma post_weaken {A : Type} (c : M A) (P Q : A -> Prop) :
  post c P -> (forall a, P a -> Q a) -> post c Q.
Proof.
  intros Hc HPQ w. destruct (Hc w) as (a & w' & E & Ha). eauto.
Qed.

Lemma post_Math_random : post Math_random (fun _ => True).
Proof. intros w. eexists; eexists. split; [reflexivity | exact I]. Qed.

Lemma post_Date_now : post Date_now (fun _ => True).
Proof. intros w. eexists; eexists. split; [reflexivity | exact I]. Qed.

Lemma post_get_world : post get_world (fun _ => True).
Proof. intros w. eexists; eexists. split; [reflexivity | exact I]. Qed.

Lemma post_modify (f : World -> World) : post (modify f) (fun _ => True).
Proof. intros w. eexists; eexists. split; [reflexivity | exact I]. Qed.

Lemma post_rand (min max : Q) : post (rand min max) (fun _ => True).
Proof.
  unfold rand. eapply post_bind; [apply post_Math_random |].
  intros u _. apply post_ret. exact I.
Qed.

Lemma post_randi (min max : Q) : post (randi min max) (fun _ => True).
Proof.
  unfold randi. eapply post_bind; [apply post_rand |].
  intros x _. apply post_ret. exact I.
Qed.

Lemma post_choice {A : Type} (arr : list A) : post (choice arr) (fun _ => True).
Proof.
  unfold choice. eapply post_bind; [apply post_randi |].
  intros i _. apply post_ret. exact I.
Qed.

Lemma post_replicateM {A : Type} (c : M A) (P : A -> Prop) (n : nat) :
  post c P -> post (replicateM n c) (fun l => length l = n /\ Forall P l).
Proof.
  intros Hc. induction n as [| n IH]; simpl.
  - apply post_ret. split; [reflexivity | constructor].
  - eapply post_bind; [exact Hc |]. intros x Hx.
    eapply post_bind; [exact IH |]. intros xs [Hl Hxs].
    apply post_ret. split; [simpl; congruence | constructor; assumption].
Qed.

Create HintDb post discriminated.
#[export] Hint Resolve post_Math_random post_Date_now post_get_world post_modify
  post_rand post_randi post_choice : post.

(** One step of a computation: run the first action with a lemma from the
    hint database and go on with its continuation. *)
Ltac post_step :=
  eapply post_bind; [solve [eauto with post] | intros ? _].

(** ** The utilities *)

Lemma clamp_range (v a b : Z) : (a <= b)%Z -> (a <= clamp v a b <= b)%Z.
Proof.
  intros H. unfold clamp. rewrite Z.gtb_ltb.
  destruct (Z.ltb_spec v a); [lia |]. destruct (Z.ltb_spec b v); lia.
Qed.

Lemma clamp_mono (v1 v2 a b : Z) :
  (a <= b)%Z -> (v1 <= v2)%Z -> (clamp v1 a b <= clamp v2 a b)%Z.
Proof.
  intros H Hv. unfold clamp. rewrite !Z.gtb_ltb.
  destruct (Z.ltb_spec v1 a); destruct (Z.ltb_spec v2 a);
    destruct (Z.ltb_spec b v1); destruct (Z.ltb_spec b v2); lia.
Qed.

Lemma weightedChoice_loop_In {A : Type} (pairs : list (A * Q)) :
  forall (roll : Q) (v : A),
    weightedChoice_loop roll pairs = Some v -> In v (map fst pairs).
Proof.
  induction pairs as [| [v0 w0] rest IH]; intros roll v; simpl.
  - discriminate.
  - destruct (Qle_bool (F64.sub roll w0) 0).
    + intros H. inversion H. subst. left. reflexivity.
    + intros H. right. eapply IH. exact H.
Qed.

(** A non-empty list of pairs always yields one of its values. *)
Lemma post_weightedChoice {A : Type} (pairs : list (A * Q)) :
  pairs <> [] -> post (weightedChoice pairs) (fun v => In v (map fst pairs)).
Proof.
  intros Hne. unfold weightedChoice.
  eapply post_bind; [apply post_Math_random |]. intros u _.
  destruct (weightedChoice_loop _ pairs) as [v |] eqn:E.
  - apply post_ret. eapply weightedChoice_loop_In. exact E.
  - destruct (last pairs) as [[v w0] |] eqn:L.
    + apply post_ret. apply last_Some in L. destruct L as [l' ->].
      rewrite map_app. apply in_or_app. right. left. reflexivity.
    + apply last_None in L. contradiction.
Qed.

(** * Properties of the encoder *)

Module StringPainterFacts.
Import StringPainter.

Local Open Scope Z_scope.

Lemma prefix_length (k s : string) :
  String.prefix k s = true -> (String.length k <= String.length s)%nat.
Proof.
  revert s. induction k as [| c k IH]; intros s H; simpl.
  - lia.
  - destruct s as [| d s]; simpl in H; [discriminate |].
    destruct (ascii_dec c d); [| discriminate].
    apply IH in H. simpl. lia.
Qed.

(** An occurrence found by [index] lies inside the string. *)
Lemma index_bound (s : string) :
  forall (n : nat) (k : string) (m : nat),
    index n k s = Some m -> (m + String.length k <= String.length s)%nat.
Proof.
  induction s as [| a s IH]; intros n k m; cbn [index].
  - destruct n; destruct k; try discriminate. intros H. inversion H. subst. simpl. lia.
  - destruct n as [| n].
    + destruct (String.prefix k (String a s)) eqn:P.
      * intros H. inversion H. subst. apply prefix_length in P. simpl in *. lia.
      * destruct (index 0 k s) eqn:E; [| discriminate].
        intros H. inversion H. subst. apply IH in E. simpl. lia.
    + destruct (index n k s) eqn:E; [| discriminate].
      intros H. inversion H. subst. apply IH in E. simpl. lia.
Qed.

Lemma indexOf_bound (str k : string) :
  0 <= JS.indexOf str k ->
  JS.indexOf str k + Z.of_nat (String.length k) <= Z.of_nat (String.length str).
Proof.
  unfold JS.indexOf. destruct (index 0 k str) eqn:E; [| lia].
  intros _. apply index_bound in E. lia.
Qed.

Lemma elem_of_add_range_list (idx : Z) (l : list nat) (pos : gset Z) (z : Z) :
  z ∈ fold_left (fun acc i => {[ idx + Z.of_nat i ]} ∪ acc) l pos <->
  z ∈ pos \/ exists i, In i l /\ z = idx + Z.of_nat i.
Proof.
  revert pos. induction l as [| i l IH]; intros pos; simpl.
  - split; [auto | intros [H | (i & [] & _)]; exact H].
  - rewrite IH. rewrite elem_of_union, elem_of_singleton. split.
    + intros [[-> | H] | (j & Hj & ->)]; eauto.
    + intros [H | (j & [<- | Hj] & ->)]; eauto.
Qed.

Lemma elem_of_add_range (idx : Z) (len : nat) (pos : gset Z) (z : Z) :
  z ∈ add_range idx len pos <-> z ∈ pos \/ idx <= z < idx + Z.of_nat len.
Proof.
  unfold add_range. rewrite elem_of_add_range_list. split.
  - intros [H | (i & Hi & ->)]; [auto |]. apply in_seq in Hi. right. lia.
  - intros [H | H]; [auto |]. right. exists (Z.to_nat (z - idx)). split.
    + apply in_seq. lia.
    + lia.
Qed.

(** Every recorded offset is an offset of the string. *)
Lemma computeKeyPositions_bound (str : string) (z : Z) :
  z ∈ computeKeyPositions str -> 0 <= z < Z.of_nat (String.length str).
Proof.
  unfold computeKeyPositions.
  assert (G : forall (ks : list string) (pos : gset Z),
             (forall y, y ∈ pos -> 0 <= y < Z.of_nat (String.length str)) ->
             z ∈ fold_left
                   (fun pos k =>
                      let idx := JS.indexOf str k in
                      if 0 <=? idx then add_range idx (String.length k) pos else pos)
                   ks pos ->
             0 <= z < Z.of_nat (String.length str)).
  { induction ks as [| k ks IH]; intros pos Hpos; simpl.
    - apply Hpos.
    - apply IH. intros y. destruct (Z.leb_spec 0 (JS.indexOf str k)) as [Hi | Hi].
      + rewrite elem_of_add_range. intros [Hy | Hy]; [apply Hpos, Hy |].
        pose proof (indexOf_bound str k Hi). lia.
      + apply Hpos. }
  apply G. intros y Hy. apply not_elem_of_empty in Hy. destruct Hy.
Qed.

Lemma length_append (s1 s2 : string) :
  String.length (s1 +:+ s2) = (String.length s1 + String.length s2)%nat.
Proof. induction s1 as [| c s1 IH]; simpl; [reflexivity | rewrite IH; reflexivity]. Qed.

(** The encoder never fails, and its text is never empty. *)
Lemma buildString_total (p : Profile.t) (mode : string) (w : World) :
  exists s w', buildString p mode w = (Normal s, w') /\ (0 < String.length s)%nat.
Proof.
  unfold buildString.
  destruct (String.eqb mode "kv");
    [eexists; eexists; split; [reflexivity | rewrite length_append; simpl; lia] |].
  destruct (String.eqb mode "code");
    [eexists; eexists; split; [reflexivity | rewrite length_append; simpl; lia] |].
  destruct (Profile.coords p); eexists; eexists;
    (split; [reflexivity | rewrite length_append; simpl; lia]).
Qed.

Lemma new_total (p : Profile.t) (mode : string) (w : World) :
  exists s w', buildString p mode w = (Normal s, w') /\ (0 < String.length s)%nat /\
               new p mode w = (Normal (mk p mode s (computeKeyPositions s)), w').
Proof.
  destruct (buildString_total p mode w) as (s & w' & E & L).
  exists s, w'. split; [exact E |]. split; [exact L |].
  unfold new, bind. rewrite E. reflexivity.
Qed.

(** [isKeyChar] reduces the buffer offset modulo the length of the text. *)
Lemma isKeyChar_spec (this : t) (b : Z) :
  0 < Z.of_nat (String.length (this_string this)) ->
  40 - 10000 * Z.of_nat (String.length (this_string this)) <= b ->
  isKeyChar this b = true <->
  ((b - 40) mod Z.of_nat (String.length (this_string this))) ∈ keyCharPositions this.
Proof.
  intros Hlen Hb. unfold isKeyChar.
  set (len := Z.of_nat (String.length (this_string this))) in *.
  destruct (Z.eqb_spec len 0) as [E | _]; [lia |].
  rewrite bool_decide_eq_true.
  rewrite Z.rem_mod_nonneg by lia.
  replace (b - 40 + len * 10000) with (b - 40 + 10000 * len) by lia.
  rewrite Z_mod_plus_full. reflexivity.
Qed.

(** The scrolling buffer is the text between two paddings of 40 characters. *)
Lemma post_buildGlyphStream (this : t) :
  post (buildGlyphStream this)
       (fun buffer => exists left right,
            buffer = left ++ map Some (JS.chars (this_string this)) ++ right /\
            length left = 40%nat /\ length right = 40%nat).
Proof.
  assert (F : post filler_char (fun _ => True)).
  { unfold filler_char. post_step. apply post_ret. exact I. }
  unfold buildGlyphStream.
  eapply post_bind; [apply (post_replicateM _ _ pad F) |]. intros left [Hl _].
  eapply post_bind; [apply (post_replicateM _ _ pad F) |]. intros right [Hr _].
  apply post_ret. exists left, right. repeat split; assumption.
Qed.

End StringPainterFacts.

(** * The encoder on concrete profiles *)

Module StringPainterExamples.
Import StringPainter Samples.

Local Open Scope string_scope.

Example kv_of_sampleB :
  fst (buildString sampleB "kv" page_zero) =
  Normal "profile=Analyst+M+35 | nta=BK032 | mood=focused | income=$95,000 | risk=29".
Proof. vm_compute. reflexivity. Qed.

Example code_of_sampleB :
  fst (buildString sampleB "code" page_zero) =
  Normal ("let p=Agent( id:0x2, age:35, job:" +:+ JS.json_string "Analyst"
          +:+ ", mood:" +:+ JS.json_string "focused"
          +:+ ", nta:" +:+ JS.json_string "BK032" +:+ ", income:95000 );").
Proof. vm_compute. reflexivity. Qed.

Example json_of_sampleB :
  fst (buildString sampleB "json" page_zero) =
  Normal ("{" +:+ JS.json_string "profile" +:+ ":" +:+ JS.json_string "Analyst+M+35"
          +:+ "," +:+ JS.json_string "nta" +:+ ":" +:+ JS.json_string "BK032"
          +:+ "," +:+ JS.json_string "income" +:+ ":95000"
          +:+ "," +:+ JS.json_string "mood" +:+ ":" +:+ JS.json_string "focused"
          +:+ "," +:+ JS.json_string "coords" +:+ ":[402.12,210.22,512]}").
Proof. vm_compute. reflexivity. Qed.

Example kv_of_blank :
  fst (buildString blank "kv" page_zero) =
  Normal "profile=Agent+U+? | nta= | mood= | income=$0 | risk=".
Proof. vm_compute. reflexivity. Qed.

Example json_without_coords_zero :
  fst (buildString sampleB_no_coords "json" page_zero) =
  Normal ("{" +:+ JS.json_string "profile" +:+ ":" +:+ JS.json_string "Analyst+M+35"
          +:+ "," +:+ JS.json_string "nta" +:+ ":" +:+ JS.json_string "BK032"
          +:+ "," +:+ JS.json_string "income" +:+ ":95000"
          +:+ "," +:+ JS.json_string "mood" +:+ ":" +:+ JS.json_string "focused"
          +:+ "," +:+ JS.json_string "coords" +:+ ":["
          +:+ JS.json_string "100.00" +:+ "," +:+ JS.json_string "100.00" +:+ ","
          +:+ JS.json_string "200.0" +:+ "]}").
Proof. vm_compute. reflexivity. Qed.

Example json_without_coords_half :
  fst (buildString sampleB_no_coords "json" page_half) =
  Normal ("{" +:+ JS.json_string "profile" +:+ ":" +:+ JS.json_string "Analyst+M+35"
          +:+ "," +:+ JS.json_string "nta" +:+ ":" +:+ JS.json_string "BK032"
          +:+ "," +:+ JS.json_string "income" +:+ ":95000"
          +:+ "," +:+ JS.json_string "mood" +:+ ":" +:+ JS.json_string "focused"
          +:+ "," +:+ JS.json_string "coords" +:+ ":["
          +:+ JS.json_string "350.00" +:+ "," +:+ JS.json_string "250.00" +:+ ","
          +:+ JS.json_string "500.0" +:+ "]}").
Proof. vm_compute. reflexivity. Qed.

Example json_without_coords_ramp :
  exists w1,
    buildString sampleB_no_coords "json" page_ramp =
    (Normal ("{" +:+ JS.json_string "profile" +:+ ":" +:+ JS.json_string "Analyst+M+35"
             +:+ "," +:+ JS.json_string "nta" +:+ ":" +:+ JS.json_string "BK032"
             +:+ "," +:+ JS.json_string "income" +:+ ":95000"
             +:+ "," +:+ JS.json_string "mood" +:+ ":" +:+ JS.json_string "focused"
             +:+ "," +:+ JS.json_string "coords" +:+ ":["
             +:+ JS.json_string "100.00" +:+ "," +:+ JS.json_string "118.75" +:+ ","
             +:+ JS.json_string "275.0" +:+ "]}"), w1) /\
    cursor w1 = 3%nat.
Proof. eexists. split; vm_compute; reflexivity. Qed.

(** Scenario B of the specification: the offsets of [mood] and [income]
    are key positions of the [kv] encoding. *)
Example kv_key_positions :
  computeKeyPositions
    "profile=Analyst+M+35 | nta=BK032 | mood=focused | income=$95,000 | risk=29"
  = list_to_set (map Z.of_nat (seq 0 7 ++ seq 23 3 ++ seq 35 4 ++ seq 50 6 ++ seq 67 4)).
Proof. apply (bool_decide_eq_true_1 _). vm_compute. reflexivity. Qed.

End StringPainterExamples.

(** * Properties of the profile factory and of the data source *)

Module ProfileFactoryFacts.
Import ProfileFactory.

Local Open Scope Z_scope.

Lemma post_makeId : post makeId (fun _ => True).
Proof.
  unfold makeId. do 3 post_step. apply post_ret. exact I.
Qed.

Lemma post_sampleIncome (industry : option string) :
  post (sampleIncome industry) (fun _ => True).
Proof.
  unfold sampleIncome. post_step. apply post_ret. exact I.
Qed.

(** The risk score is clamped whatever the draw, the income and the mood. *)
Lemma post_riskFromIncomeAndMood (income : Q) (mood : string) :
  post (riskFromIncomeAndMood income mood) (fun r => 0 <= r <= 100).
Proof.
  unfold riskFromIncomeAndMood. post_step.
  apply post_ret. apply clamp_range. lia.
Qed.

Lemma post_interestsSet : post interestsSet (fun _ => True).
Proof.
  unfold interestsSet. post_step.
  eapply post_bind; [apply post_get_world |]. intros w _.
  destruct (sort_random (engine w) interests_pool _) as [shuffled used].
  post_step. apply post_ret. exact I.
Qed.

#[export] Hint Resolve post_makeId post_sampleIncome post_interestsSet : post.

(** [generate] always returns a profile; its mood is one of the table and
    its risk score is within 0..100. *)
Lemma post_generate :
  post generate
       (fun p => (exists m, Profile.emotional_state p = Some m /\ In m (map fst emotional)) /\
                 (exists r, Profile.risk_score p = Some r /\ 0 <= r <= 100)).
Proof.
  unfold generate. do 2 post_step.
  eapply post_bind; [apply (post_weightedChoice emotional); discriminate |].
  intros mood Hmood. do 2 post_step.
  eapply post_bind; [apply post_riskFromIncomeAndMood |]. intros risk Hrisk.
  do 11 post_step. apply post_ret. cbn [Profile.emotional_state Profile.risk_score].
  split; eauto.
Qed.

End ProfileFactoryFacts.

Module DataSourceFacts.
Import DataSource.

Local Open Scope Z_scope.

Lemma post_generateFakeBatch (n : Z) :
  post (generateFakeBatch n) (fun l => length l = Z.to_nat n).
Proof.
  unfold generateFakeBatch.
  eapply post_weaken; [apply post_replicateM, ProfileFactoryFacts.post_generate |].
  intros l [H _]. exact H.
Qed.

Lemma length_takeLoop {A : Type} (arr : list A) (n : Z) :
  length (takeLoop arr n) = Z.to_nat n.
Proof. unfold takeLoop. rewrite length_map, length_seq. reflexivity. Qed.

Lemma lookup_takeLoop {A : Type} (arr : list A) (n : Z) (i : nat) :
  (i < Z.to_nat n)%nat -> takeLoop arr n !! i = Some (arr !! (i mod length arr)%nat).
Proof.
  intros Hi. unfold takeLoop. rewrite list_lookup_fmap.
  rewrite lookup_seq_lt by exact Hi. reflexivity.
Qed.

End DataSourceFacts.

(** * The coordinates of the json encoding carry no key *)

Module KeyFreeFacts.
Import StringPainter StringPainterFacts.

Local Open Scope string_scope.

Lemma all_chars_append (P : ascii -> bool) (s1 s2 : string) :
  all_chars P (s1 +:+ s2) = all_chars P s1 && all_chars P s2.
Proof.
  induction s1 as [| c s1 IH]; simpl; [reflexivity |].
  rewrite IH, andb_assoc. reflexivity.
Qed.

Lemma all_chars_substring (P : ascii -> bool) (s : string) :
  forall n m, all_chars P s = true -> all_chars P (substring n m s) = true.
Proof.
  induction s as [| c s IH]; intros n m H; simpl.
  - destruct n, m; reflexivity.
  - simpl in H. apply andb_true_iff in H. destruct H as [Hc Hs].
    destruct n as [| n].
    + destruct m as [| m]; [reflexivity |]. simpl. rewrite Hc. apply IH. exact Hs.
    + apply IH. exact Hs.
Qed.

Lemma all_chars_repeat (P : ascii -> bool) (c : ascii) (n : nat) :
  P c = true -> all_chars P (JS.repeat_char c n) = true.
Proof.
  intros Hc. unfold JS.repeat_char, JS.of_chars.
  induction n as [| n IH]; simpl; [reflexivity |]. rewrite Hc. exact IH.
Qed.

Lemma all_chars_concat (P : ascii -> bool) (sep : string) (items : list string) :
  all_chars P sep = true -> Forall (fun s => all_chars P s = true) items ->
  all_chars P (String.concat sep items) = true.
Proof.
  intros Hsep H. induction H as [| s items Hs Hi IH]; simpl; [reflexivity |].
  destruct items as [| s' items]; [exact Hs |].
  rewrite !all_chars_append, Hs, Hsep. exact IH.
Qed.

(** The decimal numeral of an integer. *)
Lemma numeral_pretty_N_go (x : N) :
  forall s, all_chars numeral_char s = true ->
            all_chars numeral_char (pretty_N_go x s) = true.
Proof.
  induction (N.lt_wf_0 x) as [x _ IH]. intros s Hs.
  destruct (decide (x = 0%N)) as [-> | Hx].
  - rewrite pretty_N_go_0. exact Hs.
  - rewrite pretty_N_go_step by lia. apply IH.
    + apply N.div_lt; lia.
    + simpl. rewrite Hs, andb_true_r.
      unfold pretty_N_char. repeat case_match; reflexivity.
Qed.

Lemma numeral_pretty_N (x : N) : all_chars numeral_char (pretty x) = true.
Proof.
  unfold pretty, pretty_N. case_decide; [reflexivity |].
  apply numeral_pretty_N_go. reflexivity.
Qed.

Lemma numeral_Z_toString (n : Z) : all_chars numeral_char (JS.Z_toString n) = true.
Proof.
  unfold JS.Z_toString, pretty, pretty_Z. destruct n as [| q | q].
  - reflexivity.
  - apply (numeral_pretty_N (N.pos q)).
  - rewrite all_chars_append. simpl. apply (numeral_pretty_N (N.pos q)).
Qed.

Lemma numeral_toFixed (x : Q) (f : nat) : all_chars numeral_char (JS.toFixed x f) = true.
Proof.
  unfold JS.toFixed.
  set (m := JS.Z_toString _).
  set (m' := if (String.length m <=? f)%nat then _ else m).
  assert (Hm : all_chars numeral_char m = true) by apply numeral_Z_toString.
  assert (Hm' : all_chars numeral_char m' = true).
  { unfold m'. destruct (String.length m <=? f)%nat; [| exact Hm].
    rewrite all_chars_append, Hm, andb_true_r. apply all_chars_repeat. reflexivity. }
  rewrite !all_chars_append.
  rewrite (all_chars_substring _ _ _ _ Hm').
  destruct (negb (Qle_bool 0 x)); destruct (f =? 0)%nat; simpl; try reflexivity;
    apply all_chars_substring; exact Hm'.
Qed.

(** The characters of a numeral are not escaped and are no key letters. *)
Lemma json_escape_numeral (c : ascii) :
  numeral_char c = true -> JS.json_escape c = String c "".
Proof.
  destruct c as [[] [] [] [] [] [] [] []]; vm_compute; intros H;
    first [reflexivity | discriminate H].
Qed.

Lemma numeral_not_key (c : ascii) : numeral_char c = true -> negb (key_letter c) = true.
Proof.
  destruct c as [[] [] [] [] [] [] [] []]; vm_compute; intros H;
    first [reflexivity | discriminate H].
Qed.

Lemma key_free_json_string (s : string) :
  all_chars numeral_char s = true -> key_free (JS.json_string s) = true.
Proof.
  intros H. unfold JS.json_string, key_free.
  cbn [all_chars]. rewrite all_chars_append.
  apply andb_true_iff. split; [reflexivity |].
  apply andb_true_iff. split; [| reflexivity].
  apply all_chars_concat; [reflexivity |].
  unfold JS.chars. induction s as [| c s IH]; [constructor |].
  simpl in H. apply andb_true_iff in H. destruct H as [Hc Hs].
  cbn [list_ascii_of_string map]. constructor; [| apply IH; exact Hs].
  rewrite (json_escape_numeral c Hc). cbn [all_chars].
  rewrite (numeral_not_key c Hc). reflexivity.
Qed.

(** The text of the coordinates that [buildString] generates. *)
Lemma key_free_generated_coords (x y z : Q) :
  key_free (json_array (map json_coord
              [CoordStr (JS.toFixed x 2); CoordStr (JS.toFixed y 2);
               CoordStr (JS.toFixed z 1)])) = true.
Proof.
  unfold json_array, key_free. rewrite !all_chars_append.
  apply andb_true_iff. split; [reflexivity |].
  apply andb_true_iff. split; [| reflexivity].
  apply all_chars_concat; [reflexivity |]. cbn [map json_coord].
  repeat constructor; apply key_free_json_string, numeral_toFixed.
Qed.

(** A label is not found in, or across the border of, a text without key
    letters. *)
Lemma prefix_append_free (L : ascii -> bool) (k : string) :
  forall A B, all_chars L k = true -> all_chars (fun c => negb (L c)) B = true ->
              String.prefix k (A +:+ B) = String.prefix k A.
Proof.
  induction k as [| c k IH]; intros A B Hk HB.
  - destruct A; [destruct B |]; reflexivity.
  - simpl in Hk. apply andb_true_iff in Hk. destruct Hk as [Hc Hk].
    destruct A as [| a A].
    + change ("" +:+ B) with B.
      destruct B as [| b B]; [reflexivity |]. cbn [String.prefix].
      simpl in HB. apply andb_true_iff in HB. destruct HB as [Hb _].
      destruct (ascii_dec c b) as [-> | _]; [| reflexivity].
      rewrite Hc in Hb. discriminate Hb.
    + change (String a A +:+ B) with (String a (A +:+ B)). cbn [String.prefix].
      destruct (ascii_dec c a); [apply IH; assumption | reflexivity].
Qed.

Lemma index_free (L : ascii -> bool) (k : string) (B : string) :
  k <> "" -> all_chars L k = true -> all_chars (fun c => negb (L c)) B = true ->
  index 0 k B = None.
Proof.
  intros Hne Hk. induction B as [| b B IH]; intros HB.
  - destruct k; [contradiction | reflexivity].
  - cbn [index].
    assert (P : String.prefix k (String b B) = false).
    { change (String b B) with ("" +:+ String b B).
      rewrite (prefix_append_free L k "" (String b B) Hk HB).
      destruct k; [contradiction | reflexivity]. }
    rewrite P. simpl in HB. apply andb_true_iff in HB. destruct HB as [_ HB].
    rewrite (IH HB). reflexivity.
Qed.

Lemma index_append_free (L : ascii -> bool) (k : string) (B : string) :
  k <> "" -> all_chars L k = true -> all_chars (fun c => negb (L c)) B = true ->
  forall A, index 0 k (A +:+ B) = index 0 k A.
Proof.
  intros Hne Hk HB. induction A as [| a A IH].
  - change ("" +:+ B) with B. rewrite (index_free L k B Hne Hk HB).
    destruct k; [contradiction | reflexivity].
  - change (String a A +:+ B) with (String a (A +:+ B)). cbn [index].
    change (String a (A +:+ B)) with (String a A +:+ B).
    rewrite (prefix_append_free L k (String a A) B Hk HB), IH. reflexivity.
Qed.

(** A text without key letters appended to [A] changes no key position. *)
Lemma computeKeyPositions_append_free (A B : string) :
  key_free B = true -> computeKeyPositions (A +:+ B) = computeKeyPositions A.
Proof.
  intros HB. unfold computeKeyPositions, keys, JS.indexOf. cbn [fold_left].
  rewrite !(index_append_free key_letter _ B) by (discriminate || reflexivity || exact HB).
  reflexivity.
Qed.

Lemma append_assoc (a b c : string) : (a +:+ b) +:+ c = a +:+ (b +:+ c).
Proof.
  induction a as [| x a IH]; [reflexivity |].
  change (String x (a +:+ b) +:+ c = String x (a +:+ (b +:+ c))).
  change (String x ((a +:+ b) +:+ c) = String x (a +:+ (b +:+ c))).
  rewrite IH. reflexivity.
Qed.

(** In the styles [kv] and [code], and in [json] when the profile has
    coordinates, the encoder reads nothing of the page and leaves it as it is. *)
Lemma buildString_pure (p : Profile.t) (mode : string) :
  mode = "kv" \/ mode = "code" \/ is_Some (Profile.coords p) ->
  exists s, forall w, buildString p mode w = (Normal s, w).
Proof.
  intros H. unfold buildString.
  destruct (String.eqb mode "kv") eqn:Ekv; [eexists; intros w; reflexivity |].
  destruct (String.eqb mode "code") eqn:Ecode; [eexists; intros w; reflexivity |].
  destruct H as [-> | [-> | [c Hc]]]; [discriminate Ekv | discriminate Ecode |].
  rewrite Hc. eexists; intros w; reflexivity.
Qed.

(** Without coordinates the json encoding is the head followed by three
    generated numerals; they add no key position. *)
Lemma buildString_json_generated (p : Profile.t) (mode : string) (w : World) :
  String.eqb mode "kv" = false -> String.eqb mode "code" = false ->
  Profile.coords p = None ->
  exists s w', buildString p mode w = (Normal s, w') /\
               computeKeyPositions s = computeKeyPositions (json_head p).
Proof.
  intros Ekv Ecode Hc. unfold buildString. rewrite Ekv, Ecode, Hc.
  unfold bind, rand, Math_random, ret. cbn [fst snd].
  eexists; eexists. split; [reflexivity |].
  match goal with |- context [json_array ?X] => set (J := json_array X) end.
  assert (HJ : key_free J = true) by apply key_free_generated_coords.
  rewrite <- (computeKeyPositions_append_free (json_head p) J HJ).
  rewrite <- (computeKeyPositions_append_free (json_head p +:+ J) "}" eq_refl).
  f_equal. unfold json_head. rewrite !append_assoc. reflexivity.
Qed.

End KeyFreeFacts.

(** * Properties of the NYC profile service *)

Module NYCFacts.
Import NYC.

Local Open Scope Z_scope.

(** [getCache] never throws and leaves the page as it is. *)
Lemma getCache_spec (key : string) (w : World) :
  getCache key w = (Normal (cache_answer key w), w).
Proof.
  unfold getCache, cache_answer, try_catch, bind, getItem.
  destruct (storage_up w); [| reflexivity].
  destruct (localStorage w !! key) as [[t v | raw] |]; cbn.
  - unfold bind, Date_now. cbn. destruct (clock w - t >? ONE_HOUR_MS); reflexivity.
  - destruct (String.eqb raw ""); reflexivity.
  - reflexivity.
Qed.

(** [setCache] never throws; it writes the entry when the storage works. *)
Lemma setCache_spec (key : string) (v : list Profile.t) (w : World) :
  setCache key v w =
  (Normal tt,
   if storage_up w then set_localStorage (<[key := Entry (clock w) v]> (localStorage w)) w
   else w).
Proof.
  unfold setCache, try_catch, bind, Date_now, setItem.
  destruct (storage_up w); reflexivity.
Qed.

Lemma sodaFetch_spec (datasetId : string) (params : list (string * string)) (w : World) :
  sodaFetch datasetId params w =
  (match next_reply w with
   | NetFail => Throw "TypeError: Failed to fetch"
   | HttpNotOk status => Throw ("HTTP " +:+ JS.Z_toString status)
   | BodyUnparsable => Throw "SyntaxError"
   | Body rows => Normal rows
   end, after_request datasetId params w).
Proof.
  unfold sodaFetch, next_reply, after_request, bind, get_world.
  destruct (net w (length (requests w))) as [reply latency]. cbn.
  destruct reply; reflexivity.
Qed.

Section Service.

Variable synthesize : Json -> (nat -> Q) -> Z -> option Profile.t * nat.

Lemma fetchProfiles_unfold (opts : FetchOpts) (w : World) :
  NYC.fetchProfiles synthesize opts w =
  match cache_answer (cacheKey opts) w with
  | Some v => (Normal v, w)
  | None =>
      match NYC.fetch_and_cache synthesize opts w with
      | (Normal v, w') => (Normal v, w')
      | (Throw _, w') => (Normal (SAMPLE_PROFILES w), w')
      end
  end.
Proof.
  unfold NYC.fetchProfiles.
  rewrite (bind_normal get_world _ w w w eq_refl).
  rewrite (bind_normal _ _ _ _ _ (getCache_spec (cacheKey opts) w)).
  destruct (cache_answer (cacheKey opts) w); [reflexivity |].
  unfold try_catch. destruct (NYC.fetch_and_cache synthesize opts w) as [[v | e] w']; reflexivity.
Qed.

(** A failed request: the [try] block throws, nothing is cached. *)
Lemma fetch_and_cache_failed (opts : FetchOpts) (w : World) :
  network_failed (next_reply w) ->
  exists e, NYC.fetch_and_cache synthesize opts w =
            (Throw e, after_request (DATASET_DEMOGRAPHICS_BY_NTA w) (query_params opts) w).
Proof.
  intros H. unfold NYC.fetch_and_cache.
  rewrite (bind_normal get_world _ w w w eq_refl).
  pose proof (sodaFetch_spec (DATASET_DEMOGRAPHICS_BY_NTA w) (query_params opts) w) as HS.
  destruct (next_reply w); cbn in H; try contradiction;
    eexists; apply bind_throw; exact HS.
Qed.

(** A request that yields no row: the samples are returned and cached. *)
Lemma fetch_and_cache_no_rows (opts : FetchOpts) (w : World) :
  no_rows (next_reply w) ->
  NYC.fetch_and_cache synthesize opts w =
  (Normal (SAMPLE_PROFILES w),
   after_caching opts (SAMPLE_PROFILES w)
     (after_request (DATASET_DEMOGRAPHICS_BY_NTA w) (query_params opts) w)).
Proof.
  intros H. unfold NYC.fetch_and_cache.
  rewrite (bind_normal get_world _ w w w eq_refl).
  pose proof (sodaFetch_spec (DATASET_DEMOGRAPHICS_BY_NTA w) (query_params opts) w) as HS.
  destruct (next_reply w) as [| | | rows]; cbn in H; try contradiction.
  rewrite (bind_normal _ _ _ _ _ HS).
  assert (E : forall w0, (match rows with
                          | JArr items => mapM (synthesizeProfileFromDemographics synthesize) items
                          | _ => ret []
                          end) w0 = (Normal [], w0)).
  { intros w0. destruct rows as [| b | q | s | [| r items] | fields]; try reflexivity. contradiction. }
  rewrite (bind_normal _ _ _ _ _ (E _)). cbn [length Nat.eqb].
  rewrite (bind_normal _ _ _ _ _ (setCache_spec _ _ _)). reflexivity.
Qed.

(** Whatever happens, the [try] block sends exactly one request. *)
Lemma fetch_and_cache_requests (opts : FetchOpts) (w : World) :
  length (requests (snd (NYC.fetch_and_cache synthesize opts w))) = S (length (requests w)).
Proof.
  unfold NYC.fetch_and_cache.
  rewrite (bind_normal get_world _ w w w eq_refl).
  pose proof (sodaFetch_spec (DATASET_DEMOGRAPHICS_BY_NTA w) (query_params opts) w) as HS.
  set (w1 := after_request _ _ w) in *.
  assert (R1 : length (requests w1) = S (length (requests w))) by reflexivity.
  assert (Hmap : forall items w0,
             requests (snd (mapM (synthesizeProfileFromDemographics synthesize) items w0))
             = requests w0).
  { induction items as [| r items IH]; intros w0; [reflexivity |].
    cbn [mapM]. unfold bind at 1.
    unfold synthesizeProfileFromDemographics at 1.
    destruct (synthesize r _ (clock w0)) as [[p |] used]; [| reflexivity].
    unfold bind at 1. specialize (IH (set_cursor (cursor w0 + used) w0)).
    destruct (mapM _ items _) as [[ps | e] w2]; cbn in *; exact IH. }
  destruct (next_reply w) as [| | | rows];
    try (rewrite (bind_throw _ _ _ _ _ HS); exact R1).
  rewrite (bind_normal _ _ _ _ _ HS).
  match goal with |- context [bind ?c _ w1] => set (P := c) end.
  assert (HP : requests (snd (P w1)) = requests w1).
  { unfold P. destruct rows; try reflexivity. apply Hmap. }
  unfold bind at 1. destruct (P w1) as [[ps | e] w2]; cbn [snd] in HP.
  - rewrite (bind_normal _ _ _ _ _ (setCache_spec _ _ _)). unfold ret. cbn [snd].
    destruct (storage_up w2); cbn; congruence.
  - cbn. congruence.
Qed.

(** The row mapper does not look at the storage. *)
Lemma mapM_synthesize_storage (s : gmap string StorageItem) (items : list Json) :
  forall w0,
    mapM (synthesizeProfileFromDemographics synthesize) items (set_localStorage s w0) =
    (fst (mapM (synthesizeProfileFromDemographics synthesize) items w0),
     set_localStorage s (snd (mapM (synthesizeProfileFromDemographics synthesize) items w0))).
Proof.
  induction items as [| r items IH]; intros w0; [reflexivity |].
  cbn [mapM]. unfold bind at 1 3 5.
  unfold synthesizeProfileFromDemographics at 1 3 5.
  cbn [draws cursor clock set_localStorage].
  destruct (synthesize r _ (clock w0)) as [[p |] used]; [| reflexivity].
  change (set_cursor (cursor w0 + used) (set_localStorage s w0))
    with (set_localStorage s (set_cursor (cursor w0 + used) w0)).
  unfold bind. rewrite IH.
  destruct (mapM _ items (set_cursor (cursor w0 + used) w0)) as [[ps | e] w2]; reflexivity.
Qed.

(** What the [try] block returns does not depend on the storage. *)
Lemma fetch_and_cache_storage (opts : FetchOpts) (s : gmap string StorageItem) (w : World) :
  fst (NYC.fetch_and_cache synthesize opts (set_localStorage s w)) =
  fst (NYC.fetch_and_cache synthesize opts w).
Proof.
  unfold NYC.fetch_and_cache.
  rewrite !(bind_normal get_world _ _ _ _ eq_refl).
  pose proof (sodaFetch_spec (DATASET_DEMOGRAPHICS_BY_NTA w) (query_params opts) w) as HS.
  pose proof (sodaFetch_spec (DATASET_DEMOGRAPHICS_BY_NTA w) (query_params opts)
                (set_localStorage s w)) as HS'.
  change (next_reply (set_localStorage s w)) with (next_reply w) in HS'.
  change (after_request _ _ (set_localStorage s w))
    with (set_localStorage s
            (after_request (DATASET_DEMOGRAPHICS_BY_NTA w) (query_params opts) w)) in HS'.
  change (DATASET_DEMOGRAPHICS_BY_NTA (set_localStorage s w))
    with (DATASET_DEMOGRAPHICS_BY_NTA w).
  change (SAMPLE_PROFILES (set_localStorage s w)) with (SAMPLE_PROFILES w).
  set (w1 := after_request _ _ w) in *.
  destruct (next_reply w) as [| st | | rows];
    try (rewrite (bind_throw _ _ _ _ _ HS), (bind_throw _ _ _ _ _ HS'); reflexivity).
  rewrite (bind_normal _ _ _ _ _ HS), (bind_normal _ _ _ _ _ HS').
  match goal with |- context [bind ?c _ w1] => set (P := c) end.
  assert (HP : P (set_localStorage s w1) = (fst (P w1), set_localStorage s (snd (P w1)))).
  { unfold P. destruct rows; try reflexivity. apply mapM_synthesize_storage. }
  unfold bind at 1 3. rewrite HP. destruct (P w1) as [[ps | e] w2]; cbn [fst snd].
  - rewrite !(bind_normal _ _ _ _ _ (setCache_spec _ _ _)). reflexivity.
  - reflexivity.
Qed.

End Service.

End NYCFacts.

(** * The claims about the encoder *)

Module EncoderClaims.
Import StringPainter StringPainterFacts KeyFreeFacts Samples.

Local Open Scope Z_scope.

(** C8. For every profile and style the encoder returns a painter, and every
    offset in its key-position set is a valid character index of the encoded
    string: it lies in [0, len(string)). *)
Theorem key_positions_within_string (p : Profile.t) (mode : string) (w : World) :
  exists painter w',
    new p mode w = (Normal painter, w') /\
    forall z, z ∈ keyCharPositions painter ->
              0 <= z < Z.of_nat (String.length (this_string painter)).
Proof.
  destruct (new_total p mode w) as (s & w' & _ & _ & E).
  eexists; eexists; split; [exact E |].
  cbn [keyCharPositions this_string]. apply computeKeyPositions_bound.
Qed.

(** C2, as stated, fails: on the [kv] encoding of the second embedded sample
    (74 characters, scrolling buffer of 154) the buffer offset 33 of the left
    padding and the offset 114 of the right padding, which hold filler
    characters, are reported key. *)
Lemma padding_offsets_reported_key :
  exists painter w' buffer w'',
    new sampleB "kv" page_zero = (Normal painter, w') /\
    buildGlyphStream painter w' = (Normal buffer, w'') /\
    String.length (this_string painter) = 74%nat /\
    length buffer = 154%nat /\
    buffer !! 33%nat = Some (JS.chars filler !! 0%nat) /\
    buffer !! 114%nat = Some (JS.chars filler !! 0%nat) /\
    isKeyChar painter 33 = true /\
    isKeyChar painter 114 = true.
Proof.
  eexists; eexists; eexists; eexists.
  split; [vm_compute; reflexivity |].
  split; [vm_compute; reflexivity |].
  repeat split; vm_compute; reflexivity.
Qed.

(** C1, as stated, fails: for a profile without coordinates the [json]
    encoding embeds three draws of [Math.random]; encoding the same profile
    twice in a row gives two different strings. *)
Lemma json_reencoding_differs :
  exists s1 w1 s2 w2,
    buildString sampleB_no_coords "json" page_ramp = (Normal s1, w1) /\
    buildString sampleB_no_coords "json" w1 = (Normal s2, w2) /\
    s1 <> s2.
Proof.
  eexists; eexists; eexists; eexists.
  split; [vm_compute; reflexivity |].
  split; [vm_compute; reflexivity |].
  vm_compute. intros H. discriminate H.
Qed.

Lemma new_of_buildString (p : Profile.t) (mode : string) (w w' : World) (s : string) :
  buildString p mode w = (Normal s, w') ->
  new p mode w = (Normal (mk p mode s (computeKeyPositions s)), w').
Proof. intros E. unfold new. rewrite (bind_normal _ _ _ _ _ E). reflexivity. Qed.

(** C1, amended. For every profile and style, two encodings of the same pair
    return painters with the identical key-position set; the painters (and
    so the display strings) are identical when the style is [kv] or [code],
    and in the [json] style when the profile has coordinates. *)
Theorem encoding_deterministic (p : Profile.t) (mode : string) (w1 w2 : World) :
  exists t1 t2 w1' w2',
    new p mode w1 = (Normal t1, w1') /\
    new p mode w2 = (Normal t2, w2') /\
    keyCharPositions t1 = keyCharPositions t2 /\
    (mode = "kv"%string \/ mode = "code"%string \/ is_Some (Profile.coords p) -> t1 = t2).
Proof.
  assert (Pure : mode = "kv"%string \/ mode = "code"%string \/ is_Some (Profile.coords p) ->
                 exists t, forall w, new p mode w = (Normal t, w)).
  { intros H. destruct (buildString_pure p mode H) as [s Hs].
    eexists. intros w. apply new_of_buildString. apply Hs. }
  destruct (String.eqb_spec mode "kv") as [Ekv | Ekv].
  { destruct (Pure (or_introl Ekv)) as [t Ht].
    exists t, t, w1, w2. rewrite !Ht. repeat split; reflexivity. }
  destruct (String.eqb_spec mode "code") as [Ecode | Ecode].
  { destruct (Pure (or_intror (or_introl Ecode))) as [t Ht].
    exists t, t, w1, w2. rewrite !Ht. repeat split; reflexivity. }
  destruct (Profile.coords p) as [c |] eqn:Ec.
  { destruct (Pure (or_intror (or_intror (ex_intro _ c eq_refl)))) as [t Ht].
    exists t, t, w1, w2. rewrite !Ht. repeat split; reflexivity. }
  apply String.eqb_neq in Ekv, Ecode.
  destruct (buildString_json_generated p mode w1 Ekv Ecode Ec) as (s1 & w1' & E1 & K1).
  destruct (buildString_json_generated p mode w2 Ekv Ecode Ec) as (s2 & w2' & E2 & K2).
  eexists; eexists; eexists; eexists.
  split; [apply new_of_buildString; exact E1 |].
  split; [apply new_of_buildString; exact E2 |].
  cbn [keyCharPositions]. split; [congruence |].
  apply String.eqb_neq in Ekv, Ecode.
  intros [H | [H | [c H]]]; [contradiction | contradiction | discriminate H].
Qed.

End EncoderClaims.

(** * The claims about the generator and the data source *)

Module SourceClaims.
Import ProfileFactory ProfileFactoryFacts DataSource DataSourceFacts Samples.

Local Open Scope Z_scope.

(** C7. For every income (zero and arbitrarily large ones included), every
    draw and every mood of the bias table, the risk score computed by the
    generator of main.js ([riskFromIncomeAndMood]) and by the one of
    data/nyc.js ([biasRisk]) is an integer between 0 and 100. *)
Theorem risk_score_in_range (income : Q) (mood : string) (w : World) :
  In mood (map fst moodBias) ->
  (exists r w', riskFromIncomeAndMood income mood w = (Normal r, w') /\ 0 <= r <= 100) /\
  (exists r w', NYC.biasRisk income mood w = (Normal r, w') /\ 0 <= r <= 100).
Proof.
  intros _. split.
  - apply post_riskFromIncomeAndMood.
  - revert w. change (post (NYC.biasRisk income mood) (fun r => 0 <= r <= 100)).
    unfold NYC.biasRisk. post_step. apply post_ret. lia.
Qed.

Lemma risk_score_in_range_witness :
  In "burnout"%string (map fst moodBias) /\
  (exists r w', riskFromIncomeAndMood 0 "burnout" page_half = (Normal r, w') /\ 0 <= r <= 100) /\
  (exists r w', NYC.biasRisk 0 "burnout" page_half = (Normal r, w') /\ 0 <= r <= 100).
Proof.
  split.
  - simpl. tauto.
  - apply (risk_score_in_range 0 "burnout" page_half). simpl. tauto.
Defined.

(** C10. For every non-empty list of (value, weight) pairs, [weightedChoice]
    returns normally a value that occurs in the list; and every profile that
    [generate] makes has as its emotional state one of the eight moods of the
    weight table. *)
Theorem weightedChoice_returns_listed_value
    (A : Type) (pairs : list (A * Q)) (w : World) :
  pairs <> [] ->
  (exists v w', weightedChoice pairs w = (Normal v, w') /\ In v (map fst pairs)) /\
  (exists p w', generate w = (Normal p, w') /\
                exists m, Profile.emotional_state p = Some m /\ In m (map fst emotional)).
Proof.
  intros Hne. split.
  - apply post_weightedChoice. exact Hne.
  - destruct (post_generate w) as (p & w' & E & Hm & _). eauto.
Qed.

Lemma weightedChoice_returns_listed_value_witness :
  emotional <> [] /\
  (exists v w', weightedChoice emotional page_half = (Normal v, w') /\
                In v (map fst emotional)) /\
  (exists p w', generate page_half = (Normal p, w') /\
                exists m, Profile.emotional_state p = Some m /\ In m (map fst emotional)).
Proof.
  split.
  - discriminate.
  - apply (weightedChoice_returns_listed_value string emotional page_half). discriminate.
Defined.

(** C4. For every count [n >= 1], [getProfiles(n)] returns a list of exactly
    [n] profiles, and element [i] of it is element [i mod poolSize] of the
    pool [cachedProfiles] it draws from, which is not empty. With the external
    source selected, the pool is the one the call found unless that was empty
    (then [n] profiles are generated): a pool of fewer than [n] entries is
    repeated cyclically. With the synthetic source, a pool of fewer than [n]
    entries is replaced by [max(n, 128)] generated profiles before the
    profiles are taken. *)
Theorem getProfiles_length_and_cycle (n : Z) (w : World) :
  1 <= n ->
  exists out w',
    getProfiles n w = (Normal out, w') /\
    length out = Z.to_nat n /\
    (0 < length (cachedProfiles w'))%nat /\
    (forall i, (i < Z.to_nat n)%nat ->
       exists p, cachedProfiles w' !! (i mod length (cachedProfiles w'))%nat = Some p /\
                 out !! i = Some (Some p)) /\
    let external := source (CONFIG w) = "nyc"%string /\ is_Some (nyc_loaded w) in
    (external -> cachedProfiles w <> [] -> cachedProfiles w' = cachedProfiles w) /\
    (external -> cachedProfiles w = [] -> length (cachedProfiles w') = Z.to_nat n) /\
    (~ external -> n <= Z.of_nat (length (cachedProfiles w)) ->
     cachedProfiles w' = cachedProfiles w) /\
    (~ external -> Z.of_nat (length (cachedProfiles w)) < n ->
     length (cachedProfiles w') = Z.to_nat (Z.max n 128)).
Proof.
  intros Hn.
  assert (Cyc : forall (pool : list Profile.t) i,
             (0 < length pool)%nat -> (i < Z.to_nat n)%nat ->
             exists p, pool !! (i mod length pool)%nat = Some p /\
                       takeLoop pool n !! i = Some (Some p)).
  { intros pool i Hp Hi.
    destruct (lookup_lt_is_Some_2 pool (i mod length pool)%nat) as [p Ep].
    { apply Nat.mod_upper_bound. lia. }
    exists p. split; [exact Ep |]. rewrite lookup_takeLoop by exact Hi.
    rewrite Ep. reflexivity. }
  (* the synthetic path, taken when the source is not "nyc" or the script is
     not loaded *)
  assert (Fake : ~ (source (CONFIG w) = "nyc"%string /\ is_Some (nyc_loaded w)) ->
                 exists out w',
                   ((exec (if (Z.of_nat (length (cachedProfiles w)) <? n)
                           then (batch <- generateFakeBatch (Z.max n 128) ;;
                                 modify (set_cachedProfiles batch))
                           else ret tt) ;;
                     w1 <- get_world ;; ret (takeLoop (cachedProfiles w1) n)) w
                    = (Normal out, w')) /\
                   length out = Z.to_nat n /\
                   (0 < length (cachedProfiles w'))%nat /\
                   (forall i, (i < Z.to_nat n)%nat ->
                      exists p, cachedProfiles w' !! (i mod length (cachedProfiles w'))%nat
                                = Some p /\ out !! i = Some (Some p)) /\
                   ((source (CONFIG w) = "nyc"%string /\ is_Some (nyc_loaded w)) ->
                    cachedProfiles w <> [] -> cachedProfiles w' = cachedProfiles w) /\
                   ((source (CONFIG w) = "nyc"%string /\ is_Some (nyc_loaded w)) ->
                    cachedProfiles w = [] -> length (cachedProfiles w') = Z.to_nat n) /\
                   (n <= Z.of_nat (length (cachedProfiles w)) ->
                    cachedProfiles w' = cachedProfiles w) /\
                   (Z.of_nat (length (cachedProfiles w)) < n ->
                    length (cachedProfiles w') = Z.to_nat (Z.max n 128))).
  { intros Hext.
    destruct (Z.ltb_spec (Z.of_nat (length (cachedProfiles w))) n) as [E0 | E0].
    - destruct (post_generateFakeBatch (Z.max n 128) w) as (batch & w1 & E & Hl).
      unfold bind. rewrite E. cbn.
      eexists; eexists; split; [reflexivity |]. cbn.
      rewrite length_takeLoop. split; [reflexivity |].
      split; [lia |]. split; [intros i Hi; apply Cyc; lia |].
      repeat split; intros; solve [contradiction | lia].
    - cbn. eexists; eexists; split; [reflexivity |]. cbn.
      rewrite length_takeLoop. split; [reflexivity |].
      split; [lia |]. split; [intros i Hi; apply Cyc; lia |].
      repeat split; intros; solve [contradiction | reflexivity | lia]. }
  unfold getProfiles, bind at 1, get_world. cbv zeta.
  destruct (String.eqb_spec (source (CONFIG w)) "nyc") as [Es | Es];
    [destruct (bool_decide_reflect (is_Some (nyc_loaded w))) as [El | El] |]; cbn [andb].
  - (* the external source *)
    destruct (Nat.eqb_spec (length (cachedProfiles w)) 0) as [E0 | E0].
    + destruct (post_generateFakeBatch n w) as (batch & w1 & E & Hl).
      unfold bind. rewrite E. cbn.
      eexists; eexists; split; [reflexivity |]. cbn.
      rewrite length_takeLoop. split; [reflexivity |].
      split; [lia |]. split; [intros i Hi; apply Cyc; lia |].
      repeat split; intros; try tauto; try exact Hl.
      destruct (cachedProfiles w); [contradiction | discriminate].
    + cbn. eexists; eexists; split; [reflexivity |]. cbn.
      rewrite length_takeLoop. split; [reflexivity |].
      split; [lia |]. split; [intros i Hi; apply Cyc; lia |].
      repeat split; intros; try tauto.
      destruct (cachedProfiles w); [contradiction | discriminate].
  - destruct Fake as (out & w' & E & H1 & H2 & H3 & H4 & H5 & H6 & H7); [tauto |].
    exists out, w'. repeat split; auto.
  - destruct Fake as (out & w' & E & H1 & H2 & H3 & H4 & H5 & H6 & H7); [tauto |].
    exists out, w'. repeat split; auto.
Qed.

Lemma getProfiles_length_and_cycle_witness :
  1 <= 5 /\
  exists out w',
    getProfiles 5 page_nyc = (Normal out, w') /\
    length out = Z.to_nat 5 /\
    (0 < length (cachedProfiles w'))%nat /\
    (forall i, (i < Z.to_nat 5)%nat ->
       exists p, cachedProfiles w' !! (i mod length (cachedProfiles w'))%nat = Some p /\
                 out !! i = Some (Some p)) /\
    cachedProfiles w' = cachedProfiles page_nyc.
Proof.
  split; [lia |].
  destruct (getProfiles_length_and_cycle 5 page_nyc) as (out & w' & E & H1 & H2 & H3 & H4 & _);
    [lia |].
  exists out, w'. repeat split; try assumption.
  apply H4; [split; [reflexivity | eexists; reflexivity] | discriminate].
Defined.

(** Five profiles from a pool of two: the samples alternate, and the request
    to the NYC service is queued. *)
Example getProfiles_cycles_over_two :
  exists a b w',
    NYC.SAMPLE_PROFILES_at 1000 = [a; b] /\
    getProfiles 5 page_nyc = (Normal [Some a; Some b; Some a; Some b; Some a], w') /\
    pending w' = [opts0] /\
    cachedProfiles w' = [a; b].
Proof.
  eexists; eexists; eexists. split; [reflexivity |].
  split; [vm_compute; reflexivity |]. split; vm_compute; reflexivity.
Qed.

(** Scenario A of the specification: five profiles from an empty synthetic
    pool; the pool is topped up to 128. *)
Example getProfiles_from_empty_pool :
  exists out w',
    getProfiles 5 page_half = (Normal out, w') /\
    length out = 5%nat /\ length (cachedProfiles w') = 128%nat /\
    Forall (fun o => exists p, o = Some p /\ Profile.income_usd p = Some 130000
                               /\ Profile.emotional_state p = Some "curious"%string) out.
Proof.
  eexists; eexists. split; [vm_compute; reflexivity |].
  split; [reflexivity |]. split; [reflexivity |].
  repeat (constructor; [eexists; split; [reflexivity | split; reflexivity] |]).
  constructor.
Qed.

End SourceClaims.

(** * The claim about the number of glyph columns *)

Module RainClaims.
Import MatrixRain F64Facts Samples.

Local Open Scope Z_scope.

(** The count as a function of the product [(w / size) * density]. *)
Lemma count_mono (maxColumns : Z) (v1 v2 : Q) :
  8 <= maxColumns -> (v1 <= v2)%Q ->
  clamp (Z.max 8 (F64.floor v1)) 8 maxColumns <= clamp (Z.max 8 (F64.floor v2)) 8 maxColumns.
Proof.
  intros Hm Hv. apply clamp_mono; [exact Hm |].
  pose proof (Qfloor_resp_le v1 v2 Hv). unfold F64.floor. lia.
Qed.

Lemma count_of_nonpos (maxColumns : Z) (v : Q) :
  (v <= 0)%Q -> clamp (Z.max 8 (F64.floor v)) 8 maxColumns = clamp 8 8 maxColumns.
Proof.
  intros Hv. f_equal. pose proof (Qfloor_resp_le v 0 Hv) as H.
  unfold F64.floor. change (Qfloor 0) with 0 in H. lia.
Qed.

Lemma lit_0_7_nonneg : (0 <= lit_0_7)%Q.
Proof. apply round_nonneg. discriminate. Qed.

Lemma div_size_sign (w : Q) :
  ((0 <= w -> 0 <= F64.div w glyphSize) /\ (w <= 0 -> F64.div w glyphSize <= 0))%Q.
Proof.
  unfold F64.div, glyphSize. split; intros H.
  - apply round_nonneg. apply Qle_shift_div_l; [reflexivity | lra].
  - apply round_nonpos. apply Qle_shift_div_r; [reflexivity | lra].
Qed.

(** C3. For every density scale [d] in [0.2, 2.0] and every surface width
    [w], the number of glyph columns computed when the columns are rebuilt
    ([numCols] in [resetColumns], and the [desiredCols] that [update] compares
    it with) lies between 8 and [maxColumns], and it does not decrease when
    [w] grows nor when [d] grows. [CONFIG.maxColumns] is at least 8 (it is
    160 in main.js). *)
Theorem column_count_bounded_and_monotone (cfg : Config) (w1 w2 d1 d2 : Q) :
  8 <= maxColumns cfg ->
  (w1 <= w2)%Q ->
  ((2 # 10) <= d1 /\ d1 <= d2 /\ d2 <= 2)%Q ->
  let c1 := set_densityScale d1 cfg in
  let c2 := set_densityScale d2 cfg in
  (8 <= numCols c1 w1 <= maxColumns cfg /\
   numCols c1 w1 <= numCols c1 w2 /\
   numCols c1 w1 <= numCols c2 w1) /\
  (8 <= desiredCols c1 w1 <= maxColumns cfg /\
   desiredCols c1 w1 <= desiredCols c1 w2 /\
   desiredCols c1 w1 <= desiredCols c2 w1).
Proof.
  intros Hm Hw (Hd1 & Hd12 & Hd2). cbv zeta.
  unfold numCols, desiredCols. cbn [densityScale maxColumns set_densityScale].
  pose proof lit_0_7_nonneg as H7.
  assert (Dw : (F64.div w1 glyphSize <= F64.div w2 glyphSize)%Q).
  { apply div_mono_l; [reflexivity | exact Hw]. }
  assert (Hden1 : (0 <= F64.mul lit_0_7 d1)%Q) by (apply mul_nonneg; lra).
  assert (Hden : (F64.mul lit_0_7 d1 <= F64.mul lit_0_7 d2)%Q).
  { apply mul_mono_l; assumption. }
  destruct (div_size_sign w1) as [Hpos Hneg].
  split; (split; [apply clamp_range; exact Hm | split]).
  - (* resetColumns, in w *)
    apply count_mono; [exact Hm |]. apply mul_mono_r; assumption.
  - (* resetColumns, in d *)
    destruct (Qlt_le_dec w1 0) as [Hn | Hp].
    + rewrite !count_of_nonpos; [lia | |].
      * apply round_nonpos.
        assert (0 <= F64.mul lit_0_7 d2)%Q by (apply mul_nonneg; lra).
        assert (F64.div w1 glyphSize <= 0)%Q by (apply Hneg; lra). nra.
      * apply round_nonpos.
        assert (F64.div w1 glyphSize <= 0)%Q by (apply Hneg; lra). nra.
    + apply count_mono; [exact Hm |]. apply mul_mono_l; [apply Hpos, Hp | exact Hden].
  - (* update, in w *)
    apply count_mono; [exact Hm |]. apply mul_mono_r; [lra |].
    apply mul_mono_r; assumption.
  - (* update, in d *)
    destruct (Qlt_le_dec w1 0) as [Hn | Hp].
    + assert (Hf : (F64.mul (F64.div w1 glyphSize) lit_0_7 <= 0)%Q).
      { apply round_nonpos.
        assert (F64.div w1 glyphSize <= 0)%Q by (apply Hneg; lra). nra. }
      rewrite !count_of_nonpos; [lia | |]; apply round_nonpos; nra.
    + apply count_mono; [exact Hm |]. apply mul_mono_l; [| exact Hd12].
      apply mul_nonneg; [apply Hpos, Hp | exact H7].
Qed.

Lemma column_count_bounded_and_monotone_witness :
  8 <= maxColumns CONFIG0 /\ (800 <= 1920)%Q /\
  ((2 # 10) <= 1 /\ 1 <= (16 # 10) /\ (16 # 10) <= 2)%Q /\
  (8 <= numCols (set_densityScale 1 CONFIG0) 800 <= maxColumns CONFIG0 /\
   numCols (set_densityScale 1 CONFIG0) 800 <= numCols (set_densityScale 1 CONFIG0) 1920 /\
   numCols (set_densityScale 1 CONFIG0) 800 <= numCols (set_densityScale (16 # 10) CONFIG0) 800) /\
  (8 <= desiredCols (set_densityScale 1 CONFIG0) 800 <= maxColumns CONFIG0 /\
   desiredCols (set_densityScale 1 CONFIG0) 800 <= desiredCols (set_densityScale 1 CONFIG0) 1920 /\
   desiredCols (set_densityScale 1 CONFIG0) 800
     <= desiredCols (set_densityScale (16 # 10) CONFIG0) 800).
Proof.
  assert (Hm : 8 <= maxColumns CONFIG0) by (vm_compute; discriminate).
  assert (Hw : (800 <= 1920)%Q) by (vm_compute; discriminate).
  assert (Hd : ((2 # 10) <= 1 /\ 1 <= (16 # 10) /\ (16 # 10) <= 2)%Q)
    by (repeat split; vm_compute; discriminate).
  split; [exact Hm |]. split; [exact Hw |]. split; [exact Hd |].
  exact (column_count_bounded_and_monotone CONFIG0 800 1920 1 (16 # 10) Hm Hw Hd).
Defined.

(** The counts at the initial configuration, on a canvas 1920 wide, and at
    the upper clamp. *)
Example numCols_1920 : numCols CONFIG0 1920 = 84 /\ desiredCols CONFIG0 1920 = 84.
Proof. vm_compute. split; reflexivity. Qed.

Example numCols_wide :
  numCols (set_densityScale 2 CONFIG0) 3840 = 160 /\ numCols CONFIG0 0 = 8.
Proof. vm_compute. split; reflexivity. Qed.

(** The two formulas associate the product differently and can disagree:
    on a canvas 400 wide at density scale 1.6, [resetColumns] builds 27
    columns while [update] asks for 28. *)
Example numCols_and_desiredCols_disagree :
  numCols (set_densityScale (F64.div 16 10) CONFIG0) 400 = 27 /\
  desiredCols (set_densityScale (F64.div 16 10) CONFIG0) 400 = 28.
Proof. vm_compute. split; reflexivity. Qed.

End RainClaims.

(** * The claims about the supplier boundary *)

Module SupplierClaims.
Import NYC NYCFacts Samples.

Local Open Scope Z_scope.

Section Service.

Variable synthesize : Json -> (nat -> Q) -> Z -> option Profile.t * nat.

(** C5. For every filter and every page, [fetchProfiles] returns normally
    (no exception crosses the supplier boundary); and when the cache has no
    answer and the network call fails, or yields no row, what it returns is
    the embedded fallback list [SAMPLE_PROFILES]. *)
Theorem fetchProfiles_never_throws (opts : FetchOpts) (w : World) :
  exists v w',
    fetchProfiles synthesize opts w = (Normal v, w') /\
    (fst (getCache (cacheKey opts) w) = Normal None ->
     network_failed (next_reply w) \/ no_rows (next_reply w) ->
     v = SAMPLE_PROFILES w).
Proof.
  rewrite fetchProfiles_unfold, getCache_spec. cbn [fst].
  destruct (cache_answer (cacheKey opts) w) as [v |].
  - exists v, w. split; [reflexivity |]. intros H. discriminate H.
  - destruct (fetch_and_cache synthesize opts w) as [[v | e] w'] eqn:E.
    + exists v, w'. split; [reflexivity |]. intros _ [Hf | Hn].
      * destruct (fetch_and_cache_failed synthesize opts w Hf) as [e E'].
        rewrite E' in E. discriminate E.
      * rewrite (fetch_and_cache_no_rows synthesize opts w Hn) in E.
        inversion E. reflexivity.
    + exists (SAMPLE_PROFILES w), w'. split; reflexivity.
Qed.

(** C6. A cache entry older than one hour is never returned: [getCache]
    answers [null], [fetchProfiles] returns what it returns when the entry
    is absent, and it sends a request. A call whose filter key has an entry
    of at most one hour returns the cached list and leaves the page as it
    is: no request is sent. *)
Theorem cache_entry_expires_after_one_hour
    (opts : FetchOpts) (w : World) (t : Z) (v : list Profile.t) :
  storage_up w = true ->
  localStorage w !! cacheKey opts = Some (Entry t v) ->
  (clock w - t > ONE_HOUR_MS ->
     getCache (cacheKey opts) w = (Normal None, w) /\
     fst (fetchProfiles synthesize opts w)
       = fst (fetchProfiles synthesize opts (without_entry (cacheKey opts) w)) /\
     length (requests (snd (fetchProfiles synthesize opts w))) = S (length (requests w))) /\
  (clock w - t <= ONE_HOUR_MS ->
     getCache (cacheKey opts) w = (Normal (Some v), w) /\
     fetchProfiles synthesize opts w = (Normal v, w)).
Proof.
  intros Hup Hl. split; intros Ht.
  - assert (Hc : cache_answer (cacheKey opts) w = None).
    { unfold cache_answer. rewrite Hup, Hl.
      destruct (Z.gtb_spec (clock w - t) ONE_HOUR_MS); [reflexivity | lia]. }
    assert (Hc' : cache_answer (cacheKey opts) (without_entry (cacheKey opts) w) = None).
    { unfold cache_answer, without_entry. cbn [storage_up localStorage set_localStorage].
      rewrite Hup, lookup_delete_eq. reflexivity. }
    split; [rewrite getCache_spec, Hc; reflexivity |].
    rewrite !fetchProfiles_unfold, Hc, Hc'. split.
    + unfold without_entry.
      change (SAMPLE_PROFILES (set_localStorage (delete (cacheKey opts) (localStorage w)) w))
        with (SAMPLE_PROFILES w).
      pose proof (fetch_and_cache_storage synthesize opts
                    (delete (cacheKey opts) (localStorage w)) w) as HS.
      destruct (fetch_and_cache synthesize opts (set_localStorage _ w)) as [[v1 | e1] w1];
        destruct (fetch_and_cache synthesize opts w) as [[v2 | e2] w2];
        cbn [fst] in *; congruence.
    + pose proof (fetch_and_cache_requests synthesize opts w) as HR.
      destruct (fetch_and_cache synthesize opts w) as [[v1 | e1] w1]; exact HR.
  - assert (Hc : cache_answer (cacheKey opts) w = Some v).
    { unfold cache_answer. rewrite Hup, Hl.
      destruct (Z.gtb_spec (clock w - t) ONE_HOUR_MS); [lia | reflexivity]. }
    split; [rewrite getCache_spec, Hc; reflexivity |].
    rewrite fetchProfiles_unfold, Hc. reflexivity.
Qed.

(** A miss stays a miss while the entry under the key does not change and
    time passes. *)
Lemma cache_answer_later (key : string) (w w2 : World) :
  cache_answer key w = None ->
  storage_up w2 = storage_up w -> localStorage w2 !! key = localStorage w !! key ->
  clock w <= clock w2 ->
  cache_answer key w2 = None.
Proof.
  unfold cache_answer. intros H Eu El Hc. rewrite Eu, El.
  destruct (storage_up w); [| reflexivity].
  destruct (localStorage w !! key) as [[t v | raw] |]; try reflexivity.
  destruct (Z.gtb_spec (clock w - t) ONE_HOUR_MS); [| discriminate].
  destruct (Z.gtb_spec (clock w2 - t) ONE_HOUR_MS); [reflexivity | lia].
Qed.

(** C9. When the cache has no answer, the two fallback paths differ. A
    request that yields no row returns the samples and (the storage working)
    stores them under the filter key, so that a later call with the same
    filter, within the hour and with that entry still in the storage, returns
    them and sends no request. A request that fails returns the samples and
    leaves the storage as it is, so that a later call with the same filter,
    the entry under the key being what it was, sends a request again. *)
Theorem fallback_paths_differ_in_caching (opts : FetchOpts) (w : World) :
  fst (getCache (cacheKey opts) w) = Normal None ->
  (storage_up w = true -> no_rows (next_reply w) ->
   exists w1,
     fetchProfiles synthesize opts w = (Normal (SAMPLE_PROFILES w), w1) /\
     localStorage w1 !! cacheKey opts = Some (Entry (clock w1) (SAMPLE_PROFILES w)) /\
     forall w2,
       storage_up w2 = true ->
       localStorage w2 !! cacheKey opts = localStorage w1 !! cacheKey opts ->
       clock w1 <= clock w2 <= clock w1 + ONE_HOUR_MS ->
       fetchProfiles synthesize opts w2 = (Normal (SAMPLE_PROFILES w), w2)) /\
  (network_failed (next_reply w) ->
   exists w1,
     fetchProfiles synthesize opts w = (Normal (SAMPLE_PROFILES w), w1) /\
     localStorage w1 = localStorage w /\
     forall w2,
       storage_up w2 = storage_up w1 ->
       localStorage w2 !! cacheKey opts = localStorage w1 !! cacheKey opts ->
       clock w1 <= clock w2 ->
       length (requests (snd (fetchProfiles synthesize opts w2)))
       = S (length (requests w2))).
Proof.
  rewrite getCache_spec. cbn [fst]. intros Hmiss.
  assert (Hc : cache_answer (cacheKey opts) w = None) by congruence.
  split.
  - intros Hup Hn. eexists. split.
    { rewrite fetchProfiles_unfold, Hc, (fetch_and_cache_no_rows synthesize opts w Hn).
      reflexivity. }
    unfold after_caching. cbn [storage_up after_request set_clock set_requests].
    rewrite Hup. cbn [localStorage set_localStorage clock].
    split; [apply lookup_insert_eq |].
    intros w2 Hup2 Hl2 Hclock. rewrite fetchProfiles_unfold.
    unfold cache_answer. rewrite Hup2, Hl2, lookup_insert_eq.
    match goal with |- context [?a >? ONE_HOUR_MS] =>
      destruct (Z.gtb_spec a ONE_HOUR_MS); [lia | reflexivity] end.
  - intros Hf. destruct (fetch_and_cache_failed synthesize opts w Hf) as [e E].
    eexists. split.
    { rewrite fetchProfiles_unfold, Hc, E. reflexivity. }
    split; [reflexivity |].
    intros w2 Hup2 Hl2 Hclock. rewrite fetchProfiles_unfold.
    rewrite (cache_answer_later (cacheKey opts) w w2 Hc Hup2 Hl2).
    + pose proof (fetch_and_cache_requests synthesize opts w2) as HR.
      destruct (fetch_and_cache synthesize opts w2) as [[v1 | e1] w3]; exact HR.
    + unfold after_request in Hclock. cbn [clock set_clock set_requests] in Hclock. lia.
Qed.

End Service.

Lemma cache_entry_expires_after_one_hour_witness :
  (storage_up (page_cached 1000) = true /\
   localStorage (page_cached 1000) !! cacheKey opts0
     = Some (Entry (1762045000000 - 1000) [sampleB]) /\
   fetchProfiles synthesize0 opts0 (page_cached 1000)
     = (Normal [sampleB], page_cached 1000)) /\
  (storage_up (page_cached 3600001) = true /\
   localStorage (page_cached 3600001) !! cacheKey opts0
     = Some (Entry (1762045000000 - 3600001) [sampleB]) /\
   getCache (cacheKey opts0) (page_cached 3600001) = (Normal None, page_cached 3600001)).
Proof.
  assert (L1 : localStorage (page_cached 1000) !! cacheKey opts0
               = Some (Entry (1762045000000 - 1000) [sampleB]))
    by (vm_compute; reflexivity).
  assert (L2 : localStorage (page_cached 3600001) !! cacheKey opts0
               = Some (Entry (1762045000000 - 3600001) [sampleB]))
    by (vm_compute; reflexivity).
  split; (split; [reflexivity |]); (split; [assumption |]).
  - apply (cache_entry_expires_after_one_hour synthesize0 opts0 (page_cached 1000)
             (1762045000000 - 1000) [sampleB] eq_refl L1).
    vm_compute. discriminate.
  - apply (cache_entry_expires_after_one_hour synthesize0 opts0 (page_cached 3600001)
             (1762045000000 - 3600001) [sampleB] eq_refl L2).
    vm_compute. reflexivity.
Defined.

Lemma fallback_paths_differ_in_caching_witness :
  (fst (getCache (cacheKey opts0) (page 0 (Body (JArr [])))) = Normal None /\
   storage_up (page 0 (Body (JArr []))) = true /\
   no_rows (next_reply (page 0 (Body (JArr [])))) /\
   exists w1,
     fetchProfiles synthesize0 opts0 (page 0 (Body (JArr [])))
       = (Normal (SAMPLE_PROFILES_at 1000), w1) /\
     localStorage w1 !! cacheKey opts0
       = Some (Entry (clock w1) (SAMPLE_PROFILES_at 1000)) /\
     forall dt, 0 <= dt <= ONE_HOUR_MS ->
       fetchProfiles synthesize0 opts0 (later dt w1)
       = (Normal (SAMPLE_PROFILES_at 1000), later dt w1)) /\
  (fst (getCache (cacheKey opts0) (page 0 NetFail)) = Normal None /\
   network_failed (next_reply (page 0 NetFail)) /\
   exists w1,
     fetchProfiles synthesize0 opts0 (page 0 NetFail)
       = (Normal (SAMPLE_PROFILES_at 1000), w1) /\
     localStorage w1 = localStorage (page 0 NetFail) /\
     forall dt, 0 <= dt ->
       length (requests (snd (fetchProfiles synthesize0 opts0 (later dt w1))))
       = S (length (requests w1))).
Proof.
  split.
  - split; [reflexivity |]. split; [reflexivity |]. split; [exact I |].
    destruct (fallback_paths_differ_in_caching synthesize0 opts0 (page 0 (Body (JArr [])))
                eq_refl) as [Ha _].
    destruct (Ha eq_refl I) as (w1 & E & Hl & Hnext).
    exists w1. split; [exact E |]. split; [exact Hl |].
    intros dt Hdt. apply Hnext.
    + inversion E. reflexivity.
    + reflexivity.
    + unfold later. cbn [clock set_clock]. lia.
  - split; [reflexivity |]. split; [exact I |].
    destruct (fallback_paths_differ_in_caching synthesize0 opts0 (page 0 NetFail) eq_refl)
      as [_ Hb].
    destruct (Hb I) as (w1 & E & Hl & Hnext).
    exists w1. split; [exact E |]. split; [exact Hl |].
    intros dt Hdt. rewrite (Hnext (later dt w1)).
    + reflexivity.
    + reflexivity.
    + reflexivity.
    + unfold later. cbn [clock set_clock]. lia.
Defined.

(** Scenario C of the specification: the request fails, the fallback list
    is returned and nothing is thrown; the storage stays empty. *)
Example fetchProfiles_on_network_error :
  fst (fetchProfiles synthesize0 opts0 (page 0 NetFail)) = Normal (SAMPLE_PROFILES_at 1000) /\
  localStorage (snd (fetchProfiles synthesize0 opts0 (page 0 NetFail))) = ∅ /\
  length (requests (snd (fetchProfiles synthesize0 opts0 (page 0 NetFail)))) = 1%nat.
Proof. vm_compute. repeat split; reflexivity. Qed.

(** A [null] row makes the mapper throw: the samples are returned and
    nothing is cached. Two rows give two profiles, which are cached. *)
Example fetchProfiles_on_null_row :
  fst (fetchProfiles synthesize0 opts0 (page 0 (Body (JArr [JObj []; JNull]))))
    = Normal (SAMPLE_PROFILES_at 1000) /\
  localStorage (snd (fetchProfiles synthesize0 opts0 (page 0 (Body (JArr [JObj []; JNull])))))
    = ∅.
Proof. vm_compute. repeat split; reflexivity. Qed.

Example fetchProfiles_on_two_rows :
  exists p1 p2 w1,
    fetchProfiles synthesize0 opts0 (page 0 (Body (JArr [JObj []; JObj []])))
      = (Normal [p1; p2], w1) /\
    localStorage w1 !! cacheKey opts0 = Some (Entry (1762045000000 + 120) [p1; p2]) /\
    cursor w1 = 4%nat.
Proof.
  eexists; eexists; eexists. split; [vm_compute; reflexivity |].
  split; vm_compute; reflexivity.
Qed.

(** The refresh queued by [DataSource.getProfiles] settles after a failed
    request: the promise is fulfilled with the samples, and they become the
    pool. *)
Example refresh_after_network_error :
  exists out w1 w2,
    DataSource.getProfiles 3 page_nyc = (Normal out, w1) /\
    refresh_settles synthesize0 w1 = (Normal tt, w2) /\
    pending w1 = [opts0] /\ pending w2 = [] /\
    cachedProfiles w2 = SAMPLE_PROFILES_at 1000 /\
    length (requests w2) = 1%nat.
Proof.
  eexists; eexists; eexists.
  split; [vm_compute; reflexivity |].
  split; [vm_compute; reflexivity |].
  repeat split; vm_compute; reflexivity.
Qed.

End SupplierClaims.
(** * More on binary64 rounding: exact values and error bounds *)

Module F64More.
Import F64 F64Facts.

Local Open Scope Q_scope.

Lemma inject_Z_sub (a b : Z) : inject_Z (a - b) == inject_Z a - inject_Z b.
Proof.
  unfold Z.sub. rewrite inject_Z_plus, inject_Z_opp. reflexivity.
Qed.

Lemma ilog2_unique (x : Q) (k : Z) : 2 ^ k <= x -> x < 2 ^ (k + 1) -> ilog2 x = k.
Proof.
  intros L U. assert (Hx : 0 < x) by (pose proof (pow2_pos k); lra).
  destruct (ilog2_spec x Hx) as [L' U'].
  assert (H1 : 2 ^ k < 2 ^ (ilog2 x + 1)) by lra.
  assert (H2 : 2 ^ ilog2 x < 2 ^ (k + 1)) by lra.
  apply Qpower_lt_compat_l_inv in H1; [| reflexivity].
  apply Qpower_lt_compat_l_inv in H2; [| reflexivity]. lia.
Qed.

Lemma rne_comp (x y : Q) : x == y -> rne x = rne y.
Proof.
  intros E. apply Z.le_antisymm; apply rne_mono; rewrite E; apply Qle_refl.
Qed.

Lemma round_comp (x y : Q) : x == y -> round x == round y.
Proof.
  intros E. apply Qle_antisym; apply round_mono; rewrite E; apply Qle_refl.
Qed.

#[export] Instance round_Proper : Proper (Qeq ==> Qeq) round.
Proof. intros x y E. apply round_comp, E. Qed.

Lemma round_of_pos (x : Q) : 0 < x -> round x == round_pos x.
Proof.
  intros H. unfold round.
  assert (C : Qcompare x 0 = Gt) by (apply Qgt_alt; exact H).
  rewrite C. apply Qred_correct.
Qed.

Lemma round_of_neg (x : Q) : x < 0 -> round x == - round_pos (- x).
Proof.
  intros H. unfold round.
  assert (C : Qcompare x 0 = Lt) by (apply Qlt_alt; exact H).
  rewrite C. apply Qred_correct.
Qed.

Lemma round_opp (x : Q) : round (- x) == - round x.
Proof.
  destruct (Q_dec x 0) as [[N | P] | Z0].
  - rewrite (round_of_neg x N). rewrite round_of_pos by lra. lra.
  - rewrite (round_of_pos x P). rewrite round_of_neg by lra.
    assert (E : - - x == x) by lra.
    unfold round_pos, ulp_exp. cbv zeta.
    rewrite (ilog2_unique (- - x) (ilog2 x)).
    + rewrite (rne_comp (- - x / 2 ^ Z.max (ilog2 x - 52) (-1074))
                        (x / 2 ^ Z.max (ilog2 x - 52) (-1074))); [reflexivity |].
      rewrite E. reflexivity.
    + rewrite E. apply ilog2_spec, P.
    + rewrite E. apply ilog2_spec, P.
  - rewrite (round_comp x 0 Z0). rewrite (round_comp (- x) 0) by lra.
    rewrite round_0. reflexivity.
Qed.

(** A number [m * 2^e] with [m] below 2^53 and [e] at least -1074 is a
    double. *)
Lemma round_pos_dyadic (m e : Z) :
  (0 < m < 2 ^ 53)%Z -> (-1074 <= e)%Z ->
  round_pos (inject_Z m * 2 ^ e) == inject_Z m * 2 ^ e.
Proof.
  intros [Hm0 Hm] He.
  set (k := Z.log2 m).
  assert (Hk : (2 ^ k <= m < 2 ^ (k + 1))%Z).
  { unfold k. replace (k + 1)%Z with (Z.succ (Z.log2 m)) by (unfold k; lia).
    apply Z.log2_spec. exact Hm0. }
  assert (Hk0 : (0 <= k)%Z) by apply Z.log2_nonneg.
  assert (Hk52 : (k <= 52)%Z).
  { destruct (Z_le_gt_dec k 52) as [L | G]; [exact L | exfalso].
    assert ((2 ^ 53 <= 2 ^ k)%Z) by (apply Z.pow_le_mono_r; lia). lia. }
  pose proof (pow2_pos e) as Pe.
  assert (Lg : ilog2 (inject_Z m * 2 ^ e) = (k + e)%Z).
  { apply ilog2_unique.
    - rewrite pow2_split. apply Qmult_le_compat_r; [| lra].
      rewrite <- pow2_inject by exact Hk0. rewrite <- Zle_Qle. lia.
    - replace (k + e + 1)%Z with ((k + 1) + e)%Z by lia.
      rewrite pow2_split. apply Qmult_lt_compat_r; [exact Pe |].
      rewrite <- pow2_inject by lia. rewrite <- Zlt_Qlt. lia. }
  unfold round_pos, ulp_exp. cbv zeta. rewrite Lg.
  set (s := Z.max (k + e - 52) (-1074)).
  assert (Hs : (s <= e)%Z) by (unfold s; lia).
  pose proof (pow2_pos s) as Ps.
  assert (E : inject_Z m * 2 ^ e / 2 ^ s == inject_Z (m * 2 ^ (e - s))).
  { rewrite inject_Z_mult. rewrite pow2_inject by lia.
    replace e with ((e - s) + s)%Z at 1 by lia. rewrite pow2_split.
    field. lra. }
  rewrite (rne_comp _ _ E). rewrite rne_Z.
  rewrite inject_Z_mult. rewrite pow2_inject by lia.
  replace e with ((e - s) + s)%Z at 2 by lia. rewrite pow2_split. ring.
Qed.

Lemma round_dyadic (m e : Z) :
  (Z.abs m < 2 ^ 53)%Z -> (-1074 <= e)%Z ->
  round (inject_Z m * 2 ^ e) == inject_Z m * 2 ^ e.
Proof.
  intros Hm He. pose proof (pow2_pos e) as Pe.
  destruct (Z.lt_trichotomy m 0) as [N | [Z0 | P]].
  - assert (E : inject_Z m * 2 ^ e == - (inject_Z (- m) * 2 ^ e)).
    { rewrite inject_Z_opp. ring. }
    rewrite E. rewrite round_opp. apply Qopp_comp.
    rewrite round_of_pos.
    + apply round_pos_dyadic; [lia | exact He].
    + apply Qmult_lt_0_compat; [| exact Pe].
      replace 0 with (inject_Z 0) by reflexivity. rewrite <- Zlt_Qlt. lia.
  - subst m. rewrite (round_comp (inject_Z 0 * 2 ^ e) 0) by ring.
    rewrite round_0. ring.
  - rewrite round_of_pos.
    + apply round_pos_dyadic; [lia | exact He].
    + apply Qmult_lt_0_compat; [| exact Pe].
      replace 0 with (inject_Z 0) by reflexivity. rewrite <- Zlt_Qlt. lia.
Qed.

(** Integers of magnitude below 2^53 are doubles. *)
Lemma round_Z (n : Z) : (Z.abs n < 2 ^ 53)%Z -> round (inject_Z n) == inject_Z n.
Proof.
  intros H.
  assert (E : inject_Z n == inject_Z n * 2 ^ 0) by (change (2 ^ 0) with 1; ring).
  rewrite (round_comp _ _ E). rewrite round_dyadic; [symmetry; exact E | exact H | lia].
Qed.

Lemma rne_below_half (q : Q) (f : Z) :
  inject_Z f <= q -> q - inject_Z f < 1 # 2 -> rne q = f.
Proof.
  intros L U.
  assert (F : Qfloor q = f).
  { symmetry. apply Z.le_antisymm.
    - apply Qfloor_resp_le in L. rewrite Qfloor_Z in L. exact L.
    - assert (H : (Qfloor q < f + 1)%Z); [| lia].
      rewrite Zlt_Qlt. pose proof (Qfloor_le q). rewrite inject_Z_plus.
      change (inject_Z 1) with 1. lra. }
  unfold rne. rewrite F.
  assert (C : Qcompare (q - inject_Z f) (1 # 2) = Lt) by (apply Qlt_alt; exact U).
  rewrite C. reflexivity.
Qed.

(** The integer significand of a rounded positive number is at most 2^53. *)
Lemma significand_bound (x : Q) :
  0 < x -> (0 <= rne (x / 2 ^ ulp_exp x) <= 2 ^ 53)%Z.
Proof.
  intros Hx. pose proof (pow2_pos (ulp_exp x)) as Ps.
  destruct (ilog2_spec x Hx) as [_ U].
  split.
  - apply rne_nonneg. apply Qle_shift_div_l; [exact Ps | lra].
  - pose proof (rne_bounds (x / 2 ^ ulp_exp x)) as [_ B].
    assert (H : (Qfloor (x / 2 ^ ulp_exp x) < 2 ^ 53)%Z); [| lia].
    rewrite Zlt_Qlt. rewrite pow2_inject by lia.
    apply Qle_lt_trans with (x / 2 ^ ulp_exp x); [apply Qfloor_le |].
    apply Qlt_shift_div_r; [exact Ps |].
    rewrite <- pow2_split.
    apply Qlt_le_trans with (2 ^ (ilog2 x + 1)); [exact U |].
    apply pow2_le. unfold ulp_exp. lia.
Qed.

(** Rounding is idempotent: its results are doubles. *)
Lemma round_idem (x : Q) : round (round x) == round x.
Proof.
  assert (P : forall y, 0 < y -> round (round_pos y) == round_pos y).
  { intros y Hy. unfold round_pos. cbv zeta.
    pose proof (significand_bound y Hy) as [B0 B1].
    set (M := rne (y / 2 ^ ulp_exp y)) in *.
    assert (He : (-1074 <= ulp_exp y)%Z) by (unfold ulp_exp; lia).
    destruct (Z.eq_dec M (2 ^ 53)%Z) as [E | N].
    - rewrite E.
      assert (R : inject_Z (2 ^ 53) * 2 ^ ulp_exp y
                  == inject_Z (2 ^ 52) * 2 ^ (1 + ulp_exp y)).
      { rewrite (pow2_split 1 (ulp_exp y)).
        change (inject_Z (2 ^ 53)) with (inject_Z (2 ^ 52) * 2 ^ 1). ring. }
      rewrite (round_comp _ _ R). rewrite round_dyadic; [symmetry; exact R | | lia].
      reflexivity.
    - apply round_dyadic; [lia | exact He]. }
  destruct (Q_dec x 0) as [[N | Px] | Z0].
  - rewrite (round_comp (round x) (- round_pos (- x))) by (apply round_of_neg, N).
    rewrite round_opp. rewrite P by lra. symmetry. apply round_of_neg, N.
  - rewrite (round_comp (round x) (round_pos x)) by (apply round_of_pos, Px).
    rewrite P by exact Px. symmetry. apply round_of_pos, Px.
  - rewrite (round_comp x 0 Z0). rewrite !round_0. reflexivity.
Qed.

Lemma pow2_53 : inject_Z (2 ^ 53) * 2 ^ (-53) == 1.
Proof. reflexivity. Qed.

(** A double below 1 is at most [1 - 2^-53]. *)
Lemma double_below_one (u : Q) :
  round u == u -> 0 <= u -> u < 1 -> u <= 1 - 2 ^ (-53).
Proof.
  intros R H0 H1. pose proof pow2_53 as P53. pose proof (pow2_pos (-53)) as Pp.
  assert (I53 : inject_Z (2 ^ 53) == 9007199254740992) by reflexivity.
  destruct (Qlt_le_dec u (1 # 2)) as [S | L].
  - rewrite I53 in P53. lra.
  - assert (Hu : 0 < u) by lra.
    assert (Lg : ilog2 u = (-1)%Z).
    { apply ilog2_unique.
      - change (2 ^ (-1)) with (1 # 2). exact L.
      - change (2 ^ (-1 + 1)) with 1. exact H1. }
    rewrite (round_of_pos u Hu) in R. unfold round_pos, ulp_exp in R. cbv zeta in R.
    rewrite Lg in R. change (Z.max (-1 - 52) (-1074)) with (-53)%Z in R.
    set (M := rne (u / 2 ^ (-53))) in *.
    assert (HM : (M < 2 ^ 53)%Z).
    { rewrite Zlt_Qlt.
      assert (inject_Z M * 2 ^ (-53) < inject_Z (2 ^ 53) * 2 ^ (-53)) by lra.
      apply Qmult_lt_r with (2 ^ (-53)); assumption. }
    assert (HM' : inject_Z M <= inject_Z (2 ^ 53 - 1)) by (rewrite <- Zle_Qle; lia).
    rewrite inject_Z_sub in HM'. change (inject_Z 1) with 1 in HM'.
    rewrite <- R.
    apply Qle_trans with ((inject_Z (2 ^ 53) - 1) * 2 ^ (-53)).
    + apply Qmult_le_compat_r; [exact HM' | lra].
    + lra.
Qed.

(** For a double [u] in [0, 1) and an integer [n] the product [u * n],
    rounded, stays below [n]. *)
Lemma round_mul_below (u : Q) (n : Z) :
  (1 <= n < 2 ^ 53)%Z -> 0 <= u -> u <= 1 - 2 ^ (-53) ->
  round (u * inject_Z n) < inject_Z n.
Proof.
  intros [Hn0 Hn] H0 H1.
  pose proof pow2_53 as P53. pose proof (pow2_pos (-53)) as Pp.
  assert (Hq : 1 <= inject_Z n).
  { change 1 with (inject_Z 1). rewrite <- Zle_Qle. exact Hn0. }
  assert (Hq53 : inject_Z n < inject_Z (2 ^ 53)) by (rewrite <- Zlt_Qlt; exact Hn).
  set (y := (1 - 2 ^ (-53)) * inject_Z n).
  apply Qle_lt_trans with (round y).
  { apply round_mono. unfold y. apply Qmult_le_compat_r; lra. }
  set (k := Z.log2 n).
  assert (Hk : (2 ^ k <= n < 2 ^ (k + 1))%Z).
  { unfold k. replace (Z.log2 n + 1)%Z with (Z.succ (Z.log2 n)) by lia.
    apply Z.log2_spec. lia. }
  assert (Hk0 : (0 <= k)%Z) by apply Z.log2_nonneg.
  assert (Hk52 : (k <= 52)%Z).
  { destruct (Z_le_gt_dec k 52) as [L | G]; [exact L | exfalso].
    assert ((2 ^ 53 <= 2 ^ k)%Z) by (apply Z.pow_le_mono_r; lia). lia. }
  assert (Small : inject_Z n * 2 ^ (-53) < 1).
  { apply Qlt_le_trans with (inject_Z (2 ^ 53) * 2 ^ (-53)); [| lra].
    apply Qmult_lt_compat_r; assumption. }
  destruct (Z.eq_dec n (2 ^ k)%Z) as [E | Np].
  - (* a power of two: the product is a double of the binade below *)
    assert (Ey : y == inject_Z (2 ^ 53 - 1) * 2 ^ (k - 53)).
    { unfold y. rewrite E. rewrite inject_Z_sub. rewrite !pow2_inject by lia.
      replace (k - 53)%Z with (k + -53)%Z by lia. rewrite pow2_split.
      change (inject_Z 1) with 1.
      change (2 ^ 53) with ((1 / 2 ^ (-53))). field. lra. }
    rewrite (round_comp _ _ Ey). rewrite round_dyadic; [| lia | lia].
    rewrite <- Ey. unfold y. nra.
  - (* otherwise the product rounds to the double just below [n] *)
    assert (Hn1 : (2 ^ k + 1 <= n)%Z) by lia.
    assert (Yl : inject_Z (2 ^ k) <= y).
    { unfold y.
      assert (inject_Z (2 ^ k) + 1 <= inject_Z n).
      { change 1 with (inject_Z 1) at 1. rewrite <- inject_Z_plus, <- Zle_Qle. exact Hn1. }
      nra. }
    assert (Yu : y < inject_Z n) by (unfold y; nra).
    assert (Lg : ilog2 y = k).
    { apply ilog2_unique.
      - rewrite <- pow2_inject by exact Hk0. exact Yl.
      - rewrite <- pow2_inject by lia. apply Qlt_trans with (inject_Z n); [exact Yu |].
        rewrite <- Zlt_Qlt. lia. }
    assert (Hy : 0 < y).
    { apply Qlt_le_trans with (inject_Z (2 ^ k)); [| exact Yl].
      change 0 with (inject_Z 0). rewrite <- Zlt_Qlt. lia. }
    rewrite (round_of_pos y Hy). unfold round_pos, ulp_exp. cbv zeta. rewrite Lg.
    replace (Z.max (k - 52) (-1074)) with (k - 52)%Z by lia.
    pose proof (pow2_pos (k - 52)) as Ps.
    set (N := (n * 2 ^ (52 - k))%Z).
    assert (EN : inject_Z N * 2 ^ (k - 52) == inject_Z n).
    { unfold N. rewrite inject_Z_mult. rewrite pow2_inject by lia.
      rewrite <- Qmult_assoc. rewrite <- pow2_split.
      replace (52 - k + (k - 52))%Z with 0%Z by lia. change (2 ^ 0) with 1. ring. }
    (* the fraction cut off is n / 2^(k+1), more than one half *)
    assert (Ep : 2 ^ (- (k + 1)) == 2 ^ (-53) * / 2 ^ (k - 52)).
    { replace (- (k + 1))%Z with (-53 + - (k - 52))%Z by lia.
      rewrite pow2_split. rewrite (Qpower_opp 2 (k - 52)). reflexivity. }
    assert (Fr : y / 2 ^ (k - 52) == inject_Z N - inject_Z n * 2 ^ (- (k + 1))).
    { rewrite Ep. unfold y. rewrite <- EN.
      generalize dependent (2 ^ (k - 52)). intros a Pa _ _.
      generalize (2 ^ (-53)). intros b. field. lra. }
    assert (Half : 1 # 2 < inject_Z n * 2 ^ (- (k + 1))).
    { apply Qlt_le_trans with ((inject_Z (2 ^ k) + 1) * 2 ^ (- (k + 1))).
      - rewrite pow2_inject by exact Hk0.
        replace (- (k + 1))%Z with (- k + -1)%Z by lia. rewrite pow2_split.
        rewrite (Qpower_opp 2 k). change (2 ^ (-1)) with (1 # 2).
        pose proof (pow2_pos k) as Pk.
        assert (Pik : 0 < / 2 ^ k) by (apply Qinv_lt_0_compat; exact Pk).
        assert (Ek : 2 ^ k * / 2 ^ k == 1) by (apply Qmult_inv_r; lra).
        nra.
      - apply Qmult_le_compat_r; [| apply Qlt_le_weak, pow2_pos].
        change 1 with (inject_Z 1) at 1. rewrite <- inject_Z_plus, <- Zle_Qle. exact Hn1. }
    assert (One : inject_Z n * 2 ^ (- (k + 1)) < 1).
    { apply Qlt_le_trans with (inject_Z (2 ^ (k + 1)) * 2 ^ (- (k + 1))).
      - apply Qmult_lt_compat_r; [apply pow2_pos |]. rewrite <- Zlt_Qlt. lia.
      - rewrite pow2_inject by lia. rewrite <- pow2_split.
        replace (k + 1 + - (k + 1))%Z with 0%Z by lia. apply Qle_refl. }
    rewrite (rne_below_half _ (N - 1)).
    + rewrite inject_Z_sub. change (inject_Z 1) with 1. nra.
    + rewrite Fr. rewrite inject_Z_sub. change (inject_Z 1) with 1. lra.
    + rewrite Fr. rewrite inject_Z_sub. change (inject_Z 1) with 1. lra.
Qed.

(** The nearest integer is within one half. *)
Lemma rne_near (q : Q) : q - (1 # 2) <= inject_Z (rne q) <= q + (1 # 2).
Proof.
  pose proof (Qfloor_le q) as L. pose proof (Qlt_floor q) as U.
  rewrite inject_Z_plus in U. change (inject_Z 1) with 1 in U.
  unfold rne. destruct (Qcompare (q - inject_Z (Qfloor q)) (1 # 2)) eqn:C.
  - apply Qeq_alt in C. destruct (Z.even (Qfloor q)).
    + lra.
    + rewrite inject_Z_plus. change (inject_Z 1) with 1. lra.
  - apply Qlt_alt in C. lra.
  - apply Qgt_alt in C. rewrite inject_Z_plus. change (inject_Z 1) with 1. lra.
Qed.

(** In the normal range the relative error of rounding is at most 2^-53. *)
Lemma round_pos_error (x : Q) :
  2 ^ (-1022) <= x ->
  x - x * 2 ^ (-53) <= round_pos x <= x + x * 2 ^ (-53).
Proof.
  intros Hx. assert (Px : 0 < x) by (pose proof (pow2_pos (-1022)); lra).
  destruct (ilog2_spec x Px) as [L U].
  assert (Hl : (-1022 <= ilog2 x)%Z).
  { assert (H : 2 ^ (-1022) < 2 ^ (ilog2 x + 1)) by lra.
    apply Qpower_lt_compat_l_inv in H; [lia | reflexivity]. }
  unfold round_pos, ulp_exp. cbv zeta.
  replace (Z.max (ilog2 x - 52) (-1074)) with (ilog2 x - 52)%Z by lia.
  set (s := (ilog2 x - 52)%Z).
  pose proof (pow2_pos s) as Ps.
  pose proof (rne_near (x / 2 ^ s)) as [N0 N1].
  assert (E : x / 2 ^ s * 2 ^ s == x) by (field; lra).
  assert (Hs : 2 ^ s * (1 # 2) <= x * 2 ^ (-53)).
  { assert (E2 : 2 ^ s * (1 # 2) == 2 ^ ilog2 x * 2 ^ (-53)).
    { unfold s. replace (ilog2 x - 52)%Z with (ilog2 x + -52)%Z by lia.
      rewrite pow2_split.
      assert (E52 : 2 ^ (-52) == 2 * 2 ^ (-53)) by reflexivity.
      rewrite E52. ring. }
    rewrite E2. apply Qmult_le_compat_r; [exact L | apply Qlt_le_weak, pow2_pos]. }
  split.
  - apply Qle_trans with ((x / 2 ^ s - (1 # 2)) * 2 ^ s).
    + rewrite <- E at 1. lra.
    + apply Qmult_le_compat_r; lra.
  - apply Qle_trans with ((x / 2 ^ s + (1 # 2)) * 2 ^ s).
    + apply Qmult_le_compat_r; lra.
    + rewrite <- E at 2. lra.
Qed.

Lemma round_error (x : Q) :
  2 ^ (-1022) <= x ->
  x - x * 2 ^ (-53) <= round x <= x + x * 2 ^ (-53).
Proof.
  intros Hx. assert (Px : 0 < x) by (pose proof (pow2_pos (-1022)); lra).
  rewrite (round_of_pos x Px). apply round_pos_error, Hx.
Qed.

(** Below 1 the error of rounding is at most 2^-54. *)
Lemma round_error_below_one (x : Q) :
  0 <= x -> x < 1 -> x - 2 ^ (-54) <= round x <= x + 2 ^ (-54).
Proof.
  intros H0 H1. pose proof (pow2_pos (-54)) as P54.
  destruct (Qeq_dec x 0) as [Z0 | Nz].
  - rewrite (round_comp x 0 Z0), round_0. lra.
  - assert (Px : 0 < x) by lra.
    destruct (ilog2_spec x Px) as [L U].
    assert (Hl : (ilog2 x <= -1)%Z).
    { assert (H : 2 ^ ilog2 x < 2 ^ 0) by (change (2 ^ 0) with 1; lra).
      apply Qpower_lt_compat_l_inv in H; [lia | reflexivity]. }
    rewrite (round_of_pos x Px). unfold round_pos. cbv zeta.
    set (s := ulp_exp x).
    assert (Hs : (s <= -53)%Z) by (unfold s, ulp_exp; lia).
    pose proof (pow2_pos s) as Ps.
    pose proof (rne_near (x / 2 ^ s)) as [N0 N1].
    assert (E : x / 2 ^ s * 2 ^ s == x) by (field; lra).
    assert (Hh : 2 ^ s * (1 # 2) <= 2 ^ (-54)).
    { assert (E54 : 2 ^ (-53) * (1 # 2) == 2 ^ (-54)) by reflexivity.
      rewrite <- E54.
      apply Qmult_le_compat_r; [apply pow2_le; exact Hs | discriminate]. }
    split.
    + apply Qle_trans with ((x / 2 ^ s - (1 # 2)) * 2 ^ s).
      * rewrite <- E at 1. lra.
      * apply Qmult_le_compat_r; lra.
    + apply Qle_trans with ((x / 2 ^ s + (1 # 2)) * 2 ^ s).
      * apply Qmult_le_compat_r; lra.
      * rewrite <- E at 2. lra.
Qed.

End F64More.
(** * Runs of computations, and the computations that only draw *)

Lemma runs_ret {A : Type} (a : A) (w : World) (P : A -> World -> Prop) :
  P a w -> runs (ret a) w P.
Proof. intros H. exists a, w. split; [reflexivity | exact H]. Qed.

Lemma runs_bind {A B : Type} (c : M A) (k : A -> M B) (w : World)
    (Q : A -> World -> Prop) (P : B -> World -> Prop) :
  runs c w Q -> (forall a w1, Q a w1 -> runs (k a) w1 P) -> runs (bind c k) w P.
Proof.
  intros (a & w1 & E & Ha) Hk. destruct (Hk a w1 Ha) as (b & w2 & E2 & Hb).
  exists b, w2. split; [| exact Hb]. unfold bind. rewrite E. exact E2.
Qed.

Lemma runs_weaken {A : Type} (c : M A) (w : World) (P Q : A -> World -> Prop) :
  runs c w P -> (forall a w', P a w' -> Q a w') -> runs c w Q.
Proof. intros (a & w' & E & Ha) H. exists a, w'. split; [exact E | apply H, Ha]. Qed.

Lemma set_cursor_same (w : World) : set_cursor (cursor w) w = w.
Proof. destruct w. reflexivity. Qed.

Lemma set_cursor_twice (n m : nat) (w : World) :
  set_cursor n (set_cursor m w) = set_cursor n w.
Proof. reflexivity. Qed.

Lemma only_draws_refl (w : World) : only_draws w w.
Proof. split; [lia | symmetry; apply set_cursor_same]. Qed.

Lemma only_draws_trans (w1 w2 w3 : World) :
  only_draws w1 w2 -> only_draws w2 w3 -> only_draws w1 w3.
Proof.
  intros [L1 E1] [L2 E2]. split.
  - lia.
  - transitivity (set_cursor (cursor w3) w2); [exact E2 |]. rewrite E1. reflexivity.
Qed.

Lemma only_draws_set_cursor (w : World) (n : nat) :
  (cursor w <= n)%nat -> only_draws w (set_cursor n w).
Proof. intros H. split; [exact H | reflexivity]. Qed.

Lemma only_draws_unit (w w' : World) : only_draws w w' -> unit_draws w -> unit_draws w'.
Proof. intros [_ E] U k. rewrite E. apply U. Qed.

Lemma only_draws_fields (w w' : World) :
  only_draws w w' ->
  draws w' = draws w /\ clock w' = clock w /\ engine w' = engine w /\
  localStorage w' = localStorage w /\ requests w' = requests w /\
  CONFIG w' = CONFIG w /\ cachedProfiles w' = cachedProfiles w /\
  pending w' = pending w /\ nyc_loaded w' = nyc_loaded w.
Proof. intros [_ E]. rewrite E. repeat split. Qed.

Lemma drawing_ret {A : Type} (w0 : World) (a : A) (P : A -> Prop) :
  P a -> drawing_at w0 (ret a) P.
Proof.
  intros H w _. apply runs_ret. split; [exact H | apply only_draws_refl].
Qed.

Lemma drawing_bind {A B : Type} (w0 : World) (c : M A) (k : A -> M B)
    (Q : A -> Prop) (P : B -> Prop) :
  drawing_at w0 c Q -> (forall a, Q a -> drawing_at w0 (k a) P) ->
  drawing_at w0 (bind c k) P.
Proof.
  intros Hc Hk w D. eapply runs_bind; [apply Hc, D |].
  intros a w1 [Ha D1]. cbv beta in Ha.
  eapply runs_weaken; [apply (Hk a Ha), (only_draws_trans w0 w w1 D D1) |].
  intros b w2 [Hb D2]. split; [exact Hb | eapply only_draws_trans; eassumption].
Qed.

Lemma drawing_weaken {A : Type} (w0 : World) (c : M A) (P Q : A -> Prop) :
  drawing_at w0 c P -> (forall a, P a -> Q a) -> drawing_at w0 c Q.
Proof.
  intros Hc H w D. eapply runs_weaken; [apply Hc, D |].
  intros a w' [Ha D']. split; [apply H, Ha | exact D'].
Qed.

Lemma drawing_Math_random (w0 : World) :
  unit_draws w0 ->
  drawing_at w0 Math_random (fun u => is_double u /\ 0 <= u < 1).
Proof.
  intros U w D. eexists; eexists. split; [reflexivity |].
  split; [apply (only_draws_unit w0 w D U) |]. apply only_draws_set_cursor. lia.
Qed.

Lemma drawing_get_world (w0 : World) :
  drawing_at w0 get_world (fun w => only_draws w0 w).
Proof.
  intros w D. eexists; eexists. split; [reflexivity |].
  split; [exact D | apply only_draws_refl].
Qed.

Lemma drawing_Date_now (w0 : World) :
  drawing_at w0 Date_now (fun t => t = clock w0).
Proof.
  intros w D. eexists; eexists. split; [reflexivity |].
  split; [apply (only_draws_fields w0 w D) | apply only_draws_refl].
Qed.

Lemma drawing_replicateM {A : Type} (w0 : World) (c : M A) (P : A -> Prop) (n : nat) :
  drawing_at w0 c P ->
  drawing_at w0 (replicateM n c) (fun l => length l = n /\ Forall P l).
Proof.
  intros Hc. induction n as [| n IH]; simpl.
  - apply drawing_ret. split; [reflexivity | constructor].
  - eapply drawing_bind; [exact Hc |]. intros x Hx.
    eapply drawing_bind; [exact IH |]. intros xs [Hl Hxs].
    apply drawing_ret. split; [simpl; congruence | constructor; assumption].
Qed.

(** From a result about every page to the page at hand. *)
Lemma drawing_run {A : Type} (w : World) (c : M A) (P : A -> Prop) :
  drawing_at w c P -> runs c w (fun a w' => P a /\ only_draws w w').
Proof. intros H. apply H, only_draws_refl. Qed.

(** ** The range of [rand] and [randi] *)

Module RandomFacts.
Import F64 F64Facts F64More.

Local Open Scope Q_scope.

Lemma small_Z (n : Z) : (Z.abs n < 2 ^ 52)%Z -> (Z.abs n < 2 ^ 53)%Z.
Proof. intros H. assert ((2 ^ 52 < 2 ^ 53)%Z) by reflexivity. lia. Qed.

(** [rand(min, max)] stays between its integer bounds. *)
Lemma rand_value_within (min max : Z) (u : Q) :
  (Z.abs min < 2 ^ 52)%Z -> (Z.abs max < 2 ^ 52)%Z -> (min <= max)%Z ->
  0 <= u <= 1 ->
  inject_Z min <= add (mul u (sub (inject_Z max) (inject_Z min))) (inject_Z min)
  <= inject_Z max.
Proof.
  intros Hmin Hmax Hle [U0 U1].
  assert (P52 : (2 ^ 52 + 2 ^ 52 = 2 ^ 53)%Z) by reflexivity.
  assert (D : sub (inject_Z max) (inject_Z min) == inject_Z (max - min)).
  { unfold sub. rewrite <- inject_Z_sub. apply round_Z. lia. }
  assert (Dq : 0 <= inject_Z (max - min)).
  { change 0 with (inject_Z 0). rewrite <- Zle_Qle. lia. }
  assert (M0 : 0 <= mul u (sub (inject_Z max) (inject_Z min))).
  { apply mul_nonneg; [exact U0 | rewrite D; exact Dq]. }
  assert (M1 : mul u (sub (inject_Z max) (inject_Z min)) <= inject_Z (max - min)).
  { apply Qle_trans with (round (inject_Z (max - min))).
    - apply round_mono. rewrite D. nra.
    - rewrite round_Z by lia. apply Qle_refl. }
  unfold add. split.
  - apply Qle_trans with (round (inject_Z min)).
    + rewrite round_Z by (apply small_Z, Hmin). apply Qle_refl.
    + apply round_mono. lra.
  - apply Qle_trans with (round (inject_Z max)).
    + apply round_mono. rewrite inject_Z_sub in M1. lra.
    + rewrite round_Z by (apply small_Z, Hmax). apply Qle_refl.
Qed.

Lemma randi_run (min max : Q) (w : World) :
  randi min max w
  = (Normal (floor (add (mul (draws w (cursor w)) (sub max min)) min)),
     set_cursor (S (cursor w)) w).
Proof. reflexivity. Qed.

(** An index drawn for an array of [n] elements is below [n]. *)
Lemma index_value_below (n : Z) (u : Q) :
  (1 <= n < 2 ^ 53)%Z -> is_double u -> 0 <= u < 1 ->
  (0 <= floor (add (mul u (sub (inject_Z n) 0)) 0) < n)%Z.
Proof.
  intros Hn Du [U0 U1].
  assert (D : sub (inject_Z n) 0 == inject_Z n).
  { unfold sub. rewrite (round_comp (inject_Z n - 0) (inject_Z n)) by ring.
    apply round_Z. lia. }
  assert (E : add (mul u (sub (inject_Z n) 0)) 0 == round (u * inject_Z n)).
  { unfold add, mul.
    rewrite (round_comp (round (u * sub (inject_Z n) 0) + 0) (round (u * inject_Z n))).
    - apply round_idem.
    - rewrite D. ring. }
  unfold floor. rewrite E.
  assert (B : round (u * inject_Z n) < inject_Z n).
  { apply round_mul_below; [exact Hn | exact U0 |].
    apply double_below_one; [exact Du | exact U0 | exact U1]. }
  assert (B0 : 0 <= round (u * inject_Z n)).
  { apply round_nonneg. apply Qmult_le_0_compat; [exact U0 |].
    change 0 with (inject_Z 0). rewrite <- Zle_Qle. lia. }
  split.
  - apply Qfloor_resp_le in B0. exact B0.
  - rewrite Zlt_Qlt. apply Qle_lt_trans with (round (u * inject_Z n)); [apply Qfloor_le | exact B].
Qed.

Lemma drawing_rand (w0 : World) (min max : Z) :
  unit_draws w0 ->
  (Z.abs min < 2 ^ 52)%Z -> (Z.abs max < 2 ^ 52)%Z -> (min <= max)%Z ->
  drawing_at w0 (rand (inject_Z min) (inject_Z max))
             (fun x => inject_Z min <= x <= inject_Z max).
Proof.
  intros U Hmin Hmax Hle. unfold rand.
  eapply drawing_bind; [apply drawing_Math_random, U |]. intros u [_ [U0 U1]].
  apply drawing_ret. apply rand_value_within; try assumption. lra.
Qed.

Lemma drawing_randi (w0 : World) (min max : Z) :
  unit_draws w0 ->
  (Z.abs min < 2 ^ 52)%Z -> (Z.abs max < 2 ^ 52)%Z -> (min <= max)%Z ->
  drawing_at w0 (randi (inject_Z min) (inject_Z max)) (fun i => (min <= i <= max)%Z).
Proof.
  intros U Hmin Hmax Hle. unfold randi.
  eapply drawing_bind; [apply drawing_rand; assumption |]. intros x [X0 X1].
  apply drawing_ret. unfold floor. split.
  - apply Qfloor_resp_le in X0. rewrite Qfloor_Z in X0. exact X0.
  - apply Qfloor_resp_le in X1. rewrite Qfloor_Z in X1. exact X1.
Qed.

(** An index into an array of [n] elements. *)
Lemma drawing_index (w0 : World) (n : Z) :
  unit_draws w0 -> (1 <= n < 2 ^ 53)%Z ->
  drawing_at w0 (randi 0 (inject_Z n)) (fun i => (0 <= i < n)%Z).
Proof.
  intros U Hn w D. unfold runs. rewrite randi_run. eexists; eexists. split; [reflexivity |].
  split; [| apply only_draws_set_cursor; lia].
  pose proof (only_draws_unit w0 w D U) as Uw.
  apply index_value_below; [exact Hn | apply Uw | apply Uw].
Qed.

Lemma drawing_choice {A : Type} (w0 : World) (arr : list A) :
  unit_draws w0 -> arr <> [] -> (Z.of_nat (length arr) < 2 ^ 53)%Z ->
  drawing_at w0 (choice arr) (fun o => exists x, o = Some x /\ In x arr).
Proof.
  intros U Hne Hlen. unfold choice.
  eapply drawing_bind.
  - apply drawing_index; [exact U |]. destruct arr; [contradiction | cbn [length] in *; lia].
  - intros i Hi. cbv beta in Hi. apply drawing_ret. unfold at_index.
    destruct (Z.ltb_spec i 0) as [N | _]; [lia |].
    destruct (lookup_lt_is_Some_2 arr (Z.to_nat i)) as [x Ex]; [lia |].
    exists x. split; [exact Ex |]. apply list_elem_of_In. eapply list_elem_of_lookup_2, Ex.
Qed.

Lemma drawing_rand_any (w0 : World) (min max : Q) :
  drawing_at w0 (rand min max) (fun _ => True).
Proof.
  intros w D. eexists; eexists. split; [reflexivity |].
  split; [exact I | apply only_draws_set_cursor; lia].
Qed.

Lemma drawing_randi_any (w0 : World) (min max : Q) :
  drawing_at w0 (randi min max) (fun _ => True).
Proof.
  intros w D. eexists; eexists. split; [reflexivity |].
  split; [exact I | apply only_draws_set_cursor; lia].
Qed.

Lemma Math_round_within (lo hi : Z) (y : Q) :
  inject_Z lo <= y <= inject_Z hi -> (lo <= Math_round y <= hi)%Z.
Proof.
  intros [L U]. unfold Math_round. split.
  - assert (H : inject_Z lo <= y + (1 # 2)) by lra.
    apply Qfloor_resp_le in H. rewrite Qfloor_Z in H. exact H.
  - assert (H : (Qfloor (y + (1 # 2)) < hi + 1)%Z); [| lia].
    rewrite Zlt_Qlt. rewrite inject_Z_plus. change (inject_Z 1) with 1.
    pose proof (Qfloor_le (y + (1 # 2))). lra.
Qed.

Lemma drawing_weightedChoice {A : Type} (w0 : World) (pairs : list (A * Q)) :
  unit_draws w0 -> pairs <> [] ->
  drawing_at w0 (weightedChoice pairs) (fun v => In v (map fst pairs)).
Proof.
  intros U Hne. unfold weightedChoice.
  eapply drawing_bind; [apply drawing_Math_random, U |]. intros u _.
  destruct (weightedChoice_loop _ pairs) as [v |] eqn:E.
  - apply drawing_ret. eapply weightedChoice_loop_In. exact E.
  - destruct (last pairs) as [[v x] |] eqn:L.
    + apply drawing_ret. apply last_Some in L. destruct L as [l' ->].
      rewrite map_app. apply in_or_app. right. left. reflexivity.
    + apply last_None in L. contradiction.
Qed.

End RandomFacts.
(** * The rain: computations that leave the data source alone *)

Lemma tame_ret {A : Type} (a : A) : tame (ret a).
Proof. intros w. apply only_draws_refl. Qed.

Lemma tame_throw {A : Type} (e : string) : tame (@throw A e).
Proof. intros w. apply only_draws_refl. Qed.

Lemma tame_bind {A B : Type} (c : M A) (k : A -> M B) :
  tame c -> (forall a, tame (k a)) -> tame (bind c k).
Proof.
  intros Hc Hk w. unfold bind. specialize (Hc w).
  destruct (c w) as [[a | e] w1]; cbn [snd] in *.
  - eapply only_draws_trans; [exact Hc | apply Hk].
  - exact Hc.
Qed.

Lemma tame_Math_random : tame Math_random.
Proof. intros w. apply only_draws_set_cursor. cbn. lia. Qed.

Lemma tame_get_world : tame get_world.
Proof. intros w. apply only_draws_refl. Qed.

Lemma tame_Date_now : tame Date_now.
Proof. intros w. apply only_draws_refl. Qed.

Lemma tame_rand (min max : Q) : tame (rand min max).
Proof. apply tame_bind; [apply tame_Math_random | intros; apply tame_ret]. Qed.

Lemma tame_randi (min max : Q) : tame (randi min max).
Proof. apply tame_bind; [apply tame_rand | intros; apply tame_ret]. Qed.

Lemma tame_replicateM {A : Type} (c : M A) (n : nat) : tame c -> tame (replicateM n c).
Proof.
  intros Hc. induction n as [| n IH]; cbn [replicateM]; [apply tame_ret |].
  apply tame_bind; [exact Hc |]. intros x.
  apply tame_bind; [exact IH |]. intros xs. apply tame_ret.
Qed.

Lemma tame_buildString (p : Profile.t) (mode : string) : tame (StringPainter.buildString p mode).
Proof.
  unfold StringPainter.buildString.
  destruct (String.eqb mode "kv"); [apply tame_ret |].
  destruct (String.eqb mode "code"); [apply tame_ret |].
  apply tame_bind; [| intros; apply tame_ret].
  destruct (Profile.coords p); [apply tame_ret |].
  apply tame_bind; [apply tame_rand |]. intros x.
  apply tame_bind; [apply tame_rand |]. intros y.
  apply tame_bind; [apply tame_rand |]. intros z. apply tame_ret.
Qed.

Lemma tame_new (p : Profile.t) (mode : string) : tame (StringPainter.new p mode).
Proof.
  unfold StringPainter.new. apply tame_bind; [apply tame_buildString |].
  intros s. apply tame_ret.
Qed.

Lemma tame_buildGlyphStream (this : StringPainter.t) : tame (StringPainter.buildGlyphStream this).
Proof.
  assert (F : tame StringPainter.filler_char).
  { unfold StringPainter.filler_char. apply tame_bind; [apply tame_randi |].
    intros i. apply tame_ret. }
  unfold StringPainter.buildGlyphStream.
  apply tame_bind; [apply tame_replicateM, F |]. intros left.
  apply tame_bind; [apply tame_replicateM, F |]. intros right. apply tame_ret.
Qed.

Lemma tame_FileStrip_update (dt : Q) (H : Z) (s : FileStrip.t) : tame (FileStrip.update dt H s).
Proof.
  unfold FileStrip.update. apply tame_bind; [| intros; apply tame_ret].
  destruct (Qle_bool _ 0); [| apply tame_ret].
  apply tame_bind; [apply tame_Math_random |]. intros u1.
  apply tame_bind; [apply tame_Math_random |]. intros u2. apply tame_ret.
Qed.

Lemma tame_spawnFileStripFrom_resume (canvas : Canvas) (bitmap : Bitmap) :
  tame (Rain.spawnFileStripFrom_resume canvas bitmap).
Proof.
  unfold Rain.spawnFileStripFrom_resume.
  apply tame_bind; [apply tame_rand |]. intros x.
  apply tame_bind; [apply tame_rand |]. intros r.
  apply tame_bind; [apply tame_rand |]. intros s.
  apply tame_bind; [apply tame_get_world |]. intros page. apply tame_ret.
Qed.

Module RainFacts.
Import Rain.

Local Open Scope Z_scope.

Lemma quiet_ret {A : Type} (a : A) : quiet (retR a).
Proof. intros r w _. split; [apply only_draws_refl | reflexivity]. Qed.

Lemma quiet_throw {A : Type} (e : string) : quiet (@throwR Rain.t A e).
Proof. intros r w _. split; [apply only_draws_refl | reflexivity]. Qed.

Lemma quiet_bind {A B : Type} (c : R Rain.t A) (k : A -> R Rain.t B) :
  quiet c -> (forall a, quiet (k a)) -> quiet (bindR c k).
Proof.
  intros Hc Hk r w Hp. unfold bindR. destruct (Hc r w Hp) as [D E].
  destruct (c r w) as [[[a | e] r1] w1]; cbn [fst snd] in *.
  - assert (Hp1 : profilePool r1 <> []) by congruence.
    destruct (Hk a r1 w1 Hp1) as [D1 E1]. split.
    + eapply only_draws_trans; eassumption.
    + congruence.
  - split; assumption.
Qed.

Lemma quiet_lift {A : Type} (c : M A) : tame c -> quiet (lift c).
Proof.
  intros Hc r w _. unfold lift. specialize (Hc w).
  destruct (c w) as [o w1]. split; [exact Hc | reflexivity].
Qed.

Lemma quiet_this : quiet this_.
Proof. intros r w _. split; [apply only_draws_refl | reflexivity]. Qed.

Lemma quiet_page : quiet page_.
Proof. intros r w _. split; [apply only_draws_refl | reflexivity]. Qed.

Lemma quiet_modify (f : Rain.t -> Rain.t) :
  (forall r, profilePool (f r) = profilePool r) -> quiet (modifyR f).
Proof. intros H r w _. split; [apply only_draws_refl | apply H]. Qed.

Lemma quiet_async (c : R Rain.t unit) : quiet c -> quiet (async c).
Proof.
  intros Hc r w Hp. unfold async. destruct (Hc r w Hp) as [D E].
  destruct (c r w) as [[[a | e] r1] w1]; split; assumption.
Qed.

Lemma quiet_for {A : Type} (l : list A) (body : A -> R Rain.t unit) :
  (forall x, quiet (body x)) -> quiet (forR l body).
Proof.
  intros H. induction l as [| x l IH]; cbn [forR]; [apply quiet_ret |].
  apply quiet_bind; [apply H | intros _; exact IH].
Qed.

Lemma quiet_if {A : Type} (b : bool) (c1 c2 : R Rain.t A) :
  quiet c1 -> quiet c2 -> quiet (if b then c1 else c2).
Proof. destruct b; auto. Qed.

Lemma quiet_with_column (i : nat) (k : Column -> R Rain.t unit) :
  (forall col, quiet (k col)) -> quiet (with_column i k).
Proof.
  intros H. unfold with_column. apply quiet_bind; [apply quiet_this |].
  intros this. destruct (columns this !! i); [apply H | apply quiet_ret].
Qed.

Lemma quiet_assign_column (i : nat) (col : Column) : quiet (assign_column i col).
Proof. apply quiet_modify. reflexivity. Qed.

(** With a pool that is not empty [takeNextProfile] does not ask the data
    source: it returns the profile at the counter, modulo the size of the
    pool, and advances the counter. *)
Lemma takeNextProfile_run (r : Rain.t) (w : World) :
  profilePool r <> [] ->
  takeNextProfile r w
  = (Normal (match at_index (profilePool r)
                     (Z.rem (profileIndex r) (Z.of_nat (length (profilePool r)))) with
             | Some o => o
             | None => None
             end),
     set_profileIndex (profileIndex r + 1) r, w).
Proof.
  intros Hp. unfold takeNextProfile, bindR, this_.
  destruct (profilePool r) as [| p pool] eqn:E; [contradiction |].
  cbn [length Nat.eqb retR]. rewrite E. cbn [length].
  destruct (Z.eqb_spec (Z.of_nat (S (length pool))) 0) as [Z0 | _]; [lia |].
  reflexivity.
Qed.

Lemma quiet_takeNextProfile : quiet takeNextProfile.
Proof.
  intros r w Hp. rewrite (takeNextProfile_run r w Hp). cbn [fst snd].
  split; [apply only_draws_refl | reflexivity].
Qed.

Lemma quiet_new_painter (profile : option Profile.t) : quiet (new_painter profile).
Proof.
  unfold new_painter. apply quiet_bind; [apply quiet_page |]. intros w.
  destruct profile; [apply quiet_lift, tame_new | apply quiet_throw].
Qed.

Lemma quiet_spawnColumn (canvas : Canvas) (index : Q) (screenH : Z) :
  quiet (spawnColumn canvas index screenH).
Proof.
  unfold spawnColumn.
  apply quiet_bind; [apply quiet_this |]. intros this.
  apply quiet_bind; [apply quiet_takeNextProfile |]. intros profile.
  apply quiet_bind; [apply quiet_new_painter |]. intros painter.
  apply quiet_bind; [apply quiet_page |]. intros w.
  apply quiet_bind; [apply quiet_lift, tame_randi |]. intros y.
  apply quiet_bind; [apply quiet_lift, tame_rand |]. intros s.
  apply quiet_bind; [apply quiet_lift, tame_randi |]. intros sl.
  apply quiet_bind; [apply quiet_lift, tame_replicateM, tame_randi |]. intros gi.
  apply quiet_bind; [apply quiet_lift, tame_rand |]. intros drift.
  apply quiet_bind; [apply quiet_lift, tame_buildGlyphStream |]. intros buffer.
  apply quiet_ret.
Qed.

Lemma quiet_update_column (canvas : Canvas) (dt : Q) (i : nat) :
  quiet (update_column canvas dt i).
Proof.
  unfold update_column.
  apply quiet_bind; [apply quiet_page |]. intros w.
  apply quiet_bind.
  { apply quiet_with_column. intros col. apply quiet_assign_column. }
  intros _. apply quiet_bind.
  { apply quiet_with_column. intros col.
    apply quiet_if; [apply quiet_assign_column | apply quiet_ret]. }
  intros _. apply quiet_bind.
  { apply quiet_with_column. intros col. apply quiet_if; [| apply quiet_ret].
    apply quiet_bind; [apply quiet_this |]. intros this.
    apply quiet_bind; [apply quiet_lift, tame_Math_random |]. intros u.
    apply quiet_bind; [apply quiet_spawnColumn |]. intros fresh.
    apply quiet_assign_column. }
  intros _. apply quiet_bind.
  { apply quiet_bind; [apply quiet_lift, tame_Math_random |]. intros u.
    apply quiet_if; [| apply quiet_ret].
    apply quiet_with_column. intros col.
    apply quiet_bind; [apply quiet_lift, tame_randi |]. intros idx.
    apply quiet_bind; [apply quiet_lift, tame_randi |]. intros v.
    apply quiet_assign_column. }
  intros _. apply quiet_bind.
  { apply quiet_bind; [apply quiet_lift, tame_Math_random |]. intros u.
    apply quiet_if; [| apply quiet_ret].
    apply quiet_bind; [apply quiet_takeNextProfile |]. intros profile.
    apply quiet_bind; [apply quiet_new_painter |]. intros painter.
    apply quiet_bind.
    { apply quiet_with_column. intros col. apply quiet_assign_column. }
    intros _.
    apply quiet_bind; [apply quiet_lift, tame_buildGlyphStream |]. intros buffer.
    apply quiet_with_column. intros col. apply quiet_assign_column. }
  intros _. apply quiet_with_column. intros col. apply quiet_assign_column.
Qed.

Lemma quiet_update_strip (dt : Q) (h : Z) (i : nat) : quiet (update_strip dt h i).
Proof.
  unfold update_strip. apply quiet_bind; [apply quiet_this |]. intros this.
  destruct (fileStrips this !! i); [| apply quiet_ret].
  apply quiet_bind; [apply quiet_lift, tame_FileStrip_update |]. intros s'.
  apply quiet_modify. reflexivity.
Qed.

Section Composer.

Variable compose : Profile.t -> string -> (nat -> Q) -> option Bitmap * nat.

Lemma quiet_composeFileBitmap (profile : option Profile.t) :
  quiet (composeFileBitmap compose profile).
Proof.
  unfold composeFileBitmap. destruct profile as [p |]; [| apply quiet_throw].
  intros r w _. destruct (compose p _ _) as [b used]. cbn [fst snd].
  split; [apply only_draws_set_cursor; lia | reflexivity].
Qed.

Lemma quiet_spawnFileStrip : quiet (spawnFileStrip compose).
Proof.
  unfold spawnFileStrip. apply quiet_async.
  apply quiet_bind; [apply quiet_takeNextProfile |]. intros profile.
  apply quiet_bind; [apply quiet_composeFileBitmap |]. intros bitmap.
  apply quiet_modify. reflexivity.
Qed.

Lemma quiet_strip_settles (canvas : Canvas) (k : nat) : quiet (strip_settles canvas k).
Proof.
  unfold strip_settles. apply quiet_bind; [apply quiet_this |]. intros this.
  destruct (composing this !! k); [| apply quiet_ret].
  apply quiet_bind; [apply quiet_modify; reflexivity |]. intros _.
  apply quiet_bind; [apply quiet_lift, tame_spawnFileStripFrom_resume |]. intros strip.
  apply quiet_modify. reflexivity.
Qed.

Lemma quiet_resetColumns (canvas : Canvas) : quiet (resetColumns compose canvas).
Proof.
  unfold resetColumns. apply quiet_bind; [apply quiet_page |]. intros page.
  apply quiet_if.
  - apply quiet_bind; [apply quiet_modify; reflexivity |]. intros _.
    apply quiet_bind; [apply quiet_modify; reflexivity |]. intros _.
    apply quiet_bind; [| intros _; apply quiet_modify; reflexivity].
    apply quiet_for. intros i.
    apply quiet_bind; [apply quiet_spawnColumn |]. intros col.
    apply quiet_modify. reflexivity.
  - apply quiet_bind; [apply quiet_modify; reflexivity |]. intros _.
    apply quiet_bind; [| intros _; apply quiet_modify; reflexivity].
    apply quiet_for. intros _. apply quiet_spawnFileStrip.
Qed.

Lemma quiet_update (canvas : Canvas) (dt : Q) : quiet (update compose canvas dt).
Proof.
  unfold update. apply quiet_bind; [apply quiet_page |]. intros page.
  apply quiet_bind; [apply quiet_this |]. intros this.
  apply quiet_if.
  - apply quiet_if; [apply quiet_resetColumns |].
    apply quiet_for. intros i. apply quiet_update_column.
  - apply quiet_bind.
    { apply quiet_if; [apply quiet_for; intros _; apply quiet_spawnFileStrip |].
      apply quiet_if; [apply quiet_modify; reflexivity | apply quiet_ret]. }
    intros _. apply quiet_bind; [apply quiet_this |]. intros this'.
    apply quiet_for. intros i. apply quiet_update_strip.
Qed.

Lemma quiet_draw : quiet draw.
Proof.
  unfold draw. apply quiet_bind; [apply quiet_page |]. intros page.
  apply quiet_bind; [apply quiet_this |]. intros this.
  apply quiet_if; [apply quiet_ret |].
  apply quiet_for. intros _.
  apply quiet_bind; [apply quiet_lift, tame_Math_random |]. intros _. apply quiet_ret.
Qed.

End Composer.

End RainFacts.
(** * Properties of the utilities and of the profile factory *)

Module FactoryProps.
Import F64 F64Facts F64More RandomFacts ProfileFactory Samples.

Local Open Scope Q_scope.

(** X1. [randi(min, max)] with integer bounds [min <= max] and a draw of
    [Math.random] between 0 and 1 returns an integer of the closed range
    [min .. max], and consumes one draw. *)
Theorem randi_within (min max : Z) (w : World) :
  (Z.abs min < 2 ^ 52)%Z -> (Z.abs max < 2 ^ 52)%Z -> (min <= max)%Z ->
  0 <= draws w (cursor w) <= 1 ->
  exists i : Z,
    randi (inject_Z min) (inject_Z max) w = (Normal i, set_cursor (S (cursor w)) w) /\
    (min <= i <= max)%Z.
Proof.
  intros Hmin Hmax Hle Hu. rewrite randi_run. eexists. split; [reflexivity |].
  destruct (rand_value_within min max (draws w (cursor w)) Hmin Hmax Hle Hu) as [X0 X1].
  unfold floor. split.
  - apply Qfloor_resp_le in X0. rewrite Qfloor_Z in X0. exact X0.
  - apply Qfloor_resp_le in X1. rewrite Qfloor_Z in X1. exact X1.
Qed.

Lemma randi_within_witness :
  (Z.abs 18 < 2 ^ 52)%Z /\ (Z.abs 70 < 2 ^ 52)%Z /\ (18 <= 70)%Z /\
  0 <= draws page_half (cursor page_half) <= 1 /\
  exists i : Z,
    randi 18 70 page_half = (Normal i, set_cursor (S (cursor page_half)) page_half) /\
    (18 <= i <= 70)%Z.
Proof.
  assert (H1 : (Z.abs 18 < 2 ^ 52)%Z) by reflexivity.
  assert (H2 : (Z.abs 70 < 2 ^ 52)%Z) by reflexivity.
  assert (H3 : (18 <= 70)%Z) by discriminate.
  assert (H4 : 0 <= draws page_half (cursor page_half) <= 1)
    by (split; vm_compute; discriminate).
  split; [exact H1 |]. split; [exact H2 |]. split; [exact H3 |]. split; [exact H4 |].
  exact (randi_within 18 70 page_half H1 H2 H3 H4).
Defined.

(** The upper bound is reached: at the largest double below 1 the sum
    [u * 52 + 18] rounds to 70, and at one half [randi(18, 70)] is 44. *)
Example randi_reaches_max :
  is_double below_one /\ 0 <= below_one < 1 /\
  fst (randi 18 70 (page below_one NetFail)) = Normal 70%Z /\
  fst (randi 2 6 (page below_one NetFail)) = Normal 6%Z /\
  fst (randi 18 70 page_half) = Normal 44%Z.
Proof.
  split; [vm_compute; reflexivity |].
  split; [split; vm_compute; [discriminate | reflexivity] |].
  split; [vm_compute; reflexivity |]. split; vm_compute; reflexivity.
Qed.

(** X2. [choice(arr)] never yields [undefined] for an array that is not
    empty: with a draw that is a double in [0, 1) the index
    [Math.floor(u * arr.length)] is below [arr.length], so the result is an
    element of the array. Of the empty array it yields [undefined]. *)
Theorem choice_of_array {A : Type} (arr : list A) (w : World) :
  (Z.of_nat (length arr) < 2 ^ 53)%Z ->
  is_double (draws w (cursor w)) -> 0 <= draws w (cursor w) < 1 ->
  exists o : option A,
    choice arr w = (Normal o, set_cursor (S (cursor w)) w) /\
    (arr = [] -> o = None) /\
    (arr <> [] -> exists x, o = Some x /\ In x arr).
Proof.
  intros Hlen Hd Hu. unfold choice, bind. rewrite randi_run. cbn [ret].
  eexists. split; [reflexivity |]. split.
  - intros ->. unfold at_index. destruct (_ <? 0)%Z; [reflexivity |].
    apply lookup_nil.
  - intros Hne.
    assert (Hn : (1 <= Z.of_nat (length arr) < 2 ^ 53)%Z).
    { destruct arr; [contradiction | cbn [length] in *; lia]. }
    pose proof (index_value_below _ _ Hn Hd Hu) as Hi.
    change (inject_Z 0) with 0. unfold at_index.
    destruct (Z.ltb_spec (floor (add (mul (draws w (cursor w))
                            (sub (inject_Z (Z.of_nat (length arr))) 0)) 0)) 0) as [N | _];
      [lia |].
    destruct (lookup_lt_is_Some_2 arr
                (Z.to_nat (floor (add (mul (draws w (cursor w))
                                     (sub (inject_Z (Z.of_nat (length arr))) 0)) 0))))
      as [x Ex]; [lia |].
    exists x. split; [exact Ex |]. apply list_elem_of_In. eapply list_elem_of_lookup_2, Ex.
Qed.

Lemma choice_of_array_witness :
  (Z.of_nat (length industries) < 2 ^ 53)%Z /\
  is_double (draws page_half (cursor page_half)) /\
  0 <= draws page_half (cursor page_half) < 1 /\
  exists o : option string,
    choice industries page_half = (Normal o, set_cursor (S (cursor page_half)) page_half) /\
    (industries = [] -> o = None) /\
    (industries <> [] -> exists x, o = Some x /\ In x industries).
Proof.
  assert (H1 : (Z.of_nat (length industries) < 2 ^ 53)%Z) by reflexivity.
  assert (H2 : is_double (draws page_half (cursor page_half))) by (vm_compute; reflexivity).
  assert (H3 : 0 <= draws page_half (cursor page_half) < 1)
    by (split; vm_compute; [discriminate | reflexivity]).
  split; [exact H1 |]. split; [exact H2 |]. split; [exact H3 |].
  exact (choice_of_array industries page_half H1 H2 H3).
Defined.

(** ** The factory *)

Lemma drawing_sampleIncome_between (w0 : World) (ind : string) (lo hi : Z) :
  unit_draws w0 ->
  lookup_or income_base ind (40000, 120000) = (inject_Z (1000 * lo), inject_Z (1000 * hi)) ->
  (0 <= lo <= hi)%Z -> (hi < 2 ^ 40)%Z ->
  drawing_at w0 (sampleIncome (Some ind))
             (fun inc => exists k, inc = (1000 * k)%Z /\ (lo <= k <= hi)%Z).
Proof.
  intros U Eb Hlo Hhi. unfold sampleIncome. cbn [JS.template]. rewrite Eb. cbn [fst snd].
  assert (P40 : (1000 * 2 ^ 40 < 2 ^ 52)%Z) by reflexivity.
  eapply drawing_bind; [apply (drawing_rand w0 (1000 * lo) (1000 * hi) U); lia |].
  intros x [X0 X1]. apply drawing_ret.
  exists (Math_round (div x 1000)). split; [lia |].
  apply Math_round_within. unfold div.
  rewrite inject_Z_mult in X0, X1. change (inject_Z 1000) with 1000 in X0, X1.
  split.
  - apply Qle_trans with (round (inject_Z lo)).
    + rewrite round_Z by lia. apply Qle_refl.
    + apply round_mono. apply Qle_shift_div_l; lra.
  - apply Qle_trans with (round (inject_Z hi)).
    + apply round_mono. apply Qle_shift_div_r; lra.
    + rewrite round_Z by lia. apply Qle_refl.
Qed.

Lemma drawing_sampleIncome (w0 : World) (ind : string) :
  unit_draws w0 -> In ind industries ->
  drawing_at w0 (sampleIncome (Some ind))
    (fun inc =>
       (exists k, inc = (1000 * k)%Z) /\
       (fst (lookup_or income_base ind (40000, 120000)) <= inject_Z inc
        <= snd (lookup_or income_base ind (40000, 120000))) /\
       (30000 <= inc <= 250000)%Z).
Proof.
  intros U Hin.
  assert (G : forall lo hi,
             lookup_or income_base ind (40000, 120000)
             = (inject_Z (1000 * lo), inject_Z (1000 * hi)) ->
             (30 <= lo <= hi)%Z -> (hi <= 250)%Z ->
             drawing_at w0 (sampleIncome (Some ind))
               (fun inc =>
                  (exists k, inc = (1000 * k)%Z) /\
                  (fst (lookup_or income_base ind (40000, 120000)) <= inject_Z inc
                   <= snd (lookup_or income_base ind (40000, 120000))) /\
                  (30000 <= inc <= 250000)%Z)).
  { intros lo hi Eb Hlo Hhi.
    eapply drawing_weaken;
      [apply (drawing_sampleIncome_between w0 ind lo hi U Eb); [lia | ] |].
    - assert ((250 < 2 ^ 40)%Z) by reflexivity. lia.
    - intros inc (k & -> & Hk). split; [eauto |]. rewrite Eb. cbn [fst snd].
      rewrite <- !Zle_Qle. lia. }
  destruct Hin as [<- | [<- | [<- | [<- | [<- | [<- | [<- | [<- | [<- | [<- | []]]]]]]]]]].
  - apply (G 70 250)%Z; [reflexivity | lia | lia].
  - apply (G 50 180)%Z; [reflexivity | lia | lia].
  - apply (G 80 220)%Z; [reflexivity | lia | lia].
  - apply (G 35 120)%Z; [reflexivity | lia | lia].
  - apply (G 30 90)%Z; [reflexivity | lia | lia].
  - apply (G 60 200)%Z; [reflexivity | lia | lia].
  - apply (G 45 150)%Z; [reflexivity | lia | lia].
  - apply (G 40 140)%Z; [reflexivity | lia | lia].
  - apply (G 40 120)%Z; [reflexivity | lia | lia].
  - apply (G 70 210)%Z; [reflexivity | lia | lia].
Qed.

Lemma drawing_riskFromIncomeAndMood (w0 : World) (income : Q) (mood : string) :
  drawing_at w0 (riskFromIncomeAndMood income mood) (fun r => (0 <= r <= 100)%Z).
Proof.
  unfold riskFromIncomeAndMood.
  eapply drawing_bind; [apply drawing_rand_any |]. intros r _.
  apply drawing_ret. apply clamp_range. lia.
Qed.

Lemma drawing_makeId (w0 : World) : drawing_at w0 makeId (fun _ => True).
Proof.
  intros w D. eexists; eexists. split; [reflexivity |].
  split; [exact I | apply only_draws_set_cursor; lia].
Qed.

(** What [interestsSet] returns, and the page it leaves. *)
Lemma interestsSet_run (w : World) :
  interestsSet w
  = (Normal (JS.slice0
               (fst (sort_random (engine w) interests_pool
                       (fun k => draws w (S (cursor w) + k)%nat)))
               (floor (add (mul (draws w (cursor w)) (sub 6 2)) 2))),
     set_cursor (S (cursor w)
                 + snd (sort_random (engine w) interests_pool
                          (fun k => draws w (S (cursor w) + k)%nat)))%nat w).
Proof.
  unfold interestsSet, bind. rewrite randi_run. cbn [get_world engine set_cursor draws cursor].
  destruct (sort_random (engine w) interests_pool _) as [shuffled used].
  reflexivity.
Qed.

Lemma drawing_interestsSet (w0 : World) : drawing_at w0 interestsSet (fun _ => True).
Proof.
  intros w D. unfold runs. rewrite interestsSet_run. eexists; eexists.
  split; [reflexivity |]. split; [exact I | apply only_draws_set_cursor; lia].
Qed.

(** X3. For each of the ten industries, [sampleIncome] returns a multiple
    of 1000 within the range of the industry, hence between 30000 and
    250000. *)
Theorem sampleIncome_range (ind : string) (w : World) :
  In ind industries -> unit_draws w ->
  exists (inc : Z) (w' : World),
    sampleIncome (Some ind) w = (Normal inc, w') /\
    (exists k, inc = (1000 * k)%Z) /\
    (fst (lookup_or income_base ind (40000, 120000)) <= inject_Z inc
     <= snd (lookup_or income_base ind (40000, 120000))) /\
    (30000 <= inc <= 250000)%Z.
Proof.
  intros Hin U.
  destruct (drawing_run w _ _ (drawing_sampleIncome w ind U Hin)) as (inc & w' & E & H & _).
  exists inc, w'. split; [exact E | exact H].
Qed.

(** X4. With an engine whose sort returns a permutation of the array,
    [interestsSet] returns between 2 and 6 interests, all taken from its pool
    of fourteen and no two alike. *)
Theorem interestsSet_distinct (w : World) :
  unit_draws w -> sort_permutes (engine w) ->
  exists (l : list string) (w' : World),
    interestsSet w = (Normal l, w') /\
    NoDup l /\ (forall x, In x l -> In x interests_pool) /\
    (2 <= length l <= 6)%nat.
Proof.
  intros U HS. rewrite interestsSet_run. eexists; eexists. split; [reflexivity |].
  set (d := fun k => draws w (S (cursor w) + k)%nat).
  pose proof (HS interests_pool d) as Hp.
  set (shuffled := fst (sort_random (engine w) interests_pool d)) in *.
  set (n := floor (add (mul (draws w (cursor w)) (sub 6 2)) 2)).
  assert (Hn : (2 <= n <= 6)%Z).
  { assert (B : inject_Z 2 <= add (mul (draws w (cursor w)) (sub (inject_Z 6) (inject_Z 2)))
                                  (inject_Z 2) <= inject_Z 6).
    { apply rand_value_within; [reflexivity | reflexivity | lia |].
      destruct (U (cursor w)) as [_ [U0 U1]]. lra. }
    destruct B as [B0 B1]. unfold n, floor. split.
    - apply Qfloor_resp_le in B0. rewrite Qfloor_Z in B0. exact B0.
    - apply Qfloor_resp_le in B1. rewrite Qfloor_Z in B1. exact B1. }
  assert (Hl : length shuffled = 14%nat).
  { rewrite (Permutation_length Hp). reflexivity. }
  assert (Hd : NoDup shuffled).
  { rewrite Hp. apply (bool_decide_unpack _). vm_compute. exact I. }
  unfold JS.slice0. destruct (Z.ltb_spec n 0) as [N | _]; [lia |].
  split; [| split].
  - eapply sublist_NoDup; [exact Hd | apply sublist_take].
  - intros x Hx. apply list_elem_of_In in Hx. apply list_elem_of_In.
    rewrite <- Hp. apply elem_of_take in Hx. destruct Hx as (i & Hi & _).
    eapply list_elem_of_lookup_2, Hi.
  - rewrite length_take. lia.
Qed.

Lemma interestsSet_distinct_witness :
  unit_draws page_half /\ sort_permutes (engine page_half) /\
  exists (l : list string) (w' : World),
    interestsSet page_half = (Normal l, w') /\
    NoDup l /\ (forall x, In x l -> In x interests_pool) /\
    (2 <= length l <= 6)%nat.
Proof.
  assert (U : unit_draws page_half).
  { intros k. split; [vm_compute; reflexivity |].
    split; vm_compute; [discriminate | reflexivity]. }
  assert (HS : sort_permutes (engine page_half)).
  { intros l d. reflexivity. }
  split; [exact U |]. split; [exact HS |].
  exact (interestsSet_distinct page_half U HS).
Defined.

Lemma sampleIncome_range_witness :
  In "Retail"%string industries /\ unit_draws page_zero /\
  exists (inc : Z) (w' : World),
    sampleIncome (Some "Retail"%string) page_zero = (Normal inc, w') /\
    (exists k, inc = (1000 * k)%Z) /\
    (fst (lookup_or income_base "Retail" (40000, 120000)) <= inject_Z inc
     <= snd (lookup_or income_base "Retail" (40000, 120000))) /\
    (30000 <= inc <= 250000)%Z.
Proof.
  assert (Hin : In "Retail"%string industries) by (simpl; tauto).
  assert (U : unit_draws page_zero).
  { intros k. split; [vm_compute; reflexivity |].
    split; vm_compute; [discriminate | reflexivity]. }
  split; [exact Hin |]. split; [exact U |].
  exact (sampleIncome_range "Retail" page_zero Hin U).
Defined.

Lemma drawing_generate (w0 : World) :
  unit_draws w0 ->
  drawing_at w0 generate
    (fun p =>
       is_Some (Profile.id p) /\
       (exists first last, In first firstNames /\ In last lastNames /\
          Profile.name p = Some (first +:+ " " +:+ last)%string) /\
       (exists a, Profile.age p = Some a /\ (18 <= a <= 70)%Z) /\
       (exists x, Profile.gender p = Some x /\ In x genders) /\
       (exists x, Profile.job_title p = Some x /\ In x jobs) /\
       (exists ind inc, Profile.industry p = Some ind /\ In ind industries /\
          Profile.income_usd p = Some inc /\ (exists k, inc = (1000 * k)%Z) /\
          (fst (lookup_or income_base ind (40000, 120000)) <= inject_Z inc
           <= snd (lookup_or income_base ind (40000, 120000)))) /\
       (exists x, Profile.education p = Some x /\ In x education) /\
       (exists x, Profile.location_city p = Some x /\ In x cities) /\
       (exists x, Profile.relationship_status p = Some x /\ In x relationship) /\
       (exists x, Profile.emotional_state p = Some x /\ In x (map fst emotional)) /\
       (exists x, Profile.activity p = Some x /\ In x activities) /\
       (exists r, Profile.risk_score p = Some r /\ (0 <= r <= 100)%Z) /\
       (exists t, Profile.last_active p = Some t /\
          (clock w0 - 3600000 <= t <= clock w0)%Z) /\
       Profile.borough p = None /\ Profile.nta p = None /\ Profile.coords p = None).
Proof.
  intros U.
  assert (C : forall arr : list string,
             arr <> [] -> (Z.of_nat (length arr) < 2 ^ 53)%Z ->
             drawing_at w0 (choice arr) (fun o => exists x, o = Some x /\ In x arr)).
  { intros arr. apply drawing_choice, U. }
  unfold generate.
  eapply drawing_bind; [apply C; [discriminate | reflexivity] |]. intros ? (ind & -> & Hind).
  eapply drawing_bind; [apply C; [discriminate | reflexivity] |]. intros ? (job & -> & Hjob).
  eapply drawing_bind; [apply drawing_weightedChoice; [exact U | discriminate] |].
  intros mood Hmood.
  eapply drawing_bind;
    [apply (drawing_randi w0 18 70 U); [reflexivity | reflexivity | lia] |].
  intros age Hage.
  eapply drawing_bind; [apply drawing_sampleIncome; [exact U | exact Hind] |].
  intros inc (Hk & Hrange & _).
  eapply drawing_bind; [apply drawing_riskFromIncomeAndMood |]. intros risk Hrisk.
  eapply drawing_bind; [apply drawing_makeId |]. intros id _.
  eapply drawing_bind; [apply C; [discriminate | reflexivity] |]. intros ? (first & -> & Hfirst).
  eapply drawing_bind; [apply C; [discriminate | reflexivity] |]. intros ? (last & -> & Hlast).
  eapply drawing_bind; [apply C; [discriminate | reflexivity] |]. intros ? (gender & -> & Hgender).
  eapply drawing_bind; [apply C; [discriminate | reflexivity] |]. intros ? (edu & -> & Hedu).
  eapply drawing_bind; [apply C; [discriminate | reflexivity] |]. intros ? (city & -> & Hcity).
  eapply drawing_bind; [apply C; [discriminate | reflexivity] |]. intros ? (rel & -> & Hrel).
  eapply drawing_bind; [apply C; [discriminate | reflexivity] |]. intros ? (act & -> & Hact).
  eapply drawing_bind; [apply drawing_interestsSet |]. intros ints _.
  eapply drawing_bind; [apply drawing_Date_now |]. intros now ->.
  eapply drawing_bind;
    [apply (drawing_randi w0 0 3600000 U); [reflexivity | reflexivity | lia] |].
  intros ago Hago.
  apply drawing_ret. cbv beta in Hage, Hago, Hrisk. cbn.
  split; [eexists; reflexivity |].
  split; [exists first, last; auto |].
  split; [eauto |]. split; [eauto |]. split; [eauto |].
  split; [exists ind, inc; auto |].
  split; [eauto |]. split; [eauto |]. split; [eauto |]. split; [eauto |].
  split; [eauto |]. split; [eauto |].
  split; [eexists; split; [reflexivity | lia] |].
  auto.
Qed.

(** X5. On a page whose draws are doubles in [0, 1), [generate] returns a
    profile with every field of the synthetic schema populated from its
    list: a name made of a listed first and last name, an age of 18..70, a
    listed gender, job, industry, education, city, relationship, mood and
    activity, an income that is a multiple of 1000 within the range of the
    industry, a risk score of 0..100 and an instant of activity within the
    last hour. It never sets [borough], [nta] nor [coords], and it changes
    nothing of the page but the number of draws consumed. *)
Theorem generate_populates (w : World) :
  unit_draws w ->
  exists (p : Profile.t) (w' : World),
    generate w = (Normal p, w') /\ only_draws w w' /\
    is_Some (Profile.id p) /\
    (exists first last, In first firstNames /\ In last lastNames /\
       Profile.name p = Some (first +:+ " " +:+ last)%string) /\
    (exists a, Profile.age p = Some a /\ (18 <= a <= 70)%Z) /\
    (exists x, Profile.gender p = Some x /\ In x genders) /\
    (exists x, Profile.job_title p = Some x /\ In x jobs) /\
    (exists ind inc, Profile.industry p = Some ind /\ In ind industries /\
       Profile.income_usd p = Some inc /\ (exists k, inc = (1000 * k)%Z) /\
       (fst (lookup_or income_base ind (40000, 120000)) <= inject_Z inc
        <= snd (lookup_or income_base ind (40000, 120000)))) /\
    (exists x, Profile.education p = Some x /\ In x education) /\
    (exists x, Profile.location_city p = Some x /\ In x cities) /\
    (exists x, Profile.relationship_status p = Some x /\ In x relationship) /\
    (exists x, Profile.emotional_state p = Some x /\ In x (map fst emotional)) /\
    (exists x, Profile.activity p = Some x /\ In x activities) /\
    (exists r, Profile.risk_score p = Some r /\ (0 <= r <= 100)%Z) /\
    (exists t, Profile.last_active p = Some t /\ (clock w - 3600000 <= t <= clock w)%Z) /\
    Profile.borough p = None /\ Profile.nta p = None /\ Profile.coords p = None.
Proof.
  intros U.
  destruct (drawing_run w _ _ (drawing_generate w U)) as (p & w' & E & H & D).
  exists p, w'. split; [exact E |]. split; [exact D | exact H].
Qed.

Lemma generate_populates_witness :
  unit_draws page_half /\
  exists (p : Profile.t) (w' : World),
    generate page_half = (Normal p, w') /\ only_draws page_half w' /\
    (exists a, Profile.age p = Some a /\ (18 <= a <= 70)%Z) /\
    Profile.nta p = None /\ Profile.coords p = None.
Proof.
  assert (U : unit_draws page_half).
  { intros k. split; [vm_compute; reflexivity |].
    split; vm_compute; [discriminate | reflexivity]. }
  split; [exact U |].
  destruct (generate_populates page_half U)
    as (p & w' & E & D & _ & _ & Ha & _ & _ & _ & _ & _ & _ & _ & _ & _ & _ & _ & Hn & Hc).
  exists p, w'. auto.
Defined.

End FactoryProps.
(** * Properties of the text encoder *)

Module EncoderProps.
Import StringPainter StringPainterFacts KeyFreeFacts Samples.

Local Open Scope Z_scope.

(** ** The grouping of digits *)

Lemma chars_of_chars (l : list ascii) : JS.chars (JS.of_chars l) = l.
Proof. apply list_ascii_of_string_of_list_ascii. Qed.





Lemma all_chars_Forall (P : ascii -> bool) (s : string) :
  all_chars P s = true -> Forall (fun c => P c = true) (JS.chars s).
Proof.
  induction s as [| c s IH]; cbn; intros H; [constructor |].
  apply andb_prop in H. destruct H as [Hc Hs]. constructor; [exact Hc | apply IH, Hs].
Qed.




End EncoderProps.
(** * Properties of the cache, the query and the refresh of the pool *)

Module SupplierProps.
Import NYC NYCFacts Samples.

Local Open Scope Z_scope.
Local Open Scope string_scope.

(** X7. The cache is a map with a time limit. What [setCache] stores under
    a key, [getCache] returns for that key as long as no more than one hour
    has passed, and [null] afterwards; the answers for the other keys are
    what they were. When the storage is out of order [setCache] does nothing
    and [getCache] answers [null]; neither of them ever throws. *)
Theorem cache_round_trip (key : string) (v : list Profile.t) (w : World) :
  (storage_up w = true ->
   exists w1,
     setCache key v w = (Normal tt, w1) /\
     (forall dt,
        getCache key (later dt w1)
        = (Normal (if dt >? ONE_HOUR_MS then None else Some v), later dt w1)) /\
     (forall key' dt, key' <> key ->
        fst (getCache key' (later dt w1)) = fst (getCache key' (later dt w)))) /\
  (storage_up w = false ->
   setCache key v w = (Normal tt, w) /\ getCache key w = (Normal None, w)).
Proof.
  split; intros Hup.
  - eexists. split; [rewrite setCache_spec, Hup; reflexivity |]. split.
    + intros dt. rewrite getCache_spec. unfold cache_answer, later.
      cbn [storage_up localStorage clock set_clock set_localStorage].
      rewrite Hup, lookup_insert_eq.
      replace (clock w + dt - clock w) with dt by lia. reflexivity.
    + intros key' dt Hk. rewrite !getCache_spec. unfold cache_answer, later.
      cbn [fst storage_up localStorage clock set_clock set_localStorage].
      rewrite lookup_insert_ne by congruence. reflexivity.
  - split; [rewrite setCache_spec, Hup; reflexivity |].
    rewrite getCache_spec. unfold cache_answer. rewrite Hup. reflexivity.
Qed.

(** ** The cache key *)

Lemma append_nil_l (s : string) : "" +:+ s = s.
Proof. reflexivity. Qed.

Lemma append_cons (c : ascii) (a b : string) : String c a +:+ b = String c (a +:+ b).
Proof. reflexivity. Qed.

Lemma append_cancel (p a b : string) : p +:+ a = p +:+ b -> a = b.
Proof.
  induction p as [| c p IH]; repeat (rewrite append_nil_l || rewrite append_cons);
    intros H; [exact H |].
  inversion H. apply IH. assumption.
Qed.

Lemma no_colon_append (a b : string) :
  no_colon (a +:+ b) = no_colon a && no_colon b.
Proof. apply KeyFreeFacts.all_chars_append. Qed.

(** A text is split at its first colon in one way only. *)
Lemma split_first_colon (a1 a2 b1 b2 : string) :
  no_colon a1 = true -> no_colon a2 = true ->
  a1 +:+ ":" +:+ b1 = a2 +:+ ":" +:+ b2 -> a1 = a2 /\ b1 = b2.
Proof.
  revert a2. induction a1 as [| c a1 IH]; intros a2 H1 H2 E.
  - destruct a2 as [| c2 a2]; repeat (rewrite append_nil_l in E || rewrite append_cons in E).
    + inversion E. split; reflexivity.
    + inversion E; subst c2. cbn in H2. discriminate.
  - destruct a2 as [| c2 a2]; repeat (rewrite append_nil_l in E || rewrite append_cons in E).
    + inversion E; subst c. cbn in H1. discriminate.
    + inversion E; subst c2. cbn in H1, H2.
      apply andb_prop in H1. apply andb_prop in H2.
      destruct (IH a2) as [-> ->]; tauto.
Qed.

(** A text is split at its last colon in one way only. *)
Lemma split_last_colon (a1 a2 b1 b2 : string) :
  no_colon b1 = true -> no_colon b2 = true ->
  a1 +:+ ":" +:+ b1 = a2 +:+ ":" +:+ b2 -> a1 = a2 /\ b1 = b2.
Proof.
  assert (Bad : forall a b b', no_colon b' = true -> b' <> a +:+ String ":" b).
  { intros a b b' H ->. rewrite no_colon_append in H. apply andb_prop in H.
    destruct H as [_ H]. cbn in H. discriminate. }
  revert a2. induction a1 as [| c a1 IH]; intros a2 H1 H2 E.
  - destruct a2 as [| c2 a2]; repeat (rewrite append_nil_l in E || rewrite append_cons in E).
    + inversion E. split; reflexivity.
    + inversion E; subst c2. exfalso. eapply Bad; [exact H1 | eassumption].
  - destruct a2 as [| c2 a2]; repeat (rewrite append_nil_l in E || rewrite append_cons in E).
    + inversion E; subst c. exfalso. eapply Bad; [exact H2 | symmetry; eassumption].
    + inversion E; subst c2.
      destruct (IH a2) as [-> ->]; auto.
Qed.

Lemma no_colon_numeral (n : Z) : no_colon (JS.Z_toString n) = true.
Proof.
  pose proof (KeyFreeFacts.numeral_Z_toString n) as H.
  unfold no_colon. revert H. generalize (JS.Z_toString n).
  induction s as [| c s IH]; cbn; intros H; [reflexivity |].
  apply andb_prop in H. destruct H as [Hc Hs]. rewrite (IH Hs), andb_true_r.
  destruct (Ascii.eqb_spec c ":") as [-> | _]; [vm_compute in Hc; discriminate | reflexivity].
Qed.

(** X8. Two filters whose boroughs have no colon and that differ in the
    borough, the area or the limit have different cache keys. *)
Theorem cacheKey_injective (o1 o2 : FetchOpts) :
  no_colon (borough_of o1) = true -> no_colon (borough_of o2) = true ->
  cacheKey o1 = cacheKey o2 ->
  borough_of o1 = borough_of o2 /\ nta_of o1 = nta_of o2 /\ limit_of o1 = limit_of o2.
Proof.
  intros H1 H2 E. unfold cacheKey in E.
  rewrite <- !KeyFreeFacts.append_assoc in E.
  rewrite !(KeyFreeFacts.append_assoc "nyc_profiles:") in E.
  repeat rewrite KeyFreeFacts.append_assoc in E.
  apply append_cancel in E.
  apply split_first_colon in E; [| exact H1 | exact H2].
  destruct E as [Eb E]. split; [exact Eb |].
  apply split_last_colon in E; [| apply no_colon_numeral | apply no_colon_numeral].
  destruct E as [En El]. split; [exact En |].
  apply (inj pretty). exact El.
Qed.

Lemma cacheKey_injective_witness :
  no_colon (borough_of opts0) = true /\
  no_colon (borough_of (mkOpts None None (Some 400%Z))) = true /\
  cacheKey opts0 = cacheKey (mkOpts None None (Some 400%Z)) /\
  borough_of opts0 = borough_of (mkOpts None None (Some 400%Z)) /\
  nta_of opts0 = nta_of (mkOpts None None (Some 400%Z)) /\
  limit_of opts0 = limit_of (mkOpts None None (Some 400%Z)).
Proof.
  assert (H1 : no_colon (borough_of opts0) = true) by reflexivity.
  assert (H2 : no_colon (borough_of (mkOpts None None (Some 400%Z))) = true) by reflexivity.
  assert (E : cacheKey opts0 = cacheKey (mkOpts None None (Some 400%Z))) by reflexivity.
  split; [exact H1 |]. split; [exact H2 |]. split; [exact E |].
  exact (cacheKey_injective opts0 (mkOpts None None (Some 400%Z)) H1 H2 E).
Defined.

(** With colons in the borough and in the area, two different filters can
    share a key, and with it their cached profiles. *)
Example cacheKey_collision :
  cacheKey (mkOpts (Some "a:b") (Some "") None) = cacheKey (mkOpts (Some "a") (Some "b:") None).
Proof. reflexivity. Qed.

(** ** The query *)

Lemma pretty_N_go_length (x : N) :
  forall s, (String.length s <= String.length (pretty_N_go x s))%nat.
Proof.
  induction (N.lt_wf_0 x) as [x _ IH]. intros s.
  destruct (decide (x = 0%N)) as [-> | Hx].
  - rewrite pretty_N_go_0. lia.
  - rewrite pretty_N_go_step by lia.
    etransitivity; [| apply IH; apply N.div_lt; lia]. simpl. lia.
Qed.

Lemma Z_toString_nonempty (n : Z) : JS.Z_toString n <> "".
Proof.
  assert (HN : forall x : N, pretty x <> "").
  { intros x. unfold pretty, pretty_N. case_decide; [discriminate |].
    rewrite pretty_N_go_step by lia. intros E.
    pose proof (pretty_N_go_length (x `div` 10)%N
                  (String (pretty_N_char (x `mod` 10)%N) "")) as L.
    rewrite E in L. simpl in L. lia. }
  unfold JS.Z_toString, pretty, pretty_Z. destruct n as [| q | q].
  - discriminate.
  - apply (HN (N.pos q)).
  - discriminate.
Qed.

Lemma read_literal_escaped (value rest : string) :
  match rest with String c _ => c <> "'"%char | EmptyString => True end ->
  read_literal (JS.replace_char "'" "''" value +:+ String "'" rest) = Some (value, rest).
Proof.
  intros Hr. unfold JS.replace_char, JS.chars.
  induction value as [| c value IH].
  - cbn [list_ascii_of_string map String.concat]. rewrite append_nil_l.
    cbn [read_literal]. rewrite Ascii.eqb_refl.
    destruct rest as [| c rest]; [reflexivity |].
    destruct (Ascii.eqb_spec c "'"); [contradiction | reflexivity].
  - cbn [list_ascii_of_string map].
    assert (E : forall x l, String.concat "" (x :: l) = x +:+ String.concat "" l).
    { intros x l. destruct l as [| y l]; cbn [String.concat].
      - clear. induction x as [| d x IHx]; [reflexivity |].
        rewrite append_cons. rewrite <- IHx. reflexivity.
      - reflexivity. }
    rewrite E. rewrite KeyFreeFacts.append_assoc.
    destruct (Ascii.eqb_spec c "'") as [-> | Hc].
    + repeat (rewrite append_nil_l || rewrite append_cons).
      cbn [read_literal]. rewrite !Ascii.eqb_refl.
      cbn [list_ascii_of_string] in IH. rewrite IH. reflexivity.
    + repeat (rewrite append_nil_l || rewrite append_cons).
      cbn [read_literal].
      destruct (Ascii.eqb_spec c "'"); [contradiction |].
      cbn [list_ascii_of_string] in IH. rewrite IH. reflexivity.
Qed.

(** X9. The condition that [fetchProfiles] builds for a filter value is
    [upper(col) = upper('...')] with every quote of the value doubled: a
    reader of the literal gets the value back, whatever it contains, and is
    left with the closing parenthesis. The value cannot close the literal. *)
Theorem where_clause_literal (col value : string) :
  exists lit : string,
    where_clause col value = "upper(" +:+ col +:+ ") = upper('" +:+ lit /\
    read_literal lit = Some (value, ")").
Proof.
  exists (JS.replace_char "'" "''" value +:+ "')"). split; [reflexivity |].
  apply (read_literal_escaped value ")"). discriminate.
Qed.

Section Service.

Variable synthesize : Json -> (nat -> Q) -> Z -> option Profile.t * nat.

(** The request that the [try] block sends. *)
Lemma fetch_and_cache_request (opts : FetchOpts) (w : World) :
  requests (snd (NYC.fetch_and_cache synthesize opts w))
  = mkRequest (DATASET_DEMOGRAPHICS_BY_NTA w)
      (filter (fun kv => snd kv <> "") (query_params opts)) (APP_TOKEN w)
    :: requests w.
Proof.
  unfold NYC.fetch_and_cache.
  rewrite (bind_normal get_world _ w w w eq_refl).
  pose proof (sodaFetch_spec (DATASET_DEMOGRAPHICS_BY_NTA w) (query_params opts) w) as HS.
  set (w1 := after_request _ _ w) in *.
  assert (R1 : requests w1
               = mkRequest (DATASET_DEMOGRAPHICS_BY_NTA w)
                   (filter (fun kv => snd kv <> "") (query_params opts)) (APP_TOKEN w)
                 :: requests w) by reflexivity.
  assert (Hmap : forall items w0,
             requests (snd (mapM (synthesizeProfileFromDemographics synthesize) items w0))
             = requests w0).
  { induction items as [| r items IH]; intros w0; [reflexivity |].
    cbn [mapM]. unfold bind at 1.
    unfold synthesizeProfileFromDemographics at 1.
    destruct (synthesize r _ (clock w0)) as [[p |] used]; [| reflexivity].
    unfold bind at 1. specialize (IH (set_cursor (cursor w0 + used) w0)).
    destruct (mapM _ items _) as [[ps | e] w2]; cbn in *; exact IH. }
  destruct (next_reply w) as [| | | rows];
    try (rewrite (bind_throw _ _ _ _ _ HS); exact R1).
  rewrite (bind_normal _ _ _ _ _ HS).
  match goal with |- context [bind ?c _ w1] => set (P := c) end.
  assert (HP : requests (snd (P w1)) = requests w1).
  { unfold P. destruct rows; try reflexivity. apply Hmap. }
  unfold bind at 1. destruct (P w1) as [[ps | e] w2]; cbn [snd] in HP.
  - rewrite (bind_normal _ _ _ _ _ (setCache_spec _ _ _)). unfold ret. cbn [snd].
    destruct (storage_up w2); cbn [requests set_localStorage]; rewrite HP; exact R1.
  - cbn [snd]. rewrite HP. exact R1.
Qed.

(** X10. When the cache has no answer, [fetchProfiles] sends one request
    and no more: to the configured data set, with the application token, with
    a [$limit] that is [Math.min(Math.max(limit, 1), 500)], the limit of the
    filter brought into 1..500 (1 for a limit below 1, 500 for one above
    500), and with a [$where] exactly when the filter names a borough or an
    area; the [$where] is then the conditions on the borough and on the
    area, in this order, joined by [AND]. *)
Theorem fetchProfiles_request (opts : FetchOpts) (w : World) :
  fst (getCache (cacheKey opts) w) = Normal None ->
  exists r : Request,
    requests (snd (fetchProfiles synthesize opts w)) = r :: requests w /\
    req_dataset r = DATASET_DEMOGRAPHICS_BY_NTA w /\
    req_token r = APP_TOKEN w /\
    (exists n : Z,
       n = Z.min (Z.max (limit_of opts) 1) 500 /\
       1 <= n <= 500 /\
       (limit_of opts < 1 -> n = 1) /\
       (1 <= limit_of opts <= 500 -> n = limit_of opts) /\
       (500 < limit_of opts -> n = 500) /\
       req_params r !! 0%nat = Some ("$limit", JS.Z_toString n)) /\
    (borough_of opts = "" /\ nta_of opts = "" <-> length (req_params r) = 1%nat) /\
    (length (req_params r) <= 2)%nat /\
    (forall x, req_params r !! 1%nat = Some x ->
       x = ("$where",
            String.concat " AND "
              ((if String.eqb (borough_of opts) "" then []
                else [where_clause "borough" (borough_of opts)])
               ++ (if String.eqb (nta_of opts) "" then []
                   else [where_clause "nta_code" (nta_of opts)])))).
Proof.
  rewrite getCache_spec. cbn [fst]. intros Hmiss.
  assert (Hc : cache_answer (cacheKey opts) w = None) by congruence.
  eexists. split.
  { rewrite fetchProfiles_unfold, Hc.
    pose proof (fetch_and_cache_request opts w) as HR.
    destruct (fetch_and_cache synthesize opts w) as [[v | e] w1]; exact HR. }
  cbn [req_dataset req_token req_params].
  split; [reflexivity |]. split; [reflexivity |].
  unfold query_params.
  set (n := Z.min (Z.max (limit_of opts) 1) 500).
  assert (Hn : JS.Z_toString n <> "") by apply Z_toString_nonempty.
  rewrite filter_cons_True by exact Hn.
  split.
  { exists n. split; [reflexivity |]. split; [unfold n; lia |].
    split; [unfold n; lia |]. split; [unfold n; lia |]. split; [unfold n; lia | reflexivity]. }
  destruct (String.eqb_spec (borough_of opts) "") as [Eb | Eb];
    destruct (String.eqb_spec (nta_of opts) "") as [En | En]; cbn [app length Nat.eqb].
  - rewrite filter_nil. cbn [length]. split; [tauto |].
    split; [lia |]. intros x Hx. discriminate.
  - rewrite filter_cons_True by (cbn; discriminate). rewrite filter_nil. cbn [length].
    split; [split; [tauto | discriminate] |].
    split; [lia |]. intros x Hx. inversion Hx. reflexivity.
  - rewrite filter_cons_True by (cbn; discriminate). rewrite filter_nil. cbn [length].
    split; [split; [tauto | discriminate] |].
    split; [lia |]. intros x Hx. inversion Hx. reflexivity.
  - rewrite filter_cons_True by (cbn; discriminate). rewrite filter_nil. cbn [length].
    split; [split; [tauto | discriminate] |].
    split; [lia |]. intros x Hx. inversion Hx. reflexivity.
Qed.

(** X11. When a queued refresh of the pool settles and its request fails
    (the cache having no answer), the pool of [DataSource] is replaced by the
    two embedded samples: it is not kept. *)
Theorem refresh_replaces_pool_on_failure (opts : FetchOpts) (rest : list FetchOpts) (w : World) :
  pending w = opts :: rest ->
  fst (getCache (cacheKey opts) w) = Normal None ->
  network_failed (next_reply w) ->
  exists w' : World,
    refresh_settles synthesize w = (Normal tt, w') /\
    cachedProfiles w' = SAMPLE_PROFILES w /\
    length (cachedProfiles w') = 2%nat /\
    pending w' = rest.
Proof.
  intros Hp Hmiss Hf. rewrite getCache_spec in Hmiss. cbn [fst] in Hmiss.
  assert (Hc : cache_answer (cacheKey opts) w = None) by congruence.
  unfold refresh_settles.
  rewrite (bind_normal get_world _ w w w eq_refl). rewrite Hp.
  rewrite (bind_normal (modify (set_pending rest)) _ w (set_pending rest w) tt eq_refl).
  unfold try_catch.
  assert (Hc' : cache_answer (cacheKey opts) (set_pending rest w) = None) by exact Hc.
  destruct (fetch_and_cache_failed synthesize opts (set_pending rest w) Hf) as [e E].
  pose proof (fetchProfiles_unfold synthesize opts (set_pending rest w)) as HU.
  rewrite Hc', E in HU.
  rewrite (bind_normal _ _ _ _ _ HU).
  eexists. split; [reflexivity |]. repeat split.
Qed.

End Service.

Lemma fetchProfiles_request_witness :
  fst (getCache (cacheKey opts_wide) page_zero) = Normal None /\
  exists r : Request,
    requests (snd (fetchProfiles synthesize0 opts_wide page_zero)) = r :: requests page_zero /\
    req_dataset r = "xxxx-xxxx" /\
    req_params r = [("$limit", "500"); ("$where", "upper(borough) = upper('Brooklyn')")].
Proof.
  assert (H : fst (getCache (cacheKey opts_wide) page_zero) = Normal None) by reflexivity.
  split; [exact H |].
  destruct (fetchProfiles_request synthesize0 opts_wide page_zero H) as (r & E & _).
  exists r. split; [exact E |].
  vm_compute in E. inversion E. split; reflexivity.
Defined.

Lemma refresh_replaces_pool_on_failure_witness :
  let w := set_pending [opts0] page_nyc in
  pending w = opts0 :: [] /\
  fst (getCache (cacheKey opts0) w) = Normal None /\
  network_failed (next_reply w) /\
  exists w' : World,
    refresh_settles synthesize0 w = (Normal tt, w') /\
    cachedProfiles w' = SAMPLE_PROFILES w /\
    length (cachedProfiles w') = 2%nat /\
    pending w' = [].
Proof.
  intros w.
  assert (H1 : pending w = opts0 :: []) by reflexivity.
  assert (H2 : fst (getCache (cacheKey opts0) w) = Normal None) by reflexivity.
  assert (H3 : network_failed (next_reply w)) by exact I.
  split; [exact H1 |]. split; [exact H2 |]. split; [exact H3 |].
  exact (refresh_replaces_pool_on_failure synthesize0 opts0 [] w H1 H2 H3).
Defined.

End SupplierProps.
(** * Properties of the rain *)

Module RainProps.
Import Rain RainFacts RainSamples.

Local Open Scope Z_scope.

Section Composer.

Variable compose : Profile.t -> string -> (nat -> Q) -> option Bitmap * nat.

Lemma quiet_same_data {A : Type} (c : R Rain.t A) (r : Rain.t) (w : World) :
  quiet c -> profilePool r <> [] ->
  profilePool (snd (fst (c r w))) = profilePool r /\ same_data w (snd (c r w)) /\
  CONFIG (snd (c r w)) = CONFIG w.
Proof.
  intros Hq Hp. destruct (Hq r w Hp) as [D E]. split; [exact E |].
  destruct (only_draws_fields _ _ D) as (_ & _ & _ & Hl & Hr & Hc & Hcp & Hpe & _).
  split; [| exact Hc]. repeat split; assumption.
Qed.

(** X12. Once the pool of the rain holds a profile, the rain never asks
    the data source again. However they end, [resetColumns] (which is all
    that [triggerDataRefresh] calls), [update], [draw] and the settling of a
    strip keep the pool of the rain as it is and leave the pool of the data
    source, its queued requests, the requests sent and the storage
    untouched: a change of the source, the borough or the area does not
    reach the profiles that the rain shows. *)
Theorem rain_keeps_its_pool (canvas : Canvas) (dt : Q) (k : nat) (r : Rain.t) (w : World) :
  profilePool r <> [] ->
  (profilePool (snd (fst (triggerDataRefresh compose canvas r w))) = profilePool r /\
   same_data w (snd (triggerDataRefresh compose canvas r w))) /\
  (profilePool (snd (fst (resetColumns compose canvas r w))) = profilePool r /\
   same_data w (snd (resetColumns compose canvas r w))) /\
  (profilePool (snd (fst (update compose canvas dt r w))) = profilePool r /\
   same_data w (snd (update compose canvas dt r w))) /\
  (profilePool (snd (fst (draw r w))) = profilePool r /\
   same_data w (snd (draw r w))) /\
  (profilePool (snd (fst (strip_settles canvas k r w))) = profilePool r /\
   same_data w (snd (strip_settles canvas k r w))).
Proof.
  intros Hp.
  pose proof (quiet_same_data _ r w (quiet_resetColumns compose canvas) Hp) as (H1 & H2 & _).
  pose proof (quiet_same_data _ r w (quiet_update compose canvas dt) Hp) as (H3 & H4 & _).
  pose proof (quiet_same_data _ r w quiet_draw Hp) as (H5 & H6 & _).
  pose proof (quiet_same_data _ r w (quiet_strip_settles canvas k) Hp) as (H7 & H8 & _).
  unfold triggerDataRefresh. auto 10.
Qed.

End Composer.

Lemma rain_keeps_its_pool_witness :
  profilePool rain0 <> [] /\
  profilePool (snd (fst (update compose0 canvas0 (16 # 1000) rain0 (glyph_page 1))))
  = profilePool rain0 /\
  same_data (glyph_page 1) (snd (update compose0 canvas0 (16 # 1000) rain0 (glyph_page 1))).
Proof.
  assert (H : profilePool rain0 <> []) by discriminate.
  split; [exact H |].
  destruct (rain_keeps_its_pool compose0 canvas0 (16 # 1000) 0 rain0 (glyph_page 1) H)
    as (_ & _ & Hu & _).
  exact Hu.
Defined.

End RainProps.
(** * The rain: runs that return *)

Lemma runsR_ret {St A : Type} (a : A) (s : St) (w : World) (P : A -> St -> World -> Prop) :
  P a s w -> runsR (retR a) s w P.
Proof. intros H. exists a, s, w. split; [reflexivity | exact H]. Qed.

Lemma runsR_bind {St A B : Type} (c : R St A) (k : A -> R St B) (s : St) (w : World)
    (Q : A -> St -> World -> Prop) (P : B -> St -> World -> Prop) :
  runsR c s w Q -> (forall a s1 w1, Q a s1 w1 -> runsR (k a) s1 w1 P) ->
  runsR (bindR c k) s w P.
Proof.
  intros (a & s1 & w1 & E & Ha) Hk. destruct (Hk a s1 w1 Ha) as (b & s2 & w2 & E2 & Hb).
  exists b, s2, w2. split; [| exact Hb]. unfold bindR. rewrite E. exact E2.
Qed.

Lemma runsR_weaken {St A : Type} (c : R St A) (s : St) (w : World)
    (P Q : A -> St -> World -> Prop) :
  runsR c s w P -> (forall a s' w', P a s' w' -> Q a s' w') -> runsR c s w Q.
Proof.
  intros (a & s' & w' & E & Ha) H. exists a, s', w'. split; [exact E | apply H, Ha].
Qed.

Lemma runsR_lift {St A : Type} (c : M A) (s : St) (w : World) (Q : A -> World -> Prop) :
  runs c w Q -> runsR (lift c) s w (fun a s' w' => s' = s /\ Q a w').
Proof.
  intros (a & w' & E & Ha). exists a, s, w'. unfold lift. rewrite E.
  split; [reflexivity | split; [reflexivity | exact Ha]].
Qed.

Lemma runsR_this {St : Type} (s : St) (w : World) :
  runsR this_ s w (fun a s' w' => a = s /\ s' = s /\ w' = w).
Proof. exists s, s, w. repeat split. Qed.

Lemma runsR_page {St : Type} (s : St) (w : World) :
  runsR page_ s w (fun a s' w' => a = w /\ s' = s /\ w' = w).
Proof. exists w, s, w. repeat split. Qed.

Lemma runsR_modify {St : Type} (f : St -> St) (s : St) (w : World) :
  runsR (modifyR f) s w (fun _ s' w' => s' = f s /\ w' = w).
Proof. exists tt, (f s), w. repeat split. Qed.

(** A loop that returns at every turn, with an invariant on the number of
    turns taken. *)
Lemma runsR_for {St A : Type} (l : list A) (body : A -> R St unit)
    (Inv : nat -> St -> World -> Prop) :
  forall (n : nat) (s : St) (w : World),
    Inv n s w ->
    (forall i x s1 w1, l !! i = Some x -> Inv (n + i)%nat s1 w1 ->
       runsR (body x) s1 w1 (fun _ s2 w2 => Inv (S (n + i)) s2 w2)) ->
    runsR (forR l body) s w (fun _ s' w' => Inv (n + length l)%nat s' w').
Proof.
  induction l as [| x l IH]; intros n s w H0 Hbody; cbn [forR length].
  - apply runsR_ret. rewrite Nat.add_0_r. exact H0.
  - eapply runsR_bind.
    + apply (Hbody 0%nat x s w); [reflexivity |]. rewrite Nat.add_0_r. exact H0.
    + intros u s1 w1 H1. cbv beta in H1. rewrite Nat.add_0_r in H1.
      replace (n + S (length l))%nat with (S n + length l)%nat by lia.
      apply IH; [exact H1 |].
      intros i y s2 w2 Hy H2. replace (S n + i)%nat with (n + S i)%nat in * by lia.
      apply Hbody; assumption.
Qed.

Lemma good_only_draws (cfg : Config) (w w' : World) :
  only_draws w w' -> good cfg w -> good cfg w'.
Proof.
  intros D [U C]. split; [eapply only_draws_unit; eassumption |].
  destruct (only_draws_fields _ _ D) as (_ & _ & _ & _ & _ & Hc & _). congruence.
Qed.

(** From a computation that only draws to a run on a good page. *)
Lemma good_drawing {A : Type} (c : M A) (P : A -> Prop) (cfg : Config) (w : World) :
  (forall w0, unit_draws w0 -> drawing_at w0 c P) ->
  good cfg w -> runs c w (fun a w' => P a /\ good cfg w' /\ only_draws w w').
Proof.
  intros H G. destruct G as [U C].
  eapply runs_weaken; [apply drawing_run, H, U |].
  intros a w' [Ha D]. split; [exact Ha |]. split; [| exact D].
  eapply good_only_draws; [exact D | split; assumption].
Qed.

Module PainterRuns.
Import StringPainter.

Lemma drawing_buildString (w0 : World) (p : Profile.t) (mode : string) :
  drawing_at w0 (buildString p mode) (fun _ => True).
Proof.
  unfold buildString.
  destruct (String.eqb mode "kv"); [apply drawing_ret; exact I |].
  destruct (String.eqb mode "code"); [apply drawing_ret; exact I |].
  eapply drawing_bind with (Q := fun _ => True); [| intros; apply drawing_ret; exact I].
  destruct (Profile.coords p); [apply drawing_ret; exact I |].
  eapply drawing_bind; [apply RandomFacts.drawing_rand_any |]. intros x _.
  eapply drawing_bind; [apply RandomFacts.drawing_rand_any |]. intros y _.
  eapply drawing_bind; [apply RandomFacts.drawing_rand_any |]. intros z _.
  apply drawing_ret. exact I.
Qed.

Lemma drawing_new (w0 : World) (p : Profile.t) (mode : string) :
  drawing_at w0 (new p mode)
    (fun pt => profile pt = p /\
               keyCharPositions pt = computeKeyPositions (this_string pt)).
Proof.
  unfold new. eapply drawing_bind; [apply drawing_buildString |]. intros s _.
  apply drawing_ret. split; reflexivity.
Qed.

(** A character of the filler alphabet, never [undefined]. *)
Lemma drawing_filler_char (w0 : World) :
  unit_draws w0 ->
  drawing_at w0 filler_char (fun o => exists c, o = Some c /\ In c (JS.chars filler)).
Proof.
  intros U. unfold filler_char.
  eapply drawing_bind.
  - apply RandomFacts.drawing_index; [exact U |]. vm_compute. split; [discriminate | reflexivity].
  - intros i Hi. cbv beta in Hi. apply drawing_ret. unfold at_index.
    destruct (Z.ltb_spec i 0) as [N | _]; [lia |].
    assert (L : (Z.to_nat i < length (JS.chars filler))%nat).
    { assert (E : Z.of_nat (String.length filler) = Z.of_nat (length (JS.chars filler)))
        by reflexivity.
      lia. }
    destruct (lookup_lt_is_Some_2 _ _ L) as [c Ec].
    exists c. split; [exact Ec |]. apply list_elem_of_In. eapply list_elem_of_lookup_2, Ec.
Qed.

Lemma drawing_buildGlyphStream (w0 : World) (this : t) :
  unit_draws w0 ->
  drawing_at w0 (buildGlyphStream this)
    (fun buffer =>
       exists left right,
         buffer = left ++ map Some (JS.chars (this_string this)) ++ right /\
         length left = 40%nat /\ length right = 40%nat /\
         Forall (fun o => exists c, o = Some c /\ In c (JS.chars filler)) (left ++ right)).
Proof.
  intros U. unfold buildGlyphStream.
  eapply drawing_bind; [apply drawing_replicateM, drawing_filler_char, U |].
  intros left [Ll Fl].
  eapply drawing_bind; [apply drawing_replicateM, drawing_filler_char, U |].
  intros right [Lr Fr].
  apply drawing_ret. exists left, right.
  split; [reflexivity |]. split; [exact Ll |]. split; [exact Lr |].
  apply Forall_app. split; assumption.
Qed.

End PainterRuns.

(** * The encoder's scrolling buffer *)

Module EncoderPadding.
Import StringPainter StringPainterFacts Samples.

Local Open Scope Z_scope.

(** C2, amended. For every profile and style, on every page, the encoder
    returns a painter and [buildGlyphStream] returns its scrolling buffer,
    which is the encoded string between a left and a right padding of 40
    entries each; when the draws of [Math.random] are doubles in [0, 1), as
    the host's are, every entry of the two paddings is a character of the
    filler alphabet.  [isKeyChar] at a buffer offset [b] (any
    [b >= 40 - 10000 * len], so every [b >= 0]) answers for the string
    position [(b - 40) mod len]: at an offset of the encoded string,
    [40 <= b < 40 + len], it holds exactly when [b - 40] is a key position; an
    offset of the padding is not excluded, it is reported key exactly when the
    position it wraps onto is one. *)
Theorem isKeyChar_wraps_onto_string (p : Profile.t) (mode : string) (w : World) :
  exists painter w' buffer w'' left right,
    new p mode w = (Normal painter, w') /\
    buildGlyphStream painter w' = (Normal buffer, w'') /\
    buffer = left ++ map Some (JS.chars (this_string painter)) ++ right /\
    length left = 40%nat /\ length right = 40%nat /\
    (unit_draws w ->
     Forall (fun o => exists c, o = Some c /\ In c (JS.chars filler)) (left ++ right)) /\
    let len := Z.of_nat (String.length (this_string painter)) in
    0 < len /\
    (forall b, 40 - 10000 * len <= b ->
       (isKeyChar painter b = true <-> ((b - 40) mod len) ∈ keyCharPositions painter)) /\
    (forall b, 40 <= b < 40 + len ->
       (isKeyChar painter b = true <-> (b - 40) ∈ keyCharPositions painter)).
Proof.
  destruct (new_total p mode w) as (s & w' & _ & L & E).
  destruct (post_buildGlyphStream (mk p mode s (computeKeyPositions s)) w')
    as (buffer & w'' & Eb & left & right & Hb & Hl & Hr).
  exists (mk p mode s (computeKeyPositions s)), w', buffer, w'', left, right.
  split; [exact E |]. split; [exact Eb |]. split; [exact Hb |].
  split; [exact Hl |]. split; [exact Hr |].
  split.
  { intros U.
    destruct (drawing_run w _ _ (PainterRuns.drawing_new w p mode))
      as (pt & w1 & E1 & _ & D1).
    rewrite E in E1. injection E1 as <- <-.
    pose proof (only_draws_unit _ _ D1 U) as U'.
    destruct (drawing_run w' _ _
                (PainterRuns.drawing_buildGlyphStream w'
                   (mk p mode s (computeKeyPositions s)) U'))
      as (buffer' & w2 & E2 & (left' & right' & Hb' & Hl' & Hr' & F) & _).
    rewrite Eb in E2. injection E2 as <- <-.
    rewrite Hb in Hb'.
    apply app_inj_1 in Hb' as [-> Hb']; [| congruence].
    apply app_inv_head in Hb'. subst right'. exact F. }
  cbn [this_string keyCharPositions]. cbv zeta.
  split; [lia |]. split.
  - intros b Hb'. apply isKeyChar_spec; cbn [this_string]; lia.
  - intros b Hb'. rewrite isKeyChar_spec by (cbn [this_string]; lia).
    cbn [this_string keyCharPositions]. rewrite Z.mod_small by lia. reflexivity.
Qed.

Lemma isKeyChar_wraps_onto_string_witness :
  unit_draws page_zero /\
  exists painter w' buffer w'' left right,
    new sampleB "kv" page_zero = (Normal painter, w') /\
    buildGlyphStream painter w' = (Normal buffer, w'') /\
    buffer = left ++ map Some (JS.chars (this_string painter)) ++ right /\
    length left = 40%nat /\ length right = 40%nat /\
    Forall (fun o => exists c, o = Some c /\ In c (JS.chars filler)) (left ++ right).
Proof.
  assert (U : unit_draws page_zero).
  { intros k. split; [vm_compute; reflexivity |].
    split; vm_compute; [discriminate | reflexivity]. }
  split; [exact U |].
  destruct (isKeyChar_wraps_onto_string sampleB "kv" page_zero)
    as (painter & w' & buffer & w'' & left & right & E & Eb & Hb & Hl & Hr & Hf & _).
  exists painter, w', buffer, w'', left, right.
  split; [exact E |]. split; [exact Eb |]. split; [exact Hb |].
  split; [exact Hl |]. split; [exact Hr |]. exact (Hf U).
Defined.

End EncoderPadding.

Module RainTotal.
Import Rain RainFacts.

Local Open Scope Z_scope.

Lemma good_set_cachedProfiles (cfg : Config) (l : list Profile.t) (w : World) :
  good cfg w -> good cfg (set_cachedProfiles l w).
Proof. intros [U C]. split; [exact U | exact C]. Qed.

Lemma good_set_pending (cfg : Config) (l : list FetchOpts) (w : World) :
  good cfg w -> good cfg (set_pending l w).
Proof. intros [U C]. split; [exact U | exact C]. Qed.

Lemma generateFakeBatch_runs (cfg : Config) (m : Z) (w : World) :
  good cfg w ->
  runs (DataSource.generateFakeBatch m) w
       (fun l w' => length l = Z.to_nat m /\ good cfg w').
Proof.
  intros G. unfold DataSource.generateFakeBatch.
  assert (D : forall w0, unit_draws w0 ->
                drawing_at w0 (replicateM (Z.to_nat m) ProfileFactory.generate)
                  (fun l => length l = Z.to_nat m /\ Forall (fun _ => True) l)).
  { intros w0 U. apply drawing_replicateM.
    eapply drawing_weaken; [apply FactoryProps.drawing_generate, U |]. intros; exact I. }
  eapply runs_weaken; [apply (good_drawing _ _ cfg w D G) |].
  intros l w' ([Hl _] & G' & _). split; assumption.
Qed.

Lemma takeLoop_defined {A : Type} (arr : list A) (n : Z) :
  arr <> [] -> Forall is_Some (DataSource.takeLoop arr n).
Proof.
  intros Hne. unfold DataSource.takeLoop. apply Forall_forall. intros o Ho.
  apply list_elem_of_In in Ho. apply in_map_iff in Ho. destruct Ho as (i & <- & _).
  apply lookup_lt_is_Some_2. apply Nat.mod_upper_bound.
  destruct arr; [contradiction | discriminate].
Qed.

(** [getProfiles(n)] returns [n] profiles, none of them [undefined]. *)
Lemma getProfiles_defined (cfg : Config) (n : Z) (w : World) :
  good cfg w -> 1 <= n ->
  runs (DataSource.getProfiles n) w
       (fun out w' => length out = Z.to_nat n /\ Forall is_Some out /\ good cfg w').
Proof.
  intros G Hn. unfold runs, DataSource.getProfiles, bind at 1, get_world. cbv zeta.
  destruct (String.eqb (source (CONFIG w)) "nyc" && bool_decide (is_Some (nyc_loaded w))).
  - destruct (Nat.eqb_spec (length (cachedProfiles w)) 0) as [E0 | E0].
    + destruct (generateFakeBatch_runs cfg n w G) as (batch & w1 & E & Hl & G1).
      unfold bind. rewrite E. cbn.
      eexists; eexists. split; [reflexivity |].
      split; [apply DataSourceFacts.length_takeLoop |].
      split; [| apply good_set_pending, good_set_cachedProfiles, G1].
      apply takeLoop_defined. intros ->. cbn in Hl. lia.
    + cbn. eexists; eexists. split; [reflexivity |].
      split; [apply DataSourceFacts.length_takeLoop |].
      split; [| apply good_set_pending, G].
      apply takeLoop_defined. intros Ec. rewrite Ec in E0. contradiction.
  - destruct (Z.ltb_spec (Z.of_nat (length (cachedProfiles w))) n) as [E0 | E0].
    + destruct (generateFakeBatch_runs cfg (Z.max n 128) w G) as (batch & w1 & E & Hl & G1).
      unfold bind. rewrite E. cbn.
      eexists; eexists. split; [reflexivity |].
      split; [apply DataSourceFacts.length_takeLoop |].
      split; [| apply good_set_cachedProfiles, G1].
      apply takeLoop_defined. intros ->. cbn in Hl. lia.
    + cbn. eexists; eexists. split; [reflexivity |].
      split; [apply DataSourceFacts.length_takeLoop |].
      split; [| exact G].
      apply takeLoop_defined. intros Ec. rewrite Ec in E0. cbn in E0. lia.
Qed.

Lemma pool_lookup (pool : list (option Profile.t)) (idx : Z) :
  pool <> [] -> Forall is_Some pool -> 0 <= idx ->
  is_Some (match at_index pool (Z.rem idx (Z.of_nat (length pool))) with
           | Some o => o
           | None => None
           end).
Proof.
  intros Hne Hd Hi.
  assert (Hl : 0 < Z.of_nat (length pool)).
  { destruct pool; [contradiction | cbn [length]; lia]. }
  rewrite Z.rem_mod_nonneg by lia.
  pose proof (Z.mod_pos_bound idx (Z.of_nat (length pool)) Hl) as B.
  unfold at_index. destruct (Z.ltb_spec (idx mod Z.of_nat (length pool)) 0); [lia |].
  destruct (lookup_lt_is_Some_2 pool (Z.to_nat (idx mod Z.of_nat (length pool)))) as [o Eo];
    [lia |].
  rewrite Eo. rewrite Forall_forall in Hd. apply Hd.
  eapply list_elem_of_lookup_2, Eo.
Qed.

(** [takeNextProfile] returns a profile; it fills the pool when it is
    empty and leaves it as it is otherwise. *)
Lemma takeNextProfile_total (cfg : Config) (r : Rain.t) (w : World) :
  good cfg w -> rain_ok r ->
  runsR takeNextProfile r w
    (fun p r' w' =>
       is_Some p /\ rain_ok r' /\ profilePool r' <> [] /\ good cfg w' /\
       same_columns r r' /\
       (profilePool r <> [] ->
        profilePool r' = profilePool r /\ profileIndex r' = profileIndex r + 1 /\
        only_draws w w')).
Proof.
  intros G [Hd Hi]. unfold runsR.
  destruct (profilePool r) as [| p0 pool] eqn:Ep.
  - destruct (getProfiles_defined cfg 64 w G) as (out & w1 & E & Hl & Ho & G1); [lia |].
    unfold takeNextProfile, bindR, this_. rewrite Ep. cbn [length Nat.eqb].
    unfold lift. rewrite E. cbn [modifyR profilePool set_profilePool set_profileIndex
                                  profileIndex retR].
    assert (Hne : out <> []) by (intros ->; cbn in Hl; lia).
    destruct (Z.eqb_spec (Z.of_nat (length out)) 0) as [Z0 | _];
      [destruct out; [contradiction | cbn [length] in Z0; lia] |].
    eexists; eexists; eexists. split; [reflexivity |].
    split; [apply pool_lookup; [exact Hne | exact Ho | lia] |].
    split; [split; [exact Ho | cbn; lia] |].
    split; [exact Hne |]. split; [exact G1 |].
    split; [repeat split |]. intros C. contradiction.
  - assert (Hne : profilePool r <> []) by (rewrite Ep; discriminate).
    rewrite (takeNextProfile_run r w Hne).
    eexists; eexists; eexists. split; [reflexivity |].
    split; [apply pool_lookup; [exact Hne | rewrite Ep; exact Hd | exact Hi] |].
    split; [split; [change (Forall is_Some (profilePool r)); rewrite Ep; exact Hd
                   | change (0 <= profileIndex r + 1); lia] |].
    split; [change (profilePool r <> []); exact Hne |]. split; [exact G |].
    split; [repeat split |]. intros _.
    split; [exact Ep |]. split; [reflexivity | apply only_draws_refl].
Qed.

(** The column [i] of [c] columns starts within the width of the canvas. *)
Lemma column_x_within (W c i : Z) :
  1 <= W -> 1 <= c <= 2 ^ 20 -> 0 <= i < c ->
  0 <= F64.floor (F64.mul (inject_Z i) (F64.div (inject_Z W) (inject_Z c))) < W.
Proof.
  intros HW [Hc0 Hc1] [Hi0 Hi1].
  assert (HWq : (1 <= inject_Z W)%Q).
  { change 1%Q with (inject_Z 1). rewrite <- Zle_Qle. exact HW. }
  assert (Hcq : (1 <= inject_Z c)%Q).
  { change 1%Q with (inject_Z 1). rewrite <- Zle_Qle. exact Hc0. }
  assert (Hcq1 : (inject_Z c <= 1048576)%Q).
  { change 1048576%Q with (inject_Z (2 ^ 20)). rewrite <- Zle_Qle. exact Hc1. }
  assert (Hiq0 : (0 <= inject_Z i)%Q).
  { change 0%Q with (inject_Z 0). rewrite <- Zle_Qle. exact Hi0. }
  assert (Hiq1 : (inject_Z i <= inject_Z c - 1)%Q).
  { change 1%Q with (inject_Z 1). rewrite <- F64More.inject_Z_sub, <- Zle_Qle. lia. }
  set (Wq := inject_Z W) in *. set (cq := inject_Z c) in *. set (iq := inject_Z i) in *.
  set (t := (Wq / cq)%Q).
  assert (Ect : (cq * t == Wq)%Q) by (unfold t; field; lra).
  assert (Ht : ((1 # 1048576) <= t)%Q).
  { unfold t. apply Qle_shift_div_l; lra. }
  assert (Eeps : (2 ^ (-53) == 1 # 9007199254740992)%Q) by reflexivity.
  assert (Tiny : (2 ^ (-1022) <= 1 # 1048576)%Q).
  { change (1 # 1048576)%Q with (2 ^ (-20))%Q. apply F64Facts.pow2_le. lia. }
  unfold F64.div. fold t.
  pose proof (F64More.round_error t) as [_ Qu]; [lra |].
  assert (Q0 : ((1 # 1048576) <= F64.round t)%Q).
  { apply Qle_trans with (F64.round (1 # 1048576)).
    - assert (E : (F64.round (1 # 1048576) == 1 # 1048576)%Q) by reflexivity.
      rewrite E. apply Qle_refl.
    - apply F64Facts.round_mono, Ht. }
  set (q := F64.round t) in *. rewrite Eeps in Qu.
  unfold F64.mul, F64.floor.
  destruct (Z.eq_dec i 0) as [I0 | In0].
  - assert (E : (iq * q == 0)%Q) by (unfold iq; rewrite I0; ring).
    rewrite (F64More.round_comp _ _ E). rewrite F64Facts.round_0.
    change (Qfloor 0) with 0. lia.
  - assert (Hiq : (1 <= iq)%Q).
    { unfold iq. change 1%Q with (inject_Z 1). rewrite <- Zle_Qle. lia. }
    assert (Hz : (2 ^ (-1022) <= iq * q)%Q) by nra.
    pose proof (F64More.round_error (iq * q) Hz) as [_ Zu]. rewrite Eeps in Zu.
    assert (Zb : (iq * q <= (cq - 1) * (t + t * (1 # 9007199254740992)))%Q) by nra.
    assert (Below : (F64.round (iq * q) < Wq)%Q).
    { assert (T0 : (0 < t)%Q) by lra.
      assert (S1 : ((cq - 1) * (t + t * (1 # 9007199254740992))
                    <= cq * t - t + t * (1 # 8589934592))%Q) by nra.
      assert (S2 : (iq * q <= cq * t - t + t * (1 # 8589934592))%Q) by lra.
      assert (S3 : (iq * q * (1 # 9007199254740992) <= t * (1 # 2))%Q) by nra.
      lra. }
    assert (Nn : (0 <= F64.round (iq * q))%Q).
    { apply F64Facts.round_nonneg. nra. }
    split.
    + apply Qfloor_resp_le in Nn. exact Nn.
    + rewrite Zlt_Qlt. fold Wq.
      apply Qle_lt_trans with (F64.round (iq * q)); [apply Qfloor_le | exact Below].
Qed.

(** On a canvas that has no width every column starts at [x = 0]. *)
Lemma column_x_within_max (W c i : Z) :
  0 <= W -> 1 <= c <= 2 ^ 20 -> 0 <= i < c ->
  0 <= F64.floor (F64.mul (inject_Z i) (F64.div (inject_Z W) (inject_Z c))) < Z.max 1 W.
Proof.
  intros HW Hc Hi. destruct (Z.eq_dec W 0) as [-> | Hn].
  - unfold F64.mul, F64.div, F64.floor.
    assert (E1 : (inject_Z 0 / inject_Z c == 0)%Q) by (unfold Qdiv; ring).
    rewrite (F64More.round_comp _ _
               (Qmult_comp _ _ (Qeq_refl (inject_Z i)) _ _ (F64More.round_comp _ _ E1))).
    rewrite F64Facts.round_0.
    assert (E2 : (inject_Z i * 0 == 0)%Q) by ring.
    rewrite (F64More.round_comp _ _ E2), F64Facts.round_0.
    change (Qfloor 0) with 0. cbn. lia.
  - rewrite Z.max_r by lia. apply column_x_within; [lia | exact Hc | exact Hi].
Qed.

(** One step of a run: a computation on the page that only draws. *)
Lemma runsR_drawing {A : Type} (c : M A) (P : A -> Prop) (cfg : Config)
    (r : Rain.t) (w : World) :
  (forall w0, unit_draws w0 -> drawing_at w0 c P) -> good cfg w ->
  runsR (lift c) r w (fun a r' w' => r' = r /\ P a /\ good cfg w' /\ only_draws w w').
Proof.
  intros H G. apply runsR_lift. apply good_drawing; assumption.
Qed.

Lemma same_columns_refl (r : Rain.t) : same_columns r r.
Proof. repeat split. Qed.

Lemma same_columns_trans (r1 r2 r3 : Rain.t) :
  same_columns r1 r2 -> same_columns r2 r3 -> same_columns r1 r3.
Proof.
  intros (A1 & B1 & C1 & D1) (A2 & B2 & C2 & D2). repeat split; congruence.
Qed.

(** [spawnColumn(index, h)] for any index: the column but for the bounds
    of its [x]. *)
Lemma spawnColumn_runs (cfg : Config) (canvas : Canvas) (index : Q) (r : Rain.t) (w : World) :
  good cfg w -> rain_ok r -> 0 <= clientHeight canvas < 2 ^ 52 -> columnCount r <> 0 ->
  runsR (spawnColumn canvas index (clientHeight canvas)) r w
    (fun col r' w' =>
       (Rain.x col
        = Some (F64.floor
                  (F64.mul index
                     (F64.div (inject_Z (clientWidth canvas))
                              (inject_Z (columnCount r))))) /\
        column_made canvas col /\
        ((0 <= speedScale cfg)%Q -> (0 <= Rain.speed col)%Q)) /\
       rain_ok r' /\ profilePool r' <> [] /\ good cfg w' /\
       same_columns r r' /\
       (profilePool r <> [] -> profilePool r' = profilePool r /\ only_draws w w')).
Proof.
  intros G Hok HH Hc. unfold spawnColumn.
  eapply runsR_bind; [apply runsR_this |]. intros this r0 w0 (-> & -> & ->).
  destruct (Z.eqb_spec (columnCount r) 0) as [Z0 | _]; [contradiction |].
  eapply runsR_bind; [apply (takeNextProfile_total cfg r w G Hok) |].
  intros profile r1 w1 ([p ->] & Hok1 & Hne1 & G1 & Hs1 & Hk1).
  unfold new_painter.
  eapply runsR_bind.
  { eapply runsR_bind; [apply runsR_page |]. intros page r2 w2 (-> & -> & ->).
    apply (runsR_drawing _ _ cfg r1 w1
             (fun w0 _ => PainterRuns.drawing_new w0 p (stringStyle (CONFIG w1))) G1). }
  intros painter r2 w2 (-> & _ & G2 & D2). cbv beta.
  eapply runsR_bind; [apply runsR_page |]. intros page r3 w3 (-> & -> & ->).
  eapply runsR_bind.
  { apply (runsR_drawing _ _ cfg r1 w2
             (fun w0 U => RandomFacts.drawing_randi w0 (- clientHeight canvas) 0 U
                            ltac:(lia) ltac:(lia) ltac:(lia)) G2). }
  intros yi r3 w3 (-> & Hy & G3 & D3). cbv beta in Hy.
  eapply runsR_bind.
  { apply (runsR_drawing _ _ cfg r1 w3
             (fun w0 U => RandomFacts.drawing_rand w0 60 180 U
                            ltac:(reflexivity) ltac:(reflexivity) ltac:(lia)) G3). }
  intros s r4 w4 (-> & Hs & G4 & D4). cbv beta in Hs.
  eapply runsR_bind.
  { apply (runsR_drawing _ _ cfg r1 w4
             (fun w0 U => RandomFacts.drawing_randi w0 10 40 U
                            ltac:(reflexivity) ltac:(reflexivity) ltac:(lia)) G4). }
  intros sl r5 w5 (-> & Hsl & G5 & D5). cbv beta in Hsl.
  eapply runsR_bind.
  { apply (runsR_drawing _ _ cfg r1 w5
             (fun w0 U => drawing_replicateM w0 _ _ 80
                            (RandomFacts.drawing_index w0 (Z.of_nat (length characters)) U
                               ltac:(vm_compute; split; [discriminate | reflexivity]))) G5). }
  intros gi r6 w6 (-> & [Lgi Fgi] & G6 & D6).
  eapply runsR_bind.
  { apply (runsR_drawing _ _ cfg r1 w6
             (fun w0 _ => RandomFacts.drawing_rand_any w0 (- lit_0_2) lit_0_2) G6). }
  intros drift r7 w7 (-> & _ & G7 & D7).
  eapply runsR_bind.
  { apply (runsR_drawing _ _ cfg r1 w7
             (fun w0 U => PainterRuns.drawing_buildGlyphStream w0 painter U) G7). }
  intros buffer r8 w8 (-> & (left & right & -> & Ll & Lr & Fp) & G8 & D8).
  apply runsR_ret.
  split; [| split; [exact Hok1 | split; [exact Hne1 | split; [exact G8 | split; [exact Hs1 |]]]]].
  - unfold column_made.
    cbn [Rain.x Rain.y Rain.streamLength Rain.glyphIndices Rain.textBuffer
         Rain.headHighlightTimer Rain.painter].
    split; [reflexivity |].
    split.
    2:{ intros Hscale. destruct G2 as [_ C2]. rewrite C2.
        apply F64Facts.mul_nonneg; [| exact Hscale].
        destruct Hs as [Hs0 _]. change (inject_Z 60) with 60%Q in Hs0.
        apply Qle_trans with 60%Q; [discriminate | exact Hs0]. }
    split; [exists yi; split; [reflexivity | exact Hy] |].
    split; [exact Hsl |].
    split; [rewrite length_map; exact Lgi |].
    split.
    { apply Forall_fmap. eapply Forall_impl; [exact Fgi |].
      intros k Hk. exists k. split; [reflexivity | exact Hk]. }
    split; [| reflexivity].
    exists left, right. cbn [Rain.textBuffer Rain.painter].
    split; [reflexivity |]. split; [exact Ll |]. split; [exact Lr | exact Fp].
  - intros Hne. destruct (Hk1 Hne) as (Ep & _ & D1). split; [exact Ep |].
    repeat (eapply only_draws_trans; [eassumption |]). apply only_draws_refl.
Qed.

(** The length of a buffer and its entries. *)
Lemma buffer_made_length (col : Rain.Column) :
  buffer_made col ->
  length (Rain.textBuffer col)
  = (80 + String.length (StringPainter.this_string (Rain.painter col)))%nat.
Proof.
  intros (left & right & E & Ll & Lr & _). rewrite E.
  rewrite !length_app, length_map, Ll, Lr.
  assert (El : length (JS.chars (StringPainter.this_string (Rain.painter col)))
               = String.length (StringPainter.this_string (Rain.painter col))).
  { generalize (StringPainter.this_string (Rain.painter col)). clear.
    induction s as [| c s IH]; [reflexivity | cbn; rewrite <- IH; reflexivity]. }
  rewrite El. lia.
Qed.

Lemma buffer_made_defined (col : Rain.Column) :
  buffer_made col -> Forall is_Some (Rain.textBuffer col).
Proof.
  intros (left & right & E & _ & _ & Fp). rewrite E.
  apply Forall_app in Fp. destruct Fp as [Fl Fr].
  apply Forall_app. split.
  { eapply Forall_impl; [exact Fl |]. intros o (c & -> & _). eexists; reflexivity. }
  apply Forall_app. split.
  { apply Forall_fmap. apply Forall_forall. intros c _. eexists; reflexivity. }
  eapply Forall_impl; [exact Fr |]. intros o (c & -> & _). eexists; reflexivity.
Qed.

(** One of the columns of [resetColumns] starts within the width of the
    canvas. *)
Lemma column_at_fresh (canvas : Canvas) (count : Z) (col : Rain.Column) :
  0 <= clientWidth canvas -> 1 <= count <= 2 ^ 20 ->
  column_at canvas count col -> fresh_column canvas col.
Proof.
  intros HW Hc [(k & Hk & Hx) Hm]. split; [| exact Hm].
  eexists. split; [exact Hx |]. apply column_x_within_max; assumption.
Qed.

Section Composer.

Variable compose : Profile.t -> string -> (nat -> Q) -> option Bitmap * nat.

(** [resetColumns()] in glyph mode builds the columns and returns. *)
Lemma resetColumns_glyph (cfg : Config) (canvas : Canvas) (r : Rain.t) (w : World) :
  good cfg w -> mode cfg = "glyph"%string -> 8 <= maxColumns cfg <= 2 ^ 20 ->
  rain_ok r -> 0 <= clientHeight canvas < 2 ^ 52 ->
  runsR (resetColumns compose canvas) r w
    (fun _ r' w' =>
       columnCount r' = MatrixRain.numCols cfg (inject_Z (clientWidth canvas)) /\
       length (columns r')
       = Z.to_nat (MatrixRain.numCols cfg (inject_Z (clientWidth canvas))) /\
       Forall (column_at canvas (MatrixRain.numCols cfg (inject_Z (clientWidth canvas))))
              (columns r') /\
       fileStrips r' = [] /\ composing r' = composing r /\
       rain_ok r' /\ profilePool r' <> [] /\ good cfg w' /\
       (profilePool r <> [] -> profilePool r' = profilePool r /\ only_draws w w') /\
       ((0 <= speedScale cfg)%Q -> Forall (fun col => (0 <= Rain.speed col)%Q) (columns r'))).
Proof.
  intros G Hmode Hmax Hok HH. unfold resetColumns.
  eapply runsR_bind; [apply runsR_page |]. intros page r0 w0 (-> & -> & ->).
  destruct G as [U C]. rewrite C, Hmode. cbn [String.eqb Ascii.eqb Bool.eqb].
  set (N := MatrixRain.numCols cfg (inject_Z (clientWidth canvas))).
  assert (HN : 8 <= N <= maxColumns cfg).
  { unfold N, MatrixRain.numCols. apply clamp_range. lia. }
  eapply runsR_bind; [apply runsR_modify |]. intros _ r1 w1 (-> & ->).
  eapply runsR_bind; [apply runsR_modify |]. intros _ r2 w2 (-> & ->).
  set (Inv := fun (k : nat) (s : Rain.t) (w1 : World) =>
                columnCount s = N /\ length (columns s) = k /\
                Forall (column_at canvas N) (columns s) /\
                fileStrips s = fileStrips r /\ composing s = composing r /\
                rain_ok s /\ good cfg w1 /\
                ((1 <= k)%nat -> profilePool s <> []) /\
                (profilePool r <> [] -> profilePool s = profilePool r /\ only_draws w w1) /\
                ((0 <= speedScale cfg)%Q ->
                 Forall (fun col => (0 <= Rain.speed col)%Q) (columns s))).
  eapply runsR_bind.
  { apply (runsR_for (seq 0 (Z.to_nat N)) _ Inv 0%nat).
    - unfold Inv. split; [reflexivity |]. split; [reflexivity |].
      split; [constructor |]. split; [reflexivity |]. split; [reflexivity |].
      split; [exact Hok |]. split; [split; assumption |].
      split; [intros H; inversion H |].
      split; [intros _; split; [reflexivity | apply only_draws_refl] |].
      intros _. constructor.
    - intros i x s1 w1 Hx (Hc & Hl & Hf & Hfs & Hco & Hok1 & G1 & Hp1 & Hk1 & Hv1).
      apply lookup_seq in Hx. destruct Hx as [-> Hi]. cbn [Nat.add] in *.
      eapply runsR_bind.
      { apply (spawnColumn_runs cfg canvas (inject_Z (Z.of_nat i)) s1 w1 G1 Hok1 HH); lia. }
      intros col s2 w2 ((Hx & Hm & Hv2) & Hok2 & Hne2 & G2 & (Sa & Sb & Sc & Sd) & Hk2).
      assert (Hfresh : column_at canvas N col).
      { split; [| exact Hm]. exists (Z.of_nat i). split; [lia |]. rewrite Hx, Hc. reflexivity. }
      eapply runsR_weaken; [apply runsR_modify |].
      intros _ s3 w3 (-> & ->). unfold Inv.
      cbn [columnCount columns fileStrips composing set_columns profilePool].
      split; [congruence |].
      split; [rewrite length_app, Sa, Hl; cbn; lia |].
      split; [apply Forall_app; split;
                [rewrite Sa; exact Hf | constructor; [exact Hfresh | constructor]] |].
      split; [congruence |]. split; [congruence |].
      split; [exact Hok2 |]. split; [exact G2 |].
      split; [intros _; exact Hne2 |].
      split.
      { intros Hne. destruct (Hk1 Hne) as [Ep D1].
        assert (Hne1 : profilePool s1 <> []) by congruence.
        destruct (Hk2 Hne1) as [Ep2 D2]. split; [congruence |].
        eapply only_draws_trans; eassumption. }
      intros Hscale. apply Forall_app. split; [rewrite Sa; apply Hv1, Hscale |].
      constructor; [apply Hv2, Hscale | constructor]. }
  intros _ r3 w3 (Hc & Hl & Hf & Hfs & Hco & Hok3 & G3 & Hp3 & Hk3 & Hv3).
  rewrite length_seq in Hl, Hp3. cbn [Nat.add] in Hl, Hp3.
  eapply runsR_weaken; [apply runsR_modify |].
  intros _ r4 w4 (-> & ->).
  cbn [columnCount columns fileStrips composing set_fileStrips profilePool].
  split; [exact Hc |]. split; [exact Hl |]. split; [exact Hf |].
  split; [reflexivity |]. split; [exact Hco |]. split; [exact Hok3 |].
  split; [apply Hp3; lia |]. split; [exact G3 |]. split; [exact Hk3 | exact Hv3].
Qed.

End Composer.

End RainTotal.
(** * Properties of the rain in glyph mode *)

Module GlyphRainProps.
Import Rain RainFacts RainTotal RainSamples.

Local Open Scope Z_scope.

Section Composer.

Variable compose : Profile.t -> string -> (nat -> Q) -> option Bitmap * nat.

Lemma good_page (w : World) : unit_draws w -> good (CONFIG w) w.
Proof. intros U. split; [exact U | reflexivity]. Qed.

(** X13. In glyph mode, on a page whose draws are doubles in [0, 1), with
    [maxColumns] between 8 and 2^20, on a canvas whose width is not negative
    and whose height [h] is below 2^52, [resetColumns] returns normally for
    every rain whose pool holds profiles only (the rain just constructed,
    whose pool is empty, included). It leaves [numCols] columns and no
    strip, and sets [columnCount] to [numCols]. Every column starts within
    the width of the canvas ([0 <= x < clientWidth], and [x = 0] on a canvas
    that has no width) and at or above its top edge ([-h <= y <= 0]), has a
    stream of 10..40 glyphs, eighty glyph indices that all point into the
    glyph set, a buffer that is the text of its painter between two paddings
    of forty characters of the filler alphabet, and no highlight. *)
Theorem resetColumns_builds_columns (canvas : Canvas) (r : Rain.t) (w : World) :
  unit_draws w -> mode (CONFIG w) = "glyph"%string ->
  8 <= maxColumns (CONFIG w) <= 2 ^ 20 ->
  rain_ok r -> 0 <= clientWidth canvas -> 0 <= clientHeight canvas < 2 ^ 52 ->
  exists (r' : Rain.t) (w' : World),
    resetColumns compose canvas r w = (Normal tt, r', w') /\
    columnCount r' = MatrixRain.numCols (CONFIG w) (inject_Z (clientWidth canvas)) /\
    Z.of_nat (length (columns r')) = columnCount r' /\
    Forall (fresh_column canvas) (columns r') /\
    fileStrips r' = [] /\ rain_ok r' /\ profilePool r' <> [].
Proof.
  intros U Hmode Hmax Hok HW HH.
  destruct (resetColumns_glyph compose (CONFIG w) canvas r w (good_page w U) Hmode Hmax
              Hok HH)
    as ([] & r' & w' & E & Hc & Hl & Hf & Hs & _ & Hok' & Hne & _).
  assert (HN : 8 <= MatrixRain.numCols (CONFIG w) (inject_Z (clientWidth canvas))
               <= maxColumns (CONFIG w)).
  { unfold MatrixRain.numCols. apply clamp_range. lia. }
  exists r', w'. split; [exact E |]. split; [exact Hc |].
  split; [rewrite Hl, Hc; lia |].
  split; [| split; [exact Hs |]; split; assumption].
  eapply Forall_impl; [exact Hf |]. intros col. apply column_at_fresh; [exact HW | lia].
Qed.

(** After [resetColumns] on a canvas where the two formulas of the column
    count disagree, every [update] rebuilds the columns. *)
Lemma frames_rebuild (cfg : Config) (canvas : Canvas) (dts : list Q) :
  mode cfg = "glyph"%string -> 8 <= maxColumns cfg <= 2 ^ 20 ->
  0 <= clientHeight canvas < 2 ^ 52 ->
  MatrixRain.numCols cfg (inject_Z (clientWidth canvas))
  <> MatrixRain.desiredCols cfg (inject_Z (clientWidth canvas)) ->
  forall (r : Rain.t) (w : World),
    good cfg w -> rain_ok r ->
    columnCount r = MatrixRain.numCols cfg (inject_Z (clientWidth canvas)) ->
    length (columns r) = Z.to_nat (MatrixRain.numCols cfg (inject_Z (clientWidth canvas))) ->
    Forall (column_at canvas (MatrixRain.numCols cfg (inject_Z (clientWidth canvas))))
           (columns r) ->
    runsR (forR dts (update compose canvas)) r w
      (fun _ r' w' =>
         columnCount r' = MatrixRain.numCols cfg (inject_Z (clientWidth canvas)) /\
         length (columns r')
         = Z.to_nat (MatrixRain.numCols cfg (inject_Z (clientWidth canvas))) /\
         Forall (column_at canvas (MatrixRain.numCols cfg (inject_Z (clientWidth canvas))))
                (columns r') /\
         rain_ok r' /\ good cfg w').
Proof.
  intros Hmode Hmax HH Hdiff.
  induction dts as [| dt dts IH]; intros r w G Hok Hc Hl Hf; cbn [forR].
  - apply runsR_ret. split; [exact Hc |]. split; [exact Hl |]. split; [exact Hf |].
    split; assumption.
  - eapply runsR_bind.
    { unfold update.
      eapply runsR_bind; [apply runsR_page |]. intros page r0 w0 (-> & -> & ->).
      eapply runsR_bind; [apply runsR_this |]. intros this r0 w0 (-> & -> & ->).
      pose proof G as [_ C]. rewrite C, Hmode. cbn [String.eqb Ascii.eqb Bool.eqb].
      rewrite Hc.
      destruct (Z.eqb_spec (MatrixRain.desiredCols cfg (inject_Z (clientWidth canvas)))
                  (MatrixRain.numCols cfg (inject_Z (clientWidth canvas)))) as [E | _];
        [symmetry in E; contradiction |].
      cbn [negb].
      apply (resetColumns_glyph compose cfg canvas r w G Hmode Hmax Hok HH). }
    intros u r1 w1 (Hc1 & Hl1 & Hf1 & _ & _ & Hok1 & _ & G1 & _).
    apply IH; assumption.
Qed.

(** X14. The two formulas of the column count, [numCols] of
    [resetColumns] and [desiredCols] of [update], associate their product
    differently. On a canvas where they disagree the rain never falls: every
    [update] finds a count other than the one it wants and rebuilds the
    columns instead of advancing them, so that after [resetColumns] and any
    number of frames every column is as [resetColumns] makes it, at or above
    the top edge of the canvas. *)
Theorem rain_never_falls_when_counts_disagree
    (canvas : Canvas) (dts : list Q) (r : Rain.t) (w : World) :
  unit_draws w -> mode (CONFIG w) = "glyph"%string ->
  8 <= maxColumns (CONFIG w) <= 2 ^ 20 ->
  rain_ok r -> 1 <= clientWidth canvas -> 0 <= clientHeight canvas < 2 ^ 52 ->
  MatrixRain.numCols (CONFIG w) (inject_Z (clientWidth canvas))
  <> MatrixRain.desiredCols (CONFIG w) (inject_Z (clientWidth canvas)) ->
  exists (r' : Rain.t) (w' : World),
    bindR (resetColumns compose canvas) (fun _ => forR dts (update compose canvas)) r w
    = (Normal tt, r', w') /\
    Z.of_nat (length (columns r')) = columnCount r' /\
    columnCount r' <> MatrixRain.desiredCols (CONFIG w') (inject_Z (clientWidth canvas)) /\
    Forall (fresh_column canvas) (columns r') /\
    Forall (fun col => (Rain.y col <= 0)%Q /\ Rain.headHighlightTimer col = 0%Q)
           (columns r').
Proof.
  intros U Hmode Hmax Hok HW HH Hdiff.
  assert (R : runsR (bindR (resetColumns compose canvas)
                       (fun _ => forR dts (update compose canvas))) r w
                (fun _ r' w' =>
                   columnCount r'
                   = MatrixRain.numCols (CONFIG w) (inject_Z (clientWidth canvas)) /\
                   length (columns r')
                   = Z.to_nat (MatrixRain.numCols (CONFIG w) (inject_Z (clientWidth canvas))) /\
                   Forall (column_at canvas
                             (MatrixRain.numCols (CONFIG w) (inject_Z (clientWidth canvas))))
                          (columns r') /\
                   rain_ok r' /\ good (CONFIG w) w')).
  { eapply runsR_bind;
      [apply (resetColumns_glyph compose (CONFIG w) canvas r w (good_page w U) Hmode Hmax
                Hok HH) |].
    intros _ r1 w1 (Hc1 & Hl1 & Hf1 & _ & _ & Hok1 & _ & G1 & _).
    apply (frames_rebuild (CONFIG w) canvas dts Hmode Hmax HH Hdiff r1 w1 G1 Hok1 Hc1
             Hl1 Hf1). }
  destruct R as ([] & r' & w' & E & Hc & Hl & Hf & Hok' & [_ C]).
  assert (HN : 8 <= MatrixRain.numCols (CONFIG w) (inject_Z (clientWidth canvas))
               <= maxColumns (CONFIG w)).
  { unfold MatrixRain.numCols. apply clamp_range. lia. }
  exists r', w'. split; [exact E |].
  split; [rewrite Hl, Hc; lia |].
  split; [rewrite Hc, C; exact Hdiff |].
  split.
  { eapply Forall_impl; [exact Hf |]. intros col. apply column_at_fresh; lia. }
  eapply Forall_impl; [exact Hf |].
  intros col (_ & (yi & -> & Hy) & _ & _ & _ & _ & Ht).
  split; [| exact Ht]. change 0%Q with (inject_Z 0). rewrite <- Zle_Qle. lia.
Qed.

End Composer.

Lemma resetColumns_builds_columns_witness :
  unit_draws (glyph_page 1) /\ mode (CONFIG (glyph_page 1)) = "glyph"%string /\
  8 <= maxColumns (CONFIG (glyph_page 1)) <= 2 ^ 20 /\
  rain_ok Rain.initial /\ 0 <= clientWidth canvas0 /\ 0 <= clientHeight canvas0 < 2 ^ 52 /\
  exists (r' : Rain.t) (w' : World),
    resetColumns compose0 canvas0 Rain.initial (glyph_page 1) = (Normal tt, r', w') /\
    columnCount r' = 17 /\ Forall (fresh_column canvas0) (columns r').
Proof.
  assert (U : unit_draws (glyph_page 1)).
  { intros k. split; [vm_compute; reflexivity |].
    split; vm_compute; [discriminate | reflexivity]. }
  assert (Hmode : mode (CONFIG (glyph_page 1)) = "glyph"%string) by reflexivity.
  assert (Hmax : 8 <= maxColumns (CONFIG (glyph_page 1)) <= 2 ^ 20)
    by (vm_compute; split; discriminate).
  assert (Hok : rain_ok Rain.initial) by (split; [constructor | cbn; lia]).
  assert (HW : 0 <= clientWidth canvas0) by (vm_compute; discriminate).
  assert (HH : 0 <= clientHeight canvas0 < 2 ^ 52)
    by (vm_compute; split; [discriminate | reflexivity]).
  split; [exact U |]. split; [exact Hmode |]. split; [exact Hmax |].
  split; [exact Hok |]. split; [exact HW |]. split; [exact HH |].
  destruct (resetColumns_builds_columns compose0 canvas0 Rain.initial (glyph_page 1)
              U Hmode Hmax Hok HW HH) as (r' & w' & E & Hc & _ & Hf & _).
  exists r', w'. split; [exact E |]. split; [| exact Hf].
  rewrite Hc. vm_compute. reflexivity.
Defined.

Lemma rain_never_falls_when_counts_disagree_witness :
  let w := glyph_page (F64.div 16 10) in
  unit_draws w /\ mode (CONFIG w) = "glyph"%string /\
  8 <= maxColumns (CONFIG w) <= 2 ^ 20 /\
  rain_ok Rain.initial /\ 1 <= clientWidth canvas0 /\ 0 <= clientHeight canvas0 < 2 ^ 52 /\
  MatrixRain.numCols (CONFIG w) (inject_Z (clientWidth canvas0))
  <> MatrixRain.desiredCols (CONFIG w) (inject_Z (clientWidth canvas0)) /\
  exists (r' : Rain.t) (w' : World),
    bindR (resetColumns compose0 canvas0)
          (fun _ => forR [16 # 1000; 16 # 1000; 16 # 1000]%Q (update compose0 canvas0))
          Rain.initial w
    = (Normal tt, r', w') /\
    Forall (fun col => (Rain.y col <= 0)%Q /\ Rain.headHighlightTimer col = 0%Q)
           (columns r').
Proof.
  intros w.
  assert (U : unit_draws w).
  { intros k. split; [vm_compute; reflexivity |].
    split; vm_compute; [discriminate | reflexivity]. }
  assert (Hmode : mode (CONFIG w) = "glyph"%string) by reflexivity.
  assert (Hmax : 8 <= maxColumns (CONFIG w) <= 2 ^ 20)
    by (vm_compute; split; discriminate).
  assert (Hok : rain_ok Rain.initial) by (split; [constructor | cbn; lia]).
  assert (HW : 1 <= clientWidth canvas0) by (vm_compute; discriminate).
  assert (HH : 0 <= clientHeight canvas0 < 2 ^ 52)
    by (vm_compute; split; [discriminate | reflexivity]).
  assert (Hdiff : MatrixRain.numCols (CONFIG w) (inject_Z (clientWidth canvas0))
                  <> MatrixRain.desiredCols (CONFIG w) (inject_Z (clientWidth canvas0)))
    by (vm_compute; discriminate).
  split; [exact U |]. split; [exact Hmode |]. split; [exact Hmax |].
  split; [exact Hok |]. split; [exact HW |]. split; [exact HH |]. split; [exact Hdiff |].
  destruct (rain_never_falls_when_counts_disagree compose0 canvas0
              [16 # 1000; 16 # 1000; 16 # 1000]%Q Rain.initial w
              U Hmode Hmax Hok HW HH Hdiff) as (r' & w' & E & _ & _ & _ & Hy).
  exists r', w'. split; [exact E | exact Hy].
Defined.

(** ** The frames of a rain whose column counts agree *)










Section Steady.

Variable compose : Profile.t -> string -> (nat -> Q) -> option Bitmap * nat.




End Steady.


(** ** What [draw] reads of the glyph sheet *)

Lemma indexOf_go_range (c : ascii) (l : list ascii) :
  forall k, 0 <= k ->
  indexOf_go c l k = -1 \/ k <= indexOf_go c l k < k + Z.of_nat (length l).
Proof.
  induction l as [| x l IH]; intros k Hk; cbn [indexOf_go length].
  - left. reflexivity.
  - destruct (Ascii.eqb x c).
    + right. lia.
    + destruct (IH (k + 1) ltac:(lia)) as [E | R]; [left; exact E | right; lia].
Qed.

Lemma at_index_defined {A : Type} (l : list (option A)) (P : A -> Prop) (k : Z) :
  0 <= k < Z.of_nat (length l) ->
  Forall (fun o => exists a, o = Some a /\ P a) l ->
  exists a, match at_index l k with Some o => o | None => None end = Some a /\ P a.
Proof.
  intros Hk F. unfold at_index. destruct (Z.ltb_spec k 0) as [N | _]; [lia |].
  destruct (lookup_lt_is_Some_2 l (Z.to_nat k)) as [o Eo]; [lia |].
  rewrite Eo. rewrite Forall_forall in F. apply F. eapply list_elem_of_lookup_2, Eo.
Qed.

(** X21. [draw] never reads outside its arrays nor outside the glyph
    sheet: for a well-formed column on a canvas at most 150000 pixels high
    and for every glyph [i] of its stream, the buffer index [b] is within
    the text buffer, the character read there is defined, the index [g] of
    the glyph is a number that points into the glyph set, and the cell that
    [drawImage] copies, sixteen pixels wide and high with its corner at
    [(sx, sy)], lies within the sheet that [buildGlyphSheet] made,
    [sheet_cols * 16] wide and [Math.ceil(characters.length / 32) * 16]
    high. *)
Theorem draw_reads_inside_sheet (canvas : Canvas) (col : Rain.Column) (i : Z) :
  steady_column canvas col -> clientHeight canvas <= 150000 ->
  0 <= i < Rain.streamLength col ->
  exists (b : Z) (c : ascii) (g sx sy : Z),
    draw_bufferIndex col i = Some b /\
    0 <= b < Z.of_nat (length (Rain.textBuffer col)) /\
    draw_char col i = Some c /\
    draw_glyphIndex col i = Some g /\
    0 <= g < Z.of_nat (length characters) /\
    source_cell col i = Some (sx, sy) /\
    0 <= sx /\ sx + cell <= sheet_width /\ 0 <= sy /\ sy + cell <= sheet_height.
Proof.
  intros (A & B & C & D & Bm & T & Y & V) HH Hi.
  pose proof (buffer_made_length col Bm) as F.
  pose proof (buffer_made_defined col Bm) as G.
  unfold source_cell, draw_glyphIndex, draw_char, draw_bufferIndex.
  set (len := Z.of_nat (length (Rain.textBuffer col))).
  assert (Hlen : 80 <= len) by (unfold len; rewrite F; lia).
  destruct (Z.eqb_spec len 0) as [E0 | _]; [lia |].
  set (sum := F64.add _ 10000).
  assert (Hsum : 585 <= F64.floor sum).
  { assert (Y' : (-150000 <= Rain.y col)%Q).
    { apply Qle_trans with (- inject_Z (clientHeight canvas))%Q; [| exact Y].
      rewrite <- inject_Z_opp. change (-150000)%Q with (inject_Z (-150000)).
      rewrite <- Zle_Qle. lia. }
    assert (D1 : (-9375 <= F64.div (Rain.y col) MatrixRain.glyphSize)%Q).
    { unfold F64.div, MatrixRain.glyphSize.
      apply Qle_trans with (F64.round (inject_Z (-9375))).
      - rewrite F64More.round_Z by (vm_compute; reflexivity). apply Qle_refl.
      - apply F64Facts.round_mono. change (inject_Z (-9375)) with (-9375)%Q.
        apply Qle_shift_div_l; [reflexivity | lra]. }
    assert (D2 : -9375 <= F64.floor (F64.div (Rain.y col) MatrixRain.glyphSize)).
    { change (-9375) with (Qfloor (inject_Z (-9375))). apply Qfloor_resp_le. exact D1. }
    set (fl := F64.floor (F64.div (Rain.y col) MatrixRain.glyphSize)) in *.
    assert (D3 : (-9415 <= F64.sub (inject_Z fl) (inject_Z i))%Q).
    { unfold F64.sub. apply Qle_trans with (F64.round (inject_Z (-9415))).
      - rewrite F64More.round_Z by (vm_compute; reflexivity). apply Qle_refl.
      - apply F64Facts.round_mono. rewrite <- F64More.inject_Z_sub, <- Zle_Qle. lia. }
    assert (D4 : (585 <= sum)%Q).
    { unfold sum, F64.add. apply Qle_trans with (F64.round (inject_Z 585)).
      - rewrite F64More.round_Z by (vm_compute; reflexivity). apply Qle_refl.
      - apply F64Facts.round_mono. change (inject_Z 585) with 585%Q. lra. }
    change 585 with (Qfloor (inject_Z 585)). apply Qfloor_resp_le. exact D4. }
  set (bufferIndex := Z.rem (F64.floor sum) len).
  assert (Hb : 0 <= bufferIndex < len).
  { unfold bufferIndex. rewrite Z.rem_mod_nonneg by lia. apply Z.mod_pos_bound. lia. }
  assert (Hg : forall g, 0 <= g < Z.of_nat (length characters) ->
             exists sx sy : Z,
               Some ((Z.rem g sheet_cols * cell)%Z,
                     (F64.floor (F64.div (inject_Z g) (inject_Z sheet_cols)) * cell)%Z)
               = Some (sx, sy) /\
               0 <= sx /\ sx + cell <= sheet_width /\ 0 <= sy /\ sy + cell <= sheet_height).
  { intros g Hgr. eexists; eexists. split; [reflexivity |].
    assert (Hc : Z.of_nat (length characters) = 134) by reflexivity. rewrite Hc in Hgr.
    assert (R1 : 0 <= Z.rem g sheet_cols < 32).
    { rewrite Z.rem_mod_nonneg by (unfold sheet_cols; lia).
      apply Z.mod_pos_bound. reflexivity. }
    assert (R2 : 0 <= F64.floor (F64.div (inject_Z g) (inject_Z sheet_cols)) <= 4).
    { unfold F64.floor, F64.div. split.
      - change 0 with (Qfloor 0). apply Qfloor_resp_le. apply F64Facts.round_nonneg.
        apply Qle_shift_div_l; [reflexivity |]. rewrite Qmult_0_l.
        change 0%Q with (inject_Z 0). rewrite <- Zle_Qle. lia.
      - assert (E4 : Qfloor (F64.round (inject_Z 133 / inject_Z sheet_cols)) = 4)
          by (vm_compute; reflexivity).
        rewrite <- E4. apply Qfloor_resp_le, F64Facts.round_mono.
        apply Qmult_le_compat_r; [rewrite <- Zle_Qle; lia | discriminate]. }
    assert (Hh : sheet_height = 80) by (vm_compute; reflexivity).
    rewrite Hh. unfold sheet_width, sheet_cols, cell in *. lia. }
  destruct (at_index_defined (Rain.textBuffer col) (fun _ => True) bufferIndex Hb)
    as (c & Ec & _).
  { eapply Forall_impl; [exact G |]. intros o [a ->]. exists a. split; [reflexivity | exact I]. }
  rewrite Ec. cbn [characters_indexOf].
  assert (Fin : forall g, 0 <= g < Z.of_nat (length characters) ->
            forall og, og = Some g ->
            exists (b : Z) (c0 : ascii) (g0 sx sy : Z),
              Some bufferIndex = Some b /\ 0 <= b < len /\ Some c = Some c0 /\
              og = Some g0 /\ 0 <= g0 < Z.of_nat (length characters) /\
              match og with
              | Some g1 =>
                  Some ((Z.rem g1 sheet_cols * cell)%Z,
                        (F64.floor (F64.div (inject_Z g1) (inject_Z sheet_cols)) * cell)%Z)
              | None => None
              end = Some (sx, sy) /\
              0 <= sx /\ sx + cell <= sheet_width /\ 0 <= sy /\ sy + cell <= sheet_height).
  { intros g Hgr og ->. destruct (Hg g Hgr) as (sx & sy & Es & Bs).
    exists bufferIndex, c, g, sx, sy.
    split; [reflexivity |]. split; [exact Hb |]. split; [reflexivity |].
    split; [reflexivity |]. split; [exact Hgr |]. split; [exact Es | exact Bs]. }
  destruct (indexOf_go_range c characters 0 ltac:(lia)) as [E1 | R1].
  - rewrite E1. cbn [Z.eqb]. rewrite C.
    destruct (Z.eqb_spec (Z.of_nat 80) 0) as [E80 | _]; [discriminate E80 |].
    destruct (at_index_defined (Rain.glyphIndices col)
                (fun k => 0 <= k < Z.of_nat (length characters))
                (Z.rem (i + bufferIndex) (Z.of_nat 80))) as (g & Eg & Hgr).
    { rewrite C. rewrite Z.rem_mod_nonneg by lia. apply Z.mod_pos_bound. lia. }
    { exact D. }
    apply (Fin g Hgr). exact Eg.
  - destruct (Z.eqb_spec (indexOf_go c characters 0) (-1)) as [E1 | _]; [lia |].
    apply (Fin (indexOf_go c characters 0)); [lia | reflexivity].
Qed.

Lemma draw_reads_inside_sheet_witness :
  let col :=
    mkColumn (Some 0) (-40) 100 12 (repeat (Some 7) 80) 0
             (StringPainter.mk Samples.sampleB "kv" "a|b" ∅)
             (repeat (Some "0"%char) 40 ++ [Some "a"%char; Some "|"%char; Some "b"%char]
              ++ repeat (Some "0"%char) 40) 0 in
  steady_column canvas0 col /\ clientHeight canvas0 <= 150000 /\
  0 <= 3 < Rain.streamLength col /\
  exists (b : Z) (c : ascii) (g sx sy : Z),
    draw_bufferIndex col 3 = Some b /\
    0 <= b < Z.of_nat (length (Rain.textBuffer col)) /\
    draw_char col 3 = Some c /\
    draw_glyphIndex col 3 = Some g /\
    0 <= g < Z.of_nat (length characters) /\
    source_cell col 3 = Some (sx, sy) /\
    0 <= sx /\ sx + cell <= sheet_width /\ 0 <= sy /\ sy + cell <= sheet_height.
Proof.
  intros col.
  assert (S : steady_column canvas0 col).
  { split; [eexists; reflexivity |]. split; [cbn; lia |]. split; [reflexivity |].
    split.
    { cbn [Rain.glyphIndices col]. apply Forall_forall. intros g Hg.
      apply list_elem_of_In, repeat_spec in Hg. exists 7. split; [exact Hg |].
      vm_compute. split; [discriminate | reflexivity]. }
    split.
    { exists (repeat (Some "0"%char) 40), (repeat (Some "0"%char) 40).
      split; [reflexivity |]. split; [reflexivity |]. split; [reflexivity |].
      apply Forall_forall. intros o Ho. apply list_elem_of_In, in_app_or in Ho.
      assert (E : o = Some "0"%char) by (destruct Ho as [Ho | Ho]; apply repeat_spec in Ho; exact Ho).
      exists "0"%char. split; [exact E |]. vm_compute. tauto. }
    split; [cbn; apply Qle_refl |]. split; cbn; discriminate. }
  assert (HH : clientHeight canvas0 <= 150000) by (vm_compute; discriminate).
  assert (Hi : 0 <= 3 < Rain.streamLength col) by (cbn; lia).
  split; [exact S |]. split; [exact HH |]. split; [exact Hi |].
  exact (draw_reads_inside_sheet canvas0 col 3 S HH Hi).
Defined.

End GlyphRainProps.
(** * Properties of the rain in file mode *)

Module FileRainProps.
Import Rain RainFacts RainTotal RainSamples.

Local Open Scope Z_scope.

Lemma keeps_ret {X A : Type} (f : Rain.t -> X) (a : A) : keeps f (retR a).
Proof. intros r w. reflexivity. Qed.

Lemma keeps_throw {X A : Type} (f : Rain.t -> X) (e : string) : keeps f (@throwR Rain.t A e).
Proof. intros r w. reflexivity. Qed.

Lemma keeps_bind {X A B : Type} (f : Rain.t -> X) (c : R Rain.t A) (k : A -> R Rain.t B) :
  keeps f c -> (forall a, keeps f (k a)) -> keeps f (bindR c k).
Proof.
  intros Hc Hk r w. unfold bindR. specialize (Hc r w).
  destruct (c r w) as [[[a | e] r1] w1]; cbn [fst snd] in *.
  - rewrite (Hk a r1 w1). exact Hc.
  - exact Hc.
Qed.

Lemma keeps_lift {X A : Type} (f : Rain.t -> X) (c : M A) : keeps f (lift c).
Proof. intros r w. unfold lift. destruct (c w) as [o w1]. reflexivity. Qed.

Lemma keeps_this {X : Type} (f : Rain.t -> X) : keeps f this_.
Proof. intros r w. reflexivity. Qed.

Lemma keeps_page {X : Type} (f : Rain.t -> X) : keeps f page_.
Proof. intros r w. reflexivity. Qed.

Lemma keeps_modify {X : Type} (f : Rain.t -> X) (g : Rain.t -> Rain.t) :
  (forall r, f (g r) = f r) -> keeps f (modifyR g).
Proof. intros H r w. apply H. Qed.

Lemma keeps_async {X : Type} (f : Rain.t -> X) (c : R Rain.t unit) :
  keeps f c -> keeps f (async c).
Proof.
  intros Hc r w. unfold async. specialize (Hc r w).
  destruct (c r w) as [[[a | e] r1] w1]; exact Hc.
Qed.

Lemma keeps_for {X A : Type} (f : Rain.t -> X) (l : list A) (body : A -> R Rain.t unit) :
  (forall x, keeps f (body x)) -> keeps f (forR l body).
Proof.
  intros H. induction l as [| x l IH]; cbn [forR]; [apply keeps_ret |].
  apply keeps_bind; [apply H | intros _; exact IH].
Qed.

Lemma keeps_if {X A : Type} (f : Rain.t -> X) (b : bool) (c1 c2 : R Rain.t A) :
  keeps f c1 -> keeps f c2 -> keeps f (if b then c1 else c2).
Proof. destruct b; auto. Qed.

Lemma returns_ret {St : Type} : returns (@retR St unit tt).
Proof. intros s w. eexists; eexists; reflexivity. Qed.

Lemma returns_modify {St : Type} (g : St -> St) : returns (modifyR g).
Proof. intros s w. eexists; eexists; reflexivity. Qed.

Lemma returns_async {St : Type} (c : R St unit) : returns (async c).
Proof.
  intros s w. unfold async. destruct (c s w) as [[[a | e] s1] w1]; eexists; eexists; reflexivity.
Qed.

Lemma returns_bind {St : Type} (c : R St unit) (k : unit -> R St unit) :
  returns c -> (forall u, returns (k u)) -> returns (bindR c k).
Proof.
  intros Hc Hk s w. unfold bindR. destruct (Hc s w) as (s1 & w1 & E). rewrite E.
  apply Hk.
Qed.

Lemma returns_for {St A : Type} (l : list A) (body : A -> R St unit) :
  (forall x, returns (body x)) -> returns (forR l body).
Proof.
  intros H. induction l as [| x l IH]; cbn [forR]; [apply returns_ret |].
  apply returns_bind; [apply H | intros _; exact IH].
Qed.

(** [takeNextProfile] touches the pool and its counter only. *)
Lemma keeps_takeNextProfile {X : Type} (f : Rain.t -> X) :
  (forall v r, f (set_profilePool v r) = f r) ->
  (forall v r, f (set_profileIndex v r) = f r) ->
  keeps f takeNextProfile.
Proof.
  intros H1 H2. unfold takeNextProfile.
  apply keeps_bind; [apply keeps_this |]. intros this.
  apply keeps_bind.
  { apply keeps_if; [| apply keeps_ret].
    apply keeps_bind; [apply keeps_lift |]. intros pool.
    apply keeps_modify. intros r. rewrite H2. apply H1. }
  intros _. apply keeps_bind; [apply keeps_this |]. intros this'.
  apply keeps_bind; [apply keeps_modify; intros r; apply H2 |]. intros _.
  apply keeps_ret.
Qed.

(** The step of [FileStrip.update]: it always returns. *)
Lemma FileStrip_update_returns (dt : Q) (H : Z) (s : FileStrip.t) (w : World) :
  exists s' w', FileStrip.update dt H s w = (Normal s', w').
Proof.
  unfold FileStrip.update, bind.
  destruct (Qle_bool _ 0); cbn; eexists; eexists; reflexivity.
Qed.

Lemma update_strip_run (dt : Q) (h : Z) (i : nat) (r : Rain.t) (w : World) :
  exists r' w',
    update_strip dt h i r w = (Normal tt, r', w') /\
    length (fileStrips r') = length (fileStrips r) /\
    columns r' = columns r /\ composing r' = composing r /\
    profilePool r' = profilePool r /\ profileIndex r' = profileIndex r /\
    columnCount r' = columnCount r /\ only_draws w w'.
Proof.
  unfold update_strip, bindR, this_.
  destruct (fileStrips r !! i) as [s |] eqn:E.
  - destruct (FileStrip_update_returns dt h s w) as (s' & w' & Es).
    pose proof (tame_FileStrip_update dt h s w) as D. rewrite Es in D. cbn [snd] in D.
    unfold lift. rewrite Es. cbn [modifyR].
    eexists; eexists. split; [reflexivity |].
    cbn [fileStrips set_fileStrips columns composing profilePool profileIndex columnCount].
    rewrite length_insert. do 6 (split; [reflexivity |]). exact D.
  - eexists; eexists. split; [reflexivity |]. do 6 (split; [reflexivity |]).
    apply only_draws_refl.
Qed.

Lemma update_strips_run (dt : Q) (h : Z) (l : list nat) :
  forall (r : Rain.t) (w : World),
  exists r' w',
    forR l (update_strip dt h) r w = (Normal tt, r', w') /\
    length (fileStrips r') = length (fileStrips r) /\
    columns r' = columns r /\ composing r' = composing r /\
    profilePool r' = profilePool r /\ profileIndex r' = profileIndex r /\
    columnCount r' = columnCount r /\ only_draws w w'.
Proof.
  induction l as [| i l IH]; intros r w; cbn [forR].
  - eexists; eexists. split; [reflexivity |]. do 6 (split; [reflexivity |]).
    apply only_draws_refl.
  - destruct (update_strip_run dt h i r w)
      as (r1 & w1 & E1 & L1 & C1 & P1 & Q1 & I1 & N1 & D1).
    destruct (IH r1 w1) as (r2 & w2 & E2 & L2 & C2 & P2 & Q2 & I2 & N2 & D2).
    exists r2, w2. unfold bindR. rewrite E1.
    split; [exact E2 |]. do 6 (split; [congruence |]).
    eapply only_draws_trans; [apply D1 | apply D2].
Qed.

Section Composer.

Variable compose : Profile.t -> string -> (nat -> Q) -> option Bitmap * nat.

Lemma keeps_composeFileBitmap {X : Type} (f : Rain.t -> X) (profile : option Profile.t) :
  keeps f (composeFileBitmap compose profile).
Proof.
  unfold composeFileBitmap. destruct profile as [p |]; [| apply keeps_throw].
  intros r w. destruct (compose p _ _) as [b used]. reflexivity.
Qed.

Lemma keeps_spawnFileStrip {X : Type} (f : Rain.t -> X) :
  (forall v r, f (set_profilePool v r) = f r) ->
  (forall v r, f (set_profileIndex v r) = f r) ->
  (forall v r, f (set_composing v r) = f r) ->
  keeps f (spawnFileStrip compose).
Proof.
  intros H1 H2 H3. unfold spawnFileStrip. apply keeps_async.
  apply keeps_bind; [apply keeps_takeNextProfile; assumption |]. intros profile.
  apply keeps_bind; [apply keeps_composeFileBitmap |]. intros bitmap.
  apply keeps_modify. intros r. apply H3.
Qed.

Lemma target_range (cfg : Config) : 10 <= target cfg <= 100.
Proof. unfold target. apply clamp_range. lia. Qed.

(** X15. In file mode [update] always returns normally, and it leaves at
    most [target] strips, the target being
    [clamp(Math.floor(40 * densityScale), 10, 100)]: the strips beyond the
    target are dropped, and no strip is added before its bitmap is there.
    The glyph columns are left as they are. *)
Theorem file_update_bounds_strips (canvas : Canvas) (dt : Q) (r : Rain.t) (w : World) :
  mode (CONFIG w) <> "glyph"%string ->
  exists (r' : Rain.t) (w' : World),
    update compose canvas dt r w = (Normal tt, r', w') /\
    10 <= target (CONFIG w) <= 100 /\
    Z.of_nat (length (fileStrips r'))
    = Z.min (Z.of_nat (length (fileStrips r))) (target (CONFIG w)) /\
    columns r' = columns r /\ columnCount r' = columnCount r.
Proof.
  intros Hmode. unfold update, bindR at 1, page_, bindR at 1, this_.
  destruct (String.eqb_spec (mode (CONFIG w)) "glyph") as [E | _]; [contradiction |].
  pose proof (target_range (CONFIG w)) as HT.
  set (T := target (CONFIG w)) in *. set (n := Z.of_nat (length (fileStrips r))).
  set (first := if n <? T
                then forR (seq 0 (Z.to_nat (T - n))) (fun _ => spawnFileStrip compose)
                else if n >? T
                     then modifyR (fun r0 => set_fileStrips (take (Z.to_nat T) (fileStrips r0)) r0)
                     else retR tt).
  assert (F : exists r1 w1,
             first r w = (Normal tt, r1, w1) /\
             Z.of_nat (length (fileStrips r1)) = Z.min n T /\
             columns r1 = columns r /\ columnCount r1 = columnCount r).
  { unfold first. destruct (Z.ltb_spec n T) as [L | L].
    - destruct (returns_for (seq 0 (Z.to_nat (T - n))) (fun _ => spawnFileStrip compose)
                  (fun _ => returns_async _) r w) as (r1 & w1 & E1).
      exists r1, w1. split; [exact E1 |].
      pose proof (keeps_for fileStrips (seq 0 (Z.to_nat (T - n)))
                    (fun _ => spawnFileStrip compose)
                    (fun _ => keeps_spawnFileStrip fileStrips
                                (fun _ _ => eq_refl) (fun _ _ => eq_refl) (fun _ _ => eq_refl))
                    r w) as K1.
      pose proof (keeps_for columns (seq 0 (Z.to_nat (T - n)))
                    (fun _ => spawnFileStrip compose)
                    (fun _ => keeps_spawnFileStrip columns
                                (fun _ _ => eq_refl) (fun _ _ => eq_refl) (fun _ _ => eq_refl))
                    r w) as K2.
      pose proof (keeps_for columnCount (seq 0 (Z.to_nat (T - n)))
                    (fun _ => spawnFileStrip compose)
                    (fun _ => keeps_spawnFileStrip columnCount
                                (fun _ _ => eq_refl) (fun _ _ => eq_refl) (fun _ _ => eq_refl))
                    r w) as K3.
      rewrite E1 in K1, K2, K3. cbn [fst snd] in K1, K2, K3.
      rewrite K1. fold n. split; [lia |]. split; assumption.
    - destruct (Z.gtb_spec n T) as [G | G].
      + eexists; eexists. split; [reflexivity |].
        cbn [fileStrips set_fileStrips columns columnCount].
        rewrite length_take. fold n. split; [unfold n in *; lia |]. split; reflexivity.
      + eexists; eexists. split; [reflexivity |]. fold n. split; [lia |]. split; reflexivity. }
  destruct F as (r1 & w1 & E1 & L1 & C1 & N1).
  fold first. unfold bindR at 1. rewrite E1. unfold bindR at 1.
  destruct (update_strips_run dt (clientHeight canvas) (seq 0 (length (fileStrips r1))) r1 w1)
    as (r2 & w2 & E2 & L2 & C2 & _ & _ & _ & N2 & _).
  exists r2, w2. split; [exact E2 |]. split; [exact HT |].
  split; [rewrite L2; exact L1 |]. split; congruence.
Qed.

(** One composition starts: on a good page, with a composer that does not
    fail, it is in flight afterwards. *)
Lemma spawnFileStrip_total (cfg : Config) (r : Rain.t) (w : World) :
  composes compose -> good cfg w -> rain_ok r ->
  runsR (spawnFileStrip compose) r w
    (fun _ r' w' =>
       length (composing r') = S (length (composing r)) /\
       fileStrips r' = fileStrips r /\ rain_ok r' /\ good cfg w').
Proof.
  intros HC G Hok.
  assert (H : runsR (bindR takeNextProfile (fun profile =>
                       bindR (composeFileBitmap compose profile) (fun bitmap =>
                         modifyR (fun r0 => set_composing (composing r0 ++ [bitmap]) r0))))
                r w
                (fun _ r' w' =>
                   length (composing r') = S (length (composing r)) /\
                   fileStrips r' = fileStrips r /\ rain_ok r' /\ good cfg w')).
  { eapply runsR_bind; [apply (takeNextProfile_total cfg); assumption |].
    intros p r1 w1 ([p0 ->] & Hok1 & _ & G1 & (_ & Hf & _ & Hc) & _).
    eapply runsR_bind.
    - instantiate (1 := fun _ r2 w2 => r2 = r1 /\ good cfg w2).
      unfold composeFileBitmap, runsR.
      pose proof (HC p0 (stringStyle (CONFIG w1))
                    (fun k => draws w1 (cursor w1 + k)%nat)) as [b Hb].
      destruct (compose p0 _ _) as [ob used]. cbn [fst] in Hb. subst ob.
      eexists; eexists; eexists. split; [reflexivity |]. split; [reflexivity |].
      eapply good_only_draws; [| exact G1]. apply only_draws_set_cursor. lia.
    - intros b r2 w2 [-> G2]. eapply runsR_weaken; [apply runsR_modify |].
      intros _ r3 w3 [-> ->]. cbn [composing set_composing fileStrips].
      rewrite length_app. cbn [length]. rewrite Hc.
      split; [lia |]. split; [exact Hf |]. split; [| exact G2].
      destruct Hok1 as [H1 H2]. split; assumption. }
  destruct H as (u & r' & w' & E & HP). exists tt, r', w'.
  split; [| exact HP]. unfold spawnFileStrip, async. rewrite E. destruct u. reflexivity.
Qed.

Lemma spawnFileStrips_total (cfg : Config) (k : nat) :
  composes compose ->
  forall (r : Rain.t) (w : World),
  good cfg w -> rain_ok r ->
  runsR (forR (seq 0 k) (fun _ => spawnFileStrip compose)) r w
    (fun _ r' w' =>
       length (composing r') = (length (composing r) + k)%nat /\
       fileStrips r' = fileStrips r /\ rain_ok r' /\ good cfg w').
Proof.
  intros HC r w G Hok.
  pose proof (runsR_for (seq 0 k) (fun _ => spawnFileStrip compose)
                (fun i r' w' =>
                   length (composing r') = (length (composing r) + i)%nat /\
                   fileStrips r' = fileStrips r /\ rain_ok r' /\ good cfg w')
                0%nat r w) as H.
  rewrite length_seq in H. cbn [Nat.add] in H. apply H.
  - split; [lia |]. split; [reflexivity |]. split; assumption.
  - intros i x r1 w1 _ (Hl & Hf & Hok1 & G1).
    eapply runsR_weaken; [apply (spawnFileStrip_total cfg); assumption |].
    intros _ r2 w2 (Hl2 & Hf2 & Hok2 & G2).
    split; [lia |]. split; [congruence |]. split; assumption.
Qed.

(** A frame in file mode with no more strips than the target. *)
Lemma file_update_total (cfg : Config) (canvas : Canvas) (dt : Q) (r : Rain.t) (w : World) :
  composes compose -> good cfg w -> mode cfg <> "glyph"%string -> rain_ok r ->
  Z.of_nat (length (fileStrips r)) <= target cfg ->
  runsR (update compose canvas dt) r w
    (fun _ r' w' =>
       length (fileStrips r') = length (fileStrips r) /\
       Z.of_nat (length (composing r'))
       = Z.of_nat (length (composing r)) + (target cfg - Z.of_nat (length (fileStrips r))) /\
       rain_ok r' /\ good cfg w').
Proof.
  intros HC G Hmode Hok Hn. pose proof G as [_ HCfg]. unfold update.
  eapply runsR_bind; [apply runsR_page |]. intros page r0 w0 (-> & -> & ->).
  eapply runsR_bind; [apply runsR_this |]. intros this r0 w0 (-> & -> & ->).
  rewrite HCfg.
  destruct (String.eqb_spec (mode cfg) "glyph") as [E | _]; [contradiction |].
  set (n := Z.of_nat (length (fileStrips r))) in *.
  eapply runsR_bind.
  - instantiate (1 := fun _ r1 w1 =>
       fileStrips r1 = fileStrips r /\
       Z.of_nat (length (composing r1)) = Z.of_nat (length (composing r)) + (target cfg - n) /\
       rain_ok r1 /\ good cfg w1).
    destruct (Z.ltb_spec n (target cfg)) as [L | L].
    + eapply runsR_weaken; [apply (spawnFileStrips_total cfg); assumption |].
      intros _ r1 w1 (Hl & Hf & Hok1 & G1).
      split; [exact Hf |]. split; [lia |]. split; assumption.
    + destruct (Z.gtb_spec n (target cfg)) as [L' | _]; [lia |].
      apply runsR_ret. split; [reflexivity |]. split; [lia |]. split; assumption.
  - intros _ r1 w1 (Hf & Hl & Hok1 & G1).
    eapply runsR_bind; [apply runsR_this |]. intros this r0 w0 (-> & -> & ->).
    destruct (update_strips_run dt (clientHeight canvas) (seq 0 (length (fileStrips r1))) r1 w1)
      as (r2 & w2 & E2 & L2 & _ & C2 & P2 & I2 & _ & D2).
    exists tt, r2, w2. split; [exact E2 |].
    split; [rewrite L2, Hf; reflexivity |]. split; [rewrite C2; exact Hl |].
    split; [| eapply good_only_draws; eassumption].
    destruct Hok1 as [H1 H2]. split; [rewrite P2 | rewrite I2]; assumption.
Qed.

End Composer.

Lemma file_update_bounds_strips_witness :
  let w := file_page 1 in
  mode (CONFIG w) <> "glyph"%string /\
  exists (r' : Rain.t) (w' : World),
    update compose0 canvas0 (16 # 1000) Rain.initial w = (Normal tt, r', w') /\
    target (CONFIG w) = 40 /\ length (fileStrips r') = 0%nat.
Proof.
  intros w.
  assert (Hmode : mode (CONFIG w) <> "glyph"%string) by discriminate.
  split; [exact Hmode |].
  destruct (file_update_bounds_strips compose0 canvas0 (16 # 1000) Rain.initial w Hmode)
    as (r' & w' & E & _ & Hl & _).
  exists r', w'. split; [exact E |]. split; [vm_compute; reflexivity |].
  change (Z.of_nat (length (fileStrips Rain.initial))) with 0 in Hl.
  assert (Ht : target (CONFIG w) = 40) by (vm_compute; reflexivity).
  rewrite Ht in Hl. cbn in Hl. lia.
Defined.

(** The oldest composition in flight settles. *)
Lemma strip_settles_run (canvas : Canvas) (b : Bitmap) (rest : list Bitmap)
    (r : Rain.t) (w : World) :
  composing r = b :: rest ->
  exists r' w',
    strip_settles canvas 0 r w = (Normal tt, r', w') /\
    composing r' = rest /\
    length (fileStrips r') = S (length (fileStrips r)) /\
    profilePool r' = profilePool r /\ profileIndex r' = profileIndex r /\
    only_draws w w'.
Proof.
  intros Hc. unfold strip_settles, bindR at 1, this_. rewrite Hc. cbn [lookup list_lookup].
  unfold bindR at 1, modifyR at 1. unfold bindR at 1, lift.
  pose proof (tame_spawnFileStripFrom_resume canvas b w) as D.
  assert (E : exists s w', spawnFileStripFrom_resume canvas b w = (Normal s, w')).
  { unfold spawnFileStripFrom_resume, bind, rand, Math_random, get_world, ret.
    eexists; eexists; reflexivity. }
  destruct E as (s & w' & E). rewrite E in D |- *. cbn [snd] in D.
  eexists; eexists. split; [reflexivity |].
  cbn [composing set_composing set_fileStrips fileStrips profilePool profileIndex].
  rewrite Hc. split; [reflexivity |].
  rewrite length_app. cbn [length]. split; [lia |].
  split; [reflexivity |]. split; [reflexivity | exact D].
Qed.

Lemma strips_settle_loop (canvas : Canvas) (l : list nat) :
  forall (r : Rain.t) (w : World),
  length (composing r) = length l ->
  exists r' w',
    forR l (fun _ => strip_settles canvas 0) r w = (Normal tt, r', w') /\
    composing r' = [] /\
    length (fileStrips r') = (length (fileStrips r) + length l)%nat /\
    profilePool r' = profilePool r /\ profileIndex r' = profileIndex r /\
    only_draws w w'.
Proof.
  induction l as [| i l IH]; intros r w Hl; cbn [forR length] in *.
  - exists r, w. split; [reflexivity |].
    split; [destruct (composing r); [reflexivity | discriminate] |].
    split; [lia |]. split; [reflexivity |]. split; [reflexivity | apply only_draws_refl].
  - destruct (composing r) as [| b rest] eqn:Ec; [discriminate |].
    destruct (strip_settles_run canvas b rest r w Ec) as (r1 & w1 & E1 & C1 & F1 & P1 & I1 & D1).
    destruct (IH r1 w1) as (r2 & w2 & E2 & C2 & F2 & P2 & I2 & D2).
    { rewrite C1. cbn [length] in Hl. lia. }
    exists r2, w2. unfold bindR. rewrite E1. split; [exact E2 |].
    split; [exact C2 |]. split; [lia |]. split; [congruence |]. split; [congruence |].
    eapply only_draws_trans; eassumption.
Qed.

Lemma strips_settle_run (canvas : Canvas) (r : Rain.t) (w : World) :
  exists r' w',
    strips_settle canvas r w = (Normal tt, r', w') /\
    composing r' = [] /\
    length (fileStrips r') = (length (fileStrips r) + length (composing r))%nat /\
    profilePool r' = profilePool r /\ profileIndex r' = profileIndex r /\
    only_draws w w'.
Proof.
  unfold strips_settle, bindR, this_.
  destruct (strips_settle_loop canvas (seq 0 (length (composing r))) r w)
    as (r' & w' & E & H); [rewrite length_seq; reflexivity |].
  rewrite length_seq in H. exists r', w'. split; [exact E | exact H].
Qed.

Section Frames.

Variable compose : Profile.t -> string -> (nat -> Q) -> option Bitmap * nat.

Lemma file_frames_total (cfg : Config) (canvas : Canvas) (dts : list Q) :
  composes compose -> mode cfg <> "glyph"%string ->
  forall (r : Rain.t) (w : World),
  good cfg w -> rain_ok r ->
  Z.of_nat (length (fileStrips r)) <= target cfg ->
  runsR (forR dts (update compose canvas)) r w
    (fun _ r' w' =>
       length (fileStrips r') = length (fileStrips r) /\
       Z.of_nat (length (composing r'))
       = Z.of_nat (length (composing r))
         + Z.of_nat (length dts) * (target cfg - Z.of_nat (length (fileStrips r))) /\
       rain_ok r' /\ good cfg w').
Proof.
  intros HC Hmode. induction dts as [| dt dts IH]; intros r w G Hok Hn; cbn [forR length].
  - apply runsR_ret. split; [reflexivity |]. split; [lia |]. split; assumption.
  - eapply runsR_bind; [apply (file_update_total compose cfg); assumption |].
    intros _ r1 w1 (F1 & C1 & Hok1 & G1).
    eapply runsR_weaken; [apply IH; [assumption | assumption | rewrite F1; exact Hn] |].
    intros _ r2 w2 (F2 & C2 & Hok2 & G2). cbv beta in *.
    split; [congruence |]. split; [rewrite C2, C1, F1; lia |]. split; assumption.
Qed.

(** X16. In file mode [update] starts one composition for each strip that
    is missing, and it does not count the compositions that are already in
    flight: on a page whose draws are doubles in [0, 1), with a composer
    that does not fail, after the frames [dts] and once every composition
    has settled, a rain that had [n] strips, at most the target, and no
    composition in flight has [n + |dts| * (target - n)] strips. After one
    frame that is the target; after two or more frames it is more than the
    target whenever strips were missing. *)
Theorem file_strips_after_frames (cfg : Config) (canvas : Canvas) (dts : list Q)
    (r : Rain.t) (w : World) :
  composes compose -> good cfg w -> mode cfg <> "glyph"%string -> rain_ok r ->
  composing r = [] ->
  Z.of_nat (length (fileStrips r)) <= target cfg ->
  runsR (bindR (forR dts (update compose canvas)) (fun _ => strips_settle canvas)) r w
    (fun _ r' w' =>
       Z.of_nat (length (fileStrips r'))
       = Z.of_nat (length (fileStrips r))
         + Z.of_nat (length dts) * (target cfg - Z.of_nat (length (fileStrips r))) /\
       composing r' = [] /\ rain_ok r' /\ good cfg w').
Proof.
  intros HC G Hmode Hok Hc Hn.
  eapply runsR_bind; [apply (file_frames_total cfg); assumption |].
  intros _ r1 w1 (F1 & C1 & Hok1 & G1). cbv beta in *.
  destruct (strips_settle_run canvas r1 w1) as (r2 & w2 & E2 & C2 & F2 & P2 & I2 & D2).
  exists tt, r2, w2. split; [exact E2 |].
  rewrite Hc in C1. cbn [length] in C1.
  split; [rewrite F2, Nat2Z.inj_add, C1, F1; lia |]. split; [exact C2 |].
  split; [| eapply good_only_draws; eassumption].
  destruct Hok1 as [H1 H2]. split; [rewrite P2 | rewrite I2]; assumption.
Qed.

End Frames.

Lemma file_strips_after_frames_witness :
  let w := file_page 1 in
  composes compose0 /\ good (CONFIG w) w /\ mode (CONFIG w) <> "glyph"%string /\
  rain_ok Rain.initial /\ composing Rain.initial = [] /\
  Z.of_nat (length (fileStrips Rain.initial)) <= target (CONFIG w) /\
  runsR (bindR (forR [16 # 1000; 16 # 1000]%Q (update compose0 canvas0))
               (fun _ => strips_settle canvas0))
        Rain.initial w
    (fun _ r' _ => Z.of_nat (length (fileStrips r')) = 80 /\ composing r' = []).
Proof.
  intros w.
  assert (HC : composes compose0).
  { intros p style d. exists (mkBitmap 300 100). reflexivity. }
  assert (G : good (CONFIG w) w).
  { split; [| reflexivity]. intros k. split; [vm_compute; reflexivity |].
    split; vm_compute; [discriminate | reflexivity]. }
  assert (Hmode : mode (CONFIG w) <> "glyph"%string) by discriminate.
  assert (Hok : rain_ok Rain.initial) by (split; [constructor | cbn; lia]).
  assert (Hc : composing Rain.initial = []) by reflexivity.
  assert (Hn : Z.of_nat (length (fileStrips Rain.initial)) <= target (CONFIG w))
    by (vm_compute; discriminate).
  split; [exact HC |]. split; [exact G |]. split; [exact Hmode |]. split; [exact Hok |].
  split; [exact Hc |]. split; [exact Hn |].
  destruct (file_strips_after_frames compose0 (CONFIG w) canvas0 [16 # 1000; 16 # 1000]%Q
              Rain.initial w HC G Hmode Hok Hc Hn) as (u & r' & w' & E & Hl & Hc' & _).
  exists u, r', w'. split; [exact E |]. split; [| exact Hc'].
  rewrite Hl. vm_compute. reflexivity.
Defined.

End FileRainProps.
(** * Properties of a file strip *)

Module StripProps.
Import F64 F64Facts F64More.

Local Open Scope Q_scope.

Lemma Qle_bool_false (a b : Q) : Qle_bool a b = false -> b < a.
Proof.
  intros H. apply Qnot_le_lt. intros L. apply Qle_bool_iff in L. congruence.
Qed.

Lemma round_int (n : Z) : (Z.abs n < 2 ^ 53)%Z -> round (inject_Z n) == inject_Z n.
Proof. apply round_Z. Qed.

(** The jitter [(Math.random() - 0.5) * 12] is within six pixels. *)
Lemma jitter_within (u : Q) : 0 <= u -> u < 1 -> -6 <= mul (sub u (1 # 2)) 12 <= 6.
Proof.
  intros H0 H1. unfold mul, sub.
  assert (Hh : round (1 # 2) == 1 # 2).
  { change (1 # 2) with (inject_Z 1 * 2 ^ (-1)). apply round_dyadic; [reflexivity | lia]. }
  assert (Hn : round (- (1 # 2)) == - (1 # 2)) by (rewrite round_opp, Hh; reflexivity).
  assert (L : - (1 # 2) <= round (u - (1 # 2))).
  { apply Qle_trans with (round (- (1 # 2))); [rewrite Hn; lra | apply round_mono; lra]. }
  assert (U : round (u - (1 # 2)) <= 1 # 2).
  { apply Qle_trans with (round (1 # 2)); [apply round_mono; lra | rewrite Hh; lra]. }
  assert (R6 : round 6 == 6) by (apply (round_Z 6); reflexivity).
  assert (Rn6 : round (-6) == -6) by (apply (round_Z (-6)); reflexivity).
  split.
  - apply Qle_trans with (round (-6)); [rewrite Rn6; lra | apply round_mono; lra].
  - apply Qle_trans with (round 6); [apply round_mono; lra | rewrite R6; lra].
Qed.

(** X17. One step of a strip, [FileStrip.update(dt, H)], on a page whose
    draws are doubles in [0, 1), for a strip of height [h >= 0] on a canvas
    of height [H >= 0]: it returns normally with the bitmap, the size and the
    speed unchanged; the jitter timer is positive afterwards; the strip has
    either kept its [x] or moved it by a jitter of at most six pixels; and
    the test [y - h > H] fails of the new [y], that is, the top of the strip
    is not below the bottom edge. It consumes two draws when it jitters and
    none otherwise. *)
Theorem FileStrip_update_keeps (dt : Q) (H : Z) (s : FileStrip.t) (w : World) :
  unit_draws w -> (0 <= FileStrip.h s)%Z -> (0 <= H)%Z ->
  exists (s' : FileStrip.t) (w' : World),
    FileStrip.update dt H s w = (Normal s', w') /\
    FileStrip.bitmap s' = FileStrip.bitmap s /\ FileStrip.w s' = FileStrip.w s /\
    FileStrip.h s' = FileStrip.h s /\ FileStrip.speed s' = FileStrip.speed s /\
    0 < FileStrip._jitterTimer s' /\
    ((FileStrip.x s' = FileStrip.x s /\ w' = w) \/
     (exists j, -6 <= j <= 6 /\ FileStrip.x s' = add (FileStrip.x s) j /\
                2 <= FileStrip._jitterTimer s' /\
                w' = set_cursor (cursor w + 2)%nat w)) /\
    sub (FileStrip.y s') (inject_Z (FileStrip.h s)) <= inject_Z H.
Proof.
  intros U Hh HH.
  assert (Hy : forall y1 : Q,
             sub (if JS.gtb (sub y1 (inject_Z (FileStrip.h s))) (inject_Z H)
                  then - inject_Z (FileStrip.h s) else y1)
                 (inject_Z (FileStrip.h s)) <= inject_Z H).
  { intros y1. unfold JS.gtb.
    destruct (Qle_bool (sub y1 (inject_Z (FileStrip.h s))) (inject_Z H)) eqn:E; cbn [negb].
    - apply Qle_bool_iff. exact E.
    - unfold sub. apply Qle_trans with 0.
      + apply round_nonpos.
        assert (0 <= inject_Z (FileStrip.h s))
          by (change 0 with (inject_Z 0); rewrite <- Zle_Qle; exact Hh).
        lra.
      + change 0 with (inject_Z 0). rewrite <- Zle_Qle. exact HH. }
  unfold FileStrip.update, bind.
  destruct (Qle_bool (sub (FileStrip._jitterTimer s) dt) 0) eqn:Et.
  - unfold Math_random, ret. cbn [fst snd].
    destruct (U (cursor w)) as [_ [A0 A1]].
    assert (B0 : 0 <= draws (set_cursor (S (cursor w)) w)
                         (cursor (set_cursor (S (cursor w)) w))).
    { destruct (U (cursor (set_cursor (S (cursor w)) w))) as [_ [B0 _]]. exact B0. }
    set (u1 := draws w (cursor w)) in *.
    set (u2 := draws (set_cursor (S (cursor w)) w) (cursor (set_cursor (S (cursor w)) w))) in *.
    eexists; eexists. split; [reflexivity |].
    cbn [FileStrip.bitmap FileStrip.w FileStrip.h FileStrip.speed FileStrip._jitterTimer
         FileStrip.x FileStrip.y].
    do 4 (split; [reflexivity |]).
    assert (T2 : 2 <= add 2 (mul u2 2)).
    { unfold add. assert (R2 : round 2 == 2) by (apply (round_Z 2); reflexivity).
      assert (0 <= mul u2 2) by (apply mul_nonneg; lra).
      apply Qle_trans with (round 2); [rewrite R2; lra | apply round_mono; lra]. }
    split; [lra |]. split; [| apply Hy].
    right. exists (mul (sub u1 (1 # 2)) 12).
    split; [apply jitter_within; assumption |]. split; [reflexivity |].
    split; [exact T2 |].
    replace (cursor w + 2)%nat with (S (S (cursor w))) by lia. destruct w; reflexivity.
  - unfold ret. cbn [fst snd].
    eexists; eexists. split; [reflexivity |].
    cbn [FileStrip.bitmap FileStrip.w FileStrip.h FileStrip.speed FileStrip._jitterTimer
         FileStrip.x FileStrip.y].
    do 4 (split; [reflexivity |]).
    split; [apply Qle_bool_false; exact Et |]. split; [| apply Hy].
    left. split; reflexivity.
Qed.

Lemma FileStrip_update_keeps_witness :
  let s := FileStrip.new (mkBitmap 300 100) 300 100 20 390 100 in
  let w := RainSamples.file_page 1 in
  unit_draws w /\ (0 <= FileStrip.h s)%Z /\ (0 <= 300)%Z /\
  exists (s' : FileStrip.t) (w' : World),
    FileStrip.update (1 # 2) 300 s w = (Normal s', w') /\
    FileStrip.y s' == -100 /\ 2 <= FileStrip._jitterTimer s'.
Proof.
  intros s w.
  assert (U : unit_draws w).
  { intros k. split; [vm_compute; reflexivity |].
    split; vm_compute; [discriminate | reflexivity]. }
  assert (Hh : (0 <= FileStrip.h s)%Z) by (vm_compute; discriminate).
  assert (HH : (0 <= 300)%Z) by lia.
  split; [exact U |]. split; [exact Hh |]. split; [exact HH |].
  destruct (FileStrip_update_keeps (1 # 2) 300 s w U Hh HH)
    as (s' & w' & E & _ & _ & _ & _ & _ & [[_ Ew] | (j & _ & _ & T & _)] & _).
  - exfalso. vm_compute in E. inversion E as [[E1 E2]]. rewrite <- E2 in Ew.
    discriminate Ew.
  - exists s', w'. split; [exact E |]. split; [| exact T].
    vm_compute in E. inversion E. reflexivity.
Defined.

End StripProps.
(** * Properties of the ticker *)

Module TickerProps.
Import F64 F64Facts F64More Ticker.

Local Open Scope Q_scope.

Lemma lit_0_05_bounds : 0 < lit_0_05 /\ lit_0_05 <= 1 # 16.
Proof.
  unfold lit_0_05. split.
  - apply Qlt_le_trans with (round (1 # 32)).
    + assert (E : round (1 # 32) == 1 # 32).
      { change (1 # 32) with (inject_Z 1 * 2 ^ (-5)). apply round_dyadic; [reflexivity | lia]. }
      rewrite E. reflexivity.
    + apply round_mono. discriminate.
  - apply Qle_trans with (round (1 # 16)).
    + apply round_mono. discriminate.
    + assert (E : round (1 # 16) == 1 # 16).
      { change (1 # 16) with (inject_Z 1 * 2 ^ (-4)). apply round_dyadic; [reflexivity | lia]. }
      rewrite E. apply Qle_refl.
Qed.

Lemma lit_0_05_upper : lit_0_05 <= 5001 # 100000.
Proof. vm_compute. discriminate. Qed.

(** The time step of a frame is between zero and [0.05]. *)
Lemma dt_range (now last : Q) :
  last <= now ->
  0 <= Math_min lit_0_05 (div (sub now last) 1000) <= lit_0_05.
Proof.
  intros H. pose proof lit_0_05_bounds as [B0 _]. unfold Math_min.
  destruct (Qle_bool lit_0_05 (div (sub now last) 1000)) eqn:E.
  - split; [lra | apply Qle_refl].
  - apply StripProps.Qle_bool_false in E. split; [| lra].
    apply div_nonneg; [| reflexivity]. unfold sub. apply round_nonneg. lra.
Qed.

Section Composer.

Variable compose : Profile.t -> string -> (nat -> Q) -> option Bitmap * nat.
Variable canvas : Canvas.

(** One frame keeps the meter, however the frame ends. *)
Lemma tick_meter (n : Z) (now : Q) (showFps : bool) (s : Ticker.t) (w : World) :
  (n + 1 < 2 ^ 53)%Z -> meter_ok n s -> last s <= now ->
  forall out, tick compose canvas now showFps s w = out ->
  meter_ok (n + 1) (snd (fst out)) /\ last (snd (fst out)) = now.
Proof.
  intros Hn (k & Hk & Ec & A0 & A1 & Ak & Sh) Hl out E.
  pose proof (dt_range now (last s) Hl) as [D0 D1].
  pose proof lit_0_05_bounds as [B0 B1].
  assert (Keep : forall r, meter_ok (n + 1) (set_rain r (set_last now s))).
  { intros r. exists k. cbn [fpsCount fpsAcc set_rain set_last].
    split; [lia |]. split; [exact Ec |]. split; [exact A0 |]. split; [exact A1 |].
    split; [exact Ak | exact Sh]. }
  cbv beta iota delta [tick bindR this_ modifyR on_rain retR] in E.
  set (dt := Math_min lit_0_05 (div (sub now (last s)) 1000)) in *.
  cbn [rain set_last] in E.
  destruct (Rain.update compose canvas dt (rain s) w) as [[[u | e] r1] w1];
    [| subst out; cbn [fst snd]; split; [apply Keep | reflexivity]].
  cbn [rain set_rain] in E.
  destruct (Rain.draw r1 w1) as [[[u2 | e2] r2] w2];
    [| subst out; cbn [fst snd]; split; [apply (Keep r2) | reflexivity]].
  cbn [fpsAcc fpsCount set_fpsCount set_fpsAcc set_rain set_last rain last fpsText] in E.
  (* the new sum and the new count *)
  assert (C1 : add (fpsCount s) 1 == inject_Z (k + 1)).
  { unfold add.
    rewrite (round_comp (fpsCount s + 1) (inject_Z (k + 1)))
      by (rewrite Ec, inject_Z_plus; reflexivity).
    apply round_Z. lia. }
  assert (S0 : 0 <= add (fpsAcc s) dt) by (unfold add; apply round_nonneg; lra).
  assert (S1 : add (fpsAcc s) dt <= inject_Z (k + 1) * step_max).
  { unfold add.
    assert (Er : round (fpsAcc s + dt) <= fpsAcc s + dt + 2 ^ (-54))
      by (apply round_error_below_one; lra).
    rewrite inject_Z_plus. change (inject_Z 1) with 1. unfold step_max in *.
    change (2 ^ (-54)) with (1 # 18014398509481984) in *. lra. }
  destruct (Qle_bool (1 # 2) (add (fpsAcc s) dt)) eqn:Eh.
  - (* the meter fires and is reset *)
    apply Qle_bool_iff in Eh.
    assert (F : (20 <= Math_round (div (add (fpsCount s) 1) (add (fpsAcc s) dt)))%Z).
    { unfold Math_round, div.
      assert (R : 39 # 2 <= round (add (fpsCount s) 1 / add (fpsAcc s) dt)).
      { apply Qle_trans with (round (39 # 2)).
        - assert (E' : round (39 # 2) == 39 # 2).
          { change (39 # 2) with (inject_Z 39 * 2 ^ (-1)).
            apply round_dyadic; [reflexivity | lia]. }
          rewrite E'. apply Qle_refl.
        - apply round_mono. rewrite C1.
          set (a := add (fpsAcc s) dt) in *. set (c := inject_Z (k + 1)) in *.
          assert (Ha : 0 < a) by lra.
          apply Qle_shift_div_l; [exact Ha |].
          pose proof lit_0_05_upper as Up. unfold step_max in S1.
          change (2 ^ (-54)) with (1 # 18014398509481984) in S1.
          assert (Hc : 0 <= c).
          { unfold c. change 0 with (inject_Z 0). rewrite <- Zle_Qle. lia. }
          nra. }
      change 20%Z with (Qfloor (inject_Z 20)). apply Qfloor_resp_le.
      change (inject_Z 20) with 20. lra. }
    assert (Done : forall txt, (match txt with Some f => (20 <= f)%Z | None => True end) ->
              meter_ok (n + 1)
                (set_fpsCount 0 (set_fpsAcc 0
                   (mk r2 now (add (fpsAcc s) dt) (add (fpsCount s) 1) txt)))).
    { intros txt Ht. exists 0%Z. cbn [fpsCount fpsAcc set_fpsCount set_fpsAcc].
      split; [lia |]. split; [reflexivity |]. split; [apply Qle_refl |].
      split; [reflexivity |]. split; [discriminate |].
      unfold shows_20_or_more. cbn. exact Ht. }
    destruct showFps; subst out;
      cbn [fst snd set_fpsText fpsAcc fpsCount rain last fpsText];
      (split; [| reflexivity]).
    + apply (Done (Some _)). exact F.
    + apply (Done (fpsText s)). exact Sh.
  - apply StripProps.Qle_bool_false in Eh. subst out. cbn [fst snd].
    split; [| reflexivity].
    exists (k + 1)%Z. cbn [fpsCount fpsAcc].
    split; [lia |]. split; [exact C1 |].
    split; [exact S0 |]. split; [exact Eh |]. split; [exact S1 | exact Sh].
Qed.

Lemma meter_ok_weaken (n m : Z) (s : Ticker.t) : (n <= m)%Z -> meter_ok n s -> meter_ok m s.
Proof.
  intros H (k & Hk & R). exists k. split; [lia | exact R].
Qed.

Lemma frames_meter (l : list (Q * bool)) :
  forall (n : Z) (s : Ticker.t) (w : World),
  (n + Z.of_nat (length l) < 2 ^ 53)%Z -> meter_ok n s -> ascending (last s) l ->
  meter_ok (n + Z.of_nat (length l)) (snd (fst (frames compose canvas l s w))).
Proof.
  induction l as [| f l IH]; intros n s w Hn Hm Ha.
  - cbn. rewrite Z.add_0_r. exact Hm.
  - destruct Ha as [Ha1 Ha2]. cbn [length] in *.
    unfold frames. cbn [forR]. unfold bindR.
    destruct (tick_meter n (fst f) (snd f) s w ltac:(lia) Hm Ha1 _ eq_refl) as [M1 L1].
    destruct (tick compose canvas (fst f) (snd f) s w) as [[[u | e] s1] w1];
      cbn [fst snd] in M1, L1.
    + replace (n + Z.of_nat (S (length l)))%Z with (n + 1 + Z.of_nat (length l))%Z by lia.
      apply IH; [lia | exact M1 | rewrite L1; exact Ha2].
    + cbn [fst snd]. eapply meter_ok_weaken; [| exact M1]. lia.
Qed.

(** X18. The meter never shows less than 20 fps. [tick] caps the time step
    of a frame at 0.05 s before it adds it to [fpsAcc], so when the sum
    reaches half a second the quotient [fpsCount / fpsAcc], rounded, is at
    least 20, however slow the frames are: from [fpsAcc = 0] and
    [fpsCount = 0], after any frames whose readings of [performance.now()]
    do not go back, whether the animation still runs or an exception has
    ended it, a number that the meter has written is at least 20. *)
Theorem meter_never_below_20 (l : list (Q * bool)) (s : Ticker.t) (w : World) :
  fpsAcc s == 0 -> fpsCount s == 0 -> fpsText s = None ->
  ascending (last s) l -> (Z.of_nat (length l) < 2 ^ 53)%Z ->
  shows_20_or_more (snd (fst (frames compose canvas l s w))).
Proof.
  intros HA HC HT Ha Hl.
  assert (M : meter_ok 0 s).
  { exists 0%Z. split; [lia |]. split; [exact HC |].
    split; [rewrite HA; apply Qle_refl |]. split; [rewrite HA; reflexivity |].
    split; [rewrite HA; discriminate |]. unfold shows_20_or_more. rewrite HT. exact I. }
  destruct (frames_meter l 0 s w ltac:(lia) M Ha) as (k & _ & _ & _ & _ & _ & Sh).
  exact Sh.
Qed.

End Composer.

(** Twelve frames, one second apart: the meter shows 20 fps. *)
Lemma meter_never_below_20_witness :
  let s := Ticker.mk Rain.initial 0 0 0 None in
  let l := map (fun k => (inject_Z (Z.of_nat k * 1000), true)) (seq 1 12) in
  fpsAcc s == 0 /\ fpsCount s == 0 /\ fpsText s = None /\
  ascending (last s) l /\ (Z.of_nat (length l) < 2 ^ 53)%Z /\
  shows_20_or_more
    (snd (fst (frames RainSamples.compose0 RainSamples.canvas0 l s
                 (RainSamples.file_page 1)))) /\
  fpsText (snd (fst (frames RainSamples.compose0 RainSamples.canvas0 l s
                       (RainSamples.file_page 1)))) = Some 20%Z.
Proof.
  intros s l.
  assert (HA : fpsAcc s == 0) by reflexivity.
  assert (HC : fpsCount s == 0) by reflexivity.
  assert (HT : fpsText s = None) by reflexivity.
  assert (Ha : ascending (last s) l) by (cbn; repeat split; discriminate).
  assert (Hl : (Z.of_nat (length l) < 2 ^ 53)%Z) by reflexivity.
  split; [exact HA |]. split; [exact HC |]. split; [exact HT |]. split; [exact Ha |].
  split; [exact Hl |].
  split.
  - exact (meter_never_below_20 RainSamples.compose0 RainSamples.canvas0 l s
             (RainSamples.file_page 1) HA HC HT Ha Hl).
  - vm_compute. reflexivity.
Defined.

End TickerProps.
(** * Properties of the lines of a file strip *)

Module LinesProps.
Import Lines StringPainter StringPainterFacts KeyFreeFacts.

Local Open Scope string_scope.

Lemma chars_append (a b : string) : JS.chars (a +:+ b) = (JS.chars a ++ JS.chars b)%list.
Proof.
  induction a as [| c a IH]; [reflexivity |].
  change (c :: JS.chars (a +:+ b) = c :: (JS.chars a ++ JS.chars b)%list).
  rewrite IH. reflexivity.
Qed.

Lemma last_ok_append (a b : string) : last_ok b = true -> last_ok (a +:+ b) = true.
Proof.
  unfold last_ok. rewrite chars_append, rev_app_distr.
  destruct (rev (JS.chars b)) as [| d l]; [discriminate |]. intros H. exact H.
Qed.

Lemma first_ok_cons (c : ascii) (a b : string) :
  first_ok (String c a +:+ b) = negb (is_space c).
Proof. reflexivity. Qed.

Lemma numeral_not_space (c : ascii) : numeral_char c = true -> negb (is_space c) = true.
Proof.
  destruct c as [[] [] [] [] [] [] [] []]; intros H; try reflexivity; discriminate H.
Qed.

Lemma last_ok_numeral (n : Z) : last_ok (JS.Z_toString n) = true.
Proof.
  pose proof (numeral_Z_toString n) as H.
  pose proof (SupplierProps.Z_toString_nonempty n) as Hn.
  apply EncoderProps.all_chars_Forall in H. unfold last_ok.
  destruct (JS.Z_toString n) as [| c s] eqn:E; [contradiction |].
  apply Forall_rev in H.
  destruct (rev (JS.chars (String c s))) as [| d l] eqn:Er.
  - apply (f_equal (@length ascii)) in Er. rewrite length_rev in Er. discriminate Er.
  - apply Forall_inv in H. apply numeral_not_space, H.
Qed.

Ltac last_literal :=
  repeat match goal with
         | |- last_ok (_ +:+ (_ +:+ _)) = true => apply last_ok_append
         end.

(** The text of a profile neither begins nor ends with white space. *)
Lemma buildString_trimmed (p : Profile.t) (mode : string) (w : World) :
  exists s w', buildString p mode w = (Normal s, w') /\
               first_ok s = true /\ last_ok s = true.
Proof.
  unfold buildString.
  destruct (String.eqb mode "kv").
  { eexists; eexists. split; [reflexivity |]. split; [reflexivity |].
    last_literal.
    destruct (Profile.risk_score p) as [r |]; [| reflexivity].
    apply last_ok_append, last_ok_numeral. }
  destruct (String.eqb mode "code").
  { eexists; eexists. split; [reflexivity |]. split; [reflexivity |].
    last_literal. apply last_ok_append. reflexivity. }
  destruct (Profile.coords p); eexists; eexists;
    (split; [reflexivity |]; split; [reflexivity |];
     last_literal; apply last_ok_append; reflexivity).
Qed.

Lemma of_chars_nonempty (l : list ascii) : l <> [] -> JS.of_chars (rev l) <> "".
Proof.
  intros H E. apply (f_equal JS.chars) in E. rewrite EncoderProps.chars_of_chars in E.
  apply (f_equal (@length ascii)) in E. rewrite length_rev in E. cbn in E.
  destruct l; [contradiction | discriminate E].
Qed.

(** The pieces of a text that neither begins nor ends with white space. *)
Lemma split_go_nonempty (l : list ascii) :
  forall (cur : list ascii) (gap : bool),
  (l = [] -> cur <> []) ->
  (forall c r, l = c :: r -> cur = [] -> gap = false -> is_space c = false) ->
  (forall pre d, l = (pre ++ [d])%list -> is_space d = false) ->
  Forall (fun wd => wd <> "") (split_go l cur gap).
Proof.
  induction l as [| c r IH]; intros cur gap H1 H2 H3; cbn [split_go].
  - constructor; [| constructor]. apply of_chars_nonempty, H1. reflexivity.
  - assert (H3' : forall pre d, r = (pre ++ [d])%list -> is_space d = false).
    { intros pre d E. apply (H3 (c :: pre)). rewrite E. reflexivity. }
    destruct (is_space c) eqn:Ec.
    + assert (Hr : r <> []).
      { intros ->. specialize (H3 [] c eq_refl). congruence. }
      destruct gap.
      * apply IH; [intros E; contradiction | intros; discriminate | exact H3'].
      * assert (Hc : cur <> []).
        { intros ->. specialize (H2 c r eq_refl eq_refl eq_refl). congruence. }
        constructor; [apply of_chars_nonempty, Hc |].
        apply IH; [intros E; contradiction | intros; discriminate | exact H3'].
    + apply IH; [intros _; discriminate | intros; discriminate | exact H3'].
Qed.

Lemma split_spaces_nonempty (s : string) :
  first_ok s = true -> last_ok s = true ->
  Forall (fun wd => wd <> "") (split_spaces s) /\ split_spaces s <> [].
Proof.
  intros Hf Hl. split.
  - unfold split_spaces. apply split_go_nonempty.
    + intros E. destruct s; [discriminate Hf | discriminate E].
    + intros c r E _ _. destruct s as [| c0 s0]; [discriminate Hf |].
      cbn in E. injection E as -> _. cbn in Hf. apply negb_true_iff in Hf. exact Hf.
    + intros pre d E. unfold last_ok in Hl. rewrite E, rev_app_distr in Hl. cbn in Hl.
      apply negb_true_iff in Hl. exact Hl.
  - unfold split_spaces. generalize (@nil ascii) false.
    induction (JS.chars s) as [| c r IH]; intros cur gap; cbn [split_go]; [discriminate |].
    destruct (is_space c); [destruct gap; [apply IH | discriminate] | apply IH].
Qed.

Lemma join_snoc (g : list string) (wd : string) :
  g <> [] -> String.concat " " (g ++ [wd]) = String.concat " " g +:+ " " +:+ wd.
Proof.
  induction g as [| x g IH]; intros H; [contradiction |].
  destruct g as [| y g]; [reflexivity |].
  change (x +:+ " " +:+ String.concat " " ((y :: g) ++ [wd])
          = (x +:+ " " +:+ String.concat " " (y :: g)) +:+ " " +:+ wd).
  rewrite IH by discriminate. rewrite !append_assoc. reflexivity.
Qed.

Lemma join_truthy (g : list string) :
  g <> [] -> Forall (fun wd => wd <> "") g -> truthy (String.concat " " g) = true.
Proof.
  intros H F. destruct g as [| x g]; [contradiction |].
  apply Forall_inv in F. destruct x as [| c x]; [contradiction |].
  destruct g; reflexivity.
Qed.

Section Measure.

Variable measureText : Z -> string -> Q.

(** The loop keeps its state: every line pushed is a run of words, and a
    run of two words or more fits. *)
Lemma wrap_wrapped (maxWidth : Q) (fontSize : Z) (words : list string) :
  Forall (fun wd => wd <> "") words ->
  forall (gs : list (list string)) (g : list string) (lines : list Line) (current : string),
  wrapped measureText maxWidth fontSize gs g lines current ->
  exists gs' g',
    wrapped measureText maxWidth fontSize gs' g'
            (fst (wrap measureText maxWidth fontSize words current lines))
            (snd (wrap measureText maxWidth fontSize words current lines)) /\
    (concat gs' ++ g' = concat gs ++ g ++ words)%list.
Proof.
  induction words as [| wd rest IH]; intros Hw gs g lines current Inv.
  - exists gs, g. split; [exact Inv |]. rewrite app_nil_r. reflexivity.
  - pose proof (Forall_inv Hw) as Hwd. pose proof (Forall_inv_tail Hw) as Hrest.
    destruct Inv as (Ht & Hc & Hg & Hne & Hfit & Hwi).
    pose proof (Forall_inv Hne) as Hne_g. pose proof (Forall_inv_tail Hne) as Hne_gs.
    pose proof (Forall_inv Hfit) as Hfit_g. pose proof (Forall_inv_tail Hfit) as Hfit_gs.
    cbn [wrap].
    destruct (truthy current) eqn:Tc.
    + assert (Hgn : g <> []) by (intros ->; subst current; discriminate Tc).
      destruct (JS.gtb (F64.add (measureText fontSize (current +:+ " " +:+ wd)) 16) maxWidth)
        eqn:Eg; cbn [andb].
      * (* the line is pushed and the word starts the next one *)
        destruct (IH Hrest (gs ++ [g])%list [wd]
                    (lines ++ [mkLine current (measureText fontSize current)])%list wd)
          as (gs' & g' & Inv' & Ec).
        { split; [rewrite !map_app, Ht, Hc; reflexivity |].
          split; [reflexivity |].
          split; [apply Forall_app; split; [exact Hg | constructor; [exact Hgn | constructor]] |].
          split.
          { constructor; [constructor; [exact Hwd | constructor] |].
            apply Forall_app; split; [exact Hne_gs | constructor; [exact Hne_g | constructor]]. }
          split.
          { constructor; [intros L; cbn in L; lia |].
            apply Forall_app; split; [exact Hfit_gs | constructor; [exact Hfit_g | constructor]]. }
          apply Forall_app; split; [exact Hwi | constructor; [reflexivity | constructor]]. }
        exists gs', g'. split; [exact Inv' |].
        rewrite Ec, concat_app. cbn [concat]. rewrite app_nil_r, <- !app_assoc. reflexivity.
      * (* the word joins the line *)
        destruct (IH Hrest gs (g ++ [wd])%list lines (current +:+ " " +:+ wd))
          as (gs' & g' & Inv' & Ec).
        { split; [exact Ht |].
          split; [rewrite join_snoc by exact Hgn; rewrite Hc; reflexivity |].
          split; [exact Hg |].
          split.
          { constructor; [| exact Hne_gs].
            apply Forall_app; split; [exact Hne_g | constructor; [exact Hwd | constructor]]. }
          split; [| exact Hwi].
          constructor; [| exact Hfit_gs].
          intros _. rewrite join_snoc by exact Hgn. rewrite <- Hc.
          unfold JS.gtb in Eg. apply negb_false_iff in Eg. apply Qle_bool_iff. exact Eg. }
        exists gs', g'. split; [exact Inv' |].
        rewrite Ec, <- !app_assoc. reflexivity.
    + (* no line is open: the word opens one *)
      assert (Hgn : g = []).
      { destruct g as [| x g]; [reflexivity |].
        rewrite Hc, join_truthy in Tc; [discriminate Tc | discriminate | exact Hne_g]. }
      subst g. rewrite andb_false_r.
      destruct (IH Hrest gs [wd] lines wd) as (gs' & g' & Inv' & Ec).
      { split; [exact Ht |]. split; [reflexivity |]. split; [exact Hg |].
        split; [constructor; [constructor; [exact Hwd | constructor] | exact Hne_gs] |].
        split; [| exact Hwi].
        constructor; [intros L; cbn in L; lia | exact Hfit_gs]. }
      exists gs', g'. split; [exact Inv' |]. rewrite Ec. reflexivity.
Qed.

(** X19. [buildLines] loses no word: for every profile, style, width and
    font size it returns normally, with at least one line; the lines are
    runs of consecutive words of the text, in their order, joined by one
    space, and together they hold every word (the pieces of the text between
    the runs of white space, none of them empty); no line is empty and each
    carries its measured width; and a line of two words or more, with the
    margin of sixteen pixels, is not wider than [maxWidth]. *)
Theorem buildLines_wraps (p : Profile.t) (style : string) (maxWidth : Q) (fontSize : Z)
    (w : World) :
  exists (s : string) (lines : list Line) (w' : World),
    StringPainter.build p style (snd (StringPainter.new p style w)) = (Normal s, w') /\
    buildLines measureText p style maxWidth fontSize w = (Normal lines, w') /\
    lines <> [] /\
    Forall (fun l => text l <> "" /\ width l = measureText fontSize (text l)) lines /\
    exists groups : list (list string),
      concat groups = split_spaces s /\
      map text lines = map (String.concat " ") groups /\
      Forall (fun g => g <> [] /\ Forall (fun wd => wd <> "") g /\
                       fits measureText maxWidth fontSize g) groups.
Proof.
  destruct (new_total p style w) as (s0 & w1 & _ & _ & En).
  destruct (buildString_trimmed p style w1) as (s & w' & Es & Hf & Hl).
  destruct (split_spaces_nonempty s Hf Hl) as [Hw Hnil].
  destruct (wrap_wrapped maxWidth fontSize (split_spaces s) Hw [] [] [] "")
    as (gs & g & (Ht & Hc & Hg & Hne & Hfit & Hwi) & Ec).
  { split; [reflexivity |]. split; [reflexivity |]. split; [constructor |].
    split; [constructor; constructor |]. split; [| constructor].
    constructor; [intros L; cbn in L; lia | constructor]. }
  cbn [concat app] in Ec.
  pose proof (Forall_inv Hne) as Hne_g. pose proof (Forall_inv_tail Hne) as Hne_gs.
  pose proof (Forall_inv Hfit) as Hfit_g. pose proof (Forall_inv_tail Hfit) as Hfit_gs.
  assert (Eb : buildLines measureText p style maxWidth fontSize w
               = (Normal (let '(lines, current) :=
                            wrap measureText maxWidth fontSize (split_spaces s) "" [] in
                          if truthy current
                          then (lines ++ [mkLine current (measureText fontSize current)])%list
                          else lines), w')).
  { unfold buildLines, bind. rewrite En. unfold build. rewrite Es.
    destruct (wrap measureText maxWidth fontSize (split_spaces s) "" []). reflexivity. }
  destruct (wrap measureText maxWidth fontSize (split_spaces s) "" []) as [lines current].
  cbn [fst snd] in *.
  (* the groups of the result *)
  set (result := if truthy current
                 then (lines ++ [mkLine current (measureText fontSize current)])%list
                 else lines) in *.
  assert (G : exists groups,
             concat groups = split_spaces s /\
             map text result = map (String.concat " ") groups /\
             Forall (fun g0 => g0 <> [] /\ Forall (fun wd => wd <> "") g0 /\
                               fits measureText maxWidth fontSize g0) groups /\
             Forall (fun l => width l = measureText fontSize (text l)) result).
  { unfold result. destruct (truthy current) eqn:Tc.
    - assert (Hgn : g <> []) by (intros ->; subst current; discriminate Tc).
      exists (gs ++ [g])%list.
      split; [rewrite concat_app; cbn [concat]; rewrite app_nil_r; exact Ec |].
      split; [rewrite !map_app, Ht, Hc; reflexivity |].
      split.
      + apply Forall_app. split.
        * apply Forall_forall. intros g0 Hin.
          split; [exact (proj1 (Forall_forall _ _) Hg g0 Hin) |].
          split; [exact (proj1 (Forall_forall _ _) Hne_gs g0 Hin) |].
          exact (proj1 (Forall_forall _ _) Hfit_gs g0 Hin).
        * constructor; [| constructor]. split; [exact Hgn |]. split; assumption.
      + apply Forall_app. split; [exact Hwi | constructor; [reflexivity | constructor]].
    - assert (Hgn : g = []).
      { destruct g as [| x g]; [reflexivity |].
        rewrite Hc, join_truthy in Tc; [discriminate Tc | discriminate | exact Hne_g]. }
      subst g. exists gs.
      split; [rewrite app_nil_r in Ec; exact Ec |]. split; [exact Ht |].
      split; [| exact Hwi].
      apply Forall_forall. intros g0 Hin.
      split; [exact (proj1 (Forall_forall _ _) Hg g0 Hin) |].
      split; [exact (proj1 (Forall_forall _ _) Hne_gs g0 Hin) |].
      exact (proj1 (Forall_forall _ _) Hfit_gs g0 Hin). }
  destruct G as (groups & Gc & Gt & Gf & Gw).
  exists s, result, w'.
  assert (Ew : snd (new p style w) = w1) by (rewrite En; reflexivity).
  rewrite Ew. split; [exact Es |]. split; [exact Eb |].
  split.
  { intros E. rewrite E in Gt. cbn in Gt. destruct groups; [| discriminate Gt].
    cbn in Gc. symmetry in Gc. contradiction. }
  split; [| exists groups; split; [exact Gc | split; [exact Gt | exact Gf]]].
  apply List.Forall_forall. intros l Hin.
  split; [| exact (proj1 (List.Forall_forall _ _) Gw l Hin)].
  assert (Hm : In (text l) (map (String.concat " ") groups)).
  { rewrite <- Gt. apply in_map, Hin. }
  apply in_map_iff in Hm. destruct Hm as (g0 & Eg & Hg0).
  destruct (proj1 (List.Forall_forall _ _) Gf g0 Hg0) as (Hn0 & Hw0 & _).
  intros E. pose proof (join_truthy g0 Hn0 Hw0) as T. rewrite Eg, E in T. discriminate T.
Qed.

End Measure.

End LinesProps.
